(** * Two Rooms and a Boom: the authoritative game core

    A shallow embedding of the server's game core (GameState, StateMachine,
    EventBus, GameStore, ValidationEngine, RoundEngine, GameController) and
    the properties of it that the specification states.

    Conventions of the embedding.
    - A JavaScript number is a [Z]; a value that may be [undefined] or [NaN]
      (an array read out of range and what is computed from it) is an
      [option Z].
    - [string | null] is an [option string]; the truthiness test the source
      applies to such values is [truthy].
    - A JS [Map] and an object used as a dictionary keep insertion order and
      are association lists ([JsMap]); the maps of the singletons (event bus,
      game store, timer manager), whose order is never observed, are [gmap]s.
    - Mutation of a shared object is state passing: an operation takes the
      state it mutates and returns the new one.
    - [Date.now()] is the argument [now]; identifiers drawn from [uuidv4()]
      are arguments; [Math.random()] and [crypto.randomBytes] are the two
      fields of [Entropy]. *)

From stdpp Require Import gmap strings list.
From Stdlib Require Import ZArith Lia.

Local Open Scope string_scope.
Local Open Scope list_scope.
Local Open Scope Z_scope.

(* ===================================================================== *)
(** ** JavaScript values *)
(* ===================================================================== *)

Module Js.

(** Truthiness of a [string | null | undefined]: the empty string, [null]
    and [undefined] are falsy. *)
Definition truthy (o : option string) : bool :=
  match o with
  | Some s => negb (String.eqb s EmptyString)
  | None => false
  end.

(** [a === b] on [string | null]. *)
Definition opt_eqb (a b : option string) : bool :=
  match a, b with
  | Some x, Some y => String.eqb x y
  | None, None => true
  | _, _ => false
  end.

(** [arr.includes(x)] on an array of strings. *)
Definition includes (x : string) (arr : list string) : bool :=
  existsb (String.eqb x) arr.

(** [arr.filter((id) => id !== x)]. *)
Definition without (x : string) (arr : list string) : list string :=
  List.filter (fun y => negb (String.eqb y x)) arr.

(** [arr.length] as a JS number. *)
Definition len {A} (arr : list A) : Z := Z.of_nat (length arr).

(** [arr[i]] for a JS number [i]: [None] is [undefined]. *)
Definition index {A} (arr : list A) (i : Z) : option A :=
  if i <? 0 then None else nth_error arr (Z.to_nat i).

(** An insertion-ordered dictionary with string keys: a [Map<string, V>]
    or an object whose keys are not integer-like (player ids are UUIDs). *)
Definition JsMap (V : Type) : Type := list (string * V).

Section JsMap.
Context {V : Type}.

Fixpoint get (k : string) (m : JsMap V) : option V :=
  match m with
  | [] => None
  | (k', v) :: rest => if String.eqb k k' then Some v else get k rest
  end.

(** [m.set(k, v)] / [obj[k] = v]: an existing key keeps its position. *)
Fixpoint set (k : string) (v : V) (m : JsMap V) : JsMap V :=
  match m with
  | [] => [(k, v)]
  | (k', v') :: rest =>
      if String.eqb k k' then (k', v) :: rest else (k', v') :: set k v rest
  end.

(** [m.delete(k)]. *)
Definition delete (k : string) (m : JsMap V) : JsMap V :=
  List.filter (fun kv => negb (String.eqb (fst kv) k)) m.

(** Mutation, through the reference [m.get(k)] returns, of the object
    stored under [k]; nothing happens when the key is absent. *)
Fixpoint update (k : string) (f : V -> V) (m : JsMap V) : JsMap V :=
  match m with
  | [] => []
  | (k', v) :: rest =>
      if String.eqb k k' then (k', f v) :: rest else (k', v) :: update k f rest
  end.

Definition size (m : JsMap V) : Z := len m.
Definition keys (m : JsMap V) : list string := map fst m.
Definition values (m : JsMap V) : list V := map snd m.
End JsMap.

End Js.

(* ===================================================================== *)
(** ** Shared types (shared/src/types.ts) *)
(* ===================================================================== *)

Inductive GameStatus :=
| LOBBY | LOCKED | ROLE_SELECTION | ROLE_DISTRIBUTION | ROOM_ASSIGNMENT
| ROUND_1 | ROUND_2 | ROUND_3 | ROUND_4 | ROUND_5
| RESOLUTION | FINISHED.

Inductive RoomId := ROOM_A | ROOM_B.

Inductive TeamColor := BLUE | RED | GREY | GREEN | PURPLE | BLACK | PINK.

Inductive CharacterClass := PRIMARY | BACKUP | REGULAR.

Definition CharacterId := string.

Inductive TimerRunState := RUNNING | PAUSED | STOPPED.

Definition GameStatus_eqb (a b : GameStatus) : bool :=
  match a, b with
  | LOBBY, LOBBY | LOCKED, LOCKED | ROLE_SELECTION, ROLE_SELECTION
  | ROLE_DISTRIBUTION, ROLE_DISTRIBUTION | ROOM_ASSIGNMENT, ROOM_ASSIGNMENT
  | ROUND_1, ROUND_1 | ROUND_2, ROUND_2 | ROUND_3, ROUND_3
  | ROUND_4, ROUND_4 | ROUND_5, ROUND_5
  | RESOLUTION, RESOLUTION | FINISHED, FINISHED => true
  | _, _ => false
  end.

Definition RoomId_eqb (a b : RoomId) : bool :=
  match a, b with
  | ROOM_A, ROOM_A | ROOM_B, ROOM_B => true
  | _, _ => false
  end.

Definition otherRoom (r : RoomId) : RoomId :=
  match r with ROOM_A => ROOM_B | ROOM_B => ROOM_A end.

(** [a === b] on [RoomId | null]. *)
Definition optRoom_eqb (a b : option RoomId) : bool :=
  match a, b with
  | Some x, Some y => RoomId_eqb x y
  | None, None => true
  | _, _ => false
  end.

(** The part of a [CharacterDefinition] the core reads (abilities and win
    conditions are data for the ability engine). *)
Record CharacterDefinition := {
  char_id : CharacterId;
  char_name : string;
  char_team : TeamColor;
  char_class : CharacterClass;
  requires : option (list CharacterId);
  mutuallyExclusive : option (list CharacterId)
}.

Record GameConfig := {
  cfg_totalRounds : Z;
  roundDurations : list Z;
  enableAdvancedCharacters : bool;
  enableConditions : bool;
  buryCard : bool;
  selectedRoles : list CharacterId
}.

Record TimerState := {
  ts_duration : option Z;
  ts_remaining : option Z;
  ts_state : TimerRunState
}.

Record RoomState := {
  roomId : RoomId;
  players : list string;
  leaderId : option string;
  leaderVotes : Js.JsMap string;
  leaderVotingActive : bool;
  leaderVotingTieCount : Z;
  hostageCandidates : list string;
  hostagesLocked : bool;
  parlayComplete : bool
}.

Inductive ValidationSeverity := SEV_ERROR | SEV_WARNING | SEV_INFO.

(** A [ValidationError] by its [code] and [severity]; the human-readable
    [message] and [suggestion] are left out. *)
Record ValidationError := {
  code : string;
  severity : ValidationSeverity
}.

Record ValidationResult := {
  valid : bool;
  errors : list ValidationError;
  warnings : option (list ValidationError)
}.

(** What a failed command reports: the [error] message of a [Result], with
    the numbers and lists the message or its [context] carries. [Thrown] is
    an exception that escapes the command. *)
Inductive Failure :=
| GameNotFound
| PlayerNotFound
| OnlyHostCanSelectRoles
| OnlyHostCanConfirmRoles
| OnlyHostCanStartGame
| RolesRejected (errs : list ValidationError) (warns : option (list ValidationError))
| OnlyLeaderCanSelectHostages
| OnlyLeaderCanLockHostages
| HostagesAlreadyLocked
| HostageLimitReached
| MustSelectExactly (hostageCount : Z)
| LeaderAlreadyExists
| CandidateNotInRoom
| VoterNotInRoom
| PlayerNotInRoom
| NoLeaderToReplace
| VotingAlreadyInProgress
| NotTheLeader
| NewLeaderNotInRoom
| TieDetected (tieCount : Z) (candidates : list string)
| InvalidTransition
| GuardNotMet
| Thrown.

(** [Result<void>]: [{ success: true }] or [{ success: false, error, context }]. *)
Inductive Result :=
| Success
| Failed (why : Failure).

Definition success (r : Result) : bool :=
  match r with Success => true | Failed _ => false end.

(* ===================================================================== *)
(** ** Core game state (server/src/core/GameState.ts) *)
(* ===================================================================== *)

(** Server-side player. The connection fields ([connectionStatus],
    [connectionId], [lastSeen], [lastSeenVersion]) and the collected data
    ([conditions], [collectedCards], [knownInformation]) are written by
    [createPlayer] only and read by no operation of the core; they are left
    out. *)
Record Player := {
  id : string;
  name : string;
  isHost : bool;
  currentRole : option CharacterId;
  originalRole : option CharacterId;
  currentRoom : option RoomId;
  isLeader : bool;
  canBeHostage : bool;
  alive : bool;
  wasSentAsHostage : bool;
  usurpedLeadersCount : Z
}.

Record Leaders := {
  leader_A : option string;
  leader_B : option string
}.

Record PublicState := {
  pub_gameId : string;
  pub_code : string;
  status : GameStatus;
  currentRound : Z;
  pub_totalRounds : Z;
  roomAssignments : Js.JsMap RoomId;
  leaders : Leaders;
  timer : TimerState;
  paused : bool;
  pauseReason : option string;
  parlayActive : bool
}.

Record PrivateState := {
  roleAssignments : Js.JsMap (option CharacterId);
  deckConfiguration : list CharacterId;
  buriedCard : option CharacterId;
  hostId : string;
  secretSeed : string;
  usurpations : list (Z * list string)
}.

Record Rooms := {
  roomA : RoomState;
  roomB : RoomState
}.

Record GameState := {
  public : PublicState;
  rooms : Rooms;
  private : PrivateState
}.

(** [EventScope = 'PUBLIC' | RoomId | { playerId }]. *)
Inductive EventScope :=
| PUBLIC
| ROOM (r : RoomId)
| PLAYER (playerId : string).

Inductive ServerEventType :=
| GAME_CREATED | PLAYER_JOINED | PLAYER_LEFT | ROOM_LOCKED
| ROLES_SELECTED | ROLE_ASSIGNED
| ROUND_STARTED | ROUND_ENDED | TIMER_UPDATE
| LEADER_ELECTED | LEADER_USURPED | LEADER_ABDICATED | VOTE_CAST
| HOSTAGE_SELECTED | HOSTAGES_LOCKED
| PARLAY_STARTED | PARLAY_ENDED | HOSTAGES_EXCHANGED
| GAME_PAUSED | GAME_RESUMED.

Inductive ElectionMethod := MAJORITY_VOTE | RANDOM_SELECTION.

(** The payload objects the core builds, one constructor per shape. *)
Inductive Payload :=
| PlayerLeftP (playerId playerName : string) (playerCount : Z)
| RolesSelectedP (roleCount : Z) (hasWarnings : bool)
| RoleAssignedP (characterId : option CharacterId)
                (characterName : option string) (team : option TeamColor)
| RoundStartedP (round : Z) (duration : option Z)
| RoundEndedP (round : Z) (reason : string)
| TimerUpdateP (remaining : option Z) (state : TimerRunState)
| VoteCastP (room : RoomId) (totalVotes totalPlayers : Z)
| UsurpVoteCastP (room : RoomId) (totalVotes votesNeeded : Z)
| LeaderElectedP (room : RoomId) (leader : option string)
                 (method : ElectionMethod) (tied : bool)
| LeaderTieP (room : RoomId) (tieCount : Z) (candidates : list string)
| VotingStartedP (room : RoomId) (totalPlayers : Z)
| LeaderUsurpedP (room : RoomId) (oldLeader : option string)
                 (newLeader : string) (round : Z)
| LeaderAbdicatedP (room : RoomId) (oldLeader newLeader : string)
| HostageSelectedP (room : RoomId) (count required : Z) (deselected : bool)
| HostagesLockedP (room : RoomId)
| ParlayStartedP (leaderA leaderB : option string)
| ParlayEndedP
| HostagesExchangedP (fromA fromB : list string)
| GamePausedP (reason : string)
| GameResumedP (reason : option string).

(** A journal entry. [eventId] (a fresh UUID) and [timestamp] (the wall
    clock) are left out: nothing in the core reads them. *)
Record GameEvent := {
  sequenceNumber : Z;
  ev_type : ServerEventType;
  scope : EventScope;
  payload : Payload
}.

Record Game := {
  game_id : string;
  game_code : string;
  createdAt : Z;
  updatedAt : Z;
  version : Z;
  config : GameConfig;
  game_players : Js.JsMap Player;
  state : GameState;
  events : list GameEvent
}.

(** *** Field updates *)

Definition set_isHost (b : bool) (p : Player) : Player :=
  {| id := id p; name := name p; isHost := b;
     currentRole := currentRole p; originalRole := originalRole p;
     currentRoom := currentRoom p; isLeader := isLeader p;
     canBeHostage := canBeHostage p; alive := alive p;
     wasSentAsHostage := wasSentAsHostage p;
     usurpedLeadersCount := usurpedLeadersCount p |}.

Definition set_role (r : option CharacterId) (p : Player) : Player :=
  {| id := id p; name := name p; isHost := isHost p;
     currentRole := r; originalRole := r;
     currentRoom := currentRoom p; isLeader := isLeader p;
     canBeHostage := canBeHostage p; alive := alive p;
     wasSentAsHostage := wasSentAsHostage p;
     usurpedLeadersCount := usurpedLeadersCount p |}.

Definition set_currentRoom (r : option RoomId) (p : Player) : Player :=
  {| id := id p; name := name p; isHost := isHost p;
     currentRole := currentRole p; originalRole := originalRole p;
     currentRoom := r; isLeader := isLeader p;
     canBeHostage := canBeHostage p; alive := alive p;
     wasSentAsHostage := wasSentAsHostage p;
     usurpedLeadersCount := usurpedLeadersCount p |}.

(** [p.isLeader = l; p.canBeHostage = h]. *)
Definition set_leadership (l h : bool) (p : Player) : Player :=
  {| id := id p; name := name p; isHost := isHost p;
     currentRole := currentRole p; originalRole := originalRole p;
     currentRoom := currentRoom p; isLeader := l;
     canBeHostage := h; alive := alive p;
     wasSentAsHostage := wasSentAsHostage p;
     usurpedLeadersCount := usurpedLeadersCount p |}.

(** [p.currentRoom = r; p.wasSentAsHostage = true]. *)
Definition send_as_hostage (r : RoomId) (p : Player) : Player :=
  {| id := id p; name := name p; isHost := isHost p;
     currentRole := currentRole p; originalRole := originalRole p;
     currentRoom := Some r; isLeader := isLeader p;
     canBeHostage := canBeHostage p; alive := alive p;
     wasSentAsHostage := true;
     usurpedLeadersCount := usurpedLeadersCount p |}.

Definition incr_usurped (p : Player) : Player :=
  {| id := id p; name := name p; isHost := isHost p;
     currentRole := currentRole p; originalRole := originalRole p;
     currentRoom := currentRoom p; isLeader := isLeader p;
     canBeHostage := canBeHostage p; alive := alive p;
     wasSentAsHostage := wasSentAsHostage p;
     usurpedLeadersCount := usurpedLeadersCount p + 1 |}.

Definition set_room_players (l : list string) (r : RoomState) : RoomState :=
  {| roomId := roomId r; players := l; leaderId := leaderId r;
     leaderVotes := leaderVotes r; leaderVotingActive := leaderVotingActive r;
     leaderVotingTieCount := leaderVotingTieCount r;
     hostageCandidates := hostageCandidates r;
     hostagesLocked := hostagesLocked r; parlayComplete := parlayComplete r |}.

Definition set_leaderId (l : option string) (r : RoomState) : RoomState :=
  {| roomId := roomId r; players := players r; leaderId := l;
     leaderVotes := leaderVotes r; leaderVotingActive := leaderVotingActive r;
     leaderVotingTieCount := leaderVotingTieCount r;
     hostageCandidates := hostageCandidates r;
     hostagesLocked := hostagesLocked r; parlayComplete := parlayComplete r |}.

Definition set_leaderVotes (v : Js.JsMap string) (r : RoomState) : RoomState :=
  {| roomId := roomId r; players := players r; leaderId := leaderId r;
     leaderVotes := v; leaderVotingActive := leaderVotingActive r;
     leaderVotingTieCount := leaderVotingTieCount r;
     hostageCandidates := hostageCandidates r;
     hostagesLocked := hostagesLocked r; parlayComplete := parlayComplete r |}.

Definition set_leaderVotingActive (b : bool) (r : RoomState) : RoomState :=
  {| roomId := roomId r; players := players r; leaderId := leaderId r;
     leaderVotes := leaderVotes r; leaderVotingActive := b;
     leaderVotingTieCount := leaderVotingTieCount r;
     hostageCandidates := hostageCandidates r;
     hostagesLocked := hostagesLocked r; parlayComplete := parlayComplete r |}.

Definition set_leaderVotingTieCount (n : Z) (r : RoomState) : RoomState :=
  {| roomId := roomId r; players := players r; leaderId := leaderId r;
     leaderVotes := leaderVotes r; leaderVotingActive := leaderVotingActive r;
     leaderVotingTieCount := n;
     hostageCandidates := hostageCandidates r;
     hostagesLocked := hostagesLocked r; parlayComplete := parlayComplete r |}.

Definition set_hostageCandidates (l : list string) (r : RoomState) : RoomState :=
  {| roomId := roomId r; players := players r; leaderId := leaderId r;
     leaderVotes := leaderVotes r; leaderVotingActive := leaderVotingActive r;
     leaderVotingTieCount := leaderVotingTieCount r;
     hostageCandidates := l;
     hostagesLocked := hostagesLocked r; parlayComplete := parlayComplete r |}.

Definition set_hostagesLocked (b : bool) (r : RoomState) : RoomState :=
  {| roomId := roomId r; players := players r; leaderId := leaderId r;
     leaderVotes := leaderVotes r; leaderVotingActive := leaderVotingActive r;
     leaderVotingTieCount := leaderVotingTieCount r;
     hostageCandidates := hostageCandidates r;
     hostagesLocked := b; parlayComplete := parlayComplete r |}.

Definition set_status (s : GameStatus) (p : PublicState) : PublicState :=
  {| pub_gameId := pub_gameId p; pub_code := pub_code p; status := s;
     currentRound := currentRound p; pub_totalRounds := pub_totalRounds p;
     roomAssignments := roomAssignments p; leaders := leaders p;
     timer := timer p; paused := paused p; pauseReason := pauseReason p;
     parlayActive := parlayActive p |}.

Definition set_currentRound (n : Z) (p : PublicState) : PublicState :=
  {| pub_gameId := pub_gameId p; pub_code := pub_code p; status := status p;
     currentRound := n; pub_totalRounds := pub_totalRounds p;
     roomAssignments := roomAssignments p; leaders := leaders p;
     timer := timer p; paused := paused p; pauseReason := pauseReason p;
     parlayActive := parlayActive p |}.

Definition set_roomAssignments (m : Js.JsMap RoomId) (p : PublicState) : PublicState :=
  {| pub_gameId := pub_gameId p; pub_code := pub_code p; status := status p;
     currentRound := currentRound p; pub_totalRounds := pub_totalRounds p;
     roomAssignments := m; leaders := leaders p;
     timer := timer p; paused := paused p; pauseReason := pauseReason p;
     parlayActive := parlayActive p |}.

(** [public.leaders[r] = l]. *)
Definition set_leader (r : RoomId) (l : option string) (p : PublicState) : PublicState :=
  {| pub_gameId := pub_gameId p; pub_code := pub_code p; status := status p;
     currentRound := currentRound p; pub_totalRounds := pub_totalRounds p;
     roomAssignments := roomAssignments p;
     leaders := match r with
                | ROOM_A => {| leader_A := l; leader_B := leader_B (leaders p) |}
                | ROOM_B => {| leader_A := leader_A (leaders p); leader_B := l |}
                end;
     timer := timer p; paused := paused p; pauseReason := pauseReason p;
     parlayActive := parlayActive p |}.

Definition set_timer (t : TimerState) (p : PublicState) : PublicState :=
  {| pub_gameId := pub_gameId p; pub_code := pub_code p; status := status p;
     currentRound := currentRound p; pub_totalRounds := pub_totalRounds p;
     roomAssignments := roomAssignments p; leaders := leaders p;
     timer := t; paused := paused p; pauseReason := pauseReason p;
     parlayActive := parlayActive p |}.

(** [public.paused = b; public.pauseReason = why]. *)
Definition set_paused (b : bool) (why : option string) (p : PublicState) : PublicState :=
  {| pub_gameId := pub_gameId p; pub_code := pub_code p; status := status p;
     currentRound := currentRound p; pub_totalRounds := pub_totalRounds p;
     roomAssignments := roomAssignments p; leaders := leaders p;
     timer := timer p; paused := b; pauseReason := why;
     parlayActive := parlayActive p |}.

Definition set_parlayActive (b : bool) (p : PublicState) : PublicState :=
  {| pub_gameId := pub_gameId p; pub_code := pub_code p; status := status p;
     currentRound := currentRound p; pub_totalRounds := pub_totalRounds p;
     roomAssignments := roomAssignments p; leaders := leaders p;
     timer := timer p; paused := paused p; pauseReason := pauseReason p;
     parlayActive := b |}.

Definition set_roleAssignments (m : Js.JsMap (option CharacterId)) (p : PrivateState)
  : PrivateState :=
  {| roleAssignments := m; deckConfiguration := deckConfiguration p;
     buriedCard := buriedCard p; hostId := hostId p;
     secretSeed := secretSeed p; usurpations := usurpations p |}.

Definition set_buriedCard (c : option CharacterId) (p : PrivateState) : PrivateState :=
  {| roleAssignments := roleAssignments p; deckConfiguration := deckConfiguration p;
     buriedCard := c; hostId := hostId p;
     secretSeed := secretSeed p; usurpations := usurpations p |}.

Definition set_hostId (h : string) (p : PrivateState) : PrivateState :=
  {| roleAssignments := roleAssignments p; deckConfiguration := deckConfiguration p;
     buriedCard := buriedCard p; hostId := h;
     secretSeed := secretSeed p; usurpations := usurpations p |}.

Definition set_usurpations (u : list (Z * list string)) (p : PrivateState) : PrivateState :=
  {| roleAssignments := roleAssignments p; deckConfiguration := deckConfiguration p;
     buriedCard := buriedCard p; hostId := hostId p;
     secretSeed := secretSeed p; usurpations := u |}.

Definition set_selectedRoles (l : list CharacterId) (c : GameConfig) : GameConfig :=
  {| cfg_totalRounds := cfg_totalRounds c; roundDurations := roundDurations c;
     enableAdvancedCharacters := enableAdvancedCharacters c;
     enableConditions := enableConditions c; buryCard := buryCard c;
     selectedRoles := l |}.

(** *** Access paths into a game *)

Definition room (r : RoomId) (g : Game) : RoomState :=
  match r with
  | ROOM_A => roomA (rooms (state g))
  | ROOM_B => roomB (rooms (state g))
  end.

Definition with_state (s : GameState) (g : Game) : Game :=
  {| game_id := game_id g; game_code := game_code g; createdAt := createdAt g;
     updatedAt := updatedAt g; version := version g; config := config g;
     game_players := game_players g; state := s; events := events g |}.

Definition with_players (ps : Js.JsMap Player) (g : Game) : Game :=
  {| game_id := game_id g; game_code := game_code g; createdAt := createdAt g;
     updatedAt := updatedAt g; version := version g; config := config g;
     game_players := ps; state := state g; events := events g |}.

Definition with_config (c : GameConfig) (g : Game) : Game :=
  {| game_id := game_id g; game_code := game_code g; createdAt := createdAt g;
     updatedAt := updatedAt g; version := version g; config := c;
     game_players := game_players g; state := state g; events := events g |}.

Definition with_updatedAt (t : Z) (g : Game) : Game :=
  {| game_id := game_id g; game_code := game_code g; createdAt := createdAt g;
     updatedAt := t; version := version g; config := config g;
     game_players := game_players g; state := state g; events := events g |}.

(** [game.version++; game.updatedAt = now]. *)
Definition bump_version (now : Z) (g : Game) : Game :=
  {| game_id := game_id g; game_code := game_code g; createdAt := createdAt g;
     updatedAt := now; version := version g + 1; config := config g;
     game_players := game_players g; state := state g; events := events g |}.

Definition upd_public (f : PublicState -> PublicState) (g : Game) : Game :=
  with_state {| public := f (public (state g)); rooms := rooms (state g);
                private := private (state g) |} g.

Definition upd_private (f : PrivateState -> PrivateState) (g : Game) : Game :=
  with_state {| public := public (state g); rooms := rooms (state g);
                private := f (private (state g)) |} g.

Definition upd_room (r : RoomId) (f : RoomState -> RoomState) (g : Game) : Game :=
  with_state
    {| public := public (state g);
       rooms := match r with
                | ROOM_A => {| roomA := f (roomA (rooms (state g)));
                               roomB := roomB (rooms (state g)) |}
                | ROOM_B => {| roomA := roomA (rooms (state g));
                               roomB := f (roomB (rooms (state g))) |}
                end;
       private := private (state g) |} g.

Definition upd_players (f : Js.JsMap Player -> Js.JsMap Player) (g : Game) : Game :=
  with_players (f (game_players g)) g.

(** Mutation of the player object stored under [pid], if there is one. *)
Definition upd_player (pid : string) (f : Player -> Player) (g : Game) : Game :=
  upd_players (Js.update pid f) g.

(** *** Helper functions of GameState.ts *)

Definition createPlayer (pid nm : string) (host : bool) : Player :=
  {| id := pid; name := nm; isHost := host;
     currentRole := None; originalRole := None; currentRoom := None;
     isLeader := false; canBeHostage := true; alive := true;
     wasSentAsHostage := false; usurpedLeadersCount := 0 |}.

Definition emptyRoom (r : RoomId) : RoomState :=
  {| roomId := r; players := []; leaderId := None; leaderVotes := [];
     leaderVotingActive := false; leaderVotingTieCount := 0;
     hostageCandidates := []; hostagesLocked := false;
     parlayComplete := false |}.

(** [seed] is the value [generateSeed()] drew. *)
Definition createInitialGameState (gameId gcode host seed : string) : GameState :=
  {| public :=
       {| pub_gameId := gameId; pub_code := gcode; status := LOBBY;
          currentRound := 0; pub_totalRounds := 3; roomAssignments := [];
          leaders := {| leader_A := None; leader_B := None |};
          timer := {| ts_duration := Some 0; ts_remaining := Some 0;
                      ts_state := STOPPED |};
          paused := false; pauseReason := None; parlayActive := false |};
     rooms := {| roomA := emptyRoom ROOM_A; roomB := emptyRoom ROOM_B |};
     private :=
       {| roleAssignments := []; deckConfiguration := []; buriedCard := None;
          hostId := host; secretSeed := seed; usurpations := [] |} |}.

(** Hostage count by player count and round number (from the rulebook). *)
Definition calculateHostageCount (playerCount roundNumber : Z) : Z :=
  if (playerCount >=? 6) && (playerCount <=? 10) then 1
  else if (playerCount >=? 11) && (playerCount <=? 21) then
    (if roundNumber =? 1 then 2 else 1)
  else if playerCount >=? 22 then
    (if roundNumber =? 1 then 3
     else if roundNumber =? 2 then 2
     else 1)
  else 1.

(* ===================================================================== *)
(** ** State machine (server/src/core/StateMachine.ts) *)
(* ===================================================================== *)

Module StateMachine.

(** The triggers for which a transition is registered. *)
Inductive Trigger :=
| LOCK_ROOM | UNLOCK_ROOM | START_ROLE_SELECTION | CANCEL_ROLE_SELECTION
| CONFIRM_ROLES | ROLES_DISTRIBUTED | START_GAME | ROUND_COMPLETE
| INSTANT_WIN | WIN_CONDITIONS_RESOLVED.

Definition Trigger_eqb (a b : Trigger) : bool :=
  match a, b with
  | LOCK_ROOM, LOCK_ROOM | UNLOCK_ROOM, UNLOCK_ROOM
  | START_ROLE_SELECTION, START_ROLE_SELECTION
  | CANCEL_ROLE_SELECTION, CANCEL_ROLE_SELECTION
  | CONFIRM_ROLES, CONFIRM_ROLES | ROLES_DISTRIBUTED, ROLES_DISTRIBUTED
  | START_GAME, START_GAME | ROUND_COMPLETE, ROUND_COMPLETE
  | INSTANT_WIN, INSTANT_WIN
  | WIN_CONDITIONS_RESOLVED, WIN_CONDITIONS_RESOLVED => true
  | _, _ => false
  end.

(** No registered transition has an [action]; the field is left out. *)
Record StateTransition := {
  from : list GameStatus;
  to : GameStatus;
  trigger : Trigger;
  guard : option (Game -> bool)
}.

(** Both rooms must have completed the hostage exchange. *)
Definition hostagesExchanged (g : Game) : bool :=
  (Js.len (hostageCandidates (room ROOM_A g)) =? 0)
  && (Js.len (hostageCandidates (room ROOM_B g)) =? 0)
  && negb (hostagesLocked (room ROOM_A g))
  && negb (hostagesLocked (room ROOM_B g)).

Definition roundStates : list GameStatus :=
  [ROUND_1; ROUND_2; ROUND_3; ROUND_4; ROUND_5].

(** [addRoundTransitions]. *)
Definition roundTransitions : list StateTransition :=
  [ {| from := [ROUND_1]; to := ROUND_2; trigger := ROUND_COMPLETE;
       guard := Some hostagesExchanged |};
    {| from := [ROUND_2]; to := ROUND_3; trigger := ROUND_COMPLETE;
       guard := Some hostagesExchanged |};
    {| from := [ROUND_3]; to := RESOLUTION; trigger := ROUND_COMPLETE;
       guard := Some (fun g => (cfg_totalRounds (config g) =? 3)
                               && hostagesExchanged g) |};
    {| from := [ROUND_3]; to := ROUND_4; trigger := ROUND_COMPLETE;
       guard := Some (fun g => (cfg_totalRounds (config g) =? 5)
                               && hostagesExchanged g) |};
    {| from := [ROUND_4]; to := ROUND_5; trigger := ROUND_COMPLETE;
       guard := Some hostagesExchanged |};
    {| from := [ROUND_5]; to := RESOLUTION; trigger := ROUND_COMPLETE;
       guard := Some hostagesExchanged |} ].

(** [initializeTransitions], in registration order. *)
Definition transitions : list StateTransition :=
  [ {| from := [LOBBY]; to := LOCKED; trigger := LOCK_ROOM;
       guard := Some (fun g =>
                        let playerCount := Js.size (game_players g) in
                        (playerCount >=? 6) && (playerCount <=? 30)) |};
    {| from := [LOCKED]; to := LOBBY; trigger := UNLOCK_ROOM;
       guard := Some (fun g =>
                        Js.len (Js.keys (roleAssignments (private (state g))))
                        =? 0) |};
    {| from := [LOCKED]; to := ROLE_SELECTION;
       trigger := START_ROLE_SELECTION; guard := None |};
    {| from := [ROLE_SELECTION]; to := LOCKED;
       trigger := CANCEL_ROLE_SELECTION; guard := None |};
    {| from := [ROLE_SELECTION]; to := ROLE_DISTRIBUTION;
       trigger := CONFIRM_ROLES; guard := Some (fun _ => true) |};
    {| from := [ROLE_DISTRIBUTION]; to := ROOM_ASSIGNMENT;
       trigger := ROLES_DISTRIBUTED;
       guard := Some (fun g =>
                        Js.size (game_players g)
                        =? Js.len (Js.keys (roleAssignments (private (state g))))) |};
    {| from := [ROOM_ASSIGNMENT]; to := ROUND_1; trigger := START_GAME;
       guard := Some (fun g =>
                        let a := Js.len (players (room ROOM_A g)) in
                        let b := Js.len (players (room ROOM_B g)) in
                        Z.abs (a - b) <=? 1) |} ]
  ++ roundTransitions
  ++ [ {| from := roundStates; to := RESOLUTION; trigger := INSTANT_WIN;
          guard := None |};
       {| from := [RESOLUTION]; to := FINISHED;
          trigger := WIN_CONDITIONS_RESOLVED; guard := None |} ].

Definition findTransitions (currentStatus : GameStatus) (trig : Trigger)
  : list StateTransition :=
  List.filter
    (fun t => existsb (GameStatus_eqb currentStatus) (from t)
              && Trigger_eqb (trigger t) trig)
    transitions.

(** [!t.guard || t.guard(game)]. *)
Definition guardHolds (g : Game) (t : StateTransition) : bool :=
  match guard t with
  | None => true
  | Some f => f g
  end.

Definition canTransition (g : Game) (trig : Trigger) : bool :=
  existsb (guardHolds g) (findTransitions (status (public (state g))) trig).

(** [transition]: the first matching transition whose guard holds. *)
Definition transition (now : Z) (g : Game) (trig : Trigger) : Game * Result :=
  let validTransitions := findTransitions (status (public (state g))) trig in
  match validTransitions with
  | [] => (g, Failed InvalidTransition)
  | _ =>
      match List.find (guardHolds g) validTransitions with
      | None => (g, Failed GuardNotMet)
      | Some t =>
          (bump_version now (upd_public (set_status (to t)) g), Success)
      end
  end.

(** [status.startsWith('ROUND_')]. *)
Definition isRoundStatus (s : GameStatus) : bool :=
  existsb (GameStatus_eqb s) roundStates.

(** [status.match(/ROUND_(\d)/)] and [parseInt]. *)
Definition getCurrentRoundNumber (s : GameStatus) : option Z :=
  match s with
  | ROUND_1 => Some 1 | ROUND_2 => Some 2 | ROUND_3 => Some 3
  | ROUND_4 => Some 4 | ROUND_5 => Some 5
  | _ => None
  end.

End StateMachine.

(* ===================================================================== *)
(** ** Event bus (server/src/services/EventBus.ts) *)
(* ===================================================================== *)

Module EventBus.

(** A subscription. Its [listener] is the subscriber's inbox: each call of
    a listener is recorded, in order, in [delivered]. *)
Record Subscription := {
  sub_id : string;
  sub_gameId : string;
  sub_playerId : option string
}.

Record t := {
  subscriptions : gmap string (list Subscription);
  eventLog : gmap string (list GameEvent);
  sequenceNumbers : gmap string Z;
  delivered : list (string * GameEvent)
}.

Definition empty : t :=
  {| subscriptions := ∅; eventLog := ∅; sequenceNumbers := ∅;
     delivered := [] |}.

(** [subscriptionId] is the UUID [subscribe] drew and returns. *)
Definition subscribe (subscriptionId gameId : string)
           (playerId : option string) (b : t) : t :=
  let subs := default [] (subscriptions b !! gameId) in
  {| subscriptions :=
       <[gameId := subs ++ [ {| sub_id := subscriptionId;
                                sub_gameId := gameId;
                                sub_playerId := playerId |} ]]>
         (subscriptions b);
     eventLog := eventLog b; sequenceNumbers := sequenceNumbers b;
     delivered := delivered b |}.

Definition unsubscribe (subscriptionId : string) (b : t) : t :=
  {| subscriptions :=
       omap (fun subs =>
               let filtered :=
                 List.filter
                   (fun s => negb (String.eqb (sub_id s) subscriptionId)) subs in
               match filtered with [] => None | _ => Some filtered end)
            (subscriptions b);
     eventLog := eventLog b; sequenceNumbers := sequenceNumbers b;
     delivered := delivered b |}.

(** Next sequence number of a game: [(sequenceNumbers.get(gameId) || 0) + 1]. *)
Definition getNextSequenceNumber (gameId : string) (b : t) : Z * t :=
  let current := default 0 (sequenceNumbers b !! gameId) in
  let next := current + 1 in
  (next,
   {| subscriptions := subscriptions b; eventLog := eventLog b;
      sequenceNumbers := <[gameId := next]> (sequenceNumbers b);
      delivered := delivered b |}).

Definition createEvent (gameId : string) (ty : ServerEventType)
           (pl : Payload) (sc : EventScope) (b : t) : GameEvent * t :=
  let '(n, b') := getNextSequenceNumber gameId b in
  ({| sequenceNumber := n; ev_type := ty; scope := sc; payload := pl |}, b').

(** [logEvent]: append; beyond 1000 entries the oldest one is dropped
    (the array the map holds is the one [shift] mutates). *)
Definition logEvent (gameId : string) (e : GameEvent) (b : t) : t :=
  let evs := default [] (eventLog b !! gameId) ++ [e] in
  let evs' := if Js.len evs >? 1000 then tl evs else evs in
  {| subscriptions := subscriptions b;
     eventLog := <[gameId := evs']> (eventLog b);
     sequenceNumbers := sequenceNumbers b; delivered := delivered b |}.

(** Whether a subscription receives an event of the given scope. The
    source leaves room membership unchecked ("TODO: Check if player is in
    this room"): a room scope goes to every subscription. *)
Definition shouldReceiveEvent (s : Subscription) (sc : EventScope) : bool :=
  match sc with
  | PUBLIC => true
  | PLAYER pid => Js.opt_eqb (sub_playerId s) (Some pid)
  | ROOM _ => true
  end.

Definition broadcast (gameId : string) (ty : ServerEventType)
           (pl : Payload) (sc : EventScope) (b : t) : t :=
  let '(e, b1) := createEvent gameId ty pl sc b in
  let b2 := logEvent gameId e b1 in
  let subs := default [] (subscriptions b2 !! gameId) in
  {| subscriptions := subscriptions b2; eventLog := eventLog b2;
     sequenceNumbers := sequenceNumbers b2;
     delivered :=
       delivered b2
       ++ map (fun s => (sub_id s, e))
              (List.filter (fun s => shouldReceiveEvent s sc) subs) |}.

Definition broadcastToPlayer (gameId playerId : string)
           (ty : ServerEventType) (pl : Payload) (b : t) : t :=
  broadcast gameId ty pl (PLAYER playerId) b.

Definition broadcastToRoom (gameId : string) (r : RoomId)
           (ty : ServerEventType) (pl : Payload) (b : t) : t :=
  broadcast gameId ty pl (ROOM r) b.

Definition getEvents (gameId : string) (b : t) : list GameEvent :=
  default [] (eventLog b !! gameId).

Definition getEventsSince (gameId : string) (n : Z) (b : t) : list GameEvent :=
  List.filter (fun e => sequenceNumber e >? n) (getEvents gameId b).

Definition clearEvents (gameId : string) (b : t) : t :=
  {| subscriptions := subscriptions b;
     eventLog := delete gameId (eventLog b);
     sequenceNumbers := delete gameId (sequenceNumbers b);
     delivered := delivered b |}.

Definition getSubscriberCount (gameId : string) (b : t) : Z :=
  Js.len (default [] (subscriptions b !! gameId)).

Definition isPlayerSubscribed (gameId playerId : string) (b : t) : bool :=
  existsb (fun s => Js.opt_eqb (sub_playerId s) (Some playerId))
          (default [] (subscriptions b !! gameId)).

(** The events a subscription's listener was called with, in order. *)
Definition inbox (subscriptionId : string) (b : t) : list GameEvent :=
  map snd (List.filter (fun d => String.eqb (fst d) subscriptionId)
                       (delivered b)).

End EventBus.

(* ===================================================================== *)
(** ** Game store (server/src/services/GameStore.ts) *)
(* ===================================================================== *)

Module GameStore.

Record t := {
  games : gmap string Game;
  gamesByCode : gmap string string
}.

Definition empty : t := {| games := ∅; gamesByCode := ∅ |}.

Definition get (gameId : string) (s : t) : option Game := games s !! gameId.

(** [update]: stamp the game and store it under its id. *)
Definition update (now : Z) (g : Game) (s : t) : t :=
  {| games := <[game_id g := with_updatedAt now g]> (games s);
     gamesByCode := gamesByCode s |}.

Definition delete (gameId : string) (s : t) : t :=
  match games s !! gameId with
  | Some g =>
      {| games := base.delete gameId (games s);
         gamesByCode := base.delete (game_code g) (gamesByCode s) |}
  | None => s
  end.

(** [createGame(hostName)] with the defaults of an absent [config].
    [gameId], [hostId] and [seed] are the identifiers drawn from
    [uuidv4()] and [generateSeed()], and [gcode] the room code
    [generateRoomCode()] returned. *)
Definition createGame (hostName gameId gcode hostPlayerId seed : string)
           (now : Z) (s : t) : Game * t :=
  let g :=
    {| game_id := gameId; game_code := gcode; createdAt := now;
       updatedAt := now; version := 0;
       config := {| cfg_totalRounds := 3;
                    roundDurations := [180000; 120000; 60000];
                    enableAdvancedCharacters := false;
                    enableConditions := false; buryCard := false;
                    selectedRoles := [] |};
       game_players := [(hostPlayerId, createPlayer hostPlayerId hostName true)];
       state := createInitialGameState gameId gcode hostPlayerId seed;
       events := [] |} in
  (g, {| games := <[gameId := g]> (games s);
         gamesByCode := <[gcode := gameId]> (gamesByCode s) |}).

(** [getByCode(code)]: the id the code index holds for the upper-cased
    code, then the game stored under it. [toUpperCase] is the string
    method of that name. *)
Definition getByCode (toUpperCase : string -> string) (gcode : string) (s : t)
  : option Game :=
  let gameId := gamesByCode s !! toUpperCase gcode in
  if Js.truthy gameId then games s !! default EmptyString gameId else None.

Definition getGameCount (s : t) : Z := Z.of_nat (size (games s)).

(** [cleanupOldGames(maxAgeMs)]: the ids of the finished games last
    updated more than [maxAgeMs] ago are collected, then deleted one by
    one. *)
Definition cleanupOldGames (maxAgeMs : Z) (now : Z) (s : t) : t :=
  let toDelete :=
    map fst
        (List.filter
           (fun kv => GameStatus_eqb (status (public (state (snd kv)))) FINISHED
                      && (now - updatedAt (snd kv) >? maxAgeMs))
           (map_to_list (games s))) in
  fold_left (fun s' gameId => delete gameId s') toDelete s.

End GameStore.

(* ===================================================================== *)
(** ** Validation engine (server/src/engines/ValidationEngine.ts) *)
(* ===================================================================== *)

Module ValidationEngine.

Module ValidationPhase.
Inductive t :=
| ROOM_LOCK | ROLE_CONFIGURATION | ROLE_DISTRIBUTION | ROOM_ASSIGNMENT
| ACTION_REQUEST | ABILITY_ACTIVATION | WIN_CONDITION.
End ValidationPhase.

Module ClientActionType.
Inductive t :=
| CREATE_GAME | JOIN_GAME | LEAVE_GAME | LOCK_ROOM | UNLOCK_ROOM
| SELECT_ROLES | SET_ROUNDS | CONFIRM_ROLES
| START_GAME | NOMINATE_LEADER | INITIATE_NEW_LEADER_VOTE | VOTE_USURP
| ABDICATE | SELECT_HOSTAGE | LOCK_HOSTAGES
| CARD_SHARE | COLOR_SHARE | PRIVATE_REVEAL | PUBLIC_REVEAL
| ACTIVATE_ABILITY.
End ClientActionType.

(** A client action with the payload fields the validators read. *)
Record Action := {
  act_type : ClientActionType.t;
  targetPlayerId : option string;
  candidateId : option string
}.

Record ValidationContext := {
  ctx_game : option Game;
  ctx_phase : ValidationPhase.t;
  ctx_player : option Player;
  ctx_action : option Action;
  ctx_roles : option (list CharacterId);
  ctx_playerCount : option Z;
  ctx_buryCard : option bool
}.

Definition mkError (c : string) : ValidationError :=
  {| code := c; severity := SEV_ERROR |}.

Definition mkWarning (c : string) : ValidationError :=
  {| code := c; severity := SEV_WARNING |}.

Definition hasCode (c : string) (errs : list ValidationError) : bool :=
  existsb (fun e => String.eqb (code e) c) errs.

(** [{ valid: errors.length === 0, errors, warnings }]. *)
Definition mkResult (errs : list ValidationError)
           (warns : option (list ValidationError)) : ValidationResult :=
  {| valid := Js.len errs =? 0; errors := errs; warnings := warns |}.

(** A validator's result; [None] is a [TypeError] thrown on the way
    (a property read from [null] or [undefined]). *)
Definition Outcome := option ValidationResult.

(** *** Player count *)

Definition PlayerCountValidator (ctx : ValidationContext) : Outcome :=
  match ctx_game ctx with
  | None => None
  | Some g =>
      let playerCount := Js.size (game_players g) in
      let e1 := if playerCount <? 6 then [mkError "INSUFFICIENT_PLAYERS"] else [] in
      let e2 := if playerCount >? 30 then [mkError "TOO_MANY_PLAYERS"] else [] in
      Some {| valid := Js.len (e1 ++ e2) =? 0; errors := e1 ++ e2;
              warnings := None |}
  end.

Section Catalogue.

(** [characterLoader.getCharacter], once the catalogue is loaded. The
    catalogue file (data/characters.json) is not part of the sources. *)
Variable getCharacter : CharacterId -> option CharacterDefinition.

(** *** Role configuration *)

Definition validateDependencies (roles : list CharacterId)
  : list ValidationError :=
  flat_map
    (fun roleId =>
       match getCharacter roleId with
       | None => [mkError "UNKNOWN_CHARACTER"]
       | Some char =>
           match requires char with
           | Some reqs =>
               flat_map (fun requiredId =>
                           if Js.includes requiredId roles then []
                           else [mkError "MISSING_DEPENDENCY"])
                        reqs
           | None => []
           end
       end)
    roles.

Definition validateMutualExclusions (roles : list CharacterId)
  : list ValidationError :=
  flat_map
    (fun roleId =>
       match getCharacter roleId with
       | None => []
       | Some char =>
           match mutuallyExclusive char with
           | Some excl =>
               flat_map (fun excludedId =>
                           if Js.includes excludedId roles
                           then [mkError "MUTUALLY_EXCLUSIVE"]
                           else [])
                        excl
           | None => []
           end
       end)
    roles.

Definition teamCount (team : TeamColor -> bool) (roles : list CharacterId) : Z :=
  Js.len (List.filter
            (fun roleId =>
               match getCharacter roleId with
               | Some char => team (char_team char)
               | None => false
               end)
            roles).

Definition checkTeamBalance (roles : list CharacterId)
  : list ValidationError :=
  let redCount :=
    teamCount (fun t => match t with RED => true | _ => false end) roles in
  let blueCount :=
    teamCount (fun t => match t with BLUE => true | _ => false end) roles in
  let diff := Z.abs (redCount - blueCount) in
  if diff >? 2 then [mkWarning "UNBALANCED_TEAMS"] else [].

(** The role count the validator expects. *)
Definition expectedCount (playerCount : Z) (bury : option bool) : Z :=
  match bury with
  | Some true => playerCount - 1
  | _ => playerCount
  end.

Definition RoleConfigurationValidator (ctx : ValidationContext) : Outcome :=
  match ctx_roles ctx, ctx_playerCount ctx with
  | Some roles, Some playerCount =>
      if playerCount =? 0 then
        Some {| valid := false; errors := [mkError "MISSING_CONTEXT"];
                warnings := None |}
      else
        let e1 := if Js.includes "president" roles then []
                  else [mkError "MISSING_PRESIDENT"] in
        let e2 := if Js.includes "bomber" roles then []
                  else [mkError "MISSING_BOMBER"] in
        let e3 := if Js.len roles =? expectedCount playerCount (ctx_buryCard ctx)
                  then [] else [mkError "ROLE_COUNT_MISMATCH"] in
        let errs := e1 ++ e2 ++ e3 ++ validateDependencies roles
                    ++ validateMutualExclusions roles in
        Some (mkResult errs (Some (checkTeamBalance roles)))
  | _, _ =>
      Some {| valid := false; errors := [mkError "MISSING_CONTEXT"];
              warnings := None |}
  end.

End Catalogue.

(** *** Actions *)

Definition isAuthorized (p : Player) (a : Action) : bool :=
  match act_type a with
  | ClientActionType.LOCK_ROOM
  | ClientActionType.UNLOCK_ROOM
  | ClientActionType.SELECT_ROLES
  | ClientActionType.CONFIRM_ROLES
  | ClientActionType.START_GAME => isHost p
  | ClientActionType.SELECT_HOSTAGE
  | ClientActionType.LOCK_HOSTAGES => isLeader p
  | ClientActionType.NOMINATE_LEADER
  | ClientActionType.VOTE_USURP
  | ClientActionType.ABDICATE
  | ClientActionType.CARD_SHARE
  | ClientActionType.COLOR_SHARE
  | ClientActionType.PRIVATE_REVEAL
  | ClientActionType.PUBLIC_REVEAL
  | ClientActionType.ACTIVATE_ABILITY => true
  | _ => false
  end.

Definition isValidInCurrentState (a : Action) (g : Game) : bool :=
  let st := status (public (state g)) in
  match act_type a with
  | ClientActionType.LOCK_ROOM => GameStatus_eqb st LOBBY
  | ClientActionType.UNLOCK_ROOM => GameStatus_eqb st LOCKED
  | ClientActionType.SELECT_ROLES | ClientActionType.CONFIRM_ROLES =>
      GameStatus_eqb st ROLE_SELECTION || GameStatus_eqb st LOCKED
  | ClientActionType.START_GAME => GameStatus_eqb st ROOM_ASSIGNMENT
  | ClientActionType.NOMINATE_LEADER
  | ClientActionType.VOTE_USURP
  | ClientActionType.ABDICATE
  | ClientActionType.SELECT_HOSTAGE
  | ClientActionType.LOCK_HOSTAGES
  | ClientActionType.CARD_SHARE
  | ClientActionType.COLOR_SHARE
  | ClientActionType.PRIVATE_REVEAL
  | ClientActionType.ACTIVATE_ABILITY => StateMachine.isRoundStatus st
  | _ => false
  end.

Definition getHostageCount (playerCount roundNumber : Z) : Z :=
  if (playerCount >=? 6) && (playerCount <=? 10) then 1
  else if (playerCount >=? 11) && (playerCount <=? 21) then
    (if roundNumber =? 1 then 2 else 1)
  else if playerCount >=? 22 then
    (if roundNumber =? 1 then 3
     else if roundNumber =? 2 then 2
     else 1)
  else 1.

(** [None]: the acting player has no room, and reading
    [room.hostageCandidates] throws. *)
Definition validateHostageSelection (a : Action) (p : Player) (g : Game)
  : option (list ValidationError) :=
  if negb (isLeader p) then Some [mkError "NOT_LEADER"]
  else if negb (Js.truthy (targetPlayerId a)) then Some [mkError "MISSING_TARGET"]
  else
    let e1 := if Js.opt_eqb (targetPlayerId a) (Some (id p))
              then [mkError "INVALID_TARGET"] else [] in
    match Js.get (default EmptyString (targetPlayerId a)) (game_players g) with
    | None => Some (e1 ++ [mkError "PLAYER_NOT_FOUND"])
    | Some targetPlayer =>
        let e2 := if optRoom_eqb (currentRoom targetPlayer) (currentRoom p)
                  then [] else [mkError "WRONG_ROOM"] in
        match currentRoom p with
        | None => None
        | Some r =>
            let hostageCount :=
              getHostageCount (Js.size (game_players g))
                              (currentRound (public (state g))) in
            let e3 := if Js.len (hostageCandidates (room r g)) >=? hostageCount
                      then [mkError "HOSTAGE_LIMIT_REACHED"] else [] in
            Some (e1 ++ e2 ++ e3)
        end
    end.

Definition validateLeaderVote (a : Action) (p : Player) (g : Game)
  : list ValidationError :=
  if negb (Js.truthy (candidateId a)) then [mkError "MISSING_CANDIDATE"]
  else
    match Js.get (default EmptyString (candidateId a)) (game_players g) with
    | None => [mkError "PLAYER_NOT_FOUND"]
    | Some candidate =>
        if optRoom_eqb (currentRoom candidate) (currentRoom p) then []
        else [mkError "WRONG_ROOM"]
    end.

Definition validateCardShare (a : Action) (p : Player) (g : Game)
  : list ValidationError :=
  if negb (Js.truthy (targetPlayerId a)) then [mkError "MISSING_TARGET"]
  else
    match Js.get (default EmptyString (targetPlayerId a)) (game_players g) with
    | None => [mkError "PLAYER_NOT_FOUND"]
    | Some targetPlayer =>
        if optRoom_eqb (currentRoom targetPlayer) (currentRoom p) then []
        else [mkError "WRONG_ROOM"]
    end.

Definition validateActionSpecifics (a : Action) (p : Player) (g : Game)
  : option (list ValidationError) :=
  match act_type a with
  | ClientActionType.SELECT_HOSTAGE => validateHostageSelection a p g
  | ClientActionType.VOTE_USURP => Some (validateLeaderVote a p g)
  | ClientActionType.CARD_SHARE | ClientActionType.COLOR_SHARE => Some (validateCardShare a p g)
  | _ => Some []
  end.

Definition ActionValidator (ctx : ValidationContext) : Outcome :=
  match ctx_player ctx, ctx_action ctx with
  | Some p, Some a =>
      match ctx_game ctx with
      | None => None
      | Some g =>
          let e1 := if isAuthorized p a then [] else [mkError "UNAUTHORIZED"] in
          let e2 := if isValidInCurrentState a g then []
                    else [mkError "INVALID_STATE"] in
          match validateActionSpecifics a p g with
          | None => None
          | Some e3 =>
              Some {| valid := Js.len (e1 ++ e2 ++ e3) =? 0;
                      errors := e1 ++ e2 ++ e3; warnings := None |}
          end
      end
  | _, _ =>
      Some {| valid := false; errors := [mkError "MISSING_CONTEXT"];
              warnings := None |}
  end.

(** *** The engine: the validators registered by default, by phase *)

Definition validators (getCharacter : CharacterId -> option CharacterDefinition)
           (ph : ValidationPhase.t) : list (ValidationContext -> Outcome) :=
  match ph with
  | ValidationPhase.ROOM_LOCK => [PlayerCountValidator]
  | ValidationPhase.ROLE_CONFIGURATION => [RoleConfigurationValidator getCharacter]
  | ValidationPhase.ACTION_REQUEST => [ActionValidator]
  | _ => []
  end.

(** [validate]: run the validators of the context's phase and collect
    their errors and warnings. *)
Fixpoint runValidators (vs : list (ValidationContext -> Outcome))
         (ctx : ValidationContext)
         (allErrors allWarnings : list ValidationError) : Outcome :=
  match vs with
  | [] => Some (mkResult allErrors (Some allWarnings))
  | v :: rest =>
      match v ctx with
      | None => None
      | Some r =>
          runValidators rest ctx (allErrors ++ errors r)
                        (allWarnings ++ default [] (warnings r))
      end
  end.

Definition validate (getCharacter : CharacterId -> option CharacterDefinition)
           (ctx : ValidationContext) : Outcome :=
  runValidators (validators getCharacter (ctx_phase ctx)) ctx [] [].

Definition validateRoleConfiguration
           (getCharacter : CharacterId -> option CharacterDefinition)
           (roles : list CharacterId) (playerCount : Z) (bury : bool)
  : Outcome :=
  validate getCharacter
           {| ctx_game := None; ctx_phase := ValidationPhase.ROLE_CONFIGURATION;
              ctx_player := None; ctx_action := None;
              ctx_roles := Some roles; ctx_playerCount := Some playerCount;
              ctx_buryCard := Some bury |}.

Definition validateAction
           (getCharacter : CharacterId -> option CharacterDefinition)
           (g : Game) (p : Player) (a : Action) : Outcome :=
  validate getCharacter
           {| ctx_game := Some g; ctx_phase := ValidationPhase.ACTION_REQUEST;
              ctx_player := Some p; ctx_action := Some a;
              ctx_roles := None; ctx_playerCount := None;
              ctx_buryCard := None |}.

End ValidationEngine.

(* ===================================================================== *)
(** ** Sources of randomness *)
(* ===================================================================== *)

(** A value of [Math.random()]: a double of the half-open unit interval,
    written as the fraction [rnd_num / rnd_den]. The doubles below 1 are
    the multiples of a power of two, no smaller than [2^-1074], by a
    numerator of at most 53 bits: [rnd_den] is a power of two up to
    [2^1074], and [0 <= rnd_num < rnd_den] with [rnd_num < 2^53]. *)
Record Rand01 := {
  rnd_num : Z;
  rnd_den : Z
}.

Definition Rand01_ok (r : Rand01) : Prop :=
  0 <= rnd_num r < rnd_den r
  /\ rnd_num r < 2 ^ 53
  /\ rnd_den r = 2 ^ Z.log2 (rnd_den r)
  /\ Z.log2 (rnd_den r) <= 1074.

(** What a double holds of a non-negative integer: the nearest integer
    with at most 53 significant bits, the even one of two that are equally
    near. The [k] low bits that do not fit are dropped, and the rest is
    incremented when they are more than half, or exactly half below an odd
    rest. *)
Definition roundToDouble (m : Z) : Z :=
  let k := Z.log2 m - 52 in
  if k <=? 0 then m
  else
    let q := m / 2 ^ k in
    let rest := m mod 2 ^ k in
    let half := 2 ^ (k - 1) in
    let up := if rest <? half then false
              else if half <? rest then true
              else Z.odd q in
    (if up then q + 1 else q) * 2 ^ k.

(** [Math.floor(r * n)] for a length [n] (of an array or a string, an
    integer below [2^32], a double as it is). The product of two doubles is
    their exact product rounded to the nearest double, ties to even; as
    [rnd_den] is a power of two, that is [roundToDouble (rnd_num * n)] over
    [rnd_den] (a product in the subnormal range has fewer than 53 bits and
    is exact, and none overflows). The floor is taken of the rounded
    product. *)
Definition floorScale (r : Rand01) (n : Z) : Z :=
  roundToDouble (rnd_num r * n) / rnd_den r.

(** The two random sources of the server: [math_random] is what the next
    call of [Math.random()] returns, [crypto_uint32 k] what the [k]-th call
    of [crypto.randomBytes(4).readUInt32BE(0)] returns. *)
Record Entropy := {
  math_random : Rand01;
  crypto_uint32 : nat -> Z
}.

(* ===================================================================== *)
(** ** Room codes (server/src/services/GameStore.ts, generateRoomCode) *)
(* ===================================================================== *)

Module RoomCode.

(** The alphabet of room codes: no I, O, 0 or 1. *)
Definition chars : string := "ABCDEFGHJKLMNPQRSTUVWXYZ23456789".

(** [s.charAt(i)]: the empty string when [i] is out of range. *)
Definition charAt (s : string) (i : Z) : string :=
  if i <? 0 then EmptyString
  else match String.get (Z.to_nat i) s with
       | Some c => String c EmptyString
       | None => EmptyString
       end.

(** The inner loop: [n] characters appended one by one, each drawn with
    [Math.random()]; [random k] is what the [k]-th call returns. *)
Fixpoint randomChars (random : nat -> Rand01) (k n : nat) : string :=
  match n with
  | O => EmptyString
  | S n' =>
      (charAt chars (floorScale (random k) (Z.of_nat (String.length chars)))
       ++ randomChars random (S k) n')%string
  end.

(** The do-while loop with [left] attempts to go; each attempt makes six
    draws. [None]: the attempt after the last one throws. *)
Fixpoint attempt (random : nat -> Rand01) (codes : gmap string string)
         (k left : nat) : option string :=
  match left with
  | O => None
  | S left' =>
      let code := randomChars random k 6 in
      match codes !! code with
      | Some _ => attempt random codes (k + 6) left'
      | None => Some code
      end
  end.

(** Generate a unique 6-character room code; at most 100 attempts. *)
Definition generateRoomCode (random : nat -> Rand01) (s : GameStore.t)
  : option string :=
  attempt random (GameStore.gamesByCode s) 0 100.

End RoomCode.

(* ===================================================================== *)
(** ** Round engine (server/src/engines/RoundEngine.ts) *)
(* ===================================================================== *)

Module RoundEngine.

(** The closures handed to [startTimer] as [onExpired]. *)
Inductive Callback := RoundTimerExpired | EndParlay.

Record RoundTimer := {
  rt_gameId : string;
  rt_duration : option Z;
  rt_remaining : option Z;
  startTime : Z;
  pausedAt : option Z;
  rt_state : TimerRunState;
  interval : bool;
  onExpired : option Callback
}.

(** What an operation of the engine works on: the game object it was
    handed, the event bus and the timer manager's [timers] map. The game
    is the object the game store holds under [game.id]. *)
Record Ctx := {
  game : Game;
  bus : EventBus.t;
  timers : gmap string RoundTimer
}.

Definition on_game (f : Game -> Game) (c : Ctx) : Ctx :=
  {| game := f (game c); bus := bus c; timers := timers c |}.

Definition on_bus (f : EventBus.t -> EventBus.t) (c : Ctx) : Ctx :=
  {| game := game c; bus := f (bus c); timers := timers c |}.

Definition on_timers (f : gmap string RoundTimer -> gmap string RoundTimer)
           (c : Ctx) : Ctx :=
  {| game := game c; bus := bus c; timers := f (timers c) |}.

(** [eventBus.broadcast(game.id, ty, pl, sc)]. *)
Definition broadcast (ty : ServerEventType) (pl : Payload) (sc : EventScope)
           (c : Ctx) : Ctx :=
  on_bus (EventBus.broadcast (game_id (game c)) ty pl sc) c.

Definition broadcastToRoom (r : RoomId) (ty : ServerEventType) (pl : Payload)
           (c : Ctx) : Ctx :=
  on_bus (EventBus.broadcastToRoom (game_id (game c)) r ty pl) c.

(** *** Timer manager *)

(** [Math.max(0, duration - elapsed)]; [NaN] when the duration is
    [undefined]. *)
Definition remainingAfter (duration : option Z) (elapsed : Z) : option Z :=
  match duration with
  | Some d => Some (Z.max 0 (d - elapsed))
  | None => None
  end.

Definition parlayKey (g : Game) : string := game_id g ++ "_parlay".

(** [broadcastTimerState]: copy the timer into the public state of the
    game the store holds under [key], and publish it on [key]'s channel. *)
Definition broadcastTimerState (key : string) (tm : RoundTimer) (now : Z)
           (c : Ctx) : Ctx :=
  let c1 :=
    if String.eqb key (game_id (game c)) then
      on_game (fun g =>
                 with_updatedAt now
                   (upd_public
                      (set_timer {| ts_duration := rt_duration tm;
                                    ts_remaining := rt_remaining tm;
                                    ts_state := rt_state tm |}) g)) c
    else c in
  on_bus (EventBus.broadcast key TIMER_UPDATE
            (TimerUpdateP (rt_remaining tm) (rt_state tm)) PUBLIC) c1.

Definition stopTimer (key : string) (c : Ctx) : Ctx :=
  on_timers (base.delete key) c.

Definition startTimer (key : string) (duration : option Z)
           (cb : option Callback) (now : Z) (c : Ctx) : Ctx :=
  let c1 := stopTimer key c in
  let tm := {| rt_gameId := key; rt_duration := duration;
               rt_remaining := duration; startTime := now;
               pausedAt := None; rt_state := RUNNING; interval := true;
               onExpired := cb |} in
  broadcastTimerState key tm now (on_timers (insert key tm) c1).

Definition pauseTimer (key : string) (now : Z) (c : Ctx) : Ctx :=
  match timers c !! key with
  | None => c
  | Some tm =>
      let elapsed := now - startTime tm in
      let tm' := {| rt_gameId := rt_gameId tm; rt_duration := rt_duration tm;
                    rt_remaining := remainingAfter (rt_duration tm) elapsed;
                    startTime := startTime tm; pausedAt := Some now;
                    rt_state := PAUSED; interval := false;
                    onExpired := onExpired tm |} in
      broadcastTimerState key tm' now (on_timers (insert key tm') c)
  end.

(** [!timer.pausedAt]: an absent or zero pause time. *)
Definition noPausedAt (tm : RoundTimer) : bool :=
  match pausedAt tm with
  | Some t => t =? 0
  | None => true
  end.

Definition resumeTimer (key : string) (now : Z) (c : Ctx) : Ctx :=
  match timers c !! key with
  | None => c
  | Some tm =>
      match rt_state tm with
      | PAUSED =>
          if noPausedAt tm then c
          else
            let pauseDuration := now - default 0 (pausedAt tm) in
            let tm' := {| rt_gameId := rt_gameId tm;
                          rt_duration := rt_duration tm;
                          rt_remaining := rt_remaining tm;
                          startTime := startTime tm + pauseDuration;
                          pausedAt := pausedAt tm; rt_state := RUNNING;
                          interval := true; onExpired := onExpired tm |} in
            broadcastTimerState key tm' now (on_timers (insert key tm') c)
      | _ => c
      end
  end.

(** *** Rounds *)

(** The per-round reset of a room. *)
Definition resetRoomForRound (roundNumber : Z) (r : RoomState) : RoomState :=
  set_hostagesLocked false
    (set_hostageCandidates []
       (set_leaderVotingTieCount 0
          (set_leaderVotingActive (roundNumber =? 1)
             (set_leaderVotes [] r)))).

Definition startRound (roundNumber : Z) (now : Z) (c : Ctx) : Ctx :=
  let duration := Js.index (roundDurations (config (game c))) (roundNumber - 1) in
  let c1 :=
    on_game (fun g =>
               upd_room ROOM_B (resetRoomForRound roundNumber)
                 (upd_room ROOM_A (resetRoomForRound roundNumber)
                    (upd_public (set_currentRound roundNumber) g))) c in
  let c2 :=
    if roundNumber =? 1 then
      on_game (upd_public
                 (set_timer {| ts_duration := duration;
                               ts_remaining := duration;
                               ts_state := PAUSED |})) c1
    else
      startTimer (game_id (game c1)) duration (Some RoundTimerExpired) now c1 in
  broadcast ROUND_STARTED (RoundStartedP roundNumber duration) PUBLIC c2.

Definition endRound (reason : string) (now : Z) (c : Ctx) : Ctx :=
  let roundNumber := currentRound (public (state (game c))) in
  let c1 := stopTimer (game_id (game c)) c in
  let c2 := broadcast ROUND_ENDED (RoundEndedP roundNumber reason) PUBLIC c1 in
  let c3 :=
    on_game (fun g => fst (StateMachine.transition now g StateMachine.ROUND_COMPLETE))
            c2 in
  let st := status (public (state (game c3))) in
  if StateMachine.isRoundStatus st then
    match StateMachine.getCurrentRoundNumber st with
    | Some nextRound =>
        if nextRound =? 0 then c3 else startRound nextRound now c3
    | None => c3
    end
  else c3.

Definition onRoundTimerExpired (c : Ctx) : Ctx :=
  broadcast GAME_PAUSED (GamePausedP "Hostage selection phase") PUBLIC
    (on_game (upd_public
                (set_paused true
                   (Some "Waiting for leaders to select hostages"))) c).

(** *** Hostage exchange *)

(** One iteration of a swap loop of [exchangeHostages]: if [playerId] is a
    known player, send them to room [dst], drop them from room [src]'s
    member list and push them onto room [dst]'s. *)
Definition moveHostage (src dst : RoomId) (g : Game) (playerId : string) : Game :=
  match Js.get playerId (game_players g) with
  | None => g
  | Some _ =>
      let g1 := upd_player playerId (send_as_hostage dst) g in
      let g2 := upd_room src
                  (fun r => set_room_players (Js.without playerId (players r)) r)
                  g1 in
      upd_room dst (fun r => set_room_players (players r ++ [playerId]) r) g2
  end.

(** The loop that refreshes [public.roomAssignments] from the players. *)
Definition refreshRoomAssignments (g : Game) : Game :=
  fold_left
    (fun g' kv =>
       match currentRoom (snd kv) with
       | Some r =>
           upd_public
             (fun p => set_roomAssignments
                         (Js.set (fst kv) r (roomAssignments p)) p) g'
       | None => g'
       end)
    (game_players g) g.

Definition exchangeHostages (now : Z) (c : Ctx) : Ctx :=
  let hostagesFromA := hostageCandidates (room ROOM_A (game c)) in
  let hostagesFromB := hostageCandidates (room ROOM_B (game c)) in
  let c1 :=
    on_game (fun g =>
               refreshRoomAssignments
                 (fold_left (moveHostage ROOM_B ROOM_A) hostagesFromB
                    (fold_left (moveHostage ROOM_A ROOM_B) hostagesFromA g)))
            c in
  let c2 := broadcast HOSTAGES_EXCHANGED
              (HostagesExchangedP hostagesFromA hostagesFromB) PUBLIC c1 in
  let clear r := set_hostagesLocked false (set_hostageCandidates [] r) in
  let c3 :=
    on_game (fun g =>
               upd_public (set_paused false None)
                 (upd_room ROOM_B clear (upd_room ROOM_A clear g))) c2 in
  endRound "HOSTAGES_EXCHANGED" now c3.

Definition endParlay (now : Z) (c : Ctx) : Ctx :=
  let c1 := stopTimer (parlayKey (game c)) c in
  let c2 := on_game (upd_public (set_parlayActive false)) c1 in
  let c3 := broadcast PARLAY_ENDED ParlayEndedP PUBLIC c2 in
  exchangeHostages now c3.

Definition runCallback (cb : Callback) (now : Z) (c : Ctx) : Ctx :=
  match cb with
  | RoundTimerExpired => onRoundTimerExpired c
  | EndParlay => endParlay now c
  end.

(** [remaining <= 0]; false for [NaN]. *)
Definition expired (remaining : option Z) : bool :=
  match remaining with
  | Some r => r <=? 0
  | None => false
  end.

(** One firing of the 100 ms interval of the timer stored under [key]. *)
Definition tick (key : string) (now : Z) (c : Ctx) : Ctx :=
  match timers c !! key with
  | None => c
  | Some tm =>
      match rt_state tm with
      | RUNNING =>
          let elapsed := now - startTime tm in
          let tm' := {| rt_gameId := rt_gameId tm;
                        rt_duration := rt_duration tm;
                        rt_remaining := remainingAfter (rt_duration tm) elapsed;
                        startTime := startTime tm; pausedAt := pausedAt tm;
                        rt_state := RUNNING; interval := interval tm;
                        onExpired := onExpired tm |} in
          let c1 := on_timers (insert key tm') c in
          let c2 := if Z.rem elapsed 1000 <? 100
                    then broadcastTimerState key tm' now c1 else c1 in
          if expired (rt_remaining tm') then
            let c3 := stopTimer key c2 in
            match onExpired tm' with
            | Some cb => runCallback cb now c3
            | None => c3
            end
          else c2
      | _ => c
      end
  end.

(** *** Leaders *)

Definition demote (p : Player) : Player := set_leadership false true p.
Definition promote (p : Player) : Player := set_leadership true false p.

(** Mutation of the player [game.players.get(pid)] returns, for a [pid]
    that may be [null] or [undefined]. *)
Definition upd_player_opt (pid : option string) (f : Player -> Player)
           (g : Game) : Game :=
  match pid with
  | Some p => upd_player p f g
  | None => g
  end.

Definition bothLeaders (g : Game) : bool :=
  Js.truthy (leaderId (room ROOM_A g)) && Js.truthy (leaderId (room ROOM_B g)).

(** The first part of [electLeader]: clear the old leader's status, record
    the new leader in the room and in the public state, close the vote. *)
Definition installLeader (r : RoomId) (newLeader : option string) (c : Ctx) : Ctx :=
  let oldLeaderId := leaderId (room r (game c)) in
  let c1 :=
    if Js.truthy oldLeaderId && negb (Js.opt_eqb oldLeaderId newLeader)
    then on_game (upd_player_opt oldLeaderId demote) c
    else c in
  on_game (fun g =>
             upd_player_opt newLeader promote
               (upd_room r (fun rm =>
                              set_leaderVotingTieCount 0
                                (set_leaderVotingActive false
                                   (set_leaderId newLeader rm)))
                  (upd_public (set_leader r newLeader) g))) c1.

(** The last part of [electLeader]: in round 1, START the timer once both
    rooms have a leader; in a later round, resume it after a vote. *)
Definition startOrResumeTimer (oldLeaderId newLeader : option string) (now : Z)
           (c : Ctx) : Ctx :=
  let round := currentRound (public (state (game c))) in
  if round =? 1 then
    if bothLeaders (game c) then
      let duration := Js.index (roundDurations (config (game c))) 0 in
      broadcast GAME_RESUMED
        (GameResumedP (Some "Both leaders elected - round starting!")) PUBLIC
        (startTimer (game_id (game c)) duration (Some RoundTimerExpired) now c)
    else c
  else if (round >? 1) && Js.truthy oldLeaderId then
    let message :=
      if negb (Js.opt_eqb oldLeaderId newLeader)
      then "New leader elected - round resuming!"
      else "Leader vote completed - round resuming!" in
    broadcast GAME_RESUMED (GameResumedP (Some message)) PUBLIC
      (resumeTimer (game_id (game c)) now c)
  else c.

Definition electLeader (r : RoomId) (newLeader : option string)
           (method : ElectionMethod) (now : Z) (c : Ctx) : Ctx * Result :=
  let oldLeaderId := leaderId (room r (game c)) in
  let c2 := installLeader r newLeader c in
  let c3 := broadcastToRoom r LEADER_ELECTED
              (LeaderElectedP r newLeader method false) c2 in
  (startOrResumeTimer oldLeaderId newLeader now c3, Success).

(** The tally [voteCounts] of [resolveLeaderVote]: candidates in order of
    their first vote. *)
Definition countVotes (votes : Js.JsMap string) : Js.JsMap Z :=
  fold_left
    (fun counts cand => Js.set cand (default 0 (Js.get cand counts) + 1) counts)
    (Js.values votes) [].

(** [Math.max(...xs)]; [None] stands for [-Infinity]. *)
Definition maxOf (xs : list Z) : option Z :=
  match xs with
  | [] => None
  | x :: rest => Some (fold_left Z.max rest x)
  end.

(** The candidates with the maximum vote count. *)
Definition winnersOf (votes : Js.JsMap string) : list string :=
  let voteCounts := countVotes votes in
  match maxOf (Js.values voteCounts) with
  | None => []
  | Some maxVotes =>
      Js.keys (List.filter (fun kv => snd kv =? maxVotes) voteCounts)
  end.

Definition resolveLeaderVote (r : RoomId) (ent : Entropy) (now : Z) (c : Ctx)
  : Ctx * Result :=
  let winners := winnersOf (leaderVotes (room r (game c))) in
  if Js.len winners >? 1 then
    let tieCount := leaderVotingTieCount (room r (game c)) + 1 in
    let c1 := on_game (upd_room r (set_leaderVotingTieCount tieCount)) c in
    if tieCount >=? 3 then
      let randomIndex := floorScale (math_random ent) (Js.len winners) in
      let selectedLeader := Js.index winners randomIndex in
      electLeader r selectedLeader RANDOM_SELECTION now c1
    else
      let c2 := broadcastToRoom r LEADER_ELECTED
                  (LeaderTieP r tieCount winners) c1 in
      let c3 := on_game (upd_room r (fun rm =>
                                       set_leaderVotingActive true
                                         (set_leaderVotes [] rm))) c2 in
      (c3, Failed (TieDetected tieCount winners))
  else
    electLeader r (Js.index winners 0) MAJORITY_VOTE now c.

Definition nominateLeader (r : RoomId) (candidate : string)
           (voterId : option string) (ent : Entropy) (now : Z) (c : Ctx)
  : Ctx * Result :=
  let rm := room r (game c) in
  if Js.truthy (leaderId rm) && negb (leaderVotingActive rm) then
    (c, Failed LeaderAlreadyExists)
  else if negb (Js.includes candidate (players rm)) then
    (c, Failed CandidateNotInRoom)
  else if Js.truthy voterId
          && negb (Js.includes (default EmptyString voterId) (players rm)) then
    (c, Failed VoterNotInRoom)
  else
    let actualVoterId := if Js.truthy voterId
                         then default EmptyString voterId else candidate in
    let c1 := on_game (upd_room r (fun rm' =>
                                     set_leaderVotes
                                       (Js.set actualVoterId candidate
                                               (leaderVotes rm')) rm')) c in
    let rm1 := room r (game c1) in
    let c2 := broadcastToRoom r VOTE_CAST
                (VoteCastP r (Js.len (Js.keys (leaderVotes rm1)))
                           (Js.len (players rm1))) c1 in
    if Js.len (Js.keys (leaderVotes rm1)) =? Js.len (players rm1)
    then resolveLeaderVote r ent now c2
    else (c2, Success).

Definition initiateNewLeaderVote (r : RoomId) (playerId : string) (now : Z)
           (c : Ctx) : Ctx * Result :=
  let rm := room r (game c) in
  if negb (Js.includes playerId (players rm)) then (c, Failed PlayerNotInRoom)
  else if negb (Js.truthy (leaderId rm)) then (c, Failed NoLeaderToReplace)
  else if leaderVotingActive rm then (c, Failed VotingAlreadyInProgress)
  else
    let c1 := pauseTimer (game_id (game c)) now c in
    let c2 := on_game (upd_room r (fun rm' =>
                                     set_leaderVotes []
                                       (set_leaderVotingTieCount 0
                                          (set_leaderVotingActive true rm'))))
                      c1 in
    (broadcastToRoom r LEADER_ELECTED
       (VotingStartedP r (Js.len (players (room r (game c2))))) c2,
     Success).

Definition countVotesFor (candidate : string) (votes : Js.JsMap string) : Z :=
  Js.len (List.filter (fun v => String.eqb v candidate) (Js.values votes)).

(** [usurpations[round].push(usurperId)], creating the entry if absent. *)
Fixpoint pushUsurpation (round : Z) (usurperId : string)
         (u : list (Z * list string)) : list (Z * list string) :=
  match u with
  | [] => [(round, [usurperId])]
  | (k, l) :: rest =>
      if k =? round then (k, l ++ [usurperId]) :: rest
      else (k, l) :: pushUsurpation round usurperId rest
  end.

Definition recordUsurpation (usurperId : string) (g : Game) : Game :=
  upd_private
    (fun p => set_usurpations
                (pushUsurpation (currentRound (public (state g))) usurperId
                                (usurpations p)) p) g.

Definition usurpLeader (r : RoomId) (newLeaderId : string) (c : Ctx)
  : Ctx * Result :=
  let oldLeaderId := leaderId (room r (game c)) in
  let c1 := if Js.truthy oldLeaderId
            then on_game (upd_player_opt oldLeaderId demote) c else c in
  let c2 :=
    on_game (fun g =>
               recordUsurpation newLeaderId
                 (upd_room r (set_leaderVotes [])
                    (upd_player newLeaderId
                       (fun p => incr_usurped (promote p))
                       (upd_public (set_leader r (Some newLeaderId))
                          (upd_room r (set_leaderId (Some newLeaderId)) g)))))
            c1 in
  (broadcastToRoom r LEADER_USURPED
     (LeaderUsurpedP r oldLeaderId newLeaderId
                     (currentRound (public (state (game c2))))) c2,
   Success).

Definition voteUsurp (r : RoomId) (voterId candidate : string) (c : Ctx)
  : Ctx * Result :=
  let rm := room r (game c) in
  if negb (Js.includes voterId (players rm)) then (c, Failed VoterNotInRoom)
  else if negb (Js.includes candidate (players rm)) then
    (c, Failed CandidateNotInRoom)
  else
    let c1 := on_game (upd_room r (fun rm' =>
                                     set_leaderVotes
                                       (Js.set voterId candidate
                                               (leaderVotes rm')) rm')) c in
    let rm1 := room r (game c1) in
    let votesNeeded := Js.len (players rm1) / 2 + 1 in
    let voteCount := countVotesFor candidate (leaderVotes rm1) in
    if voteCount >=? votesNeeded then usurpLeader r candidate c1
    else
      (broadcastToRoom r VOTE_CAST
         (UsurpVoteCastP r (Js.len (Js.keys (leaderVotes rm1))) votesNeeded) c1,
       Success).

Definition abdicate (r : RoomId) (currentLeaderId newLeaderId : string)
           (c : Ctx) : Ctx * Result :=
  let rm := room r (game c) in
  if negb (Js.opt_eqb (leaderId rm) (Some currentLeaderId)) then
    (c, Failed NotTheLeader)
  else if negb (Js.includes newLeaderId (players rm)) then
    (c, Failed NewLeaderNotInRoom)
  else
    let c1 :=
      on_game (fun g =>
                 upd_player newLeaderId promote
                   (upd_public (set_leader r (Some newLeaderId))
                      (upd_room r (set_leaderId (Some newLeaderId))
                         (upd_player currentLeaderId demote g)))) c in
    (broadcastToRoom r LEADER_ABDICATED
       (LeaderAbdicatedP r currentLeaderId newLeaderId) c1,
     Success).

(** *** Hostages *)

(** The hostage count required of the game in its current round. *)
Definition requiredHostages (g : Game) : Z :=
  calculateHostageCount (Js.size (game_players g))
                        (currentRound (public (state g))).

(** Select a hostage, or deselect one already selected. *)
Definition selectHostage (r : RoomId) (hostageId : string) (c : Ctx)
  : Ctx * Result :=
  let rm := room r (game c) in
  if hostagesLocked rm then (c, Failed HostagesAlreadyLocked)
  else
    let hostageCount := requiredHostages (game c) in
    if Js.includes hostageId (hostageCandidates rm) then
      let c1 := on_game (upd_room r (fun rm' =>
                                       set_hostageCandidates
                                         (Js.without hostageId
                                            (hostageCandidates rm')) rm')) c in
      (broadcastToRoom r HOSTAGE_SELECTED
         (HostageSelectedP r (Js.len (hostageCandidates (room r (game c1))))
                           hostageCount true) c1,
       Success)
    else if Js.len (hostageCandidates rm) >=? hostageCount then
      (c, Failed HostageLimitReached)
    else
      let c1 := on_game (upd_room r (fun rm' =>
                                       set_hostageCandidates
                                         (hostageCandidates rm' ++ [hostageId])
                                         rm')) c in
      (broadcastToRoom r HOSTAGE_SELECTED
         (HostageSelectedP r (Js.len (hostageCandidates (room r (game c1))))
                           hostageCount false) c1,
       Success).

Definition bothRoomsLocked (g : Game) : bool :=
  hostagesLocked (room ROOM_A g) && hostagesLocked (room ROOM_B g).

Definition startParlay (now : Z) (c : Ctx) : Ctx :=
  let c1 := pauseTimer (game_id (game c)) now c in
  let c2 := startTimer (parlayKey (game c1)) (Some 30000) (Some EndParlay)
                       now c1 in
  let c3 := on_game (upd_public (set_parlayActive true)) c2 in
  broadcast PARLAY_STARTED
    (ParlayStartedP (leaderId (room ROOM_A (game c3)))
                    (leaderId (room ROOM_B (game c3)))) PUBLIC c3.

Definition lockHostages (r : RoomId) (now : Z) (c : Ctx) : Ctx * Result :=
  let hostageCount := requiredHostages (game c) in
  if negb (Js.len (hostageCandidates (room r (game c))) =? hostageCount) then
    (c, Failed (MustSelectExactly hostageCount))
  else
    let c1 := on_game (upd_room r (set_hostagesLocked true)) c in
    let c2 := broadcastToRoom r HOSTAGES_LOCKED (HostagesLockedP r) c1 in
    ((if bothRoomsLocked (game c2) then startParlay now c2 else c2), Success).

Definition pauseGame (reason : string) (now : Z) (c : Ctx) : Ctx :=
  broadcast GAME_PAUSED (GamePausedP reason) PUBLIC
    (on_game (upd_public (set_paused true (Some reason)))
             (pauseTimer (game_id (game c)) now c)).

Definition resumeGame (now : Z) (c : Ctx) : Ctx :=
  broadcast GAME_RESUMED (GameResumedP None) PUBLIC
    (on_game (upd_public (set_paused false None))
             (resumeTimer (game_id (game c)) now c)).

End RoundEngine.

(* ===================================================================== *)
(** ** Game controller (server/src/controllers/GameController.ts) *)
(* ===================================================================== *)

Module GameController.

(** The singletons the controller works on. *)
Record World := {
  store : GameStore.t;
  bus : EventBus.t;
  timers : gmap string RoundEngine.RoundTimer
}.

Definition emptyWorld : World :=
  {| store := GameStore.empty; bus := EventBus.empty; timers := ∅ |}.

Definition on_store (f : GameStore.t -> GameStore.t) (w : World) : World :=
  {| store := f (store w); bus := bus w; timers := timers w |}.

Definition on_bus (f : EventBus.t -> EventBus.t) (w : World) : World :=
  {| store := store w; bus := f (bus w); timers := timers w |}.

(** The game object fetched under [gameId] now reads [g]: mutations made
    through the reference [gameStore.get] returned are seen in the store. *)
Definition mutated (gameId : string) (g : Game) (w : World) : World :=
  on_store (fun s => {| GameStore.games := <[gameId := g]> (GameStore.games s);
                        GameStore.gamesByCode := GameStore.gamesByCode s |}) w.

(** [gameStore.update(game)] on the object fetched under [gameId]. *)
Definition storeUpdate (now : Z) (gameId : string) (g : Game) (w : World) : World :=
  on_store (GameStore.update now g) (mutated gameId (with_updatedAt now g) w).

(** The engine's view of the world while it works on [g], and the world
    once it is done. *)
Definition enter (g : Game) (w : World) : RoundEngine.Ctx :=
  {| RoundEngine.game := g; RoundEngine.bus := bus w;
     RoundEngine.timers := timers w |}.

Definition leave (gameId : string) (c : RoundEngine.Ctx) (w : World) : World :=
  mutated gameId (RoundEngine.game c)
          {| store := store w; bus := RoundEngine.bus c;
             timers := RoundEngine.timers c |}.

(** *** Lobby *)

(** [newHost.isHost = true] on the first player of the map. *)
Definition promoteFirst (ps : Js.JsMap Player) : Js.JsMap Player :=
  match ps with
  | [] => []
  | (k, p) :: rest => (k, set_isHost true p) :: rest
  end.

Definition leaveGame (gameId playerId : string) (now : Z) (w : World)
  : World * Result :=
  match GameStore.get gameId (store w) with
  | None => (w, Failed GameNotFound)
  | Some g =>
      match Js.get playerId (game_players g) with
      | None => (w, Failed PlayerNotFound)
      | Some player =>
          let g1 := upd_players (Js.delete playerId) g in
          let g2 :=
            if isHost player && (Js.size (game_players g1) >? 0) then
              match Js.values (game_players g1) with
              | newHost :: _ =>
                  upd_private (set_hostId (id newHost))
                              (upd_players promoteFirst g1)
              | [] => g1
              end
            else g1 in
          let w1 := storeUpdate now gameId g2 w in
          let w2 := on_bus (EventBus.broadcast (game_id g2) PLAYER_LEFT
                              (PlayerLeftP playerId (name player)
                                           (Js.size (game_players g2)))
                              PUBLIC) w1 in
          let w3 := if Js.size (game_players g2) =? 0
                    then on_store (GameStore.delete gameId) w2 else w2 in
          (w3, Success)
      end
  end.

(** *** Shuffling *)

(** [[arr[i], arr[j]] = [arr[j], arr[i]]]. *)
Definition swap {T} (i j : nat) (arr : list T) : list T :=
  match arr !! i, arr !! j with
  | Some x, Some y => <[i := y]> (<[j := x]> arr)
  | _, _ => arr
  end.

(** The loop of [shuffleArray] from index [i] down to 1; [k] counts the
    draws made so far. *)
Fixpoint shuffleFrom {T} (rand : nat -> Z) (k i : nat) (arr : list T) : list T :=
  match i with
  | O => arr
  | S i' =>
      let j := Z.to_nat (rand k mod Z.of_nat (i + 1)) in
      shuffleFrom rand (S k) i' (swap i j arr)
  end.

(** Fisher-Yates shuffle on [crypto.randomBytes]. *)
Definition shuffleArray {T} (rand : nat -> Z) (k : nat) (arr : list T) : list T :=
  shuffleFrom rand k (length arr - 1) arr.

(** *** Rooms *)

(** The body of the loop of [assignRooms] for the player at index [i]. *)
Definition assignRoom (midpoint : Z) (g : Game) (ikp : nat * (string * Player))
  : Game :=
  let '(i, (k, player)) := ikp in
  let r := if Z.of_nat i <? midpoint then ROOM_A else ROOM_B in
  upd_room r (fun rm => set_room_players (players rm ++ [id player]) rm)
    (upd_public (fun p => set_roomAssignments
                            (Js.set (id player) r (roomAssignments p)) p)
       (upd_player k (set_currentRoom (Some r)) g)).

(** Assign players to rooms (even split). [k] is the number of draws the
    command has made before. *)
Definition assignRooms (rand : nat -> Z) (k : nat) (g : Game) : Game :=
  let shuffled := shuffleArray rand k (game_players g) in
  let midpoint := Js.len shuffled / 2 in
  fold_left (assignRoom midpoint)
            (combine (seq 0 (length shuffled)) shuffled) g.

Section Catalogue.

Variable getCharacter : CharacterId -> option CharacterDefinition.

(** *** Role selection *)

Definition selectRoles (gameId playerId : string) (roles : list CharacterId)
           (now : Z) (w : World) : World * Result :=
  match GameStore.get gameId (store w) with
  | None => (w, Failed GameNotFound)
  | Some g =>
      match Js.get playerId (game_players g) with
      | None => (w, Failed OnlyHostCanSelectRoles)
      | Some player =>
          if negb (isHost player) then (w, Failed OnlyHostCanSelectRoles)
          else
            match ValidationEngine.validateRoleConfiguration
                    getCharacter roles (Js.size (game_players g))
                    (buryCard (config g)) with
            | None => (w, Failed Thrown)
            | Some validation =>
                if negb (valid validation) then
                  (w, Failed (RolesRejected (errors validation)
                                            (warnings validation)))
                else
                  let g1 := with_config (set_selectedRoles roles (config g)) g in
                  let w1 := storeUpdate now gameId g1 w in
                  (on_bus (EventBus.broadcast (game_id g1) ROLES_SELECTED
                             (RolesSelectedP
                                (Js.len roles)
                                (Js.len (default [] (warnings validation)) >? 0))
                             PUBLIC) w1,
                   Success)
            end
      end
  end.

(** The body of the loop of [distributeRoles] for the player at index
    [i]: [roles[i]] is [undefined] past the end of the deck. *)
Definition assignRole (roles : list CharacterId)
           (acc : Game * EventBus.t) (ikp : nat * (string * Player))
  : Game * EventBus.t :=
  let '(g, b) := acc in
  let '(i, (k, player)) := ikp in
  let role := roles !! i in
  let character := match role with
                   | Some r => getCharacter r
                   | None => None
                   end in
  (upd_private (fun p => set_roleAssignments
                           (Js.set (id player) role (roleAssignments p)) p)
     (upd_player k (set_role role) g),
   EventBus.broadcastToPlayer (game_id g) (id player) ROLE_ASSIGNED
     (RoleAssignedP role (option_map char_name character)
                    (option_map char_team character)) b).

(** Distribute roles to players. *)
Definition distributeRoles (rand : nat -> Z) (g : Game) (b : EventBus.t)
  : Game * EventBus.t :=
  let shuffledRoles := shuffleArray rand 0 (selectedRoles (config g)) in
  let ps := game_players g in
  let '(roles, g1) :=
    if buryCard (config g) && (Js.len shuffledRoles >? Js.len ps) then
      (removelast shuffledRoles,
       upd_private (set_buriedCard (last shuffledRoles)) g)
    else (shuffledRoles, g) in
  fold_left (assignRole roles) (combine (seq 0 (length ps)) ps) (g1, b).

(** Confirm roles, distribute them, and assign the rooms. *)
Definition confirmRoles (gameId playerId : string) (ent : Entropy) (now : Z)
           (w : World) : World * Result :=
  match GameStore.get gameId (store w) with
  | None => (w, Failed GameNotFound)
  | Some g =>
      match Js.get playerId (game_players g) with
      | None => (w, Failed OnlyHostCanConfirmRoles)
      | Some player =>
          if negb (isHost player) then (w, Failed OnlyHostCanConfirmRoles)
          else
            match StateMachine.transition now g StateMachine.CONFIRM_ROLES with
            | (_, Failed why) => (w, Failed why)
            | (g1, Success) =>
                let '(g2, b2) :=
                  distributeRoles (crypto_uint32 ent) g1 (bus w) in
                let w2 := mutated gameId g2 (on_bus (fun _ => b2) w) in
                match StateMachine.transition now g2
                                              StateMachine.ROLES_DISTRIBUTED with
                | (_, Failed why) => (w2, Failed why)
                | (g3, Success) =>
                    let draws := (length (selectedRoles (config g)) - 1)%nat in
                    let g4 := assignRooms (crypto_uint32 ent) draws g3 in
                    (storeUpdate now gameId g4 w2, Success)
                end
            end
      end
  end.

End Catalogue.

(** *** Game start and round actions *)

Definition startGame (gameId playerId : string) (now : Z) (w : World)
  : World * Result :=
  match GameStore.get gameId (store w) with
  | None => (w, Failed GameNotFound)
  | Some g =>
      match Js.get playerId (game_players g) with
      | None => (w, Failed OnlyHostCanStartGame)
      | Some player =>
          if negb (isHost player) then (w, Failed OnlyHostCanStartGame)
          else
            match StateMachine.transition now g StateMachine.START_GAME with
            | (_, Failed why) => (w, Failed why)
            | (g1, Success) =>
                let c := RoundEngine.startRound 1 now (enter g1 w) in
                let w1 := leave gameId c w in
                (storeUpdate now gameId (RoundEngine.game c) w1, Success)
            end
      end
  end.

(** A command that hands the game to the round engine and stores it
    again when the engine reports success. *)
Definition delegate (gameId : string) (now : Z)
           (op : RoundEngine.Ctx -> RoundEngine.Ctx * Result) (w : World)
  : World * Result :=
  match GameStore.get gameId (store w) with
  | None => (w, Failed GameNotFound)
  | Some g =>
      let '(c, result) := op (enter g w) in
      let w1 := leave gameId c w in
      ((if success result
        then storeUpdate now gameId (RoundEngine.game c) w1 else w1),
       result)
  end.

Definition nominateLeader (gameId playerId : string) (r : RoomId)
           (candidate : string) (ent : Entropy) (now : Z) (w : World)
  : World * Result :=
  delegate gameId now
           (RoundEngine.nominateLeader r candidate (Some playerId) ent now) w.

Definition initiateNewLeaderVote (gameId playerId : string) (r : RoomId)
           (now : Z) (w : World) : World * Result :=
  delegate gameId now (RoundEngine.initiateNewLeaderVote r playerId now) w.

Definition voteUsurp (gameId playerId : string) (r : RoomId)
           (candidate : string) (now : Z) (w : World) : World * Result :=
  delegate gameId now (RoundEngine.voteUsurp r playerId candidate) w.

(** [!player || !player.isLeader] for the acting player. *)
Definition notLeader (playerId : string) (g : Game) : bool :=
  match Js.get playerId (game_players g) with
  | Some player => negb (isLeader player)
  | None => true
  end.

Definition selectHostage (gameId playerId : string) (r : RoomId)
           (hostageId : string) (now : Z) (w : World) : World * Result :=
  match GameStore.get gameId (store w) with
  | None => (w, Failed GameNotFound)
  | Some g =>
      if notLeader playerId g then (w, Failed OnlyLeaderCanSelectHostages)
      else delegate gameId now (RoundEngine.selectHostage r hostageId) w
  end.

Definition lockHostages (gameId playerId : string) (r : RoomId) (now : Z)
           (w : World) : World * Result :=
  match GameStore.get gameId (store w) with
  | None => (w, Failed GameNotFound)
  | Some g =>
      if notLeader playerId g then (w, Failed OnlyLeaderCanLockHostages)
      else delegate gameId now (RoundEngine.lockHostages r now) w
  end.

(** A firing of the interval of the timer stored under [key] whose
    callback closes over the game stored under [gameId]. *)
Definition timerTick (gameId key : string) (now : Z) (w : World) : World :=
  match GameStore.get gameId (store w) with
  | None => w
  | Some g => leave gameId (RoundEngine.tick key now (enter g w)) w
  end.

(** *** Creating, joining and locking (the lobby commands) *)

(** What a lobby command reports when it fails. *)
Inductive LobbyFailure :=
| NoUniqueRoomCode
| LobbyGameNotFound
| GameAlreadyStarted
| OnlyHostCanLockRoom
| PlayerCountRejected (first : ValidationError)
| TransitionRefused (why : Failure)
| ValidationThrown.

Inductive LobbyResult :=
| LobbySuccess
| LobbyFailed (why : LobbyFailure).

Section Lobby.

(** The payload objects of the lobby events, by their fields:
    [{ gameId, code, hostName }], [{ playerId, playerName, playerCount }]
    and [{ playerCount }]. *)
Variable gameCreatedP : string -> string -> string -> Payload.
Variable playerJoinedP : string -> string -> Z -> Payload.
Variable roomLockedP : Z -> Payload.

(** [String.prototype.toUpperCase]. *)
Variable toUpperCase : string -> string.

(** [gameId], [hostPlayerId] and [seed] are the identifiers the store
    draws; [random] feeds the room code. A room code that cannot be
    generated is an exception the command catches. *)
Definition createGame (hostName gameId hostPlayerId seed : string)
           (random : nat -> Rand01) (now : Z) (w : World)
  : World * LobbyResult :=
  match RoomCode.generateRoomCode random (store w) with
  | None => (w, LobbyFailed NoUniqueRoomCode)
  | Some gcode =>
      let '(g, s) := GameStore.createGame hostName gameId gcode hostPlayerId
                                          seed now (store w) in
      (on_bus (EventBus.broadcast (game_id g) GAME_CREATED
                 (gameCreatedP (game_id g) (game_code g) hostName) PUBLIC)
              (on_store (fun _ => s) w),
       LobbySuccess)
  end.

(** [playerId] is the UUID drawn for the new player. The game object is
    the one the store holds under the id the code index gave. *)
Definition joinGame (gcode playerName playerId : string) (now : Z) (w : World)
  : World * LobbyResult :=
  match GameStore.getByCode toUpperCase gcode (store w) with
  | None => (w, LobbyFailed LobbyGameNotFound)
  | Some g =>
      if negb (GameStatus_eqb (status (public (state g))) LOBBY) then
        (w, LobbyFailed GameAlreadyStarted)
      else
        let g1 := upd_players
                    (Js.set playerId (createPlayer playerId playerName false)) g in
        let key := default EmptyString
                           (GameStore.gamesByCode (store w) !! toUpperCase gcode) in
        let w1 := storeUpdate now key g1 w in
        (on_bus (EventBus.broadcast (game_id g1) PLAYER_JOINED
                   (playerJoinedP playerId playerName
                                  (Js.size (game_players g1))) PUBLIC) w1,
         LobbySuccess)
  end.

(** Lock the room: validate the player count, then LOCK_ROOM and at once
    START_ROLE_SELECTION. The error reported for a rejected player count is
    that of [validation.errors[0]]. The game object is mutated in place, so
    a first transition that succeeded stays when the second one fails. *)
Definition lockRoom (getCharacter : CharacterId -> option CharacterDefinition)
           (gameId playerId : string) (now : Z) (w : World)
  : World * LobbyResult :=
  match GameStore.get gameId (store w) with
  | None => (w, LobbyFailed LobbyGameNotFound)
  | Some g =>
      match Js.get playerId (game_players g) with
      | None => (w, LobbyFailed OnlyHostCanLockRoom)
      | Some player =>
          if negb (isHost player) then (w, LobbyFailed OnlyHostCanLockRoom)
          else
            match ValidationEngine.validate getCharacter
                    {| ValidationEngine.ctx_game := Some g;
                       ValidationEngine.ctx_phase :=
                         ValidationEngine.ValidationPhase.ROOM_LOCK;
                       ValidationEngine.ctx_player := None;
                       ValidationEngine.ctx_action := None;
                       ValidationEngine.ctx_roles := None;
                       ValidationEngine.ctx_playerCount := None;
                       ValidationEngine.ctx_buryCard := None |} with
            | None => (w, LobbyFailed ValidationThrown)
            | Some validation =>
                if negb (valid validation) then
                  match errors validation with
                  | first :: _ => (w, LobbyFailed (PlayerCountRejected first))
                  | [] => (w, LobbyFailed ValidationThrown)
                  end
                else
                  match StateMachine.transition now g StateMachine.LOCK_ROOM with
                  | (_, Failed why) => (w, LobbyFailed (TransitionRefused why))
                  | (g1, Success) =>
                      match StateMachine.transition
                              now g1 StateMachine.START_ROLE_SELECTION with
                      | (_, Failed why) =>
                          (mutated gameId g1 w, LobbyFailed (TransitionRefused why))
                      | (g2, Success) =>
                          let w1 := storeUpdate now gameId g2 w in
                          (on_bus (EventBus.broadcast (game_id g2) ROOM_LOCKED
                                     (roomLockedP (Js.size (game_players g2)))
                                     PUBLIC) w1,
                           LobbySuccess)
                      end
                  end
            end
      end
  end.

End Lobby.

End GameController.

(* ===================================================================== *)
(** ** Specification-side definitions and scenarios *)
(* ===================================================================== *)

(** The hostage-count table H(playerCount, round) as the specification
    prints it: rows 6-10, 11-21 and 22+, columns r=1, r=2 and r=3+. *)
Definition hostageTable (playerCount round : Z) : Z :=
  if playerCount <=? 10 then 1
  else if playerCount <=? 21 then (if round =? 1 then 2 else 1)
  else (if round =? 1 then 3 else if round =? 2 then 2 else 1).

(** A publish request: the arguments of one call of [EventBus.broadcast]. *)
Record Publish := {
  pub_game : string;
  pub_type : ServerEventType;
  pub_payload : Payload;
  pub_scope : EventScope
}.

Definition publish (b : EventBus.t) (p : Publish) : EventBus.t :=
  EventBus.broadcast (pub_game p) (pub_type p) (pub_payload p) (pub_scope p) b.

Definition publishAll (ps : list Publish) (b : EventBus.t) : EventBus.t :=
  fold_left publish ps b.

(** How many of the requests are for the game [gameId]. *)
Definition publishedFor (gameId : string) (ps : list Publish) : nat :=
  length (List.filter (fun p => String.eqb (pub_game p) gameId) ps).

(** The sequence numbers the journal of a game holds, oldest first. *)
Definition journalNumbers (gameId : string) (b : EventBus.t) : list Z :=
  map sequenceNumber (EventBus.getEvents gameId b).

(** The range [1..n]. *)
Definition upTo (n : nat) : list Z := map Z.of_nat (seq 1 n).

(** The game has not published yet. *)
Definition unpublished (gameId : string) (b : EventBus.t) : Prop :=
  EventBus.eventLog b !! gameId = None
  /\ EventBus.sequenceNumbers b !! gameId = None.

Definition timerNotice : Publish :=
  {| pub_game := "game-1"; pub_type := TIMER_UPDATE;
     pub_payload := TimerUpdateP (Some 1000) RUNNING; pub_scope := PUBLIC |}.

(** A player of a running game, placed in a room. *)
Definition seated (pid : string) (r : RoomId) (leader : bool) : string * Player :=
  (pid, set_leadership leader (negb leader)
          (set_currentRoom (Some r) (createPlayer pid pid false))).

(** A game in round [round] with the given members of the two rooms, the
    first member of each room being its leader when [withLeaders]. *)
Definition seatRoom (r : RoomId) (withLeaders : bool) (members : list string)
  : Js.JsMap Player :=
  match members with
  | [] => []
  | first :: others =>
      seated first r withLeaders :: map (fun pid => seated pid r false) others
  end.

Definition roomOf (r : RoomId) (withLeaders : bool) (members : list string)
  : RoomState :=
  {| roomId := r; players := members;
     leaderId := if withLeaders then head members else None;
     leaderVotes := []; leaderVotingActive := false;
     leaderVotingTieCount := 0; hostageCandidates := [];
     hostagesLocked := false; parlayComplete := false |}.

Definition gameInRound (gameId : string) (round : Z) (st : GameStatus)
           (withLeaders : bool) (membersA membersB : list string) : Game :=
  {| game_id := gameId; game_code := "BOOM42"; createdAt := 0; updatedAt := 0;
     version := 0;
     config := {| cfg_totalRounds := 3;
                  roundDurations := [180000; 120000; 60000];
                  enableAdvancedCharacters := false; enableConditions := false;
                  buryCard := false; selectedRoles := [] |};
     game_players := seatRoom ROOM_A withLeaders membersA
                     ++ seatRoom ROOM_B withLeaders membersB;
     state :=
       {| public :=
            {| pub_gameId := gameId; pub_code := "BOOM42"; status := st;
               currentRound := round; pub_totalRounds := 3;
               roomAssignments := map (fun p => (p, ROOM_A)) membersA
                                  ++ map (fun p => (p, ROOM_B)) membersB;
               leaders := {| leader_A := if withLeaders then head membersA else None;
                             leader_B := if withLeaders then head membersB else None |};
               timer := {| ts_duration := Some 0; ts_remaining := Some 0;
                           ts_state := STOPPED |};
               paused := false; pauseReason := None; parlayActive := false |};
          rooms := {| roomA := roomOf ROOM_A withLeaders membersA;
                      roomB := roomOf ROOM_B withLeaders membersB |};
          private :=
            {| roleAssignments := []; deckConfiguration := [];
               buriedCard := None; hostId := default EmptyString (head membersA);
               secretSeed := "seed"; usurpations := [] |} |};
     events := [] |}.

(** The world that holds one game, with one subscription per player (the
    subscription of player [p] has the id [p]). *)
Definition worldOf (g : Game) : GameController.World :=
  {| GameController.store :=
       {| GameStore.games := {[ game_id g := g ]};
          GameStore.gamesByCode := {[ game_code g := game_id g ]} |};
     GameController.bus :=
       fold_left (fun b pid => EventBus.subscribe pid (game_id g) (Some pid) b)
                 (Js.keys (game_players g)) EventBus.empty;
     GameController.timers := ∅ |}.

(** The game stored under [gameId], if any. *)
Definition gameOf (gameId : string) (w : GameController.World) : option Game :=
  GameStore.get gameId (GameController.store w).

(** Six players, three per room, in round 1, leaders elected. *)
Definition sixPlayers : Game :=
  gameInRound "game-1" 1 ROUND_1 true ["ann"; "bob"; "cat"] ["dan"; "eve"; "fay"].

(** Seven players: three in room A and four in room B, as [assignRooms]
    splits them, in round 1 with leaders elected. *)
Definition sevenPlayers : Game :=
  gameInRound "game-1" 1 ROUND_1 true
              ["ann"; "bob"; "cat"] ["dan"; "eve"; "fay"; "gus"].

(** Six players in the lobby phases; ["ann"] created the game and is its
    host. [bury] is the [buryCard] option of the game. *)
Definition lobbyPlayers : Js.JsMap Player :=
  ("ann", createPlayer "ann" "Ann" true)
  :: map (fun pid => (pid, createPlayer pid pid false))
         ["bob"; "cat"; "dan"; "eve"; "fay"].

Definition roleSelectionGame (bury : bool) : Game :=
  {| game_id := "game-1"; game_code := "BOOM42"; createdAt := 0; updatedAt := 0;
     version := 2;
     config := {| cfg_totalRounds := 3;
                  roundDurations := [180000; 120000; 60000];
                  enableAdvancedCharacters := false; enableConditions := false;
                  buryCard := bury; selectedRoles := [] |};
     game_players := lobbyPlayers;
     state :=
       {| public := set_status ROLE_SELECTION
                      (public (createInitialGameState "game-1" "BOOM42" "ann" "seed"));
          rooms := rooms (createInitialGameState "game-1" "BOOM42" "ann" "seed");
          private := private (createInitialGameState "game-1" "BOOM42" "ann" "seed") |};
     events := [] |}.

(** A catalogue with the four characters the testing guide names; none of
    them requires or excludes another. *)
Definition sampleCatalogue (cid : CharacterId) : option CharacterDefinition :=
  let plain nm team cls :=
    Some {| char_id := cid; char_name := nm; char_team := team;
            char_class := cls; requires := None; mutuallyExclusive := None |} in
  if String.eqb cid "president" then plain "President" BLUE PRIMARY
  else if String.eqb cid "bomber" then plain "Bomber" RED PRIMARY
  else if String.eqb cid "blue_team_member" then plain "Blue Team Member" BLUE REGULAR
  else if String.eqb cid "red_team_member" then plain "Red Team Member" RED REGULAR
  else None.

Definition fiveRoles : list CharacterId :=
  ["president"; "bomber"; "blue_team_member"; "red_team_member";
   "blue_team_member"].

Definition sixRoles : list CharacterId := fiveRoles ++ ["red_team_member"].

Definition sevenRoles : list CharacterId := sixRoles ++ ["blue_team_member"].

(** The roles the stored game has selected after a command. *)
Definition selectedRolesOf (w : GameController.World) : option (list CharacterId) :=
  option_map (fun g => selectedRoles (config g)) (gameOf "game-1" w).

(** The hostage candidates and the member list of a room of the stored game. *)
Definition candidatesOf (r : RoomId) (w : GameController.World) : option (list string) :=
  option_map (fun g => hostageCandidates (room r g)) (gameOf "game-1" w).

Definition membersOf (r : RoomId) (w : GameController.World) : option (list string) :=
  option_map (fun g => players (room r g)) (gameOf "game-1" w).

(** A SELECT_HOSTAGE action as the validator sees it. *)
Definition selectHostageAction (target : string) : ValidationEngine.Action :=
  {| ValidationEngine.act_type := ValidationEngine.ClientActionType.SELECT_HOSTAGE;
     ValidationEngine.targetPlayerId := Some target;
     ValidationEngine.candidateId := None |}.

(** The error codes the action validator reports for a hostage selection. *)
Definition hostageSelectionCodes (actor target : string) (g : Game)
  : option (list string) :=
  match Js.get actor (game_players g) with
  | Some p =>
      option_map (map code)
                 (ValidationEngine.validateHostageSelection
                    (selectHostageAction target) p g)
  | None => None
  end.

(** The scenario of a hostage picked from the other room: in a seven-player
    game the leader of room A selects ["bob"], the leader of room B selects
    ["cat"], who sits in room A; both lock, and the parlay timer expires. *)
Definition crossRoomExchange : GameController.World :=
  let w0 := worldOf sevenPlayers in
  let w1 := fst (GameController.selectHostage "game-1" "ann" ROOM_A "bob" 0 w0) in
  let w2 := fst (GameController.selectHostage "game-1" "dan" ROOM_B "cat" 0 w1) in
  let w3 := fst (GameController.lockHostages "game-1" "ann" ROOM_A 0 w2) in
  let w4 := fst (GameController.lockHostages "game-1" "dan" ROOM_B 0 w3) in
  GameController.timerTick "game-1" "game-1_parlay" 30000 w4.

(** Eleven players in round 1, leaders elected: two hostages per room. *)
Definition elevenPlayers : Game :=
  gameInRound "game-1" 1 ROUND_1 true
              ["ann"; "bob"; "cat"; "dan"; "eve"]
              ["fay"; "gus"; "hal"; "ida"; "jon"; "kim"].

(** The leader of room A selects the two hostages of the round, ["bob"]
    and ["cat"]; then ["kim"] leaves the game, which lowers the required
    count to one. *)
Definition afterDeparture : GameController.World :=
  let w0 := worldOf elevenPlayers in
  let w1 := fst (GameController.selectHostage "game-1" "ann" ROOM_A "bob" 0 w0) in
  let w2 := fst (GameController.selectHostage "game-1" "ann" ROOM_A "cat" 0 w1) in
  fst (GameController.leaveGame "game-1" "kim" 0 w2).

(** The candidates of room [r] in an engine state. *)
Definition candidates (r : RoomId) (c : RoundEngine.Ctx) : list string :=
  hostageCandidates (room r (RoundEngine.game c)).

(** SELECT_HOSTAGE applied twice with the same room and target. *)
Definition toggleTwice (r : RoomId) (hostageId : string) (c : RoundEngine.Ctx)
  : RoundEngine.Ctx :=
  fst (RoundEngine.selectHostage r hostageId
         (fst (RoundEngine.selectHostage r hostageId c))).

(** The journal of a game holds an event of the given type, scope and
    payload. *)
Definition journalHas (gameId : string) (ty : ServerEventType)
           (sc : EventScope) (pl : Payload) (b : EventBus.t) : Prop :=
  exists n, In {| sequenceNumber := n; ev_type := ty; scope := sc; payload := pl |}
               (EventBus.getEvents gameId b).

(** Such an event is among the last [k] entries of the journal. *)
Definition journalHasRecent (k : nat) (gameId : string) (ty : ServerEventType)
           (sc : EventScope) (pl : Payload) (b : EventBus.t) : Prop :=
  exists n l,
    l `suffix_of` EventBus.getEvents gameId b
    /\ In {| sequenceNumber := n; ev_type := ty; scope := sc; payload := pl |} l
    /\ (length l <= k)%nat.

(** Room B of a seven-player game after two tied votes: the four members
    have voted again, two for ["dan"] and two for ["eve"]. *)
Definition tiedTwice : RoundEngine.Ctx :=
  let g := gameInRound "game-1" 1 ROUND_1 false
                       ["ann"; "bob"; "cat"] ["dan"; "eve"; "fay"; "gus"] in
  GameController.enter
    (upd_room ROOM_B
       (fun rm => set_leaderVotingTieCount 2
                    (set_leaderVotingActive true
                       (set_leaderVotes [("dan", "dan"); ("eve", "dan");
                                         ("fay", "eve"); ("gus", "eve")] rm)))
       g)
    (worldOf g).

(** The leader of room B once the tied vote is resolved with the given
    random sources. *)
Definition tieBreak (mathRandom : Rand01) (cryptoBytes : nat -> Z) : option string :=
  leaderId
    (room ROOM_B
       (RoundEngine.game
          (fst (RoundEngine.resolveLeaderVote
                  ROOM_B {| math_random := mathRandom;
                            crypto_uint32 := cryptoBytes |} 0 tiedTwice)))).

(** A game without what the timer manager writes into it: the public
    timer view and the [updatedAt] stamp. *)
Definition untimed (g : Game) : Game :=
  with_updatedAt 0
    (upd_public (set_timer {| ts_duration := None; ts_remaining := None;
                              ts_state := STOPPED |}) g).

(** [b'] is [b] after at most [k] publishes. *)
Inductive grows : nat -> EventBus.t -> EventBus.t -> Prop :=
| grows_none (k : nat) (b : EventBus.t) : grows k b b
| grows_publish (k : nat) (b b' : EventBus.t) (key : string)
                (ty : ServerEventType) (pl : Payload) (sc : EventScope) :
    grows k b b' -> grows (S k) b (EventBus.broadcast key ty pl sc b').

(** *** The round timer and the leaders *)

(** Every identifier the game works with is a non-empty string (they are
    UUIDs): the members of the rooms, the candidates voted for, and the
    keys of the players map. *)
Definition wellFormed (g : Game) : Prop :=
  ~ In EmptyString (players (room ROOM_A g))
  /\ ~ In EmptyString (players (room ROOM_B g))
  /\ ~ In EmptyString (Js.values (leaderVotes (room ROOM_A g)))
  /\ ~ In EmptyString (Js.values (leaderVotes (room ROOM_B g)))
  /\ ~ In EmptyString (Js.keys (game_players g)).

(** The room has a leader, by the test the engine applies. *)
Definition hasLeader (r : RoomId) (g : Game) : Prop :=
  Js.truthy (leaderId (room r g)) = true.

Definition roundOf (c : RoundEngine.Ctx) : Z :=
  currentRound (public (state (RoundEngine.game c))).

(** The round timer of the game in the timer manager. *)
Definition mainTimer (c : RoundEngine.Ctx) : option RoundEngine.RoundTimer :=
  RoundEngine.timers c !! game_id (RoundEngine.game c).

Definition publicTimerState (c : RoundEngine.Ctx) : TimerRunState :=
  ts_state (timer (public (state (RoundEngine.game c)))).

(** The round timer is running: in the timer manager, or by the public
    timer view. *)
Definition timerRunning (c : RoundEngine.Ctx) : Prop :=
  (exists tm, mainTimer c = Some tm /\ RoundEngine.rt_state tm = RUNNING)
  \/ publicTimerState c = RUNNING.

(** The timer manager holds a round timer for the game, or the public view
    shows one running. *)
Definition timerKnown (c : RoundEngine.Ctx) : Prop :=
  is_Some (mainTimer c) \/ publicTimerState c = RUNNING.

(** The ignition rule as an invariant. *)
Definition ignitionRule (c : RoundEngine.Ctx) : Prop :=
  roundOf c = 1 -> timerKnown c -> RoundEngine.bothLeaders (RoundEngine.game c) = true.

(** What the rule reads of a game. *)
Definition view (g : Game)
  : string * Z * TimerRunState * (option string * option string)
    * (list string * list string) * (list string * list string) * list string :=
  (game_id g, currentRound (public (state g)),
   ts_state (timer (public (state g))),
   (leaderId (room ROOM_A g), leaderId (room ROOM_B g)),
   (players (room ROOM_A g), players (room ROOM_B g)),
   (Js.values (leaderVotes (room ROOM_A g)), Js.values (leaderVotes (room ROOM_B g))),
   Js.keys (game_players g)).

(** One state of the engine follows another: the game keeps its id, its
    identifiers stay well-formed, no room loses its leader, and a round
    timer known in round 1 was known before or finds both leaders. *)
Definition evolves (c c' : RoundEngine.Ctx) : Prop :=
  game_id (RoundEngine.game c') = game_id (RoundEngine.game c)
  /\ (wellFormed (RoundEngine.game c) ->
      wellFormed (RoundEngine.game c')
      /\ (forall r, hasLeader r (RoundEngine.game c) ->
                    hasLeader r (RoundEngine.game c'))
      /\ (roundOf c' = 1 -> timerKnown c' ->
          RoundEngine.bothLeaders (RoundEngine.game c') = true
          \/ (roundOf c = 1 /\ timerKnown c))).

(** The commands and timer firings that reach the engine during a round.
    A value of [Math.random()] lies in the unit interval. *)
Inductive step : RoundEngine.Ctx -> RoundEngine.Ctx -> Prop :=
| step_nominateLeader (c : RoundEngine.Ctx) (r : RoomId) (candidate : string)
                      (voter : option string) (ent : Entropy) (now : Z) :
    Rand01_ok (math_random ent) ->
    step c (fst (RoundEngine.nominateLeader r candidate voter ent now c))
| step_initiateNewLeaderVote (c : RoundEngine.Ctx) (r : RoomId)
                             (playerId : string) (now : Z) :
    step c (fst (RoundEngine.initiateNewLeaderVote r playerId now c))
| step_voteUsurp (c : RoundEngine.Ctx) (r : RoomId) (voter candidate : string) :
    step c (fst (RoundEngine.voteUsurp r voter candidate c))
| step_abdicate (c : RoundEngine.Ctx) (r : RoomId) (leader successor : string) :
    step c (fst (RoundEngine.abdicate r leader successor c))
| step_selectHostage (c : RoundEngine.Ctx) (r : RoomId) (hostageId : string) :
    step c (fst (RoundEngine.selectHostage r hostageId c))
| step_lockHostages (c : RoundEngine.Ctx) (r : RoomId) (now : Z) :
    step c (fst (RoundEngine.lockHostages r now c))
| step_tick (c : RoundEngine.Ctx) (key : string) (now : Z) :
    step c (RoundEngine.tick key now c)
| step_pauseGame (c : RoundEngine.Ctx) (reason : string) (now : Z) :
    step c (RoundEngine.pauseGame reason now c)
| step_resumeGame (c : RoundEngine.Ctx) (now : Z) :
    step c (RoundEngine.resumeGame now c).

(** One game follows another in what the ignition rule reads: same id,
    round, public timer state and leaders, identifiers still well-formed. *)
Definition sameCore (g g' : Game) : Prop :=
  game_id g' = game_id g
  /\ currentRound (public (state g')) = currentRound (public (state g))
  /\ ts_state (timer (public (state g'))) = ts_state (timer (public (state g)))
  /\ leaderId (room ROOM_A g') = leaderId (room ROOM_A g)
  /\ leaderId (room ROOM_B g') = leaderId (room ROOM_B g)
  /\ (wellFormed g -> wellFormed g').

(** The round timer [startTimer] creates. *)
Definition freshTimer (gameId : string) (duration : option Z) (now : Z)
  : RoundEngine.RoundTimer :=
  {| RoundEngine.rt_gameId := gameId; RoundEngine.rt_duration := duration;
     RoundEngine.rt_remaining := duration; RoundEngine.startTime := now;
     RoundEngine.pausedAt := None; RoundEngine.rt_state := RUNNING;
     RoundEngine.interval := true;
     RoundEngine.onExpired := Some RoundEngine.RoundTimerExpired |}.

(** The engine's state when the host starts a six-player game: rooms
    assigned, no leader yet, no timer. *)
Definition beforeRoundOne : RoundEngine.Ctx :=
  let g := gameInRound "game-1" 0 ROUND_1 false
                       ["ann"; "bob"; "cat"] ["dan"; "eve"; "fay"] in
  GameController.enter g (worldOf g).

(** *** A second vote in round 1 *)

(** Six players with their rooms assigned, ["ann"] being the host; the
    game has not started. *)
Definition roomsAssigned : Game :=
  upd_player "ann" (set_isHost true)
    (gameInRound "game-1" 0 ROOM_ASSIGNMENT false
                 ["ann"; "bob"; "cat"] ["dan"; "eve"; "fay"]).

(** Random sources that are not drawn from in a vote without a tie. *)
Definition quietEntropy : Entropy :=
  {| math_random := {| rnd_num := 0; rnd_den := 1 |};
     crypto_uint32 := fun _ => 0 |}.

(** NOMINATE_LEADER sent by each of [voters] in turn, all for
    [candidate]. *)
Definition castBallots (r : RoomId) (candidate : string) (voters : list string)
           (now : Z) (w : GameController.World) : GameController.World :=
  fold_left (fun w' voter =>
               fst (GameController.nominateLeader "game-1" voter r candidate
                                                  quietEntropy now w'))
            voters w.

(** The host starts the game at time 0. *)
Definition roundOneStarted : GameController.World :=
  fst (GameController.startGame "game-1" "ann" 0 (worldOf roomsAssigned)).

(** Room A elects ["ann"] at time 3, then room B elects ["dan"] at time
    6. *)
Definition bothLeadersElected : GameController.World :=
  castBallots ROOM_B "dan" ["dan"; "eve"; "fay"] 6
    (castBallots ROOM_A "ann" ["ann"; "bob"; "cat"] 3 roundOneStarted).

(** A minute later the timer has ticked and ["bob"] sends
    INITIATE_NEW_LEADER_VOTE for room A. *)
Definition revoteOpened : GameController.World :=
  fst (GameController.initiateNewLeaderVote "game-1" "bob" ROOM_A 60006
         (GameController.timerTick "game-1" "game-1" 60006 bothLeadersElected)).

(** Room A then elects ["bob"], at time 70000. *)
Definition reelected : GameController.World :=
  castBallots ROOM_A "bob" ["ann"; "bob"; "cat"] 70000 revoteOpened.

(** What the ignition rule is about, read off a world: the round, the
    leaders of the two rooms, the public timer and the round timer of the
    timer manager. *)
Definition ignitionView (w : GameController.World)
  : option (Z * (option string * option string) * TimerState)
    * option RoundEngine.RoundTimer :=
  (option_map (fun g => (currentRound (public (state g)),
                         (leaderId (room ROOM_A g), leaderId (room ROOM_B g)),
                         timer (public (state g))))
              (gameOf "game-1" w),
   GameController.timers w !! "game-1").

(** *** Event delivery and phases *)

(** The event [broadcast] creates: the next number of the game. *)
Definition eventOf (gameId : string) (ty : ServerEventType) (pl : Payload)
           (sc : EventScope) (b : EventBus.t) : GameEvent :=
  {| sequenceNumber := default 0 (EventBus.sequenceNumbers b !! gameId) + 1;
     ev_type := ty; scope := sc; payload := pl |}.

(** The phases in the order a game goes through them. *)
Definition phaseRank (s : GameStatus) : nat :=
  match s with
  | LOBBY => 0 | LOCKED => 1 | ROLE_SELECTION => 2 | ROLE_DISTRIBUTION => 3
  | ROOM_ASSIGNMENT => 4
  | ROUND_1 => 5 | ROUND_2 => 6 | ROUND_3 => 7 | ROUND_4 => 8 | ROUND_5 => 9
  | RESOLUTION => 10 | FINISHED => 11
  end.



(** *** The store's two maps *)

(** The code index and the games agree: a stored game sits under its own
    id, which is not empty, and the index sends its code to that id; every
    code of the index leads to a stored game with that code. *)
Definition indexed (s : GameStore.t) : Prop :=
  (forall gameId g,
      GameStore.games s !! gameId = Some g ->
      game_id g = gameId /\ gameId <> EmptyString
      /\ GameStore.gamesByCode s !! game_code g = Some gameId)
  /\ (forall gcode gameId,
         GameStore.gamesByCode s !! gcode = Some gameId ->
         exists g, GameStore.games s !! gameId = Some g /\ game_code g = gcode).

(** A finished game last updated more than [maxAgeMs] before [now]. *)
Definition stale (maxAgeMs now : Z) (g : Game) : bool :=
  GameStatus_eqb (status (public (state g))) FINISHED
  && (now - updatedAt g >? maxAgeMs).

(** A source of [Math.random()] that always returns 0. *)
Definition zeroRandom (k : nat) : Rand01 := {| rnd_num := 0; rnd_den := 1 |}.

(** Six players in the lobby of a game that is not locked yet. *)
Definition lobbyGame : Game :=
  upd_public (set_status LOBBY) (roleSelectionGame false).

(** *** Rooms and seats *)

(** The rooms' member lists say where the players sit. *)
Definition seatsAgree (g : Game) : Prop :=
  forall key r,
    In key (players (room r g))
    <-> exists p, Js.get key (game_players g) = Some p /\ currentRoom p = Some r.

(** *** Timers *)

(** The engine of a six-player game in round 2, with the round timer
    started at time 5 for 120 seconds. *)
Definition roundTwoRunning : RoundEngine.Ctx :=
  let g := gameInRound "game-1" 2 ROUND_2 true
                       ["ann"; "bob"; "cat"] ["dan"; "eve"; "fay"] in
  RoundEngine.startTimer "game-1" (Some 120000)
                         (Some RoundEngine.RoundTimerExpired) 5
                         (GameController.enter g (worldOf g)).

(** The timer [startParlay] creates: thirty seconds, ending the parlay. *)
Definition parlayTimer (g : Game) (now : Z) : RoundEngine.RoundTimer :=
  {| RoundEngine.rt_gameId := RoundEngine.parlayKey g;
     RoundEngine.rt_duration := Some 30000;
     RoundEngine.rt_remaining := Some 30000; RoundEngine.startTime := now;
     RoundEngine.pausedAt := None; RoundEngine.rt_state := RUNNING;
     RoundEngine.interval := true;
     RoundEngine.onExpired := Some RoundEngine.EndParlay |}.

(** Six players in round 1, after the leaders chose their hostage:
    ["bob"] in room A and ["eve"] in room B. *)
Definition hostagesChosen : RoundEngine.Ctx :=
  GameController.enter
    (upd_room ROOM_A (set_hostageCandidates ["bob"])
       (upd_room ROOM_B (set_hostageCandidates ["eve"]) sixPlayers))
    (worldOf sixPlayers).

(* ===================================================================== *)
(** * Properties *)
(* ===================================================================== *)

(** ** Hostage counts *)

Lemma getHostageCount_eq (n r : Z) :
  ValidationEngine.getHostageCount n r = calculateHostageCount n r.
Proof. reflexivity. Qed.

(** C7. For a player count between 6 and 30 and a round number of at least
    1, [calculateHostageCount] returns the entry of the hostage table: 1 for
    6 to 10 players; for 11 to 21 players 2 in round 1 and 1 afterwards; for
    22 players and more 3 in round 1, 2 in round 2 and 1 afterwards. The
    validator's [getHostageCount] agrees with it on every input. *)
Theorem hostage_count_table (n r : Z) :
  6 <= n <= 30 -> 1 <= r ->
  calculateHostageCount n r = hostageTable n r
  /\ (6 <= n <= 10 -> calculateHostageCount n r = 1)
  /\ (11 <= n <= 21 -> calculateHostageCount n r = if r =? 1 then 2 else 1)
  /\ (22 <= n -> calculateHostageCount n r
                 = if r =? 1 then 3 else if r =? 2 then 2 else 1)
  /\ (forall n' r', ValidationEngine.getHostageCount n' r'
                    = calculateHostageCount n' r').
Proof.
  intros Hn Hr. unfold calculateHostageCount, hostageTable.
  repeat split; try (intros; apply getHostageCount_eq);
    repeat match goal with
           | |- context [?a >=? ?b] => destruct (Z.geb_spec a b)
           | |- context [?a <=? ?b] => destruct (Z.leb_spec a b)
           end; cbn [andb]; intros; try reflexivity; try lia.
Qed.

Lemma hostage_count_table_witness :
  calculateHostageCount 22 2 = 2 /\ calculateHostageCount 6 3 = 1.
Proof.
  split.
  - destruct (hostage_count_table 22 2) as (_ & _ & _ & H & _); [lia | lia |].
    apply H. lia.
  - destruct (hostage_count_table 6 3) as (_ & H & _); [lia | lia |].
    apply H. lia.
Defined.

(** ** Event journal *)

Section Journal.

Variable gameId : string.

(** What the bus holds for [gameId] after [n] events were published for
    it: the counter stands at [n], and the journal holds the last 1000 of
    the numbers [1..n]. *)
Definition journalAt (n : nat) (b : EventBus.t) : Prop :=
  default 0 (EventBus.sequenceNumbers b !! gameId) = Z.of_nat n
  /\ journalNumbers gameId b = drop (n - 1000) (upTo n).

Lemma upTo_S (n : nat) : upTo (S n) = upTo n ++ [Z.of_nat (S n)].
Proof. unfold upTo. rewrite seq_S, map_app. reflexivity. Qed.

Lemma length_upTo (n : nat) : length (upTo n) = n.
Proof. unfold upTo. rewrite length_map, length_seq. reflexivity. Qed.

Lemma journalAt_fresh (b : EventBus.t) : unpublished gameId b -> journalAt 0 b.
Proof.
  intros [Hlog Hseq]. unfold journalAt, journalNumbers, EventBus.getEvents.
  rewrite Hlog, Hseq. split; reflexivity.
Qed.

(** A publish for another game leaves the counter and the journal of
    [gameId] alone. *)
Lemma journalAt_other (n : nat) (b : EventBus.t) (p : Publish) :
  pub_game p <> gameId -> journalAt n b -> journalAt n (publish b p).
Proof.
  intros Hne [Hc Hj]. unfold journalAt, journalNumbers, EventBus.getEvents in *.
  unfold publish, EventBus.broadcast, EventBus.createEvent,
    EventBus.getNextSequenceNumber, EventBus.logEvent. cbn.
  rewrite !lookup_insert_ne by assumption. split; assumption.
Qed.

(** A publish for [gameId] is given the next number and appended; the
    oldest entry goes once the journal exceeds 1000 entries. *)
Lemma journalAt_same (n : nat) (b : EventBus.t) (p : Publish) :
  pub_game p = gameId -> journalAt n b -> journalAt (S n) (publish b p).
Proof.
  intros He [Hc Hj]. unfold journalAt, journalNumbers, EventBus.getEvents in *.
  unfold publish, EventBus.broadcast, EventBus.createEvent,
    EventBus.getNextSequenceNumber, EventBus.logEvent.
  cbn -[upTo drop Nat.sub].
  rewrite He, !lookup_insert_eq. cbn -[upTo drop Nat.sub].
  rewrite Hc. split; [lia |].
  set (old := default [] (EventBus.eventLog b !! gameId)) in *.
  assert (Hlen : length old = (n - (n - 1000))%nat).
  { rewrite <- (length_map sequenceNumber old), Hj, length_drop, length_upTo.
    reflexivity. }
  unfold Js.len. rewrite length_app. cbn [length].
  rewrite upTo_S.
  destruct (Z.gtb_spec (Z.of_nat (length old + 1)) 1000) as [Hgt | Hle].
  - replace (S n - 1000)%nat with ((n - 1000) + 1)%nat by lia.
    rewrite <- drop_drop, drop_app_le by (rewrite length_upTo; lia).
    rewrite <- Hj. destruct old as [| e0 old']; [cbn in Hgt; lia |].
    cbn. rewrite map_app. cbn.
    replace (Z.of_nat n + 1) with (Z.of_nat (S n)) by lia. reflexivity.
  - replace (S n - 1000)%nat with 0%nat by lia.
    replace (n - 1000)%nat with 0%nat in Hj by lia.
    rewrite drop_0 in *. rewrite map_app, Hj. cbn -[upTo].
    replace (Z.of_nat n + 1) with (Z.of_nat (S n)) by lia. reflexivity.
Qed.

Lemma journalAt_publishAll (ps : list Publish) :
  forall (n : nat) (b : EventBus.t),
    journalAt n b -> journalAt (n + publishedFor gameId ps) (publishAll ps b).
Proof.
  induction ps as [| p ps IH]; intros n b Hinv.
  - cbn. rewrite Nat.add_0_r. exact Hinv.
  - unfold publishedFor, publishAll in *. cbn [List.filter fold_left].
    destruct (String.eqb_spec (pub_game p) gameId) as [He | Hne].
    + cbn [length]. rewrite <- Nat.add_succ_comm.
      apply IH, journalAt_same; assumption.
    + apply IH, journalAt_other; assumption.
Qed.

End Journal.

(** C6, as the code has it. For a game that has not published yet and any
    sequence of publishes on the bus, [N] of them for this game: the
    publishes of the game are numbered 1, 2, ..., [N] (the counter ends at
    [N]), and the journal holds the numbers of the last 1000 of them, the
    contiguous range from [max 1 (N - 999)] to [N]; it is the whole range
    [1..N] as long as [N] is at most 1000. *)
Theorem journal_numbers_contiguous (gameId : string) (b : EventBus.t)
        (ps : list Publish) :
  unpublished gameId b ->
  let N := publishedFor gameId ps in
  let b' := publishAll ps b in
  default 0 (EventBus.sequenceNumbers b' !! gameId) = Z.of_nat N
  /\ journalNumbers gameId b' = drop (N - 1000) (upTo N)
  /\ (N <= 1000 -> journalNumbers gameId b' = upTo N)%nat.
Proof.
  intros Hfresh N b'.
  destruct (journalAt_publishAll gameId ps 0 b (journalAt_fresh gameId b Hfresh))
    as [Hc Hj].
  cbn [Nat.add] in Hc, Hj. fold N in Hc, Hj. fold b' in Hc, Hj.
  repeat split; [exact Hc | exact Hj |].
  intros Hle. rewrite Hj. replace (N - 1000)%nat with 0%nat by lia.
  apply drop_0.
Qed.

Lemma journal_numbers_contiguous_witness :
  unpublished "game-1" EventBus.empty
  /\ journalNumbers "game-1" (publishAll [timerNotice; timerNotice] EventBus.empty)
     = [1; 2].
Proof.
  assert (H : unpublished "game-1" EventBus.empty) by (split; reflexivity).
  split; [exact H |].
  destruct (journal_numbers_contiguous "game-1" EventBus.empty
              [timerNotice; timerNotice] H) as (_ & _ & Hj).
  apply Hj. vm_compute. lia.
Defined.

(** C6, as stated, fails once a game has published more than 1000 events:
    after 1001 publishes the journal starts at number 2. *)
Lemma journal_drops_first_event :
  journalNumbers "game-1" (publishAll (repeat timerNotice 1001) EventBus.empty)
  <> upTo 1001.
Proof.
  intros H. apply (f_equal head) in H. vm_compute in H. discriminate H.
Qed.

(** ** Scoped delivery *)

Lemma shouldReceiveEvent_room (s : EventBus.Subscription) (r : RoomId) :
  EventBus.shouldReceiveEvent s (ROOM r) = true.
Proof. reflexivity. Qed.

(** Every subscription of a game is handed every room-scoped event of the
    game, whatever its player. *)
Lemma room_scope_reaches_every_subscriber
      (b : EventBus.t) (gameId : string) (r : RoomId) (ty : ServerEventType)
      (pl : Payload) (s : EventBus.Subscription) :
  In s (default [] (EventBus.subscriptions b !! gameId)) ->
  exists e, scope e = ROOM r
            /\ In (EventBus.sub_id s, e)
                  (EventBus.delivered (EventBus.broadcastToRoom gameId r ty pl b)).
Proof.
  intros Hin. unfold EventBus.broadcastToRoom, EventBus.broadcast,
    EventBus.createEvent, EventBus.getNextSequenceNumber, EventBus.logEvent.
  cbn. eexists. split; cycle 1.
  - apply in_or_app. right.
    apply (in_map (fun s0 => (EventBus.sub_id s0, _))).
    apply filter_In. split; [exact Hin | reflexivity].
  - reflexivity.
Qed.

(** C2, on the code. With six players, ["dan"] sits in room B and is no
    member of room A; an event published with scope ROOM_A is delivered to
    the subscription of ["dan"] all the same. *)
Theorem room_event_reaches_other_room :
  let b := GameController.bus (worldOf sixPlayers) in
  let b' := EventBus.broadcastToRoom "game-1" ROOM_A VOTE_CAST
                                     (VoteCastP ROOM_A 1 3) b in
  Js.includes "dan" (players (room ROOM_A sixPlayers)) = false
  /\ option_map currentRoom (Js.get "dan" (game_players sixPlayers))
     = Some (Some ROOM_B)
  /\ EventBus.inbox "dan" b'
     = [ {| sequenceNumber := 1; ev_type := VOTE_CAST; scope := ROOM ROOM_A;
            payload := VoteCastP ROOM_A 1 3 |} ].
Proof. repeat split; vm_compute; reflexivity. Qed.

(** ** Role configuration *)

Lemma hasCode_app (c : string) (l1 l2 : list ValidationError) :
  ValidationEngine.hasCode c (l1 ++ l2)
  = ValidationEngine.hasCode c l1 || ValidationEngine.hasCode c l2.
Proof. apply existsb_app. Qed.

(** What the validator makes of the length of the role list: a list is
    accepted only at the length [expectedCount], which is the player count,
    less one when a card is buried; any other length is answered with
    ROLE_COUNT_MISMATCH. *)
Lemma roles_accepted_only_at_expected_count
      (getCharacter : CharacterId -> option CharacterDefinition)
      (roles : list CharacterId) (n : Z) (bury : bool) :
  n <> 0 ->
  exists r,
    ValidationEngine.validateRoleConfiguration getCharacter roles n bury = Some r
    /\ (valid r = true ->
        Js.len roles = ValidationEngine.expectedCount n (Some bury))
    /\ (Js.len roles <> ValidationEngine.expectedCount n (Some bury) ->
        valid r = false
        /\ ValidationEngine.hasCode "ROLE_COUNT_MISMATCH" (errors r) = true).
Proof.
  intros Hn.
  unfold ValidationEngine.validateRoleConfiguration, ValidationEngine.validate,
    ValidationEngine.validators, ValidationEngine.runValidators,
    ValidationEngine.RoleConfigurationValidator.
  cbn [ValidationEngine.ctx_phase ValidationEngine.ctx_roles
       ValidationEngine.ctx_playerCount ValidationEngine.ctx_buryCard].
  destruct (Z.eqb_spec n 0) as [| _]; [contradiction |].
  eexists. split; [reflexivity |].
  unfold ValidationEngine.mkResult. cbn [valid errors app].
  destruct (Z.eqb_spec (Js.len roles)
                       (ValidationEngine.expectedCount n (Some bury)))
    as [Heq | Hne].
  - split; [intros _; exact Heq | intros H; contradiction].
  - split.
    + intros Hvalid. exfalso. apply Z.eqb_eq in Hvalid.
      unfold Js.len in Hvalid. rewrite !length_app in Hvalid.
      cbn [length] in Hvalid. lia.
    + intros _. split.
      * apply Z.eqb_neq. unfold Js.len. rewrite !length_app. cbn [length]. lia.
      * rewrite !hasCode_app. cbn. rewrite !orb_true_r. reflexivity.
Qed.

(** C1, on the code. In a six-player game that buries a card, the host's
    selection of seven roles (player count plus one) is rejected with
    ROLE_COUNT_MISMATCH, as is one of six roles, and the selection of five
    roles (player count minus one) is accepted and stored. Role distribution
    then buries no card and leaves the sixth player without a role. Without
    a buried card, six roles are accepted. *)
Theorem bury_card_deck_size_rejected :
  let w := worldOf (roleSelectionGame true) in
  let mismatch := RolesRejected [ValidationEngine.mkError "ROLE_COUNT_MISMATCH"]
                                (Some []) in
  let seven := GameController.selectRoles sampleCatalogue "game-1" "ann" sevenRoles 5 w in
  let six := GameController.selectRoles sampleCatalogue "game-1" "ann" sixRoles 5 w in
  let five := GameController.selectRoles sampleCatalogue "game-1" "ann" fiveRoles 5 w in
  let dealt := option_map
                 (fun g => fst (GameController.distributeRoles
                                  sampleCatalogue (fun _ => 0) g EventBus.empty))
                 (gameOf "game-1" (fst five)) in
  (snd seven = Failed mismatch /\ selectedRolesOf (fst seven) = Some [])
  /\ snd six = Failed mismatch
  /\ (snd five = Success /\ selectedRolesOf (fst five) = Some fiveRoles)
  /\ option_map (fun g => buriedCard (private (state g))) dealt = Some None
  /\ option_map (fun g => option_map currentRole (Js.get "fay" (game_players g)))
                dealt = Some (Some None)
  /\ snd (GameController.selectRoles sampleCatalogue "game-1" "ann" sixRoles 5
            (worldOf (roleSelectionGame false))) = Success.
Proof. repeat split; vm_compute; reflexivity. Qed.

(** ** Hostage selection *)

(** A rejected selection leaves the engine's state as it was. *)
Lemma selectHostage_failed_unchanged (r : RoomId) (hostageId : string)
      (c : RoundEngine.Ctx) (why : Failure) :
  snd (RoundEngine.selectHostage r hostageId c) = Failed why ->
  fst (RoundEngine.selectHostage r hostageId c) = c.
Proof.
  unfold RoundEngine.selectHostage.
  destruct (hostagesLocked _); [reflexivity |].
  destruct (Js.includes _ _); [discriminate |].
  destruct (_ >=? _); [reflexivity | discriminate].
Qed.

(** The part of C3 the code keeps: a rejected SELECT_HOSTAGE command leaves
    the stored game, and with it the candidates of both rooms, unchanged. *)
Lemma rejected_selectHostage_keeps_game
      (gameId playerId : string) (r : RoomId) (hostageId : string) (now : Z)
      (w : GameController.World) (why : Failure) :
  snd (GameController.selectHostage gameId playerId r hostageId now w) = Failed why ->
  GameStore.get gameId
    (GameController.store
       (fst (GameController.selectHostage gameId playerId r hostageId now w)))
  = GameStore.get gameId (GameController.store w).
Proof.
  unfold GameController.selectHostage, GameController.delegate.
  destruct (GameStore.get gameId (GameController.store w)) as [g |] eqn:Hg;
    [| intros _; cbn; exact Hg].
  destruct (GameController.notLeader playerId g); [intros _; cbn; exact Hg |].
  destruct (RoundEngine.selectHostage r hostageId (GameController.enter g w))
    as [c res] eqn:Hop.
  cbn [fst snd]. intros Hres. subst res. cbn [success].
  pose proof (selectHostage_failed_unchanged r hostageId
                (GameController.enter g w) why) as Hsame.
  rewrite Hop in Hsame. cbn [fst snd] in Hsame. rewrite Hsame by reflexivity.
  unfold GameController.leave, GameController.mutated, GameController.on_store,
    GameController.enter, GameStore.get. cbn.
  apply lookup_insert_eq.
Qed.

(** The engine adds any identifier it is given: for an unlocked room below
    its limit, the selection of an unselected [hostageId] succeeds whoever
    [hostageId] names. *)
Lemma selectHostage_accepts_any_target (r : RoomId) (hostageId : string)
      (c : RoundEngine.Ctx) :
  hostagesLocked (room r (RoundEngine.game c)) = false ->
  Js.includes hostageId (hostageCandidates (room r (RoundEngine.game c))) = false ->
  Js.len (hostageCandidates (room r (RoundEngine.game c)))
  < RoundEngine.requiredHostages (RoundEngine.game c) ->
  snd (RoundEngine.selectHostage r hostageId c) = Success
  /\ hostageCandidates
       (room r (RoundEngine.game (fst (RoundEngine.selectHostage r hostageId c))))
     = hostageCandidates (room r (RoundEngine.game c)) ++ [hostageId].
Proof.
  intros Hlock Hnew Hlt. unfold RoundEngine.selectHostage.
  rewrite Hlock, Hnew.
  destruct (Z.geb_spec (Js.len (hostageCandidates (room r (RoundEngine.game c))))
                       (RoundEngine.requiredHostages (RoundEngine.game c)));
    [lia |].
  destruct r; split; reflexivity.
Qed.

(** C3, on the code. In a six-player game with leaders elected, the leader
    ["ann"] of room A selects as hostage ["eve"], who sits in room B; then
    herself; then ["zed"], who is not in the game. The controller accepts
    each command and the target becomes a candidate of room A. The action
    validator, which the controller never calls, answers the three targets
    with WRONG_ROOM, INVALID_TARGET and PLAYER_NOT_FOUND, and accepts
    ["bob"], a non-leader member of room A. *)
Theorem hostage_target_unchecked :
  let w := worldOf sixPlayers in
  let pick target := GameController.selectHostage "game-1" "ann" ROOM_A target 0 w in
  (snd (pick "eve") = Success /\ candidatesOf ROOM_A (fst (pick "eve")) = Some ["eve"])
  /\ (snd (pick "ann") = Success /\ candidatesOf ROOM_A (fst (pick "ann")) = Some ["ann"])
  /\ (snd (pick "zed") = Success /\ candidatesOf ROOM_A (fst (pick "zed")) = Some ["zed"])
  /\ candidatesOf ROOM_A w = Some []
  /\ hostageSelectionCodes "ann" "eve" sixPlayers = Some ["WRONG_ROOM"]
  /\ hostageSelectionCodes "ann" "ann" sixPlayers = Some ["INVALID_TARGET"]
  /\ hostageSelectionCodes "ann" "zed" sixPlayers = Some ["PLAYER_NOT_FOUND"]
  /\ hostageSelectionCodes "ann" "bob" sixPlayers = Some [].
Proof. repeat split; vm_compute; reflexivity. Qed.

(** ** Leaving a game *)

Lemma get_delete_same {V} (k : string) (m : Js.JsMap V) :
  Js.get k (Js.delete k m) = None.
Proof.
  induction m as [| [k' v] m IH]; [reflexivity |].
  unfold Js.delete in *. cbn [List.filter fst].
  destruct (String.eqb_spec k' k) as [-> | Hne]; cbn [negb]; [exact IH |].
  cbn [Js.get]. destruct (String.eqb_spec k k') as [-> | _];
    [contradiction | exact IH].
Qed.

Lemma get_delete_other {V} (k k' : string) (m : Js.JsMap V) :
  k' <> k -> Js.get k' (Js.delete k m) = Js.get k' m.
Proof.
  intros Hne. induction m as [| [k0 v] m IH]; [reflexivity |].
  unfold Js.delete in *. cbn [List.filter fst Js.get].
  destruct (String.eqb_spec k0 k) as [-> | Hne0]; cbn [negb].
  - destruct (String.eqb_spec k' k); [contradiction | exact IH].
  - cbn [Js.get]. destruct (String.eqb_spec k' k0); [reflexivity | exact IH].
Qed.

(** What the store holds under [gameId] after [storeUpdate]. *)
Lemma get_storeUpdate (now : Z) (gameId : string) (g : Game)
      (w : GameController.World) :
  GameStore.get gameId (GameController.store (GameController.storeUpdate now gameId g w))
  = Some (with_updatedAt now g).
Proof.
  unfold GameController.storeUpdate, GameController.mutated,
    GameController.on_store, GameStore.update, GameStore.get. cbn.
  destruct (decide (game_id g = gameId)) as [-> | Hne].
  - apply lookup_insert_eq.
  - rewrite lookup_insert_ne by assumption. apply lookup_insert_eq.
Qed.

Lemma get_storeUpdate_lookup (now : Z) (gameId : string) (g : Game)
      (w : GameController.World) :
  GameStore.games (GameController.store (GameController.storeUpdate now gameId g w))
  !! gameId = Some (with_updatedAt now g).
Proof. apply get_storeUpdate. Qed.

(** What [leaveGame] leaves in the store for a stored game and one of its
    players: the players map without the departing player, its first entry
    rewritten by the promotion when the host left, and no game at all when
    nobody remains. *)
Lemma leaveGame_store
        (gameId playerId : string) (now : Z) (w : GameController.World)
        (g : Game) (player : Player) :
  GameStore.get gameId (GameController.store w) = Some g ->
  Js.get playerId (game_players g) = Some player ->
  let remaining := Js.delete playerId (game_players g) in
  let w' := fst (GameController.leaveGame gameId playerId now w) in
  snd (GameController.leaveGame gameId playerId now w) = Success
  /\ Js.get playerId remaining = None
  /\ (forall other, other <> playerId ->
                    Js.get other remaining = Js.get other (game_players g))
  /\ match remaining with
     | [] =>
         GameStore.get gameId (GameController.store w') = None
         /\ GameStore.gamesByCode (GameController.store w') !! game_code g = None
     | (k, first) :: rest =>
         exists g',
           GameStore.get gameId (GameController.store w') = Some g'
           /\ (if isHost player
               then game_players g' = (k, set_isHost true first) :: rest
                    /\ hostId (private (state g')) = id first
               else game_players g' = remaining
                    /\ hostId (private (state g')) = hostId (private (state g)))
     end.
Proof.
  intros Hg Hp remaining w'.
  split; [unfold GameController.leaveGame; rewrite Hg, Hp; reflexivity |].
  split; [apply get_delete_same |].
  split; [intros other Hne; apply get_delete_other; exact Hne |].
  subst w'. unfold GameController.leaveGame. rewrite Hg, Hp.
  set (g1 := upd_players (Js.delete playerId) g).
  assert (Hg1 : game_players g1 = remaining) by reflexivity.
  assert (Hcode : game_code g1 = game_code g) by reflexivity.
  assert (Hpriv : private (state g1) = private (state g)) by reflexivity.
  rewrite Hg1. clearbody g1.
  destruct remaining as [| [k first] rest] eqn:Hrem.
  - replace (isHost player && (Js.size (@nil (string * Player)) >? 0)) with false
      by (rewrite andb_false_r; reflexivity).
    rewrite Hg1. cbn [Js.size Js.len length Z.of_nat Z.eqb fst].
    unfold GameController.on_store, GameController.on_bus.
    cbn [GameController.store]. unfold GameStore.delete.
    rewrite get_storeUpdate_lookup. cbn [GameStore.get GameStore.games
                                         GameStore.gamesByCode].
    split; [apply lookup_delete_eq |].
    cbn [with_updatedAt game_code]. rewrite Hcode. apply lookup_delete_eq.
  - assert (Hsize : (Js.size ((k, first) :: rest) >? 0) = true).
    { unfold Js.size, Js.len. cbn [length]. apply Z.gtb_lt. lia. }
    assert (Hnz : forall ps : Js.JsMap Player,
               length ps = length ((k, first) :: rest) -> (Js.size ps =? 0) = false).
    { intros ps Hlen. unfold Js.size, Js.len. rewrite Hlen. cbn [length].
      apply Z.eqb_neq. lia. }
    rewrite Hsize, andb_true_r. cbn [Js.values map snd].
    destruct (isHost player).
    + rewrite Hnz
        by (cbn [upd_private upd_players with_state with_players game_players];
            rewrite Hg1; reflexivity).
      cbn [fst GameController.on_bus GameController.store].
      rewrite get_storeUpdate. eexists. split; [reflexivity |].
      cbn [upd_private upd_players with_state with_players with_updatedAt
           game_players state private hostId set_hostId].
      rewrite Hg1. split; reflexivity.
    + rewrite Hnz by (rewrite Hg1; reflexivity).
      cbn [fst GameController.on_bus GameController.store].
      rewrite get_storeUpdate. eexists. split; [reflexivity |].
      cbn [with_updatedAt game_players state]. split; [exact Hg1 |].
      rewrite Hpriv. reflexivity.
Qed.

(** C10. A LEAVE_GAME command for a stored game and one of its players
    succeeds, and the departing player is gone from the players map. If
    players remain, the game stays in the store and, when the departing
    player was the host, exactly the first remaining player of the map is
    promoted: their entry has [isHost = true] and is otherwise as it was,
    [private.hostId] is that player's id, and every other remaining player
    keeps the entry they had. When the departing player was not the host,
    nobody is promoted and [hostId] stays. If no player remains, the game is
    deleted from the store, with its room code. *)
Theorem leaveGame_effects
        (gameId playerId : string) (now : Z) (w : GameController.World)
        (g : Game) (player : Player) :
  GameStore.get gameId (GameController.store w) = Some g ->
  Js.get playerId (game_players g) = Some player ->
  let remaining := Js.delete playerId (game_players g) in
  let w' := fst (GameController.leaveGame gameId playerId now w) in
  snd (GameController.leaveGame gameId playerId now w) = Success
  /\ Js.get playerId remaining = None
  /\ (forall other, other <> playerId ->
                    Js.get other remaining = Js.get other (game_players g))
  /\ match remaining with
     | [] =>
         GameStore.get gameId (GameController.store w') = None
         /\ GameStore.gamesByCode (GameController.store w') !! game_code g = None
     | (k, first) :: rest =>
         exists g',
           GameStore.get gameId (GameController.store w') = Some g'
           /\ (if isHost player
               then game_players g' = (k, set_isHost true first) :: rest
                    /\ hostId (private (state g')) = id first
                    /\ (exists newHost,
                           Js.get k (game_players g') = Some newHost
                           /\ isHost newHost = true
                           /\ id newHost = id first
                           /\ name newHost = name first
                           /\ currentRole newHost = currentRole first
                           /\ currentRoom newHost = currentRoom first
                           /\ isLeader newHost = isLeader first
                           /\ hostId (private (state g')) = id newHost)
                    /\ (forall other, other <> k -> other <> playerId ->
                                      Js.get other (game_players g')
                                      = Js.get other (game_players g))
               else game_players g' = remaining
                    /\ hostId (private (state g')) = hostId (private (state g)))
     end.
Proof.
  intros Hg Hp remaining w'.
  destruct (leaveGame_store gameId playerId now w g player Hg Hp)
    as (Hok & Hgone & Hkept & Hstore).
  fold remaining in Hgone, Hkept, Hstore. fold w' in Hstore.
  split; [exact Hok |]. split; [exact Hgone |]. split; [exact Hkept |].
  destruct remaining as [| [k first] rest]; [exact Hstore |].
  destruct Hstore as (g' & Hget & Hplayers). exists g'.
  split; [exact Hget |].
  destruct (isHost player); [| exact Hplayers].
  destruct Hplayers as [Hps Hhost].
  split; [exact Hps |]. split; [exact Hhost |]. split.
  - exists (set_isHost true first). rewrite Hps. cbn [Js.get].
    rewrite String.eqb_refl. repeat split. exact Hhost.
  - intros other Hk Hne. rewrite Hps, <- (Hkept other Hne). cbn [Js.get].
    destruct (String.eqb_spec other k) as [Heq | _]; [contradiction | reflexivity].
Qed.

Lemma leaveGame_effects_witness :
  GameStore.get "game-1" (GameController.store (worldOf (roleSelectionGame false)))
  = Some (roleSelectionGame false)
  /\ snd (GameController.leaveGame "game-1" "ann" 7 (worldOf (roleSelectionGame false)))
     = Success
  /\ exists g',
       GameStore.get "game-1"
         (GameController.store
            (fst (GameController.leaveGame "game-1" "ann" 7
                    (worldOf (roleSelectionGame false)))))
       = Some g'
       /\ hostId (private (state g')) = "bob"
       /\ exists newHost, Js.get "bob" (game_players g') = Some newHost
                          /\ isHost newHost = true.
Proof.
  assert (Hg : GameStore.get "game-1"
                 (GameController.store (worldOf (roleSelectionGame false)))
               = Some (roleSelectionGame false)) by (vm_compute; reflexivity).
  split; [exact Hg |].
  destruct (leaveGame_effects "game-1" "ann" 7 (worldOf (roleSelectionGame false))
              (roleSelectionGame false) (createPlayer "ann" "Ann" true)
              Hg eq_refl) as (Hok & _ & _ & g' & Hget & _ & Hid & Hnew & _).
  split; [exact Hok |].
  exists g'. split; [exact Hget |]. split; [exact Hid |].
  destruct Hnew as (newHost & Hk & Hhost & _).
  exists newHost. split; [exact Hk | exact Hhost].
Defined.

(** ** Toggling a hostage candidate *)

Lemma includes_In (x : string) (l : list string) :
  Js.includes x l = true <-> In x l.
Proof.
  unfold Js.includes. rewrite existsb_exists. split.
  - intros (y & Hin & Heq). apply String.eqb_eq in Heq. subst y. exact Hin.
  - intros Hin. exists x. split; [exact Hin | apply String.eqb_refl].
Qed.

Lemma In_without (x h : string) (l : list string) :
  In x (Js.without h l) <-> In x l /\ x <> h.
Proof.
  unfold Js.without. rewrite filter_In, negb_true_iff, String.eqb_neq.
  reflexivity.
Qed.

Lemma includes_without (h : string) (l : list string) :
  Js.includes h (Js.without h l) = false.
Proof.
  destruct (Js.includes h (Js.without h l)) eqn:E; [| reflexivity].
  apply includes_In, In_without in E. destruct E as [_ Hne]. contradiction.
Qed.

Lemma includes_app_same (h : string) (l : list string) :
  Js.includes h (l ++ [h]) = true.
Proof. apply includes_In, in_or_app. right. left. reflexivity. Qed.

Lemma without_absent (h : string) (l : list string) :
  Js.includes h l = false -> Js.without h l = l.
Proof.
  induction l as [| y l IH]; [reflexivity |].
  unfold Js.includes, Js.without in *. cbn [existsb List.filter].
  rewrite orb_false_iff. intros [Hy Hl].
  rewrite String.eqb_sym, Hy. cbn [negb]. f_equal. apply IH, Hl.
Qed.

Lemma without_app_same (h : string) (l : list string) :
  Js.includes h l = false -> Js.without h (l ++ [h]) = l.
Proof.
  intros Habs. unfold Js.without. rewrite List.filter_app.
  fold (Js.without h l). rewrite (without_absent h l Habs).
  cbn [List.filter]. rewrite String.eqb_refl. cbn [negb]. apply app_nil_r.
Qed.

Lemma length_without_lt (h : string) (l : list string) :
  Js.includes h l = true -> (length (Js.without h l) < length l)%nat.
Proof.
  induction l as [| y l IH]; [discriminate |].
  unfold Js.includes, Js.without in *. cbn [existsb List.filter length].
  pose proof (List.filter_length_le (fun y0 => negb (String.eqb y0 h)) l) as Hle.
  rewrite String.eqb_sym. destruct (String.eqb y h); cbn [negb orb length].
  - intros _. lia.
  - intros Hin. specialize (IH Hin). lia.
Qed.

(** The candidates of the room once [selectHostage] returns, by case, and
    what the call leaves alone. *)
Lemma selectHostage_candidates (r : RoomId) (h : string) (c : RoundEngine.Ctx) :
  let c' := fst (RoundEngine.selectHostage r h c) in
  candidates r c'
  = (if hostagesLocked (room r (RoundEngine.game c)) then candidates r c
     else if Js.includes h (candidates r c) then Js.without h (candidates r c)
     else if Js.len (candidates r c)
             >=? RoundEngine.requiredHostages (RoundEngine.game c)
          then candidates r c
          else candidates r c ++ [h])
  /\ hostagesLocked (room r (RoundEngine.game c'))
     = hostagesLocked (room r (RoundEngine.game c))
  /\ RoundEngine.requiredHostages (RoundEngine.game c')
     = RoundEngine.requiredHostages (RoundEngine.game c)
  /\ room (otherRoom r) (RoundEngine.game c')
     = room (otherRoom r) (RoundEngine.game c).
Proof.
  unfold candidates, RoundEngine.selectHostage.
  destruct (hostagesLocked (room r (RoundEngine.game c))) eqn:Hlock;
    [cbn [fst]; rewrite Hlock; repeat split |].
  destruct (Js.includes h (hostageCandidates (room r (RoundEngine.game c))));
    [destruct r; cbn; cbn in Hlock; rewrite Hlock; repeat split |].
  destruct (_ >=? _);
    [cbn [fst]; rewrite Hlock; repeat split |].
  destruct r; cbn; cbn in Hlock; rewrite Hlock; repeat split.
Qed.

(** The candidates after one and after two calls of [selectHostage] with
    the same room and target, in a room that is not locked and holds at
    most the required number of candidates. *)
Lemma toggleTwice_candidates (r : RoomId) (h : string) (c : RoundEngine.Ctx) :
  hostagesLocked (room r (RoundEngine.game c)) = false ->
  Js.len (candidates r c) <= RoundEngine.requiredHostages (RoundEngine.game c) ->
  let c1 := fst (RoundEngine.selectHostage r h c) in
  let c2 := toggleTwice r h c in
  (forall x, In x (candidates r c2) <-> In x (candidates r c))
  /\ candidates (otherRoom r) c2 = candidates (otherRoom r) c
  /\ (Js.includes h (candidates r c) = true ->
      candidates r c1 = Js.without h (candidates r c)
      /\ candidates r c2 = Js.without h (candidates r c) ++ [h])
  /\ (Js.includes h (candidates r c) = false ->
      Js.len (candidates r c) < RoundEngine.requiredHostages (RoundEngine.game c) ->
      candidates r c1 = candidates r c ++ [h] /\ candidates r c2 = candidates r c).
Proof.
  intros Hlock Hle c1 c2.
  destruct (selectHostage_candidates r h c) as (H1 & Hl1 & Hreq1 & Ho1).
  destruct (selectHostage_candidates r h c1) as (H2 & _ & _ & Ho2).
  fold c1 in H1, Hl1, Hreq1, Ho1.
  change (fst (RoundEngine.selectHostage r h c1)) with c2 in H2, Ho2.
  rewrite Hl1, Hlock, Hreq1 in H2. rewrite Hlock in H1.
  assert (Hother : candidates (otherRoom r) c2 = candidates (otherRoom r) c).
  { unfold candidates. rewrite Ho2, Ho1. reflexivity. }
  destruct (Js.includes h (candidates r c)) eqn:Hin.
  - (* selected: removed, then added again *)
    rewrite H1, includes_without in H2.
    pose proof (length_without_lt h _ Hin) as Hlt.
    destruct (Z.geb_spec (Js.len (Js.without h (candidates r c)))
                         (RoundEngine.requiredHostages (RoundEngine.game c)))
      as [Hge | _]; [unfold Js.len in *; lia |].
    repeat split; try assumption; try discriminate.
    + rewrite H2. intros Hx. apply in_app_or in Hx.
      destruct Hx as [Hx | [<- | []]]; [apply In_without in Hx; tauto |].
      apply includes_In, Hin.
    + rewrite H2. intros Hx. apply in_or_app.
      destruct (String.eqb_spec x h) as [-> | Hne]; [right; left; reflexivity |].
      left. apply In_without. tauto.
  - destruct (Z.geb_spec (Js.len (candidates r c))
                         (RoundEngine.requiredHostages (RoundEngine.game c)))
      as [Hge | Hlt].
    + (* at the limit: both calls are rejected *)
      rewrite H1, Hin in H2.
      destruct (Z.geb_spec (Js.len (candidates r c))
                           (RoundEngine.requiredHostages (RoundEngine.game c)));
        [| lia].
      repeat split; try assumption; try discriminate;
        try (rewrite H2; tauto); intros; lia.
    + (* added, then removed again *)
      rewrite H1, includes_app_same, (without_app_same h _ Hin) in H2.
      repeat split; try assumption; try discriminate;
        rewrite H2; tauto.
Qed.

(** What a call of [selectHostage] returns in a room that is not locked:
    success when the target is selected already or the room is below the
    required count, and the limit error, with nothing changed, when the
    target is not selected and the room is at the count or above. *)
Lemma selectHostage_result (r : RoomId) (h : string) (c : RoundEngine.Ctx) :
  hostagesLocked (room r (RoundEngine.game c)) = false ->
  (Js.includes h (candidates r c) = true
   \/ Js.len (candidates r c) < RoundEngine.requiredHostages (RoundEngine.game c) ->
   snd (RoundEngine.selectHostage r h c) = Success)
  /\ (Js.includes h (candidates r c) = false ->
      RoundEngine.requiredHostages (RoundEngine.game c) <= Js.len (candidates r c) ->
      RoundEngine.selectHostage r h c = (c, Failed HostageLimitReached)).
Proof.
  intros Hlock. unfold candidates, RoundEngine.selectHostage. rewrite Hlock.
  split.
  - intros [Hin | Hlt].
    + rewrite Hin. reflexivity.
    + destruct (Js.includes h _); [reflexivity |].
      destruct (Z.geb_spec (Js.len (hostageCandidates (room r (RoundEngine.game c))))
                           (RoundEngine.requiredHostages (RoundEngine.game c)));
        [lia | reflexivity].
  - intros Hin Hge. rewrite Hin.
    destruct (Z.geb_spec (Js.len (hostageCandidates (room r (RoundEngine.game c))))
                         (RoundEngine.requiredHostages (RoundEngine.game c)));
      [reflexivity | lia].
Qed.

(** C9, as the code has it. In a room whose hostages are not locked and
    that holds at most the required number of candidates, SELECT_HOSTAGE
    applied twice with the same room and target leaves the room's candidates
    unchanged as a set, and the other room's list untouched: a selected
    target is removed by the first call and added again by the second; an
    unselected one is added (below the required count) and removed again;
    in both cases both calls succeed. When the room is at the required
    count and the target is not selected, both calls are rejected with the
    limit error and change nothing at all. *)
Theorem toggle_hostage_twice (r : RoomId) (h : string) (c : RoundEngine.Ctx) :
  hostagesLocked (room r (RoundEngine.game c)) = false ->
  Js.len (candidates r c) <= RoundEngine.requiredHostages (RoundEngine.game c) ->
  let c1 := fst (RoundEngine.selectHostage r h c) in
  let c2 := toggleTwice r h c in
  (forall x, In x (candidates r c2) <-> In x (candidates r c))
  /\ candidates (otherRoom r) c2 = candidates (otherRoom r) c
  /\ (Js.includes h (candidates r c) = true ->
      candidates r c1 = Js.without h (candidates r c)
      /\ candidates r c2 = Js.without h (candidates r c) ++ [h])
  /\ (Js.includes h (candidates r c) = false ->
      Js.len (candidates r c) < RoundEngine.requiredHostages (RoundEngine.game c) ->
      candidates r c1 = candidates r c ++ [h] /\ candidates r c2 = candidates r c)
  /\ (Js.includes h (candidates r c) = true
      \/ Js.len (candidates r c) < RoundEngine.requiredHostages (RoundEngine.game c) ->
      snd (RoundEngine.selectHostage r h c) = Success
      /\ snd (RoundEngine.selectHostage r h c1) = Success)
  /\ (Js.includes h (candidates r c) = false ->
      Js.len (candidates r c) = RoundEngine.requiredHostages (RoundEngine.game c) ->
      RoundEngine.selectHostage r h c = (c, Failed HostageLimitReached)
      /\ RoundEngine.selectHostage r h c1 = (c, Failed HostageLimitReached)
      /\ c2 = c).
Proof.
  intros Hlock Hle c1 c2.
  destruct (toggleTwice_candidates r h c Hlock Hle) as (Hset & Hother & Hdrop & Hadd).
  fold c1 in Hdrop, Hadd. fold c2 in Hset, Hother, Hdrop, Hadd.
  destruct (selectHostage_result r h c Hlock) as [Hok1 Hlimit1].
  destruct (selectHostage_candidates r h c) as (_ & Hl1 & Hreq1 & _).
  fold c1 in Hl1, Hreq1. rewrite Hlock in Hl1.
  destruct (selectHostage_result r h c1 Hl1) as [Hok2 _].
  rewrite Hreq1 in Hok2.
  split; [exact Hset |]. split; [exact Hother |].
  split; [exact Hdrop |]. split; [exact Hadd |]. split.
  - intros Hcase. split; [apply Hok1, Hcase |].
    apply Hok2. destruct (Js.includes h (candidates r c)) eqn:Hin.
    + right. destruct (Hdrop eq_refl) as [Hc1 _]. rewrite Hc1.
      pose proof (length_without_lt h _ Hin). unfold Js.len in *. lia.
    + destruct Hcase as [Hcase | Hlt]; [discriminate Hcase |].
      left. destruct (Hadd eq_refl Hlt) as [Hc1 _]. rewrite Hc1.
      apply includes_app_same.
  - intros Hin Heq.
    assert (Hfirst : RoundEngine.selectHostage r h c = (c, Failed HostageLimitReached))
      by (apply Hlimit1; [exact Hin | lia]).
    assert (Hc1 : c1 = c) by (subst c1; rewrite Hfirst; reflexivity).
    split; [exact Hfirst |].
    split; [rewrite Hc1; exact Hfirst |].
    subst c2. unfold toggleTwice. fold c1. rewrite Hc1, Hfirst. reflexivity.
Qed.

Lemma toggle_hostage_twice_witness :
  Js.len (candidates ROOM_A (GameController.enter sixPlayers (worldOf sixPlayers)))
  <= RoundEngine.requiredHostages sixPlayers
  /\ candidates ROOM_A
       (toggleTwice ROOM_A "bob" (GameController.enter sixPlayers (worldOf sixPlayers)))
     = []
  /\ snd (RoundEngine.selectHostage
            ROOM_A "bob" (GameController.enter sixPlayers (worldOf sixPlayers)))
     = Success
  /\ snd (RoundEngine.selectHostage
            ROOM_A "bob"
            (fst (RoundEngine.selectHostage
                    ROOM_A "bob"
                    (GameController.enter sixPlayers (worldOf sixPlayers)))))
     = Success.
Proof.
  assert (Hle : Js.len (candidates ROOM_A
                          (GameController.enter sixPlayers (worldOf sixPlayers)))
                <= RoundEngine.requiredHostages sixPlayers)
    by (vm_compute; discriminate).
  split; [exact Hle |].
  destruct (toggle_hostage_twice ROOM_A "bob"
              (GameController.enter sixPlayers (worldOf sixPlayers))
              eq_refl Hle) as (_ & _ & _ & Hadd & Hok & _).
  split; [apply Hadd; [reflexivity | vm_compute; reflexivity] |].
  apply Hok. right. vm_compute. reflexivity.
Defined.

(** C9, as stated, fails in a room that holds more candidates than the
    round now requires. Eleven players, round 1: the leader of room A has
    selected ["bob"] and ["cat"] (two are required), and ["kim"] has left
    the game, so that one hostage is required. Hostages are not locked.
    Toggling ["bob"] twice removes him and is then refused at the limit:
    ["bob"] is no candidate any more. *)
Lemma toggle_twice_drops_candidate :
  exists g,
    gameOf "game-1" afterDeparture = Some g
    /\ status (public (state g)) = ROUND_1
    /\ hostagesLocked (room ROOM_A g) = false
    /\ candidates ROOM_A (GameController.enter g afterDeparture) = ["bob"; "cat"]
    /\ candidates ROOM_A (toggleTwice ROOM_A "bob" (GameController.enter g afterDeparture))
       = ["cat"]
    /\ ~ (forall x,
            In x (candidates ROOM_A
                    (toggleTwice ROOM_A "bob" (GameController.enter g afterDeparture)))
            <-> In x (candidates ROOM_A (GameController.enter g afterDeparture))).
Proof.
  eexists. split; [vm_compute; reflexivity |].
  repeat split; try (vm_compute; reflexivity).
  intros H. specialize (H "bob"). destruct H as [_ H].
  assert (Hin : In "bob" ["bob"; "cat"]) by (left; reflexivity).
  apply H in Hin. vm_compute in Hin. destruct Hin as [Hin | []].
  discriminate Hin.
Qed.

(** ** Leader election *)

(** A publish on a game's channel appends to the journal, and what stood
    among the last entries stays in it. *)
Lemma journal_after_broadcast (gameId : string) (ty : ServerEventType)
      (pl : Payload) (sc : EventScope) (b : EventBus.t) (l : list GameEvent) :
  l `suffix_of` EventBus.getEvents gameId b ->
  (length l < 1000)%nat ->
  exists n,
    (l ++ [ {| sequenceNumber := n; ev_type := ty; scope := sc; payload := pl |} ])
      `suffix_of` EventBus.getEvents gameId (EventBus.broadcast gameId ty pl sc b).
Proof.
  intros [k Hk] Hlen.
  unfold EventBus.broadcast, EventBus.createEvent, EventBus.getNextSequenceNumber,
    EventBus.logEvent, EventBus.getEvents in *.
  cbn. rewrite lookup_insert_eq. cbn. eexists.
  rewrite Hk, <- app_assoc.
  destruct (Js.len (k ++ l ++ _) >? 1000) eqn:Hgt.
  - destruct k as [| x k'].
    + apply Z.gtb_lt in Hgt. unfold Js.len in Hgt. cbn [app] in Hgt.
      rewrite length_app in Hgt. cbn [length] in Hgt. lia.
    + exists k'. reflexivity.
  - exists k. reflexivity.
Qed.

Lemma journal_other_broadcast (gameId key : string) (ty : ServerEventType)
      (pl : Payload) (sc : EventScope) (b : EventBus.t) :
  key <> gameId ->
  EventBus.getEvents gameId (EventBus.broadcast key ty pl sc b)
  = EventBus.getEvents gameId b.
Proof.
  intros Hne.
  unfold EventBus.broadcast, EventBus.createEvent, EventBus.getNextSequenceNumber,
    EventBus.logEvent, EventBus.getEvents.
  cbn. rewrite lookup_insert_ne by assumption. reflexivity.
Qed.

Lemma journalHasRecent_new (gameId : string) (ty : ServerEventType)
      (pl : Payload) (sc : EventScope) (b : EventBus.t) :
  journalHasRecent 1 gameId ty sc pl (EventBus.broadcast gameId ty pl sc b).
Proof.
  destruct (journal_after_broadcast gameId ty pl sc b [])
    as [n Hn]; [apply suffix_nil | cbn; lia |].
  exists n, [ {| sequenceNumber := n; ev_type := ty; scope := sc; payload := pl |} ].
  split; [exact Hn |]. split; [left; reflexivity | cbn; lia].
Qed.

Lemma journalHasRecent_keep (k : nat) (gameId key : string)
      (ty ty' : ServerEventType) (pl pl' : Payload) (sc sc' : EventScope)
      (b : EventBus.t) :
  (k < 1000)%nat ->
  journalHasRecent k gameId ty sc pl b ->
  journalHasRecent (S k) gameId ty sc pl (EventBus.broadcast key ty' pl' sc' b).
Proof.
  intros Hk (n & l & Hsuf & Hin & Hlen).
  destruct (decide (key = gameId)) as [-> | Hne].
  - destruct (journal_after_broadcast gameId ty' pl' sc' b l Hsuf) as [m Hm];
      [lia |].
    exists n, (l ++ [ {| sequenceNumber := m; ev_type := ty'; scope := sc';
                         payload := pl' |} ]).
    split; [exact Hm |]. split; [apply in_or_app; left; exact Hin |].
    rewrite length_app. cbn [length]. lia.
  - exists n, l. rewrite journal_other_broadcast by assumption.
    split; [exact Hsuf |]. split; [exact Hin | lia].
Qed.

Lemma journalHasRecent_weaken (k k' : nat) (gameId : string)
      (ty : ServerEventType) (sc : EventScope) (pl : Payload) (b : EventBus.t) :
  (k <= k')%nat ->
  journalHasRecent k gameId ty sc pl b -> journalHasRecent k' gameId ty sc pl b.
Proof.
  intros Hle (n & l & Hsuf & Hin & Hlen). exists n, l.
  split; [exact Hsuf |]. split; [exact Hin | lia].
Qed.

Lemma journalHasRecent_has (k : nat) (gameId : string)
      (ty : ServerEventType) (sc : EventScope) (pl : Payload) (b : EventBus.t) :
  journalHasRecent k gameId ty sc pl b -> journalHas gameId ty sc pl b.
Proof.
  intros (n & l & [pre Hpre] & Hin & _). exists n. rewrite Hpre.
  apply in_or_app. right. exact Hin.
Qed.

(** Rounding to a double moves an integer by at most [2^-53] of itself. *)
Lemma roundToDouble_error (m : Z) :
  0 <= m -> Z.abs (roundToDouble m - m) * 2 ^ 53 <= m.
Proof.
  intros Hm. unfold roundToDouble.
  destruct (Z.leb_spec (Z.log2 m - 52) 0) as [_ | Hk].
  { rewrite Z.sub_diag. cbn [Z.abs Z.mul]. exact Hm. }
  set (k := Z.log2 m - 52) in *.
  assert (Hpos : 0 < m).
  { destruct (Z.eq_dec m 0) as [-> | Hne]; [cbn in k; lia | lia]. }
  pose proof (Z.log2_spec m Hpos) as [Hlo _].
  assert (Hkk : Z.log2 m = (k - 1) + 53) by lia.
  rewrite Hkk, Z.pow_add_r in Hlo by lia.
  assert (Htwo : 2 ^ k = 2 * 2 ^ (k - 1)).
  { replace k with (Z.succ (k - 1)) at 1 by lia. apply Z.pow_succ_r. lia. }
  assert (Hhalf : 0 < 2 ^ (k - 1)) by (apply Z.pow_pos_nonneg; lia).
  pose proof (Z.div_mod m (2 ^ k) ltac:(lia)) as Hdm.
  pose proof (Z.mod_pos_bound m (2 ^ k) ltac:(lia)) as Hmod.
  set (q := m / 2 ^ k) in *. set (rest := m mod 2 ^ k) in *.
  set (half := 2 ^ (k - 1)) in *.
  assert (Hcases : forall up : bool,
             (up = true -> half <= rest) -> (up = false -> rest <= half) ->
             Z.abs ((if up then q + 1 else q) * 2 ^ k - m) * 2 ^ 53 <= m).
  { intros up Hup Hdown.
    assert (Z.abs ((if up then q + 1 else q) * 2 ^ k - m) <= half).
    { destruct up.
      - specialize (Hup eq_refl). nia.
      - specialize (Hdown eq_refl). nia. }
    nia. }
  apply Hcases.
  - destruct (Z.ltb_spec rest half); [discriminate |]. intros _. assumption.
  - destruct (Z.ltb_spec rest half); [lia |].
    destruct (Z.ltb_spec half rest); [discriminate |]. lia.
Qed.

(** The product is rounded before the floor is taken: seven times the
    double [2573485501354569 / 2^52], which lies just below [4/7], is
    [4 - 2^-52] and is rounded to 4, where the floor of the exact product
    is 3. *)
Lemma floorScale_rounds_product :
  floorScale {| rnd_num := 2573485501354569; rnd_den := 2 ^ 52 |} 7 = 4
  /\ (2573485501354569 * 7) / 2 ^ 52 = 3.
Proof. split; vm_compute; reflexivity. Qed.

(** The draw [Math.floor(Math.random() * n)] is an index below [n], also
    after the rounding of the product. *)
Lemma floorScale_range (r : Rand01) (n : Z) :
  Rand01_ok r -> 0 < n -> 0 <= floorScale r n < n.
Proof.
  intros ([Hlo Hhi] & Hbits & _) Hn. unfold floorScale.
  assert (Hm : 0 <= rnd_num r * n) by nia.
  pose proof (roundToDouble_error _ Hm) as Herr.
  set (R := roundToDouble (rnd_num r * n)) in *.
  assert (H53 : 0 < 2 ^ 53) by reflexivity.
  split.
  - apply Z.div_pos; [| lia]. nia.
  - apply Z.div_lt_upper_bound; [lia |].
    assert (R - rnd_num r * n < n) by nia. nia.
Qed.

Lemma index_In {A} (l : list A) (i : Z) :
  0 <= i < Js.len l -> exists x, Js.index l i = Some x /\ In x l.
Proof.
  intros [Hlo Hhi]. unfold Js.index, Js.len in *.
  destruct (Z.ltb_spec i 0); [lia |].
  destruct (nth_error l (Z.to_nat i)) as [x |] eqn:Hnth.
  - exists x. split; [reflexivity | eapply nth_error_In; exact Hnth].
  - apply nth_error_None in Hnth. lia.
Qed.

(** Every position of a list an array can hold is what some draw
    selects: the double [floor ((2 i + 1) 2^52 / n) / 2^53], next to
    [(i + 1/2) / n], selects position [i]. *)
Lemma floorScale_onto (n i : Z) :
  0 <= i < n -> n <= 2 ^ 51 ->
  let draw := {| rnd_num := ((2 * i + 1) * 2 ^ 52) / n; rnd_den := 2 ^ 53 |} in
  Rand01_ok draw /\ floorScale draw n = i.
Proof.
  intros Hi Hn draw.
  assert (H52 : 2 ^ 53 = 2 * 2 ^ 52) by reflexivity.
  assert (P52 : 0 < 2 ^ 52) by reflexivity.
  assert (P51 : 2 ^ 52 = 2 * 2 ^ 51) by reflexivity.
  pose proof (Z.div_mod ((2 * i + 1) * 2 ^ 52) n ltac:(lia)) as Hdm.
  pose proof (Z.mod_pos_bound ((2 * i + 1) * 2 ^ 52) n ltac:(lia)) as Hmod.
  set (num := ((2 * i + 1) * 2 ^ 52) / n) in *.
  set (rest := ((2 * i + 1) * 2 ^ 52) mod n) in *.
  assert (Hnum : 0 <= num < 2 ^ 53).
  { split; [apply Z.div_pos; nia |].
    apply Z.div_lt_upper_bound; [lia | nia]. }
  split.
  - unfold Rand01_ok, draw. cbn [rnd_num rnd_den].
    split; [lia |]. split; [lia |].
    split; vm_compute; [reflexivity | discriminate].
  - unfold floorScale, draw. cbn [rnd_num rnd_den].
    assert (Hm : 0 <= num * n) by nia.
    pose proof (roundToDouble_error _ Hm) as Herr.
    set (R := roundToDouble (num * n)) in *.
    assert (Hclose : Z.abs (R - num * n) < n) by nia.
    symmetry. apply Z.div_unique with (r := R - i * 2 ^ 53); nia.
Qed.

Lemma grows_weaken (k k' : nat) (b b' : EventBus.t) :
  (k <= k')%nat -> grows k b b' -> grows k' b b'.
Proof.
  intros Hle Hg. revert k' Hle.
  induction Hg as [k b | k b b' key ty pl sc Hg IH]; intros k' Hle.
  - apply grows_none.
  - destruct k' as [| k']; [lia |]. apply grows_publish, IH. lia.
Qed.

Lemma grows_trans (j k : nat) (b1 b2 b3 : EventBus.t) :
  grows j b1 b2 -> grows k b2 b3 -> grows (j + k) b1 b3.
Proof.
  intros H12 H23. induction H23 as [k b | k b b' key ty pl sc Hg IH].
  - eapply grows_weaken; [| exact H12]. lia.
  - rewrite Nat.add_succ_r. apply grows_publish, IH, H12.
Qed.

Lemma grows_one (b : EventBus.t) (key : string) (ty : ServerEventType)
      (pl : Payload) (sc : EventScope) :
  grows 1 b (EventBus.broadcast key ty pl sc b).
Proof. apply grows_publish, grows_none. Qed.

(** What is among the last entries of a journal stays in the journal over
    a few publishes. *)
Lemma journalHasRecent_grows (j k : nat) (gameId : string)
      (ty : ServerEventType) (sc : EventScope) (pl : Payload)
      (b b' : EventBus.t) :
  grows k b b' -> (j + k <= 1000)%nat ->
  journalHasRecent j gameId ty sc pl b ->
  journalHasRecent (j + k) gameId ty sc pl b'.
Proof.
  intros Hg. revert j.
  induction Hg as [k b | k b b' key ty' pl' sc' Hg IH]; intros j Hle Hrec.
  - eapply journalHasRecent_weaken; [| exact Hrec]. lia.
  - rewrite Nat.add_succ_r. apply journalHasRecent_keep; [lia |].
    apply IH; [lia | exact Hrec].
Qed.

(** *** What the timer manager leaves alone *)

Lemma untimed_room (r : RoomId) (g g' : Game) :
  untimed g = untimed g' -> room r g = room r g'.
Proof. intros H. apply (f_equal (room r)) in H. destruct r; exact H. Qed.

Lemma untimed_round (g g' : Game) :
  untimed g = untimed g' ->
  currentRound (public (state g)) = currentRound (public (state g')).
Proof.
  intros H. apply (f_equal (fun x => currentRound (public (state x)))) in H.
  exact H.
Qed.

Lemma untimed_id (g g' : Game) : untimed g = untimed g' -> game_id g = game_id g'.
Proof. intros H. apply (f_equal game_id) in H. exact H. Qed.

Lemma untimed_players (g g' : Game) :
  untimed g = untimed g' -> game_players g = game_players g'.
Proof. intros H. apply (f_equal game_players) in H. exact H. Qed.

Lemma broadcastTimerState_frame (key : string) (tm : RoundEngine.RoundTimer)
      (now : Z) (c : RoundEngine.Ctx) :
  let c' := RoundEngine.broadcastTimerState key tm now c in
  untimed (RoundEngine.game c') = untimed (RoundEngine.game c)
  /\ RoundEngine.timers c' = RoundEngine.timers c
  /\ grows 1 (RoundEngine.bus c) (RoundEngine.bus c').
Proof.
  unfold RoundEngine.broadcastTimerState.
  destruct (String.eqb key (game_id (RoundEngine.game c)));
    cbn; repeat split; apply grows_one.
Qed.

Lemma startTimer_frame (key : string) (duration : option Z)
      (cb : option RoundEngine.Callback) (now : Z) (c : RoundEngine.Ctx) :
  let c' := RoundEngine.startTimer key duration cb now c in
  untimed (RoundEngine.game c') = untimed (RoundEngine.game c)
  /\ grows 1 (RoundEngine.bus c) (RoundEngine.bus c').
Proof.
  unfold RoundEngine.startTimer.
  match goal with
  | |- context [RoundEngine.broadcastTimerState ?k ?tm ?n ?c0] =>
      destruct (broadcastTimerState_frame k tm n c0) as (Hg & _ & Hb)
  end.
  cbn zeta. split; [rewrite Hg; reflexivity | exact Hb].
Qed.

Lemma pauseTimer_frame (key : string) (now : Z) (c : RoundEngine.Ctx) :
  let c' := RoundEngine.pauseTimer key now c in
  untimed (RoundEngine.game c') = untimed (RoundEngine.game c)
  /\ grows 1 (RoundEngine.bus c) (RoundEngine.bus c').
Proof.
  unfold RoundEngine.pauseTimer.
  destruct (RoundEngine.timers c !! key) as [tm |];
    [| split; [reflexivity | apply grows_none]].
  match goal with
  | |- context [RoundEngine.broadcastTimerState ?k ?tm ?n ?c0] =>
      destruct (broadcastTimerState_frame k tm n c0) as (Hg & _ & Hb)
  end.
  cbn zeta. split; [rewrite Hg; reflexivity | exact Hb].
Qed.

Lemma resumeTimer_frame (key : string) (now : Z) (c : RoundEngine.Ctx) :
  let c' := RoundEngine.resumeTimer key now c in
  untimed (RoundEngine.game c') = untimed (RoundEngine.game c)
  /\ grows 1 (RoundEngine.bus c) (RoundEngine.bus c').
Proof.
  unfold RoundEngine.resumeTimer.
  destruct (RoundEngine.timers c !! key) as [tm |];
    [| split; [reflexivity | apply grows_none]].
  destruct (RoundEngine.rt_state tm);
    try (split; [reflexivity | apply grows_none]).
  destruct (RoundEngine.noPausedAt tm);
    [split; [reflexivity | apply grows_none] |].
  match goal with
  | |- context [RoundEngine.broadcastTimerState ?k ?tm ?n ?c0] =>
      destruct (broadcastTimerState_frame k tm n c0) as (Hg & _ & Hb)
  end.
  cbn zeta. split; [rewrite Hg; reflexivity | exact Hb].
Qed.

Lemma startOrResumeTimer_frame (old new : option string) (now : Z)
      (c : RoundEngine.Ctx) :
  let c' := RoundEngine.startOrResumeTimer old new now c in
  untimed (RoundEngine.game c') = untimed (RoundEngine.game c)
  /\ grows 2 (RoundEngine.bus c) (RoundEngine.bus c').
Proof.
  unfold RoundEngine.startOrResumeTimer.
  destruct (_ =? 1).
  - destruct (RoundEngine.bothLeaders _);
      [| split; [reflexivity | apply grows_none]].
    match goal with
    | |- context [RoundEngine.startTimer ?k ?d ?cb ?n ?c0] =>
        destruct (startTimer_frame k d cb n c0) as (Hg & Hb)
    end.
    cbn zeta. split; [exact Hg |]. apply grows_publish, Hb.
  - destruct (_ && _); [| split; [reflexivity | apply grows_none]].
    match goal with
    | |- context [RoundEngine.resumeTimer ?k ?n ?c0] =>
        destruct (resumeTimer_frame k n c0) as (Hg & Hb)
    end.
    cbn zeta. split; [exact Hg |]. apply grows_publish, Hb.
Qed.

Lemma keys_update {V} (k : string) (f : V -> V) (m : Js.JsMap V) :
  Js.keys (Js.update k f m) = Js.keys m.
Proof.
  induction m as [| [k' v] m IH]; [reflexivity |].
  cbn [Js.update]. destruct (String.eqb k k'); cbn; [reflexivity |].
  unfold Js.keys in IH. rewrite IH. reflexivity.
Qed.

(** The room of an election once the leader is installed. *)
Lemma installLeader_room (r : RoomId) (newLeader : option string)
      (c : RoundEngine.Ctx) :
  let c' := RoundEngine.installLeader r newLeader c in
  room r (RoundEngine.game c')
  = set_leaderVotingTieCount 0
      (set_leaderVotingActive false
         (set_leaderId newLeader (room r (RoundEngine.game c))))
  /\ room (otherRoom r) (RoundEngine.game c')
     = room (otherRoom r) (RoundEngine.game c)
  /\ RoundEngine.bus c' = RoundEngine.bus c
  /\ RoundEngine.timers c' = RoundEngine.timers c
  /\ game_id (RoundEngine.game c') = game_id (RoundEngine.game c)
  /\ currentRound (public (state (RoundEngine.game c')))
     = currentRound (public (state (RoundEngine.game c)))
  /\ config (RoundEngine.game c') = config (RoundEngine.game c)
  /\ timer (public (state (RoundEngine.game c')))
     = timer (public (state (RoundEngine.game c)))
  /\ Js.keys (game_players (RoundEngine.game c'))
     = Js.keys (game_players (RoundEngine.game c)).
Proof.
  unfold RoundEngine.installLeader.
  destruct r; destruct (leaderId (room _ (RoundEngine.game c))) as [old |];
    destruct newLeader as [new |]; cbn -[Js.keys];
    repeat match goal with
           | |- context [if ?b then _ else _] => destruct b
           end; cbn -[Js.keys]; rewrite ?keys_update; repeat split.
Qed.

(** What [electLeader] does: the new leader is recorded in the room, the
    vote is closed, and LEADER_ELECTED is published to the room with the
    method. *)
Lemma electLeader_spec (r : RoomId) (newLeader : option string)
      (method : ElectionMethod) (now : Z) (c : RoundEngine.Ctx) :
  let c' := fst (RoundEngine.electLeader r newLeader method now c) in
  snd (RoundEngine.electLeader r newLeader method now c) = Success
  /\ room r (RoundEngine.game c')
     = set_leaderVotingTieCount 0
         (set_leaderVotingActive false
            (set_leaderId newLeader (room r (RoundEngine.game c))))
  /\ room (otherRoom r) (RoundEngine.game c')
     = room (otherRoom r) (RoundEngine.game c)
  /\ journalHas (game_id (RoundEngine.game c)) LEADER_ELECTED (ROOM r)
                (LeaderElectedP r newLeader method false) (RoundEngine.bus c').
Proof.
  unfold RoundEngine.electLeader. cbn [fst snd].
  destruct (installLeader_room r newLeader c)
    as (Hroom & Hother & Hbus & _ & Hid & _).
  set (c2 := RoundEngine.installLeader r newLeader c) in *.
  set (c3 := RoundEngine.broadcastToRoom r LEADER_ELECTED
               (LeaderElectedP r newLeader method false) c2).
  destruct (startOrResumeTimer_frame (leaderId (room r (RoundEngine.game c)))
              newLeader now c3) as (Hg & Hb).
  split; [reflexivity |].
  split; [rewrite (untimed_room r _ _ Hg); exact Hroom |].
  split; [rewrite (untimed_room (otherRoom r) _ _ Hg); exact Hother |].
  apply (journalHasRecent_has 3).
  apply (journalHasRecent_grows 1 2 _ _ _ _ (RoundEngine.bus c3));
    [exact Hb | lia |].
  subst c3. unfold RoundEngine.broadcastToRoom, RoundEngine.on_bus,
              EventBus.broadcastToRoom. cbn [RoundEngine.bus RoundEngine.game].
  rewrite Hid. apply journalHasRecent_new.
Qed.

(** C4, as the code has it. When the vote of a room is resolved with more
    than one candidate tied at the maximum, the tie count is incremented.
    If it has reached 3, the candidate at the index
    [Math.floor(Math.random() * winners.length)] of the tied candidates,
    the product being the rounded product of the two doubles, is elected:
    the leader is one of the tied candidates (and each of them is what
    some draw elects, the list being one an array can hold), the command
    succeeds, the vote is closed with the tie count reset, and
    LEADER_ELECTED is published to the room with method RANDOM_SELECTION. Otherwise the votes are cleared, voting stays
    active, the tie count keeps its new value, no leader changes, a tie
    notice is published to the room, and the command returns the error that
    carries the tie count and the tied candidates. *)
Theorem tied_vote_resolution (r : RoomId) (ent : Entropy) (now : Z)
        (c : RoundEngine.Ctx) :
  let rm := room r (RoundEngine.game c) in
  let winners := RoundEngine.winnersOf (leaderVotes rm) in
  let tieCount := leaderVotingTieCount rm + 1 in
  let result := RoundEngine.resolveLeaderVote r ent now c in
  let rm' := room r (RoundEngine.game (fst result)) in
  let published := journalHas (game_id (RoundEngine.game c)) LEADER_ELECTED (ROOM r) in
  Js.len winners > 1 ->
  Rand01_ok (math_random ent) ->
  (tieCount >= 3 ->
   exists leader,
     Js.index winners (floorScale (math_random ent) (Js.len winners)) = Some leader
     /\ In leader winners
     /\ snd result = Success
     /\ leaderId rm' = Some leader
     /\ leaderVotingActive rm' = false
     /\ leaderVotingTieCount rm' = 0
     /\ published (LeaderElectedP r (Some leader) RANDOM_SELECTION false)
                  (RoundEngine.bus (fst result)))
  /\ (tieCount >= 3 -> Js.len winners < 2 ^ 32 ->
      forall candidate, In candidate winners ->
        exists draw, Rand01_ok draw
                     /\ Js.index winners (floorScale draw (Js.len winners))
                        = Some candidate)
  /\ (tieCount < 3 ->
      snd result = Failed (TieDetected tieCount winners)
      /\ leaderVotingTieCount rm' = tieCount
      /\ leaderVotes rm' = []
      /\ leaderVotingActive rm' = true
      /\ leaderId rm' = leaderId rm
      /\ published (LeaderTieP r tieCount winners) (RoundEngine.bus (fst result))).
Proof.
  intros rm winners tieCount result rm' published Htie Hrand.
  assert (Hgt : (Js.len winners >? 1) = true) by (apply Z.gtb_lt; lia).
  subst result rm'. unfold RoundEngine.resolveLeaderVote.
  fold rm. fold winners. rewrite Hgt. fold tieCount.
  split; [| split].
  - intros Hthree.
    destruct (Z.geb_spec tieCount 3) as [_ | Hlt]; [| lia].
    destruct (index_In winners (floorScale (math_random ent) (Js.len winners)))
      as (leader & Hidx & Hin); [apply floorScale_range; [exact Hrand | lia] |].
    exists leader. rewrite Hidx.
    set (c1 := RoundEngine.on_game
                 (upd_room r (set_leaderVotingTieCount tieCount)) c).
    destruct (electLeader_spec r (Some leader) RANDOM_SELECTION now c1)
      as (Hres & Hroom & _ & Hpub).
    repeat split; try assumption; try (rewrite Hroom; reflexivity).
  - intros _ Hlen candidate Hin.
    destruct (In_nth_error _ _ Hin) as [i Hi].
    assert (Hrange : 0 <= Z.of_nat i < Js.len winners).
    { unfold Js.len. split; [lia |].
      apply Nat2Z.inj_lt, nth_error_Some. rewrite Hi. discriminate. }
    assert (Hfits : Js.len winners <= 2 ^ 51)
      by (assert (2 ^ 32 <= 2 ^ 51) by (vm_compute; discriminate); lia).
    destruct (floorScale_onto (Js.len winners) (Z.of_nat i) Hrange Hfits)
      as [Hok Hdraw].
    eexists. split; [exact Hok |]. rewrite Hdraw. unfold Js.index.
    destruct (Z.ltb_spec (Z.of_nat i) 0); [lia |].
    rewrite Nat2Z.id. exact Hi.
  - intros Hlt. destruct (Z.geb_spec tieCount 3) as [Hge | _]; [lia |].
    cbn [fst snd]. split; [reflexivity |].
    assert (Hroom : room r
                      (RoundEngine.game
                         (RoundEngine.on_game
                            (upd_room r (fun rm0 => set_leaderVotingActive true
                                                      (set_leaderVotes [] rm0)))
                            (RoundEngine.broadcastToRoom r LEADER_ELECTED
                               (LeaderTieP r tieCount winners)
                               (RoundEngine.on_game
                                  (upd_room r (set_leaderVotingTieCount tieCount))
                                  c))))
                    = set_leaderVotingActive true
                        (set_leaderVotes [] (set_leaderVotingTieCount tieCount rm)))
      by (subst rm; destruct r; reflexivity).
    rewrite Hroom. repeat split.
    apply (journalHasRecent_has 1). cbn. apply journalHasRecent_new.
Qed.

Lemma tied_vote_resolution_witness :
  Rand01_ok {| rnd_num := 1; rnd_den := 2 |}
  /\ tieBreak {| rnd_num := 1; rnd_den := 2 |} (fun _ => 0) = Some "eve".
Proof.
  assert (Hok : Rand01_ok {| rnd_num := 1; rnd_den := 2 |})
    by (unfold Rand01_ok; cbn; lia).
  split; [exact Hok |].
  destruct (tied_vote_resolution
              ROOM_B {| math_random := {| rnd_num := 1; rnd_den := 2 |};
                        crypto_uint32 := fun _ => 0 |} 0 tiedTwice)
    as (Hthird & _); [vm_compute; reflexivity | exact Hok |].
  destruct Hthird as (leader & Hidx & _ & _ & Hleader & _);
    [vm_compute; discriminate |].
  vm_compute in Hidx. injection Hidx as <-. exact Hleader.
Defined.

(** C4, as stated, fails in its source of randomness: the third tie is
    broken by [Math.random()], and [crypto.randomBytes] has no part in it.
    In room B, tied a third time between ["dan"] and ["eve"], the elected
    leader follows the value of [Math.random()] whatever bytes the
    cryptographic source would deliver. *)
Lemma tie_break_ignores_crypto_source :
  (forall cryptoBytes,
      tieBreak {| rnd_num := 0; rnd_den := 2 |} cryptoBytes = Some "dan")
  /\ (forall cryptoBytes,
         tieBreak {| rnd_num := 1; rnd_den := 2 |} cryptoBytes = Some "eve").
Proof. split; intros cryptoBytes; vm_compute; reflexivity. Qed.

(** ** The round-1 timer *)

Lemma bothLeaders_iff (g : Game) :
  RoundEngine.bothLeaders g = true <-> hasLeader ROOM_A g /\ hasLeader ROOM_B g.
Proof. unfold RoundEngine.bothLeaders, hasLeader. apply andb_true_iff. Qed.

Lemma evolves_refl (c : RoundEngine.Ctx) : evolves c c.
Proof.
  split; [reflexivity |]. intros Hwf. split; [exact Hwf |].
  split; [intros r Hr; exact Hr |].
  intros Hr Hk. right. split; assumption.
Qed.

Lemma evolves_trans (c1 c2 c3 : RoundEngine.Ctx) :
  evolves c1 c2 -> evolves c2 c3 -> evolves c1 c3.
Proof.
  intros [Hid1 H1] [Hid2 H2]. split; [congruence |]. intros Hwf.
  destruct (H1 Hwf) as (Hwf2 & Hl1 & Ht1).
  destruct (H2 Hwf2) as (Hwf3 & Hl2 & Ht2).
  split; [exact Hwf3 |]. split; [intros r Hr; apply Hl2, Hl1, Hr |].
  intros Hr Hk. destruct (Ht2 Hr Hk) as [Hb | [Hr2 Hk2]]; [left; exact Hb |].
  destruct (Ht1 Hr2 Hk2) as [Hb | Hprev]; [left | right; exact Hprev].
  apply bothLeaders_iff in Hb. apply bothLeaders_iff.
  destruct Hb as [Ha Hb]. split; apply Hl2; assumption.
Qed.

(** The rule and well-formedness are carried along. *)
Lemma evolves_ignitionRule (c c' : RoundEngine.Ctx) :
  evolves c c' -> wellFormed (RoundEngine.game c) -> ignitionRule c ->
  wellFormed (RoundEngine.game c') /\ ignitionRule c'.
Proof.
  intros [_ H] Hwf Hrule. destruct (H Hwf) as (Hwf' & Hl & Ht).
  split; [exact Hwf' |]. intros Hr Hk.
  destruct (Ht Hr Hk) as [Hb | [Hr0 Hk0]]; [exact Hb |].
  specialize (Hrule Hr0 Hk0). apply bothLeaders_iff in Hrule.
  apply bothLeaders_iff. destruct Hrule as [Ha Hb]. split; apply Hl; assumption.
Qed.

(** A change of the game that the rule does not read, with the timers as
    they were. *)
Lemma evolves_view (c c' : RoundEngine.Ctx) :
  view (RoundEngine.game c') = view (RoundEngine.game c) ->
  RoundEngine.timers c' = RoundEngine.timers c ->
  evolves c c'.
Proof.
  unfold view. intros Hv Ht.
  injection Hv as Hid Hround Hts HlA HlB HpA HpB HvA HvB Hk.
  split; [exact Hid |]. intros Hwf.
  unfold wellFormed, hasLeader, roundOf, timerKnown, mainTimer,
    publicTimerState, RoundEngine.bothLeaders, room in *.
  rewrite Hid, Hround, Hts, HlA, HlB, HpA, HpB, HvA, HvB, Hk, Ht.
  split; [exact Hwf |]. split.
  - intros r. destruct r; [rewrite HlA | rewrite HlB]; intros H; exact H.
  - intros Hr Hkn. right. split; assumption.
Qed.

Lemma evolves_on_bus (f : EventBus.t -> EventBus.t) (c : RoundEngine.Ctx) :
  evolves c (RoundEngine.on_bus f c).
Proof. apply evolves_view; reflexivity. Qed.

Lemma evolves_broadcast (ty : ServerEventType) (pl : Payload) (sc : EventScope)
      (c : RoundEngine.Ctx) :
  evolves c (RoundEngine.broadcast ty pl sc c).
Proof. apply evolves_on_bus. Qed.

Lemma evolves_broadcastToRoom (r : RoomId) (ty : ServerEventType) (pl : Payload)
      (c : RoundEngine.Ctx) :
  evolves c (RoundEngine.broadcastToRoom r ty pl c).
Proof. apply evolves_on_bus. Qed.

(** *** Timer manager *)

Lemma untimed_wellFormed (g g' : Game) :
  untimed g' = untimed g -> wellFormed g -> wellFormed g'.
Proof.
  intros H. unfold wellFormed.
  rewrite (untimed_room ROOM_A _ _ H), (untimed_room ROOM_B _ _ H),
    (untimed_players _ _ H). intros Hwf. exact Hwf.
Qed.

(** A step that changes the game in its timer view only. *)
Lemma evolves_timerwise (c c' : RoundEngine.Ctx) :
  untimed (RoundEngine.game c') = untimed (RoundEngine.game c) ->
  (roundOf c = 1 -> timerKnown c' ->
   RoundEngine.bothLeaders (RoundEngine.game c) = true \/ timerKnown c) ->
  evolves c c'.
Proof.
  intros Hg Hknown. split; [apply untimed_id, Hg |]. intros Hwf.
  split; [apply (untimed_wellFormed _ _ Hg Hwf) |].
  assert (Hlead : forall r, leaderId (room r (RoundEngine.game c'))
                            = leaderId (room r (RoundEngine.game c)))
    by (intros r; rewrite (untimed_room r _ _ Hg); reflexivity).
  split; [intros r; unfold hasLeader; rewrite Hlead; intros H; exact H |].
  unfold roundOf in *. rewrite (untimed_round _ _ Hg). intros Hr Hk.
  destruct (Hknown Hr Hk) as [Hb | Hprev]; [left | right; split; assumption].
  unfold RoundEngine.bothLeaders in *. rewrite !Hlead. exact Hb.
Qed.

Lemma broadcastTimerState_other (key : string) (tm : RoundEngine.RoundTimer)
      (now : Z) (c : RoundEngine.Ctx) :
  key <> game_id (RoundEngine.game c) ->
  RoundEngine.game (RoundEngine.broadcastTimerState key tm now c)
  = RoundEngine.game c.
Proof.
  intros Hne. unfold RoundEngine.broadcastTimerState.
  destruct (String.eqb_spec key (game_id (RoundEngine.game c)));
    [contradiction | reflexivity].
Qed.

Lemma evolves_stopTimer (key : string) (c : RoundEngine.Ctx) :
  evolves c (RoundEngine.stopTimer key c).
Proof.
  apply evolves_timerwise; [reflexivity |].
  intros _ Hk. right.
  destruct Hk as [Hsome | Hpub]; [left | right; exact Hpub].
  unfold mainTimer, RoundEngine.stopTimer, RoundEngine.on_timers in *.
  cbn [RoundEngine.timers RoundEngine.game] in Hsome.
  rewrite lookup_delete in Hsome.
  destruct (decide _); [destruct Hsome as [x Hx]; discriminate | exact Hsome].
Qed.

(** Writing a timer that was there, and publishing its state. *)
Lemma evolves_touch (key : string) (tm tm' : RoundEngine.RoundTimer) (now : Z)
      (announce : bool) (c : RoundEngine.Ctx) :
  RoundEngine.timers c !! key = Some tm ->
  evolves c
    (let c1 := RoundEngine.on_timers (insert key tm') c in
     if announce then RoundEngine.broadcastTimerState key tm' now c1 else c1).
Proof.
  intros Hthere. cbn zeta.
  set (c1 := RoundEngine.on_timers (insert key tm') c).
  destruct (broadcastTimerState_frame key tm' now c1) as (Hg & Ht & _).
  set (c' := if announce then RoundEngine.broadcastTimerState key tm' now c1
             else c1).
  assert (Hg' : untimed (RoundEngine.game c') = untimed (RoundEngine.game c))
    by (subst c'; destruct announce; [exact Hg | reflexivity]).
  assert (Ht' : RoundEngine.timers c' = <[key := tm']> (RoundEngine.timers c))
    by (subst c'; destruct announce; [exact Ht | reflexivity]).
  apply evolves_timerwise; [exact Hg' |].
  intros _ Hk. right.
  destruct (decide (key = game_id (RoundEngine.game c))) as [-> | Hne].
  - left. unfold mainTimer. rewrite Hthere. eexists. reflexivity.
  - assert (Hsame : RoundEngine.game c' = RoundEngine.game c).
    { subst c'. destruct announce; [| reflexivity].
      apply (broadcastTimerState_other key tm' now c1 Hne). }
    destruct Hk as [Hsome | Hpub]; [left | right].
    + unfold mainTimer in *. rewrite Ht', Hsame in Hsome.
      rewrite lookup_insert_ne in Hsome by assumption. exact Hsome.
    + unfold publicTimerState in *. rewrite Hsame in Hpub. exact Hpub.
Qed.

Lemma evolves_pauseTimer (key : string) (now : Z) (c : RoundEngine.Ctx) :
  evolves c (RoundEngine.pauseTimer key now c).
Proof.
  unfold RoundEngine.pauseTimer.
  destruct (RoundEngine.timers c !! key) as [tm |] eqn:Htm; [| apply evolves_refl].
  apply (evolves_touch key tm _ now true c Htm).
Qed.

Lemma evolves_resumeTimer (key : string) (now : Z) (c : RoundEngine.Ctx) :
  evolves c (RoundEngine.resumeTimer key now c).
Proof.
  unfold RoundEngine.resumeTimer.
  destruct (RoundEngine.timers c !! key) as [tm |] eqn:Htm; [| apply evolves_refl].
  destruct (RoundEngine.rt_state tm); try apply evolves_refl.
  destruct (RoundEngine.noPausedAt tm); [apply evolves_refl |].
  apply (evolves_touch key tm _ now true c Htm).
Qed.

(** Starting a timer under another key than the game's id. *)
Lemma evolves_startTimer_other (key : string) (duration : option Z)
      (cb : option RoundEngine.Callback) (now : Z) (c : RoundEngine.Ctx) :
  key <> game_id (RoundEngine.game c) ->
  evolves c (RoundEngine.startTimer key duration cb now c).
Proof.
  intros Hne. destruct (startTimer_frame key duration cb now c) as (Hg & _).
  apply evolves_timerwise; [exact Hg |].
  intros _ Hk. right. revert Hk.
  unfold timerKnown, mainTimer, publicTimerState, RoundEngine.startTimer.
  match goal with
  | |- context [RoundEngine.broadcastTimerState ?k ?tm ?n ?c0] =>
      destruct (broadcastTimerState_frame k tm n c0) as (_ & Ht & _);
      rewrite (broadcastTimerState_other k tm n c0 Hne), Ht
  end.
  cbn [RoundEngine.timers RoundEngine.game RoundEngine.on_timers
       RoundEngine.stopTimer].
  rewrite lookup_insert_ne, lookup_delete_ne by assumption.
  intros Hk. exact Hk.
Qed.

(** Starting the round timer, in round 1 only with both leaders. *)
Lemma evolves_startTimer_main (duration : option Z)
      (cb : option RoundEngine.Callback) (now : Z) (c : RoundEngine.Ctx) :
  (roundOf c = 1 -> RoundEngine.bothLeaders (RoundEngine.game c) = true) ->
  evolves c (RoundEngine.startTimer (game_id (RoundEngine.game c)) duration cb now c).
Proof.
  intros Hboth.
  destruct (startTimer_frame (game_id (RoundEngine.game c)) duration cb now c)
    as (Hg & _).
  apply evolves_timerwise; [exact Hg |].
  intros Hr _. left. apply Hboth, Hr.
Qed.

(** *** Maps, votes and winners *)

Lemma get_keys {V} (k : string) (m : Js.JsMap V) (v : V) :
  Js.get k m = Some v -> In k (Js.keys m).
Proof.
  induction m as [| [k' v'] m IH]; [discriminate |].
  cbn [Js.get Js.keys map fst]. destruct (String.eqb_spec k k') as [-> | _].
  - intros _. left. reflexivity.
  - intros H. right. apply IH, H.
Qed.

Lemma values_set {V} (k : string) (v : V) (m : Js.JsMap V) (x : V) :
  In x (Js.values (Js.set k v m)) -> x = v \/ In x (Js.values m).
Proof.
  induction m as [| [k' v'] m IH]; cbn [Js.set Js.values map snd In].
  - intros [H | []]. left. symmetry. exact H.
  - destruct (String.eqb k k'); cbn [map snd In].
    + intros [H | H]; [left; symmetry; exact H | right; right; exact H].
    + intros [H | H]; [right; left; exact H |].
      destruct (IH H) as [Hv | Hin]; [left; exact Hv | right; right; exact Hin].
Qed.

Lemma keys_set {V} (k : string) (v : V) (m : Js.JsMap V) (x : string) :
  In x (Js.keys (Js.set k v m)) -> x = k \/ In x (Js.keys m).
Proof.
  induction m as [| [k' v'] m IH]; cbn [Js.set Js.keys map fst In].
  - intros [H | []]. left. symmetry. exact H.
  - destruct (String.eqb k k'); cbn [map fst In].
    + intros H. right. exact H.
    + intros [H | H]; [right; left; exact H |].
      destruct (IH H) as [Hk | Hin]; [left; exact Hk | right; right; exact Hin].
Qed.

Lemma set_nonempty {V} (k : string) (v : V) (m : Js.JsMap V) : Js.set k v m <> [].
Proof.
  destruct m as [| [k' v'] m]; cbn [Js.set]; [discriminate |].
  destruct (String.eqb k k'); discriminate.
Qed.

(** The tally holds votes for candidates that were voted for only. *)
Lemma countVotes_keys (votes : Js.JsMap string) (x : string) :
  In x (Js.keys (RoundEngine.countVotes votes)) -> In x (Js.values votes).
Proof.
  unfold RoundEngine.countVotes.
  assert (H : forall (l : list string) (acc : Js.JsMap Z),
             In x (Js.keys
                     (fold_left
                        (fun counts cand =>
                           Js.set cand (default 0 (Js.get cand counts) + 1) counts)
                        l acc)) ->
             In x (Js.keys acc) \/ In x l).
  { induction l as [| y l IH]; intros acc Hin; [left; exact Hin |].
    cbn [fold_left] in Hin. destruct (IH _ Hin) as [Hk | Hl].
    - destruct (keys_set _ _ _ _ Hk) as [-> | Hacc];
        [right; left; reflexivity | left; exact Hacc].
    - right. right. exact Hl. }
  intros Hin. destruct (H _ _ Hin) as [[] | Hl]. exact Hl.
Qed.

Lemma countVotes_nonempty (votes : Js.JsMap string) :
  votes <> [] -> RoundEngine.countVotes votes <> [].
Proof.
  unfold RoundEngine.countVotes.
  assert (H : forall (l : list string) (acc : Js.JsMap Z),
             acc <> [] ->
             fold_left
               (fun counts cand =>
                  Js.set cand (default 0 (Js.get cand counts) + 1) counts)
               l acc <> []).
  { induction l as [| y l IH]; intros acc Hacc; [exact Hacc |].
    cbn [fold_left]. apply IH, set_nonempty. }
  destruct votes as [| [k v] votes]; [intros Hne; contradiction |].
  intros _. cbn [Js.values map snd fold_left]. apply H, set_nonempty.
Qed.

(** The maximum of a list is one of its elements. *)
Lemma maxOf_In (xs : list Z) (m : Z) : RoundEngine.maxOf xs = Some m -> In m xs.
Proof.
  destruct xs as [| x rest]; [discriminate |]. cbn [RoundEngine.maxOf].
  intros H. injection H as <-. revert x.
  induction rest as [| y rest IH]; intros x; [left; reflexivity |].
  cbn [fold_left]. destruct (IH (Z.max x y)) as [Heq | Hin].
  - rewrite <- Heq. destruct (Z.max_spec x y) as [[_ ->] | [_ ->]];
      [right; left; reflexivity | left; reflexivity].
  - right. right. exact Hin.
Qed.

(** The winners are candidates that were voted for, and a vote with at
    least one ballot has at least one winner. *)
Lemma winnersOf_voted (votes : Js.JsMap string) (x : string) :
  In x (RoundEngine.winnersOf votes) -> In x (Js.values votes).
Proof.
  unfold RoundEngine.winnersOf.
  destruct (RoundEngine.maxOf _) as [m |]; [| intros []].
  intros Hin. apply countVotes_keys. unfold Js.keys in *.
  apply in_map_iff in Hin. destruct Hin as (kv & <- & Hkv).
  apply filter_In in Hkv. apply in_map. apply Hkv.
Qed.

Lemma winnersOf_nonempty (votes : Js.JsMap string) :
  votes <> [] -> RoundEngine.winnersOf votes <> [].
Proof.
  intros Hne. unfold RoundEngine.winnersOf.
  pose proof (countVotes_nonempty votes Hne) as Hcounts.
  destruct (RoundEngine.maxOf (Js.values (RoundEngine.countVotes votes)))
    as [m |] eqn:Hmax.
  - apply maxOf_In in Hmax. unfold Js.values in Hmax.
    apply in_map_iff in Hmax. destruct Hmax as (kv & Hsnd & Hkv).
    intros Hnil.
    assert (Hin : In (fst kv)
                     (Js.keys (List.filter (fun kv0 => snd kv0 =? m)
                                           (RoundEngine.countVotes votes)))).
    { unfold Js.keys. apply in_map, filter_In. split; [exact Hkv |].
      apply Z.eqb_eq, Hsnd. }
    rewrite Hnil in Hin. destruct Hin.
  - destruct (RoundEngine.countVotes votes) as [| kv rest];
      [contradiction | discriminate].
Qed.

Lemma truthy_nonempty (s : string) : s <> EmptyString -> Js.truthy (Some s) = true.
Proof.
  intros Hne. cbn. apply negb_true_iff, String.eqb_neq, Hne.
Qed.

Lemma includes_nonempty (x : string) (l : list string) :
  ~ In EmptyString l -> Js.includes x l = true -> x <> EmptyString.
Proof.
  intros Hnot Hin Heq. apply includes_In in Hin. subst x. contradiction.
Qed.

(** *** Elections *)

(** A step that leaves the round, the timers and the public timer view as
    they were. *)
Lemma evolves_game (c c' : RoundEngine.Ctx) :
  RoundEngine.timers c' = RoundEngine.timers c ->
  game_id (RoundEngine.game c') = game_id (RoundEngine.game c) ->
  roundOf c' = roundOf c ->
  publicTimerState c' = publicTimerState c ->
  (wellFormed (RoundEngine.game c) -> wellFormed (RoundEngine.game c')) ->
  (wellFormed (RoundEngine.game c) ->
   forall r, hasLeader r (RoundEngine.game c) -> hasLeader r (RoundEngine.game c')) ->
  evolves c c'.
Proof.
  intros Ht Hid Hr Hp Hwf Hl. split; [exact Hid |]. intros W.
  split; [apply Hwf, W |]. split; [apply Hl, W |].
  intros Hr1 Hk. right. split; [congruence |].
  unfold timerKnown, mainTimer in *. rewrite Ht, Hid, Hp in Hk. exact Hk.
Qed.

Lemma evolves_installLeader (r : RoomId) (newLeader : option string)
      (c : RoundEngine.Ctx) :
  (wellFormed (RoundEngine.game c) -> Js.truthy newLeader = true) ->
  evolves c (RoundEngine.installLeader r newLeader c).
Proof.
  intros Htruthy.
  destruct (installLeader_room r newLeader c)
    as (Hroom & Hother & _ & Ht & Hid & Hround & _ & Htimer & Hkeys).
  apply evolves_game; try assumption.
  - unfold publicTimerState. rewrite Htimer. reflexivity.
  - intros W. unfold wellFormed in *. rewrite Hkeys.
    destruct r; cbn [otherRoom] in Hother; rewrite Hroom, Hother; exact W.
  - intros W rr Hrr. unfold hasLeader in *.
    destruct r, rr; cbn [otherRoom] in Hother; rewrite ?Hroom, ?Hother;
      cbn [leaderId set_leaderVotingTieCount set_leaderVotingActive set_leaderId];
      auto.
Qed.

Lemma evolves_startOrResumeTimer (old new : option string) (now : Z)
      (c : RoundEngine.Ctx) :
  evolves c (RoundEngine.startOrResumeTimer old new now c).
Proof.
  unfold RoundEngine.startOrResumeTimer.
  destruct (_ =? 1).
  - destruct (RoundEngine.bothLeaders (RoundEngine.game c)) eqn:Hboth;
      [| apply evolves_refl].
    eapply evolves_trans; [| apply evolves_broadcast].
    apply evolves_startTimer_main. intros _. exact Hboth.
  - destruct (_ && _); [| apply evolves_refl].
    eapply evolves_trans; [apply evolves_resumeTimer | apply evolves_broadcast].
Qed.

Lemma evolves_electLeader (r : RoomId) (newLeader : option string)
      (method : ElectionMethod) (now : Z) (c : RoundEngine.Ctx) :
  (wellFormed (RoundEngine.game c) -> Js.truthy newLeader = true) ->
  evolves c (fst (RoundEngine.electLeader r newLeader method now c)).
Proof.
  intros Htruthy. unfold RoundEngine.electLeader. cbn [fst].
  eapply evolves_trans; [apply evolves_installLeader, Htruthy |].
  eapply evolves_trans;
    [apply evolves_broadcastToRoom | apply evolves_startOrResumeTimer].
Qed.

(** The votes of a well-formed game name non-empty identifiers. *)
Lemma wellFormed_votes (r : RoomId) (g : Game) (x : string) :
  wellFormed g -> In x (Js.values (leaderVotes (room r g))) -> x <> EmptyString.
Proof.
  intros (_ & _ & HvA & HvB & _) Hin Heq. subst x.
  destruct r; [apply HvA | apply HvB]; exact Hin.
Qed.

Lemma wellFormed_members (r : RoomId) (g : Game) (x : string) :
  wellFormed g -> Js.includes x (players (room r g)) = true -> x <> EmptyString.
Proof.
  intros (HpA & HpB & _) Hin.
  destruct r;
    [apply (includes_nonempty _ _ HpA Hin) | apply (includes_nonempty _ _ HpB Hin)].
Qed.

(** Clearing the votes of a room for a new ballot. *)
Lemma evolves_reopenVote (r : RoomId) (c : RoundEngine.Ctx) :
  evolves c
    (RoundEngine.on_game
       (upd_room r (fun rm => set_leaderVotingActive true (set_leaderVotes [] rm)))
       c).
Proof.
  apply evolves_game; try reflexivity.
  - destruct r; intros (HpA & HpB & HvA & HvB & Hk);
      repeat split; try assumption; intros [].
  - intros _ rr. destruct r, rr; intros H; exact H.
Qed.

Lemma evolves_resolveLeaderVote (r : RoomId) (ent : Entropy) (now : Z)
      (c : RoundEngine.Ctx) :
  Rand01_ok (math_random ent) ->
  leaderVotes (room r (RoundEngine.game c)) <> [] ->
  evolves c (fst (RoundEngine.resolveLeaderVote r ent now c)).
Proof.
  intros Hrand Hvotes. unfold RoundEngine.resolveLeaderVote.
  set (winners := RoundEngine.winnersOf (leaderVotes (room r (RoundEngine.game c)))).
  assert (Hw : wellFormed (RoundEngine.game c) ->
               forall w, In w winners -> Js.truthy (Some w) = true).
  { intros W w Hin. apply truthy_nonempty, (wellFormed_votes r _ _ W).
    apply winnersOf_voted, Hin. }
  assert (Hne : winners <> []) by (apply winnersOf_nonempty, Hvotes).
  destruct (Z.gtb_spec (Js.len winners) 1) as [Hgt | Hle].
  - set (tieCount := leaderVotingTieCount (room r (RoundEngine.game c)) + 1).
    set (c1 := RoundEngine.on_game (upd_room r (set_leaderVotingTieCount tieCount)) c).
    assert (H01 : evolves c c1)
      by (apply evolves_view; [destruct r; reflexivity | reflexivity]).
    assert (HW1 : wellFormed (RoundEngine.game c1) -> wellFormed (RoundEngine.game c))
      by (destruct r; intros W; exact W).
    destruct (tieCount >=? 3).
    + eapply evolves_trans; [exact H01 |]. apply evolves_electLeader.
      intros W1. destruct (index_In winners
                             (floorScale (math_random ent) (Js.len winners)))
        as (leader & Hidx & Hin); [apply floorScale_range; [exact Hrand | lia] |].
      rewrite Hidx. apply Hw; [apply HW1, W1 | exact Hin].
    + cbn [fst]. eapply evolves_trans; [exact H01 |].
      eapply evolves_trans;
        [apply evolves_broadcastToRoom | apply evolves_reopenVote].
  - apply evolves_electLeader. intros W.
    destruct winners as [| w rest] eqn:Hwin; [contradiction |].
    cbn. apply (Hw W). left. reflexivity.
Qed.

Lemma evolves_castVote (r : RoomId) (voter candidate : string)
      (c : RoundEngine.Ctx) :
  Js.includes candidate (players (room r (RoundEngine.game c))) = true ->
  evolves c
    (RoundEngine.on_game
       (upd_room r (fun rm => set_leaderVotes
                                (Js.set voter candidate (leaderVotes rm)) rm)) c).
Proof.
  intros Hin. apply evolves_game; try reflexivity.
  - intros W. pose proof (wellFormed_members r _ _ W Hin) as Hne.
    destruct W as (HpA & HpB & HvA & HvB & Hk).
    destruct r; repeat split; try assumption; cbn;
      intros Hbad; apply values_set in Hbad;
      destruct Hbad as [Heq | Hold]; try (symmetry in Heq; contradiction);
      auto.
  - intros _ rr. destruct r, rr; intros H; exact H.
Qed.

Lemma evolves_nominateLeader (r : RoomId) (candidate : string)
      (voter : option string) (ent : Entropy) (now : Z) (c : RoundEngine.Ctx) :
  Rand01_ok (math_random ent) ->
  evolves c (fst (RoundEngine.nominateLeader r candidate voter ent now c)).
Proof.
  intros Hrand. unfold RoundEngine.nominateLeader.
  destruct (_ && negb (leaderVotingActive _)); [apply evolves_refl |].
  destruct (Js.includes candidate _) eqn:Hin; cbn [negb]; [| apply evolves_refl].
  destruct (_ && _); [apply evolves_refl |].
  match goal with
  | |- context [Js.set ?v candidate] =>
      pose proof (evolves_castVote r v candidate c Hin) as Hcast
  end.
  set (c1 := RoundEngine.on_game _ c) in *.
  destruct (_ =? _).
  - eapply evolves_trans; [exact Hcast |].
    eapply evolves_trans; [apply (evolves_broadcastToRoom r) |].
    apply evolves_resolveLeaderVote; [exact Hrand |].
    subst c1. destruct r; cbn; apply set_nonempty.
  - cbn [fst]. eapply evolves_trans; [exact Hcast |].
    apply evolves_broadcastToRoom.
Qed.

(** *** Room updates, usurpation and abdication *)

(** An update of a room that keeps its members and its leader, and keeps
    or clears its votes. *)
Lemma evolves_upd_room (r : RoomId) (f : RoomState -> RoomState)
      (c : RoundEngine.Ctx) :
  (forall rm, players (f rm) = players rm
              /\ leaderId (f rm) = leaderId rm
              /\ (leaderVotes (f rm) = leaderVotes rm \/ leaderVotes (f rm) = [])) ->
  evolves c (RoundEngine.on_game (upd_room r f) c).
Proof.
  intros Hf. apply evolves_game; try reflexivity.
  - intros (HpA & HpB & HvA & HvB & Hk).
    destruct r; unfold wellFormed; cbn -[Js.keys];
      match goal with
      | |- context [f ?rm] => destruct (Hf rm) as (Hp & _ & [Hv | Hv])
      end; rewrite Hp, Hv; repeat split; try assumption; intros [].
  - intros _ rr. unfold hasLeader.
    destruct r, rr; cbn;
      try match goal with
          | |- context [f ?rm] => destruct (Hf rm) as (_ & Hl & _); rewrite Hl
          end; intros H; exact H.
Qed.

(** A change of the player objects, of the public state outside round and
    timer, or of the private state. *)
Lemma evolves_demote (pid : option string) (f : Player -> Player)
      (c : RoundEngine.Ctx) :
  evolves c (RoundEngine.on_game (RoundEngine.upd_player_opt pid f) c).
Proof.
  apply evolves_view; [| reflexivity].
  destruct pid as [p |]; [| reflexivity].
  unfold view. cbn -[Js.keys]. rewrite keys_update. reflexivity.
Qed.

Lemma evolves_usurpLeader (r : RoomId) (newLeaderId : string)
      (c : RoundEngine.Ctx) :
  (wellFormed (RoundEngine.game c) -> Js.truthy (Some newLeaderId) = true) ->
  evolves c (fst (RoundEngine.usurpLeader r newLeaderId c)).
Proof.
  intros Htruthy. unfold RoundEngine.usurpLeader. cbn [fst].
  eapply evolves_trans; [| apply evolves_broadcastToRoom].
  set (old := leaderId (room r (RoundEngine.game c))).
  set (c1 := if Js.truthy old then _ else c).
  assert (H01 : evolves c c1)
    by (subst c1; destruct (Js.truthy old);
        [apply evolves_demote | apply evolves_refl]).
  apply (evolves_trans _ c1); [exact H01 |].
  assert (HW : wellFormed (RoundEngine.game c1) -> wellFormed (RoundEngine.game c)).
  { subst c1. destruct (Js.truthy old); [| intros W; exact W].
    destruct old; [| intros W; exact W].
    unfold wellFormed. cbn -[Js.keys]. rewrite keys_update. intros W; exact W. }
  apply evolves_game; try reflexivity.
  - intros (HpA & HpB & HvA & HvB & Hk).
    destruct r; unfold wellFormed; cbn -[Js.keys]; rewrite keys_update;
      repeat split; try assumption; intros [].
  - intros W rr. specialize (Htruthy (HW W)). unfold hasLeader.
    destruct r, rr; cbn -[Js.truthy]; intros H; try exact H; exact Htruthy.
Qed.

Lemma evolves_voteUsurp (r : RoomId) (voter candidate : string)
      (c : RoundEngine.Ctx) :
  evolves c (fst (RoundEngine.voteUsurp r voter candidate c)).
Proof.
  unfold RoundEngine.voteUsurp.
  destruct (Js.includes voter _); cbn [negb]; [| apply evolves_refl].
  destruct (Js.includes candidate _) eqn:Hin; cbn [negb]; [| apply evolves_refl].
  pose proof (evolves_castVote r voter candidate c Hin) as Hcast.
  set (c1 := RoundEngine.on_game _ c) in *.
  destruct (_ >=? _).
  - eapply evolves_trans; [exact Hcast |]. apply evolves_usurpLeader.
    intros W1. apply truthy_nonempty, (wellFormed_members r _ _ W1).
    subst c1. destruct r; exact Hin.
  - cbn [fst]. eapply evolves_trans; [exact Hcast |].
    apply evolves_broadcastToRoom.
Qed.

Lemma evolves_abdicate (r : RoomId) (leader successor : string)
      (c : RoundEngine.Ctx) :
  evolves c (fst (RoundEngine.abdicate r leader successor c)).
Proof.
  unfold RoundEngine.abdicate.
  destruct (Js.opt_eqb _ _); cbn [negb]; [| apply evolves_refl].
  destruct (Js.includes successor _) eqn:Hin; cbn [negb]; [| apply evolves_refl].
  cbn [fst]. eapply evolves_trans; [| apply evolves_broadcastToRoom].
  apply evolves_game; try reflexivity.
  - intros (HpA & HpB & HvA & HvB & Hk).
    destruct r; unfold wellFormed; cbn -[Js.keys]; rewrite !keys_update;
      repeat split; assumption.
  - intros W rr.
    pose proof (truthy_nonempty _ (wellFormed_members r _ _ W Hin)) as Htruthy.
    unfold hasLeader.
    destruct r, rr; cbn -[Js.truthy]; intros H; try exact H; exact Htruthy.
Qed.

Lemma evolves_initiateNewLeaderVote (r : RoomId) (playerId : string) (now : Z)
      (c : RoundEngine.Ctx) :
  evolves c (fst (RoundEngine.initiateNewLeaderVote r playerId now c)).
Proof.
  unfold RoundEngine.initiateNewLeaderVote.
  destruct (Js.includes playerId _); cbn [negb]; [| apply evolves_refl].
  destruct (Js.truthy _); cbn [negb]; [| apply evolves_refl].
  destruct (leaderVotingActive _); [apply evolves_refl |].
  cbn [fst]. eapply evolves_trans; [| apply evolves_broadcastToRoom].
  eapply evolves_trans; [apply evolves_pauseTimer |].
  apply evolves_upd_room. intros rm. repeat split. right. reflexivity.
Qed.

(** *** Hostages and parlay *)

Lemma evolves_selectHostage (r : RoomId) (hostageId : string)
      (c : RoundEngine.Ctx) :
  evolves c (fst (RoundEngine.selectHostage r hostageId c)).
Proof.
  unfold RoundEngine.selectHostage.
  destruct (hostagesLocked _); [apply evolves_refl |].
  destruct (Js.includes _ _).
  - cbn [fst]. eapply evolves_trans; [| apply evolves_broadcastToRoom].
    apply evolves_upd_room. intros rm. repeat split. left. reflexivity.
  - destruct (_ >=? _); [apply evolves_refl |].
    cbn [fst]. eapply evolves_trans; [| apply evolves_broadcastToRoom].
    apply evolves_upd_room. intros rm. repeat split. left. reflexivity.
Qed.

Lemma append_ne (s t : string) : t <> EmptyString -> (s ++ t)%string <> s.
Proof.
  intros Ht. induction s as [| a s IH]; cbn.
  - exact Ht.
  - intros H. injection H as H. apply IH, H.
Qed.

Lemma parlayKey_ne (g : Game) : RoundEngine.parlayKey g <> game_id g.
Proof. apply append_ne. discriminate. Qed.

(** A change of the public state outside the round number and the timer. *)
Lemma evolves_publicFlag (f : PublicState -> PublicState) (c : RoundEngine.Ctx) :
  (forall p, currentRound (f p) = currentRound p /\ timer (f p) = timer p) ->
  evolves c (RoundEngine.on_game (upd_public f) c).
Proof.
  intros Hf. apply evolves_view; [| reflexivity].
  unfold view. cbn -[Js.keys].
  destruct (Hf (public (state (RoundEngine.game c)))) as [-> ->]. reflexivity.
Qed.

Lemma evolves_startParlay (now : Z) (c : RoundEngine.Ctx) :
  evolves c (RoundEngine.startParlay now c).
Proof.
  unfold RoundEngine.startParlay.
  eapply evolves_trans; [| apply evolves_broadcast].
  eapply evolves_trans;
    [| apply evolves_publicFlag; intros p; split; reflexivity].
  eapply evolves_trans; [apply evolves_pauseTimer |].
  apply evolves_startTimer_other, parlayKey_ne.
Qed.

Lemma evolves_lockHostages (r : RoomId) (now : Z) (c : RoundEngine.Ctx) :
  evolves c (fst (RoundEngine.lockHostages r now c)).
Proof.
  unfold RoundEngine.lockHostages.
  destruct (negb _); [apply evolves_refl |]. cbn [fst].
  set (c2 := RoundEngine.broadcastToRoom r HOSTAGES_LOCKED _ _).
  assert (H02 : evolves c c2).
  { subst c2. eapply evolves_trans; [| apply evolves_broadcastToRoom].
    apply evolves_upd_room. intros rm. repeat split. left. reflexivity. }
  destruct (RoundEngine.bothRoomsLocked _); [| exact H02].
  eapply evolves_trans; [exact H02 | apply evolves_startParlay].
Qed.

(** *** Rounds *)

Lemma sameCore_refl (g : Game) : sameCore g g.
Proof. do 5 (split; [reflexivity |]). intros W. exact W. Qed.

Lemma sameCore_trans (g1 g2 g3 : Game) :
  sameCore g1 g2 -> sameCore g2 g3 -> sameCore g1 g3.
Proof.
  intros (Hi1 & Hr1 & Ht1 & Ha1 & Hb1 & Hw1) (Hi2 & Hr2 & Ht2 & Ha2 & Hb2 & Hw2).
  do 5 (split; [congruence |]). intros W. apply Hw2, Hw1, W.
Qed.

Lemma evolves_core (f : Game -> Game) (c : RoundEngine.Ctx) :
  sameCore (RoundEngine.game c) (f (RoundEngine.game c)) ->
  evolves c (RoundEngine.on_game f c).
Proof.
  intros (Hi & Hr & Ht & Ha & Hb & Hw).
  apply evolves_game; try assumption; try reflexivity.
  intros _ rr. unfold hasLeader. destruct rr; cbn [RoundEngine.on_game RoundEngine.game];
    [rewrite Ha | rewrite Hb]; intros H; exact H.
Qed.

Lemma In_without_incl (x h : string) (l : list string) :
  In x (Js.without h l) -> In x l.
Proof. intros H. apply In_without in H. apply H. Qed.

(** Moving a hostage keeps the identifiers well-formed: a moved player is
    a key of the players map. *)
Lemma sameCore_moveHostage (src dst : RoomId) (g : Game) (playerId : string) :
  sameCore g (RoundEngine.moveHostage src dst g playerId).
Proof.
  unfold RoundEngine.moveHostage.
  destruct (Js.get playerId (game_players g)) as [p |] eqn:Hget;
    [| apply sameCore_refl].
  apply get_keys in Hget.
  destruct src, dst; unfold sameCore, wellFormed; cbn -[Js.keys Js.without];
    rewrite keys_update; do 5 (split; [reflexivity |]);
    intros (HpA & HpB & HvA & HvB & Hk); repeat split; try assumption;
    intros Hbad;
    repeat match goal with
           | H : In _ (_ ++ _) |- _ => apply in_app_or in H; destruct H as [H | H]
           | H : In _ (Js.without _ _) |- _ => apply In_without_incl in H
           | H : In _ [_] |- _ => destruct H as [H | []]; subst
           end; auto.
Qed.

Lemma sameCore_fold {A} (f : Game -> A -> Game) (l : list A) :
  (forall g a, sameCore g (f g a)) ->
  forall g, sameCore g (fold_left f l g).
Proof.
  intros Hf. induction l as [| a l IH]; intros g; [apply sameCore_refl |].
  cbn [fold_left]. eapply sameCore_trans; [apply Hf | apply IH].
Qed.

Lemma sameCore_refreshRoomAssignments (g : Game) :
  sameCore g (RoundEngine.refreshRoomAssignments g).
Proof.
  unfold RoundEngine.refreshRoomAssignments. apply sameCore_fold.
  intros g0 [k p]. cbn [fst snd].
  destruct (currentRoom p); [| apply sameCore_refl].
  do 5 (split; [reflexivity |]). intros W. exact W.
Qed.

(** The state machine changes the status and the version only. *)
Lemma view_transition (now : Z) (g : Game) (trig : StateMachine.Trigger) :
  view (fst (StateMachine.transition now g trig)) = view g.
Proof.
  unfold StateMachine.transition.
  destruct (StateMachine.findTransitions _ _); [reflexivity |].
  destruct (find _ _); reflexivity.
Qed.

Lemma transition_id (now : Z) (g : Game) (trig : StateMachine.Trigger) :
  game_id (fst (StateMachine.transition now g trig)) = game_id g.
Proof.
  pose proof (view_transition now g trig) as H. unfold view in H.
  injection H as H _. exact H.
Qed.

(** Starting a round when the timer manager holds no round timer. In
    round 1 none is started, and the public view is set to PAUSED. *)
Lemma evolves_startRound (roundNumber now : Z) (c : RoundEngine.Ctx) :
  mainTimer c = None ->
  evolves c (RoundEngine.startRound roundNumber now c).
Proof.
  intros Hnone. unfold RoundEngine.startRound.
  set (c1 := RoundEngine.on_game _ c).
  assert (Hwf : wellFormed (RoundEngine.game c) -> wellFormed (RoundEngine.game c1)).
  { intros (HpA & HpB & HvA & HvB & Hk). subst c1.
    unfold wellFormed. cbn -[Js.keys]. repeat split; try assumption; intros []. }
  assert (Hlead : forall r, leaderId (room r (RoundEngine.game c1))
                            = leaderId (room r (RoundEngine.game c)))
    by (intros r; subst c1; destruct r; reflexivity).
  assert (Hround : roundOf c1 = roundNumber) by reflexivity.
  destruct (Z.eqb_spec roundNumber 1) as [-> | Hne].
  - eapply evolves_trans; [| apply evolves_broadcast].
    split; [reflexivity |]. intros W. split; [apply Hwf, W |].
    split; [intros r; unfold hasLeader;
            change (leaderId (room r (RoundEngine.game (RoundEngine.on_game _ c1))))
              with (leaderId (room r (RoundEngine.game c1)));
            rewrite Hlead; intros H; exact H |].
    intros _ [Hsome | Hpub]; exfalso.
    + unfold mainTimer in *. cbn in Hsome, Hnone. rewrite Hnone in Hsome.
      destruct Hsome as [x Hx]. discriminate Hx.
    + discriminate Hpub.
  - eapply evolves_trans; [| apply evolves_broadcast].
    apply (evolves_trans _ c1).
    + split; [reflexivity |]. intros W. split; [apply Hwf, W |].
      split; [intros r; unfold hasLeader; rewrite Hlead; intros H; exact H |].
      intros Hr _. rewrite Hround in Hr. contradiction.
    + apply evolves_startTimer_main. intros Hr. rewrite Hround in Hr.
      contradiction.
Qed.

Lemma evolves_endRound (reason : string) (now : Z) (c : RoundEngine.Ctx) :
  evolves c (RoundEngine.endRound reason now c).
Proof.
  unfold RoundEngine.endRound.
  set (c3 := RoundEngine.on_game _ _).
  assert (H03 : evolves c c3).
  { subst c3. eapply evolves_trans; [apply evolves_stopTimer |].
    eapply evolves_trans; [apply evolves_broadcast |].
    apply evolves_view; [apply view_transition | reflexivity]. }
  assert (Hnone : mainTimer c3 = None).
  { subst c3. unfold mainTimer.
    cbn [RoundEngine.on_game RoundEngine.game RoundEngine.timers
         RoundEngine.broadcast RoundEngine.on_bus RoundEngine.stopTimer
         RoundEngine.on_timers].
    rewrite transition_id. apply lookup_delete_eq. }
  destruct (StateMachine.isRoundStatus _); [| exact H03].
  destruct (StateMachine.getCurrentRoundNumber _) as [next |]; [| exact H03].
  destruct (next =? 0); [exact H03 |].
  eapply evolves_trans; [exact H03 | apply evolves_startRound, Hnone].
Qed.

Lemma evolves_exchangeHostages (now : Z) (c : RoundEngine.Ctx) :
  evolves c (RoundEngine.exchangeHostages now c).
Proof.
  unfold RoundEngine.exchangeHostages.
  eapply evolves_trans; [| apply evolves_endRound].
  eapply evolves_trans;
    [| apply (evolves_core
                (fun g => upd_public (set_paused false None)
                            (upd_room ROOM_B _ (upd_room ROOM_A _ g))));
       do 5 (split; [reflexivity |]); intros W; exact W].
  eapply evolves_trans; [| apply evolves_broadcast].
  apply evolves_core.
  eapply sameCore_trans; [| apply sameCore_refreshRoomAssignments].
  eapply sameCore_trans; [| apply sameCore_fold, sameCore_moveHostage].
  apply sameCore_fold, sameCore_moveHostage.
Qed.

Lemma evolves_endParlay (now : Z) (c : RoundEngine.Ctx) :
  evolves c (RoundEngine.endParlay now c).
Proof.
  unfold RoundEngine.endParlay.
  eapply evolves_trans; [| apply evolves_exchangeHostages].
  eapply evolves_trans; [| apply evolves_broadcast].
  eapply evolves_trans;
    [apply evolves_stopTimer
    | apply evolves_publicFlag; intros p; split; reflexivity].
Qed.

Lemma evolves_onRoundTimerExpired (c : RoundEngine.Ctx) :
  evolves c (RoundEngine.onRoundTimerExpired c).
Proof.
  unfold RoundEngine.onRoundTimerExpired.
  eapply evolves_trans; [| apply evolves_broadcast].
  apply evolves_publicFlag. intros p. split; reflexivity.
Qed.

Lemma evolves_tick (key : string) (now : Z) (c : RoundEngine.Ctx) :
  evolves c (RoundEngine.tick key now c).
Proof.
  unfold RoundEngine.tick.
  destruct (RoundEngine.timers c !! key) as [tm |] eqn:Htm; [| apply evolves_refl].
  destruct (RoundEngine.rt_state tm); try apply evolves_refl.
  match goal with
  | |- context [RoundEngine.on_timers (insert key ?t) c] =>
      pose proof (fun b => evolves_touch key tm t now b c Htm) as Htouch
  end.
  cbn zeta in *.
  match goal with
  | |- context [if ?b then RoundEngine.broadcastTimerState _ _ _ _ else _] =>
      specialize (Htouch b); set (c2 := if b then _ else _) in *
  end.
  destruct (RoundEngine.expired _); [| exact Htouch].
  eapply evolves_trans; [exact Htouch |].
  cbn [RoundEngine.onExpired].
  destruct (RoundEngine.onExpired tm) as [[|] |].
  - eapply evolves_trans;
      [apply evolves_stopTimer | apply evolves_onRoundTimerExpired].
  - eapply evolves_trans; [apply evolves_stopTimer | apply evolves_endParlay].
  - apply evolves_stopTimer.
Qed.

Lemma evolves_pauseGame (reason : string) (now : Z) (c : RoundEngine.Ctx) :
  evolves c (RoundEngine.pauseGame reason now c).
Proof.
  unfold RoundEngine.pauseGame.
  eapply evolves_trans; [| apply evolves_broadcast].
  eapply evolves_trans;
    [apply evolves_pauseTimer
    | apply evolves_publicFlag; intros p; split; reflexivity].
Qed.

Lemma evolves_resumeGame (now : Z) (c : RoundEngine.Ctx) :
  evolves c (RoundEngine.resumeGame now c).
Proof.
  unfold RoundEngine.resumeGame.
  eapply evolves_trans; [| apply evolves_broadcast].
  eapply evolves_trans;
    [apply evolves_resumeTimer
    | apply evolves_publicFlag; intros p; split; reflexivity].
Qed.

(** Every command and timer firing of a round is such a step. *)
Lemma step_evolves (c c' : RoundEngine.Ctx) : step c c' -> evolves c c'.
Proof.
  intros Hstep. destruct Hstep.
  - apply evolves_nominateLeader. assumption.
  - apply evolves_initiateNewLeaderVote.
  - apply evolves_voteUsurp.
  - apply evolves_abdicate.
  - apply evolves_selectHostage.
  - apply evolves_lockHostages.
  - apply evolves_tick.
  - apply evolves_pauseGame.
  - apply evolves_resumeGame.
Qed.

(** The round timer once [startTimer] has run under the game's id. *)
Lemma startTimer_main_result (d : option Z) (cb : option RoundEngine.Callback)
      (now : Z) (c : RoundEngine.Ctx) :
  let c' := RoundEngine.startTimer (game_id (RoundEngine.game c)) d cb now c in
  forall ty pl sc,
    mainTimer (RoundEngine.broadcast ty pl sc c')
    = Some {| RoundEngine.rt_gameId := game_id (RoundEngine.game c);
              RoundEngine.rt_duration := d; RoundEngine.rt_remaining := d;
              RoundEngine.startTime := now; RoundEngine.pausedAt := None;
              RoundEngine.rt_state := RUNNING; RoundEngine.interval := true;
              RoundEngine.onExpired := cb |}
    /\ timer (public (state (RoundEngine.game (RoundEngine.broadcast ty pl sc c'))))
       = {| ts_duration := d; ts_remaining := d; ts_state := RUNNING |}.
Proof.
  intros c' ty pl sc. subst c'.
  unfold mainTimer, RoundEngine.startTimer, RoundEngine.broadcastTimerState.
  cbn [RoundEngine.game RoundEngine.on_timers RoundEngine.stopTimer].
  rewrite String.eqb_refl. cbn -[insert delete lookup].
  split; [apply lookup_insert_eq | reflexivity].
Qed.

(** What an election does to the round timer in round 1: with a leader in
    the other room it starts the timer with the round-1 duration, and
    without one it leaves the timer manager and the public view alone. *)
Lemma electLeader_ignition (r : RoomId) (leader : string)
      (method : ElectionMethod) (now : Z) (c : RoundEngine.Ctx) :
  roundOf c = 1 -> leader <> EmptyString ->
  let c' := fst (RoundEngine.electLeader r (Some leader) method now c) in
  let d := Js.index (roundDurations (config (RoundEngine.game c))) 0 in
  if Js.truthy (leaderId (room (otherRoom r) (RoundEngine.game c)))
  then mainTimer c' = Some (freshTimer (game_id (RoundEngine.game c)) d now)
       /\ timer (public (state (RoundEngine.game c')))
          = {| ts_duration := d; ts_remaining := d; ts_state := RUNNING |}
  else RoundEngine.timers c' = RoundEngine.timers c
       /\ timer (public (state (RoundEngine.game c')))
          = timer (public (state (RoundEngine.game c))).
Proof.
  intros Hround Hne. cbn zeta.
  pose proof (truthy_nonempty leader Hne) as Htruthy.
  unfold RoundEngine.electLeader. cbn [fst].
  destruct (installLeader_room r (Some leader) c)
    as (Hroom & Hother & _ & Ht & Hid & Hr & Hcfg & Htimer & _).
  set (c2 := RoundEngine.installLeader r (Some leader) c) in *.
  set (c3 := RoundEngine.broadcastToRoom r LEADER_ELECTED _ c2).
  assert (Hg3 : RoundEngine.game c3 = RoundEngine.game c2) by reflexivity.
  assert (Ht3 : RoundEngine.timers c3 = RoundEngine.timers c2) by reflexivity.
  unfold RoundEngine.startOrResumeTimer.
  rewrite Hg3, Hr. unfold roundOf in Hround. rewrite Hround. cbn [Z.eqb Pos.eqb].
  assert (Hboth : RoundEngine.bothLeaders (RoundEngine.game c2)
                  = Js.truthy (leaderId (room (otherRoom r) (RoundEngine.game c)))).
  { unfold RoundEngine.bothLeaders.
    destruct r; cbn [otherRoom] in *; rewrite Hroom, Hother;
      cbn [leaderId set_leaderVotingTieCount set_leaderVotingActive set_leaderId];
      rewrite Htruthy; [reflexivity | apply andb_true_r]. }
  rewrite Hboth.
  destruct (Js.truthy (leaderId (room (otherRoom r) (RoundEngine.game c)))).
  - destruct (startTimer_main_result
                (Js.index (roundDurations (config (RoundEngine.game c2))) 0)
                (Some RoundEngine.RoundTimerExpired) now c3 GAME_RESUMED
                (GameResumedP (Some "Both leaders elected - round starting!"))
                PUBLIC) as (Hmain & Hpub).
    rewrite Hg3 in Hmain, Hpub. rewrite Hid, Hcfg in Hmain.
    rewrite Hid, Hcfg in Hpub. rewrite Hid, Hcfg.
    split; [exact Hmain | exact Hpub].
  - rewrite Ht3, Hg3. split; [exact Ht | exact Htimer].
Qed.

(** What holds of C8. Round 1 is started in a game whose timer manager
    holds no round timer. At the start the public timer is PAUSED with [remaining] equal
    to [duration], the configured round-1 duration; no timer is registered,
    and a tick changes nothing. Over every sequence of commands and timer
    firings that follows, the round timer is running in round 1 only if
    both rooms have a leader. An election in round 1 starts the timer, with
    the configured round-1 duration, exactly when the other room has a
    leader already; otherwise it leaves the timer as it is. *)
Theorem round1_timer_ignition (c0 : RoundEngine.Ctx) (start : Z) :
  wellFormed (RoundEngine.game c0) ->
  mainTimer c0 = None ->
  let c1 := RoundEngine.startRound 1 start c0 in
  let d := Js.index (roundDurations (config (RoundEngine.game c0))) 0 in
  (timer (public (state (RoundEngine.game c1)))
   = {| ts_duration := d; ts_remaining := d; ts_state := PAUSED |}
   /\ mainTimer c1 = None
   /\ forall now, RoundEngine.tick (game_id (RoundEngine.game c1)) now c1 = c1)
  /\ (forall c, rtc step c1 c -> roundOf c = 1 -> timerRunning c ->
                RoundEngine.bothLeaders (RoundEngine.game c) = true)
  /\ (forall c r leader method now,
         roundOf c = 1 -> leader <> EmptyString ->
         let c' := fst (RoundEngine.electLeader r (Some leader) method now c) in
         let dc := Js.index (roundDurations (config (RoundEngine.game c))) 0 in
         if Js.truthy (leaderId (room (otherRoom r) (RoundEngine.game c)))
         then mainTimer c' = Some (freshTimer (game_id (RoundEngine.game c)) dc now)
              /\ timer (public (state (RoundEngine.game c')))
                 = {| ts_duration := dc; ts_remaining := dc; ts_state := RUNNING |}
         else RoundEngine.timers c' = RoundEngine.timers c
              /\ timer (public (state (RoundEngine.game c')))
                 = timer (public (state (RoundEngine.game c)))).
Proof.
  intros Hwf Hnone c1 d.
  assert (Hnone1 : mainTimer c1 = None) by exact Hnone.
  split; [| split].
  - split; [reflexivity |]. split; [exact Hnone1 |].
    intros now. unfold RoundEngine.tick. unfold mainTimer in Hnone1.
    rewrite Hnone1. reflexivity.
  - assert (Hstart : wellFormed (RoundEngine.game c1) /\ ignitionRule c1).
    { split.
      - destruct (evolves_startRound 1 start c0 Hnone) as [_ H].
        apply (H Hwf).
      - intros _ [Hsome | Hpub].
        + rewrite Hnone1 in Hsome. destruct Hsome as [x Hx]. discriminate Hx.
        + discriminate Hpub. }
    assert (Hall : forall c, rtc step c1 c ->
                             wellFormed (RoundEngine.game c) /\ ignitionRule c).
    { apply (rtc_ind_r (fun c => wellFormed (RoundEngine.game c) /\ ignitionRule c)).
      - exact Hstart.
      - intros y z _ Hyz [Hwfy Hruley].
        apply (evolves_ignitionRule y z (step_evolves y z Hyz) Hwfy Hruley). }
    intros c Hreach Hround Hrun. destruct (Hall c Hreach) as [_ Hrule].
    apply Hrule; [exact Hround |].
    destruct Hrun as [(tm & Htm & _) | Hpub]; [left | right; exact Hpub].
    rewrite Htm. eexists. reflexivity.
  - intros c r leader method now Hround Hne.
    apply electLeader_ignition; assumption.
Qed.

Lemma round1_timer_ignition_witness :
  wellFormed (RoundEngine.game beforeRoundOne)
  /\ timer (public (state (RoundEngine.game
                             (RoundEngine.startRound 1 5 beforeRoundOne))))
     = {| ts_duration := Some 180000; ts_remaining := Some 180000;
          ts_state := PAUSED |}.
Proof.
  assert (Hwf : wellFormed (RoundEngine.game beforeRoundOne)).
  { unfold wellFormed. cbn. repeat split; intros H;
      repeat (destruct H as [H | H]; [discriminate H |]); exact H. }
  split; [exact Hwf |].
  exact (proj1 (proj1 (round1_timer_ignition beforeRoundOne 5 Hwf eq_refl))).
Defined.

(** C8, on the code. The host starts a six-player game: in round 1 the
    public timer is PAUSED with [remaining = duration] and no timer is
    registered. Room A elects ["ann"], which starts nothing; room B elects
    ["dan"] at time 6, which starts the timer with the round-1 duration.
    A minute later ["bob"] sends INITIATE_NEW_LEADER_VOTE for room A: the
    command is accepted in round 1 and pauses the timer with 120000 ms to
    go. Both rooms have their leader; room A then elects ["bob"], and the
    timer is started a second time, from the full round-1 duration again,
    at an election that is not the election of the second room's leader. *)
Theorem round1_revote_restarts_timer :
  snd (GameController.startGame "game-1" "ann" 0 (worldOf roomsAssigned)) = Success
  /\ ignitionView roundOneStarted
     = (Some (1, (None, None),
              {| ts_duration := Some 180000; ts_remaining := Some 180000;
                 ts_state := PAUSED |}),
        None)
  /\ ignitionView (castBallots ROOM_A "ann" ["ann"; "bob"; "cat"] 3 roundOneStarted)
     = (Some (1, (Some "ann", None),
              {| ts_duration := Some 180000; ts_remaining := Some 180000;
                 ts_state := PAUSED |}),
        None)
  /\ ignitionView bothLeadersElected
     = (Some (1, (Some "ann", Some "dan"),
              {| ts_duration := Some 180000; ts_remaining := Some 180000;
                 ts_state := RUNNING |}),
        Some (freshTimer "game-1" (Some 180000) 6))
  /\ snd (GameController.initiateNewLeaderVote "game-1" "bob" ROOM_A 60006
            (GameController.timerTick "game-1" "game-1" 60006 bothLeadersElected))
     = Success
  /\ fst (ignitionView revoteOpened)
     = Some (1, (Some "ann", Some "dan"),
             {| ts_duration := Some 180000; ts_remaining := Some 120000;
                ts_state := PAUSED |})
  /\ ignitionView reelected
     = (Some (1, (Some "bob", Some "dan"),
              {| ts_duration := Some 180000; ts_remaining := Some 180000;
                 ts_state := RUNNING |}),
        Some (freshTimer "game-1" (Some 180000) 70000)).
Proof. repeat split; vm_compute; reflexivity. Qed.

(** ** Room balance *)

(** C5, on the code. Seven players are split three and four. In round 1
    the leader of room A selects ["bob"], and the leader of room B selects
    ["cat"], who sits in room A; every command succeeds. Both leaders lock
    one hostage each and the parlay timer expires. After the exchange room A
    lists three entries (["cat"] twice) and room B five: the sizes differ
    by two as the game enters round 2. *)
Theorem cross_room_hostage_unbalances_rooms :
  let w0 := worldOf sevenPlayers in
  let s1 := GameController.selectHostage "game-1" "ann" ROOM_A "bob" 0 w0 in
  let s2 := GameController.selectHostage "game-1" "dan" ROOM_B "cat" 0 (fst s1) in
  let s3 := GameController.lockHostages "game-1" "ann" ROOM_A 0 (fst s2) in
  let s4 := GameController.lockHostages "game-1" "dan" ROOM_B 0 (fst s3) in
  let w5 := GameController.timerTick "game-1" "game-1_parlay" 30000 (fst s4) in
  (membersOf ROOM_A w0 = Some ["ann"; "bob"; "cat"]
   /\ membersOf ROOM_B w0 = Some ["dan"; "eve"; "fay"; "gus"])
  /\ (snd s1 = Success /\ snd s2 = Success /\ snd s3 = Success /\ snd s4 = Success)
  /\ w5 = crossRoomExchange
  /\ membersOf ROOM_A w5 = Some ["ann"; "cat"; "cat"]
  /\ membersOf ROOM_B w5 = Some ["dan"; "eve"; "fay"; "gus"; "bob"]
  /\ option_map (fun g => status (public (state g))) (gameOf "game-1" w5)
     = Some ROUND_2
  /\ Z.abs (Js.len ["ann"; "cat"; "cat"]
            - Js.len ["dan"; "eve"; "fay"; "gus"; "bob"]) = 2.
Proof. repeat split; vm_compute; reflexivity. Qed.

(** *** The split of [assignRooms] *)

Lemma length_swap {T} (i j : nat) (l : list T) :
  length (GameController.swap i j l) = length l.
Proof.
  unfold GameController.swap.
  destruct (l !! i); [| reflexivity]. destruct (l !! j); [| reflexivity].
  rewrite !length_insert. reflexivity.
Qed.

Lemma length_shuffleArray {T} (rand : nat -> Z) (k : nat) (l : list T) :
  length (GameController.shuffleArray rand k l) = length l.
Proof.
  unfold GameController.shuffleArray.
  generalize (length l - 1)%nat as i. intros i. revert k l.
  induction i as [| i IH]; intros k l; [reflexivity |].
  cbn [GameController.shuffleFrom]. rewrite IH. apply length_swap.
Qed.

(** How many of the indices [0..n-1] lie below the midpoint. *)
Lemma count_below (mid : Z) (n : nat) :
  0 <= mid ->
  length (List.filter (fun i => Z.of_nat i <? mid) (seq 0 n))
  = Z.to_nat (Z.min mid (Z.of_nat n)).
Proof.
  intros Hmid. induction n as [| n IH]; [cbn; lia |].
  rewrite seq_S, List.filter_app, length_app, IH. cbn [List.filter Nat.add].
  destruct (Z.ltb_spec (Z.of_nat n) mid); cbn [length]; lia.
Qed.

(** The member lists after the loop of [assignRooms] over the players from
    index [s] on. *)
Lemma assign_fold_lengths (mid : Z) (l : list (string * Player)) :
  forall (s : nat) (g : Game),
    let g' := fold_left (GameController.assignRoom mid)
                        (combine (seq s (length l)) l) g in
    length (players (room ROOM_A g'))
    = (length (players (room ROOM_A g))
       + length (List.filter (fun i => (Z.of_nat i <? mid)%Z)
                             (seq s (length l))))%nat
    /\ length (players (room ROOM_B g'))
       = (length (players (room ROOM_B g))
          + length (List.filter (fun i => negb (Z.of_nat i <? mid)%Z)
                                (seq s (length l))))%nat.
Proof.
  induction l as [| [k p] l IH]; intros s g; [cbn; lia |].
  cbn [length seq combine fold_left List.filter].
  destruct (IH (S s) (GameController.assignRoom mid g (s, (k, p)))) as [Ha Hb].
  cbn zeta in Ha, Hb. rewrite Ha, Hb.
  unfold GameController.assignRoom.
  destruct (Z.of_nat s <? mid); cbn [negb length]; cbn -[Js.keys];
    rewrite ?length_app; cbn [length]; lia.
Qed.

(** [assignRooms] on a game whose rooms are still empty puts
    [floor(n / 2)] of the [n] players in room A and the others in room B:
    the sizes differ by at most one. *)
Lemma assignRooms_balanced (rand : nat -> Z) (k : nat) (g : Game) :
  players (room ROOM_A g) = [] ->
  players (room ROOM_B g) = [] ->
  let g' := GameController.assignRooms rand k g in
  let n := Js.size (game_players g) in
  Js.len (players (room ROOM_A g')) = n / 2
  /\ Js.len (players (room ROOM_B g')) = n - n / 2
  /\ Z.abs (Js.len (players (room ROOM_A g')) - Js.len (players (room ROOM_B g')))
     <= 1.
Proof.
  intros HA HB g' n. subst g'. unfold GameController.assignRooms.
  set (shuffled := GameController.shuffleArray rand k (game_players g)).
  assert (Hlen : length shuffled = length (game_players g))
    by apply length_shuffleArray.
  destruct (assign_fold_lengths (Js.len shuffled / 2) shuffled 0 g) as [Ha Hb].
  cbn zeta in Ha, Hb.
  pose proof (List.filter_length (fun i => Z.of_nat i <? Js.len shuffled / 2)
                                 (seq 0 (length shuffled))) as Hsum.
  rewrite length_seq in Hsum.
  rewrite count_below in Ha, Hsum by (unfold Js.len; apply Z.div_pos; lia).
  rewrite HA in Ha. rewrite HB in Hb. cbn [length] in Ha, Hb.
  unfold Js.len, Js.size in *. subst n. rewrite Hlen in *.
  set (m := Z.of_nat (length (game_players g))) in *.
  assert (Hm : 0 <= m) by (subst m; lia).
  assert (Hhalf : 0 <= m / 2 <= m)
    by (split; [apply Z.div_pos; lia | apply Z.div_le_upper_bound; lia]).
  assert (Hdiff : m - 2 * (m / 2) = m mod 2) by (rewrite Z.mod_eq; lia).
  pose proof (Z.mod_pos_bound m 2 ltac:(lia)) as Hmod.
  rewrite Z.min_l in Ha, Hsum by lia.
  rewrite Ha, Hb. unfold Js.len. fold m.
  set (q := length (List.filter _ _)) in *. clearbody q.
  split; [lia |]. split; lia.
Qed.

(** *** The exchange on hostages seated in their leader's room *)

Lemma keys_get {V} (k : string) (m : Js.JsMap V) :
  In k (Js.keys m) -> exists v, Js.get k m = Some v.
Proof.
  induction m as [| [k' v'] m IH]; [intros [] |].
  cbn [Js.get Js.keys map fst]. intros [-> | Hin].
  - rewrite String.eqb_refl. eexists. reflexivity.
  - destruct (String.eqb k k'); [eexists; reflexivity | apply IH, Hin].
Qed.

Lemma length_without_NoDup (h : string) (l : list string) :
  List.NoDup l -> In h l -> S (length (Js.without h l)) = length l.
Proof.
  induction 1 as [| x l Hx Hnd IH]; [intros [] |].
  unfold Js.without in *. cbn [List.filter length].
  destruct (String.eqb_spec x h) as [-> | Hne]; cbn [negb length].
  - intros _. f_equal. f_equal. apply (without_absent h l).
    destruct (Js.includes h l) eqn:Hinc; [| reflexivity].
    apply includes_In in Hinc. contradiction.
  - intros [Heq | Hin]; [contradiction |]. f_equal. apply IH, Hin.
Qed.

Lemma NoDup_without (h : string) (l : list string) :
  List.NoDup l -> List.NoDup (Js.without h l).
Proof. apply List.NoDup_filter. Qed.

(** One iteration of a swap loop on a known player. *)
Lemma moveHostage_members (src dst : RoomId) (g : Game) (h : string) :
  src <> dst ->
  In h (Js.keys (game_players g)) ->
  let g' := RoundEngine.moveHostage src dst g h in
  players (room src g') = Js.without h (players (room src g))
  /\ players (room dst g') = players (room dst g) ++ [h]
  /\ Js.keys (game_players g') = Js.keys (game_players g).
Proof.
  intros Hne Hin. destruct (keys_get _ _ Hin) as [p Hp].
  unfold RoundEngine.moveHostage. rewrite Hp.
  destruct src, dst; try contradiction; cbn -[Js.keys Js.without];
    rewrite keys_update; repeat split.
Qed.

(** A swap loop over distinct hostages who all sit in the source room:
    the source room loses exactly them, the destination room gains them at
    its end. *)
Lemma moveHostages_members (src dst : RoomId) (l : list string) :
  src <> dst ->
  forall g : Game,
    List.NoDup l ->
    List.NoDup (players (room src g)) ->
    (forall h, In h l -> In h (players (room src g))) ->
    (forall h, In h l -> In h (Js.keys (game_players g))) ->
    let g' := fold_left (RoundEngine.moveHostage src dst) l g in
    (length (players (room src g')) + length l)%nat
    = length (players (room src g))
    /\ players (room dst g') = players (room dst g) ++ l
    /\ List.NoDup (players (room src g'))
    /\ (forall x, In x (players (room src g')) -> In x (players (room src g)))
    /\ Js.keys (game_players g') = Js.keys (game_players g).
Proof.
  intros Hne. induction l as [| h l IH]; intros g Hnd Hsrc Hin Hkeys.
  - cbn. rewrite app_nil_r. repeat split; try assumption; auto.
  - cbn [fold_left length].
    destruct (moveHostage_members src dst g h Hne (Hkeys h (or_introl eq_refl)))
      as (Hs & Hd & Hk).
    cbn zeta in Hs, Hd, Hk.
    apply List.NoDup_cons_iff in Hnd as [Hh Hnd].
    destruct (IH (RoundEngine.moveHostage src dst g h) Hnd) as (L & D & N & I & K).
    + rewrite Hs. apply NoDup_without, Hsrc.
    + intros x Hx. rewrite Hs. apply In_without. split; [apply Hin; right; exact Hx |].
      intros ->. contradiction.
    + intros x Hx. rewrite Hk. apply Hkeys. right. exact Hx.
    + cbn zeta in L, D, N, I, K.
      pose proof (length_without_NoDup h _ Hsrc (Hin h (or_introl eq_refl))) as Hlen.
      rewrite Hs in L, I. split; [lia |].
      split; [rewrite D, Hd, <- app_assoc; reflexivity |].
      split; [exact N |].
      split; [intros x Hx; apply I, In_without_incl in Hx; exact Hx |].
      rewrite K. exact Hk.
Qed.

(** The two swap loops of [exchangeHostages], on a game whose member
    lists are duplicate-free and disjoint: when each leader's candidates
    are distinct members of that leader's own room and known players, and
    both rooms send the same number, both rooms keep their size. *)
Lemma swap_loops_keep_sizes (g : Game) (hostagesFromA hostagesFromB : list string) :
  List.NoDup (players (room ROOM_A g)) ->
  List.NoDup (players (room ROOM_B g)) ->
  (forall x, In x (players (room ROOM_A g)) -> ~ In x (players (room ROOM_B g))) ->
  List.NoDup hostagesFromA ->
  List.NoDup hostagesFromB ->
  (forall h, In h hostagesFromA -> In h (players (room ROOM_A g))) ->
  (forall h, In h hostagesFromB -> In h (players (room ROOM_B g))) ->
  (forall h, In h hostagesFromA \/ In h hostagesFromB ->
             In h (Js.keys (game_players g))) ->
  length hostagesFromA = length hostagesFromB ->
  let g' := fold_left (RoundEngine.moveHostage ROOM_B ROOM_A) hostagesFromB
              (fold_left (RoundEngine.moveHostage ROOM_A ROOM_B) hostagesFromA g) in
  length (players (room ROOM_A g')) = length (players (room ROOM_A g))
  /\ length (players (room ROOM_B g')) = length (players (room ROOM_B g)).
Proof.
  intros HndA HndB Hdisj HnA HnB HinA HinB Hkeys Hlen.
  destruct (moveHostages_members ROOM_A ROOM_B hostagesFromA ltac:(discriminate)
              g HnA HndA HinA (fun h H => Hkeys h (or_introl H)))
    as (L1 & D1 & N1 & I1 & K1).
  cbn zeta in L1, D1, N1, I1, K1.
  set (g1 := fold_left (RoundEngine.moveHostage ROOM_A ROOM_B) hostagesFromA g) in *.
  destruct (moveHostages_members ROOM_B ROOM_A hostagesFromB ltac:(discriminate)
              g1 HnB) as (L2 & D2 & _ & _ & _).
  - rewrite D1. apply List.NoDup_app; [exact HndB | exact HnA |].
    intros x Hx Hx'. apply (Hdisj x); [apply HinA, Hx' | exact Hx].
  - intros h Hh. rewrite D1. apply in_or_app. left. apply HinB, Hh.
  - intros h Hh. rewrite K1. apply Hkeys. right. exact Hh.
  - cbn zeta in L2, D2. cbn zeta. rewrite D2. rewrite D1 in L2.
    rewrite length_app in *. lia.
Qed.

(** The rest of [exchangeHostages] leaves the member lists alone. *)
Lemma members_refreshRoomAssignments (r : RoomId) (g : Game) :
  players (room r (RoundEngine.refreshRoomAssignments g)) = players (room r g).
Proof.
  unfold RoundEngine.refreshRoomAssignments.
  generalize (game_players g) as l. intros l. revert g.
  induction l as [| [k p] l IH]; intros g; [reflexivity |].
  cbn [fold_left fst snd]. rewrite IH.
  destruct (currentRoom p); [destruct r |]; reflexivity.
Qed.

Lemma members_startRound (r : RoomId) (roundNumber now : Z) (c : RoundEngine.Ctx) :
  players (room r (RoundEngine.game (RoundEngine.startRound roundNumber now c)))
  = players (room r (RoundEngine.game c)).
Proof.
  unfold RoundEngine.startRound.
  set (c1 := RoundEngine.on_game _ c).
  assert (H1 : players (room r (RoundEngine.game c1))
               = players (room r (RoundEngine.game c)))
    by (subst c1; destruct r; reflexivity).
  destruct (roundNumber =? 1).
  - rewrite <- H1. destruct r; reflexivity.
  - rewrite <- H1.
    destruct (startTimer_frame (game_id (RoundEngine.game c1))
                (Js.index (roundDurations (config (RoundEngine.game c)))
                          (roundNumber - 1))
                (Some RoundEngine.RoundTimerExpired) now c1) as [Hg _].
    cbn zeta in Hg. apply (untimed_room r) in Hg.
    change (RoundEngine.game (RoundEngine.broadcast ?ty ?pl ?sc ?c0))
      with (RoundEngine.game c0).
    rewrite <- Hg. reflexivity.
Qed.

Lemma members_endRound (r : RoomId) (reason : string) (now : Z)
      (c : RoundEngine.Ctx) :
  players (room r (RoundEngine.game (RoundEngine.endRound reason now c)))
  = players (room r (RoundEngine.game c)).
Proof.
  unfold RoundEngine.endRound.
  set (c3 := RoundEngine.on_game _ _).
  assert (H3 : players (room r (RoundEngine.game c3))
               = players (room r (RoundEngine.game c))).
  { subst c3.
    pose proof (view_transition now (RoundEngine.game c)
                  StateMachine.ROUND_COMPLETE) as Hv.
    unfold view in Hv. injection Hv as _ _ _ _ _ HpA HpB _ _ _.
    destruct r; [exact HpA | exact HpB]. }
  destruct (StateMachine.isRoundStatus _); [| exact H3].
  destruct (StateMachine.getCurrentRoundNumber _) as [next |]; [| exact H3].
  destruct (next =? 0); [exact H3 |].
  rewrite members_startRound. exact H3.
Qed.

(** C5, the exchange on well-chosen hostages. In a game whose member lists
    are duplicate-free and disjoint, when each room's candidates are
    distinct members of that very room and known players, and both rooms
    hold the same number of candidates, [exchangeHostages] leaves both
    rooms with the size they had: rooms whose sizes differ by at most one
    still do. *)
Lemma exchangeHostages_keeps_sizes (now : Z) (c : RoundEngine.Ctx) :
  let g := RoundEngine.game c in
  let g' := RoundEngine.game (RoundEngine.exchangeHostages now c) in
  List.NoDup (players (room ROOM_A g)) ->
  List.NoDup (players (room ROOM_B g)) ->
  (forall x, In x (players (room ROOM_A g)) -> ~ In x (players (room ROOM_B g))) ->
  List.NoDup (hostageCandidates (room ROOM_A g)) ->
  List.NoDup (hostageCandidates (room ROOM_B g)) ->
  (forall h, In h (hostageCandidates (room ROOM_A g)) ->
             In h (players (room ROOM_A g))) ->
  (forall h, In h (hostageCandidates (room ROOM_B g)) ->
             In h (players (room ROOM_B g))) ->
  (forall h, In h (hostageCandidates (room ROOM_A g))
             \/ In h (hostageCandidates (room ROOM_B g)) ->
             In h (Js.keys (game_players g))) ->
  length (hostageCandidates (room ROOM_A g))
  = length (hostageCandidates (room ROOM_B g)) ->
  Js.len (players (room ROOM_A g')) = Js.len (players (room ROOM_A g))
  /\ Js.len (players (room ROOM_B g')) = Js.len (players (room ROOM_B g)).
Proof.
  intros g g' HndA HndB Hdisj HnA HnB HinA HinB Hkeys Hlen.
  destruct (swap_loops_keep_sizes g _ _ HndA HndB Hdisj HnA HnB HinA HinB
              Hkeys Hlen) as [HA HB].
  cbn zeta in HA, HB. subst g'. unfold RoundEngine.exchangeHostages, Js.len.
  rewrite !members_endRound.
  split.
  - rewrite <- HA, <- (members_refreshRoomAssignments ROOM_A (fold_left _ _ _)).
    reflexivity.
  - rewrite <- HB, <- (members_refreshRoomAssignments ROOM_B (fold_left _ _ _)).
    reflexivity.
Qed.

(* ===================================================================== *)
(** * Properties of the services *)
(* ===================================================================== *)

(** ** Event bus: delivery *)

Lemma subscriptions_broadcast (gameId : string) (ty : ServerEventType)
      (pl : Payload) (sc : EventScope) (b : EventBus.t) :
  EventBus.subscriptions (EventBus.broadcast gameId ty pl sc b)
  = EventBus.subscriptions b.
Proof. reflexivity. Qed.

(** What one broadcast adds to the inbox of a subscription id: one copy of
    the event per subscription of the game that carries this id and is
    entitled to the scope. *)
Lemma inbox_broadcast (gameId : string) (ty : ServerEventType) (pl : Payload)
      (sc : EventScope) (b : EventBus.t) (sid : string) :
  EventBus.inbox sid (EventBus.broadcast gameId ty pl sc b)
  = EventBus.inbox sid b
    ++ map (fun _ => eventOf gameId ty pl sc b)
         (List.filter
            (fun s => EventBus.shouldReceiveEvent s sc
                      && String.eqb (EventBus.sub_id s) sid)
            (default [] (EventBus.subscriptions b !! gameId))).
Proof.
  unfold EventBus.inbox, EventBus.broadcast, EventBus.createEvent,
    EventBus.getNextSequenceNumber, EventBus.logEvent, eventOf.
  cbn -[List.filter map]. rewrite List.filter_app, map_app. f_equal.
  induction (default [] (EventBus.subscriptions b !! gameId)) as [| s l IH];
    [reflexivity |].
  cbn [List.filter]. destruct (EventBus.shouldReceiveEvent s sc); cbn [andb map];
    [| exact IH].
  cbn [List.filter fst]. destruct (String.eqb (EventBus.sub_id s) sid);
    cbn [map snd]; rewrite IH; reflexivity.
Qed.

Lemma filter_nil_forall {T} (p : T -> bool) (l : list T) :
  (forall x, In x l -> p x = false) -> List.filter p l = [].
Proof.
  induction l as [| x l IH]; intros H; [reflexivity |].
  cbn [List.filter]. rewrite (H x (or_introl eq_refl)).
  apply IH. intros y Hy. apply H. right. exact Hy.
Qed.

Lemma opt_eqb_eq (a b : option string) : Js.opt_eqb a b = true <-> a = b.
Proof.
  destruct a as [x |], b as [y |]; cbn; try (split; [discriminate | discriminate]).
  - rewrite String.eqb_eq. split; [intros -> | intros [= ->]]; reflexivity.
  - split; reflexivity.
Qed.

(** How many copies of an event a list of subscriptions hands to one
    inbox is positive as soon as one entitled subscription carries the id. *)
Lemma filter_cons_In {T} (p : T -> bool) (l : list T) (x : T) :
  In x l -> p x = true -> exists y rest, List.filter p l = y :: rest.
Proof.
  intros Hin Hp.
  destruct (List.filter p l) as [| y rest] eqn:Hf; [| eauto].
  assert (Hx : In x (List.filter p l)) by (apply filter_In; split; assumption).
  rewrite Hf in Hx. destruct Hx.
Qed.

Lemma map_const_repeat {T U} (e : U) (l : list T) :
  map (fun _ => e) l = repeat e (length l).
Proof. induction l as [| x l IH]; [reflexivity |]. cbn. rewrite IH. reflexivity. Qed.

(** X1. An event sent with [broadcastToPlayer] is private to the player.
    An inbox none of whose subscriptions to the game belongs to the player
    is left as it was (an inbox not subscribed to the game is one of them);
    an inbox with a subscription of the player to the game receives the
    event, numbered with the game's next sequence number, at its end. *)
Theorem player_event_reaches_only_player
        (gameId playerId : string) (ty : ServerEventType) (pl : Payload)
        (b : EventBus.t) (sid : string) :
  let b' := EventBus.broadcastToPlayer gameId playerId ty pl b in
  let subs := default [] (EventBus.subscriptions b !! gameId) in
  let e := eventOf gameId ty pl (PLAYER playerId) b in
  ((forall s, In s subs -> EventBus.sub_id s = sid ->
              EventBus.sub_playerId s <> Some playerId) ->
   EventBus.inbox sid b' = EventBus.inbox sid b)
  /\ (forall s, In s subs -> EventBus.sub_id s = sid ->
                EventBus.sub_playerId s = Some playerId ->
                exists k, EventBus.inbox sid b'
                          = EventBus.inbox sid b ++ repeat e (S k)).
Proof.
  intros b' subs e. subst b'. unfold EventBus.broadcastToPlayer.
  rewrite inbox_broadcast. fold subs. fold e. split.
  - intros Hnone. rewrite filter_nil_forall; [apply app_nil_r |].
    intros s Hin. cbn [EventBus.shouldReceiveEvent].
    destruct (String.eqb_spec (EventBus.sub_id s) sid) as [Hid | _];
      [| apply andb_false_r].
    destruct (Js.opt_eqb _ _) eqn:Heq; [| reflexivity].
    apply opt_eqb_eq in Heq. destruct (Hnone s Hin Hid Heq).
  - intros s Hin Hid Hpl.
    destruct (filter_cons_In
                (fun s0 => EventBus.shouldReceiveEvent s0 (PLAYER playerId)
                           && String.eqb (EventBus.sub_id s0) sid) subs s Hin)
      as (y & rest & Hf).
    + cbn [EventBus.shouldReceiveEvent]. rewrite Hid, String.eqb_refl.
      rewrite (proj2 (opt_eqb_eq _ _) Hpl). reflexivity.
    + rewrite Hf. exists (length rest). rewrite map_const_repeat. reflexivity.
Qed.

(** X2. Games are isolated on the bus. A broadcast for one game leaves the
    journal and the counter of every other game, and all subscriptions, as
    they were; whatever its scope, it reaches no inbox without a
    subscription to that game. *)
Theorem broadcast_stays_in_game
        (gameId : string) (ty : ServerEventType) (pl : Payload)
        (sc : EventScope) (b : EventBus.t) :
  let b' := EventBus.broadcast gameId ty pl sc b in
  EventBus.subscriptions b' = EventBus.subscriptions b
  /\ (forall other, other <> gameId ->
                    EventBus.getEvents other b' = EventBus.getEvents other b
                    /\ EventBus.sequenceNumbers b' !! other
                       = EventBus.sequenceNumbers b !! other)
  /\ (forall sid,
         (forall s, In s (default [] (EventBus.subscriptions b !! gameId)) ->
                    EventBus.sub_id s <> sid) ->
         EventBus.inbox sid b' = EventBus.inbox sid b).
Proof.
  intros b'. split; [reflexivity |]. split.
  - intros other Hne. subst b'.
    unfold EventBus.getEvents, EventBus.broadcast, EventBus.createEvent,
      EventBus.getNextSequenceNumber, EventBus.logEvent. cbn.
    rewrite !lookup_insert_ne by (intros Heq; apply Hne; symmetry; exact Heq).
    split; reflexivity.
  - intros sid Hnone. subst b'. rewrite inbox_broadcast.
    rewrite filter_nil_forall; [apply app_nil_r |].
    intros s Hin. apply andb_false_iff. right. apply String.eqb_neq.
    apply Hnone, Hin.
Qed.

(** ** Event bus: subscriptions *)

Lemma subscriptions_publishAll (ps : list Publish) (b : EventBus.t) :
  EventBus.subscriptions (publishAll ps b) = EventBus.subscriptions b.
Proof.
  revert b. induction ps as [| p ps IH]; intros b; [reflexivity |].
  unfold publishAll in *. cbn [fold_left]. rewrite IH. reflexivity.
Qed.

(** The subscriptions of a game once an id is unsubscribed: the others,
    in their order. A game left without subscription loses its entry. *)
Lemma subscriptions_unsubscribe (sid gameId : string) (b : EventBus.t) :
  default [] (EventBus.subscriptions (EventBus.unsubscribe sid b) !! gameId)
  = List.filter (fun s => negb (String.eqb (EventBus.sub_id s) sid))
                (default [] (EventBus.subscriptions b !! gameId)).
Proof.
  unfold EventBus.unsubscribe. cbn [EventBus.subscriptions].
  rewrite lookup_omap.
  destruct (EventBus.subscriptions b !! gameId) as [subs |]; [| reflexivity].
  cbn. destruct (List.filter _ subs); reflexivity.
Qed.

(** X3. [unsubscribe] removes every subscription that carries the id, from
    every game, and keeps the others in order; whatever is published
    afterwards, for any game and any scope, the inbox of the id stays as it
    was; the journals and counters are not touched. *)
Theorem unsubscribed_receives_nothing (sid : string) (b : EventBus.t) :
  (forall gameId,
      default [] (EventBus.subscriptions (EventBus.unsubscribe sid b) !! gameId)
      = List.filter (fun s => negb (String.eqb (EventBus.sub_id s) sid))
                    (default [] (EventBus.subscriptions b !! gameId)))
  /\ (forall ps : list Publish,
         EventBus.inbox sid (publishAll ps (EventBus.unsubscribe sid b))
         = EventBus.inbox sid b)
  /\ EventBus.eventLog (EventBus.unsubscribe sid b) = EventBus.eventLog b
  /\ EventBus.sequenceNumbers (EventBus.unsubscribe sid b)
     = EventBus.sequenceNumbers b.
Proof.
  split; [intros gameId; apply subscriptions_unsubscribe |].
  split; [| split; reflexivity].
  intros ps.
  assert (Hgen : forall b0,
             EventBus.subscriptions b0
             = EventBus.subscriptions (EventBus.unsubscribe sid b) ->
             EventBus.inbox sid (publishAll ps b0) = EventBus.inbox sid b0).
  { induction ps as [| p ps IH]; intros b0 Hsubs; [reflexivity |].
    unfold publishAll in *. cbn [fold_left].
    rewrite IH by (unfold publish; rewrite subscriptions_broadcast; exact Hsubs).
    unfold publish. rewrite inbox_broadcast, Hsubs, subscriptions_unsubscribe.
    rewrite filter_nil_forall; [apply app_nil_r |].
    intros s Hin. apply filter_In in Hin as [_ Hne].
    apply andb_false_iff. right. apply negb_true_iff, Hne. }
  rewrite Hgen by reflexivity. reflexivity.
Qed.

(** X4. A subscription is live at once: after [subscribe] the game counts
    one more subscriber and the player is subscribed; the next event of the
    game with PUBLIC scope, with a room scope or addressed to the player
    arrives at the end of the new inbox. *)
Theorem subscribe_then_receive
        (sid gameId playerId : string) (ty : ServerEventType) (pl : Payload)
        (sc : EventScope) (b : EventBus.t) :
  let b1 := EventBus.subscribe sid gameId (Some playerId) b in
  EventBus.getSubscriberCount gameId b1 = EventBus.getSubscriberCount gameId b + 1
  /\ EventBus.isPlayerSubscribed gameId playerId b1 = true
  /\ (sc = PUBLIC \/ (exists r, sc = ROOM r) \/ sc = PLAYER playerId ->
      exists k, EventBus.inbox sid (EventBus.broadcast gameId ty pl sc b1)
                = EventBus.inbox sid b ++ repeat (eventOf gameId ty pl sc b) (S k)).
Proof.
  intros b1.
  assert (Hsubs : default [] (EventBus.subscriptions b1 !! gameId)
                  = default [] (EventBus.subscriptions b !! gameId)
                    ++ [ {| EventBus.sub_id := sid; EventBus.sub_gameId := gameId;
                            EventBus.sub_playerId := Some playerId |} ]).
  { subst b1. unfold EventBus.subscribe. cbn [EventBus.subscriptions].
    rewrite lookup_insert_eq. reflexivity. }
  split; [| split].
  - unfold EventBus.getSubscriberCount, Js.len. rewrite Hsubs, length_app.
    cbn [length]. lia.
  - unfold EventBus.isPlayerSubscribed. rewrite Hsubs, existsb_app.
    cbn. rewrite String.eqb_refl. apply orb_true_r.
  - intros Hsc. rewrite inbox_broadcast.
    destruct (filter_cons_In
                (fun s => EventBus.shouldReceiveEvent s sc
                          && String.eqb (EventBus.sub_id s) sid)
                (default [] (EventBus.subscriptions b1 !! gameId))
                {| EventBus.sub_id := sid; EventBus.sub_gameId := gameId;
                   EventBus.sub_playerId := Some playerId |})
      as (y & rest & Hf).
    + rewrite Hsubs. apply in_or_app. right. left. reflexivity.
    + cbn [EventBus.sub_id]. rewrite String.eqb_refl, andb_true_r.
      destruct Hsc as [-> | [[r ->] | ->]]; cbn; try reflexivity.
      apply String.eqb_refl.
    + rewrite Hf. exists (length rest). rewrite map_const_repeat. reflexivity.
Qed.

(** ** Event bus: the journal on reconnection *)

Lemma filter_range (k a len : nat) :
  List.filter (fun z => z >? Z.of_nat k) (map Z.of_nat (seq a len))
  = map Z.of_nat (seq (Nat.max a (S k)) (a + len - Nat.max a (S k))).
Proof.
  revert a. induction len as [| len IH]; intros a.
  - cbn [seq map List.filter]. replace (a + 0 - Nat.max a (S k))%nat with 0%nat by lia.
    reflexivity.
  - cbn [seq map List.filter]. rewrite IH.
    destruct (Z.gtb_spec (Z.of_nat a) (Z.of_nat k)) as [Hgt | Hle].
    + replace (Nat.max (S a) (S k)) with (S a) by lia.
      replace (Nat.max a (S k)) with a by lia.
      replace (S a + len - S a)%nat with len by lia.
      replace (a + S len - a)%nat with (S len) by lia. reflexivity.
    + replace (Nat.max (S a) (S k)) with (S k) by lia.
      replace (Nat.max a (S k)) with (S k) by lia.
      replace (S a + len - S k)%nat with (a + S len - S k)%nat by lia. reflexivity.
Qed.

Lemma numbers_since (gameId : string) (k : Z) (b : EventBus.t) :
  map sequenceNumber (EventBus.getEventsSince gameId k b)
  = List.filter (fun z => z >? k) (journalNumbers gameId b).
Proof.
  unfold EventBus.getEventsSince, journalNumbers.
  induction (EventBus.getEvents gameId b) as [| e l IH]; [reflexivity |].
  cbn [List.filter map]. destruct (sequenceNumber e >? k); cbn [map];
    rewrite IH; reflexivity.
Qed.

(** X5. Catching up after a reconnection. Once [n] events have been
    published for a game that had none, [getEventsSince(k)] returns the
    events numbered [m + 1, ..., n] in order, where [m] is the larger of
    [k] and [n - 1000]: everything after [k] that the journal still holds,
    and nothing when [k] is [n] or more. *)
Theorem events_since_resume (gameId : string) (b : EventBus.t)
        (ps : list Publish) (k : nat) :
  unpublished gameId b ->
  let n := publishedFor gameId ps in
  let m := Nat.max k (n - 1000) in
  map sequenceNumber
      (EventBus.getEventsSince gameId (Z.of_nat k) (publishAll ps b))
  = map Z.of_nat (seq (S m) (n - m)).
Proof.
  intros Hfresh n m.
  destruct (journalAt_publishAll gameId ps 0 b (journalAt_fresh gameId b Hfresh))
    as [_ Hj].
  rewrite Nat.add_0_l in Hj. fold n in Hj.
  rewrite numbers_since, Hj. unfold upTo.
  rewrite List.skipn_map, List.skipn_seq, filter_range.
  subst m. f_equal. f_equal; lia.
Qed.

Lemma events_since_resume_witness :
  map sequenceNumber
      (EventBus.getEventsSince
         "game-1" 1
         (publishAll [timerNotice; timerNotice; timerNotice] EventBus.empty))
  = [2; 3].
Proof.
  exact (events_since_resume "game-1" EventBus.empty
           [timerNotice; timerNotice; timerNotice] 1%nat
           (conj eq_refl eq_refl)).
Defined.

(** X6. [clearEvents] starts the numbering of a game afresh: its journal
    is empty and nothing is returned on reconnection; the next event
    published for it is numbered 1 and is alone in the journal. Journals
    and counters of other games, subscriptions and inboxes are kept. *)
Theorem clearEvents_restarts_numbering
        (gameId : string) (ty : ServerEventType) (pl : Payload)
        (sc : EventScope) (b : EventBus.t) :
  let b1 := EventBus.clearEvents gameId b in
  EventBus.getEvents gameId b1 = []
  /\ (forall k, EventBus.getEventsSince gameId k b1 = [])
  /\ EventBus.getEvents gameId (EventBus.broadcast gameId ty pl sc b1)
     = [ {| sequenceNumber := 1; ev_type := ty; scope := sc; payload := pl |} ]
  /\ (forall other, other <> gameId ->
                    EventBus.getEvents other b1 = EventBus.getEvents other b
                    /\ EventBus.sequenceNumbers b1 !! other
                       = EventBus.sequenceNumbers b !! other)
  /\ EventBus.subscriptions b1 = EventBus.subscriptions b
  /\ EventBus.delivered b1 = EventBus.delivered b.
Proof.
  intros b1.
  assert (H0 : EventBus.getEvents gameId b1 = []).
  { subst b1. unfold EventBus.getEvents, EventBus.clearEvents.
    cbn [EventBus.eventLog]. rewrite lookup_delete_eq. reflexivity. }
  split; [exact H0 |]. split.
  { intros k. unfold EventBus.getEventsSince. rewrite H0. reflexivity. }
  split.
  { subst b1. unfold EventBus.getEvents, EventBus.broadcast, EventBus.createEvent,
      EventBus.getNextSequenceNumber, EventBus.logEvent, EventBus.clearEvents.
    cbn -[lookup insert delete]. rewrite lookup_insert_eq.
    rewrite !lookup_delete_eq. reflexivity. }
  split; [| split; reflexivity].
  intros other Hne. subst b1.
  unfold EventBus.getEvents, EventBus.clearEvents. cbn.
  rewrite !lookup_delete_ne by (intros Heq; apply Hne; symmetry; exact Heq).
  split; reflexivity.
Qed.

(** ** State machine *)

Lemma existsb_find {T} (p : T -> bool) (l : list T) :
  existsb p l = match List.find p l with Some _ => true | None => false end.
Proof.
  induction l as [| x l IH]; [reflexivity |].
  cbn. destruct (p x); [reflexivity | exact IH].
Qed.

(** X7. [canTransition] answers what [transition] does: the transition
    succeeds exactly when [canTransition] holds. A transition that fails
    returns the game untouched; one that succeeds raises the version by
    one, stamps the game, and changes nothing but the status: players,
    rooms, private state and configuration are kept. *)
Theorem transition_agrees_with_canTransition
        (now : Z) (g : Game) (trig : StateMachine.Trigger) :
  let r := StateMachine.transition now g trig in
  success (snd r) = StateMachine.canTransition g trig
  /\ (success (snd r) = false -> fst r = g)
  /\ (success (snd r) = true ->
      version (fst r) = version g + 1
      /\ updatedAt (fst r) = now
      /\ game_players (fst r) = game_players g
      /\ rooms (state (fst r)) = rooms (state g)
      /\ private (state (fst r)) = private (state g)
      /\ config (fst r) = config g
      /\ set_status (status (public (state g))) (public (state (fst r)))
         = public (state g)).
Proof.
  unfold StateMachine.transition, StateMachine.canTransition.
  rewrite existsb_find.
  destruct (StateMachine.findTransitions _ _) as [| t l] eqn:Hfind.
  - cbn. split; [reflexivity |]. split; [reflexivity | discriminate].
  - destruct (find _ _) as [t' |]; cbn.
    + split; [reflexivity |]. split; [discriminate |]. intros _.
      destruct g as [gid gcode cr up ver cfg ps [[] rms prv] evs].
      repeat split.
    + split; [reflexivity |]. split; [reflexivity | discriminate].
Qed.

(** The status a transition leaves, by cases on the status and the
    trigger it starts from. *)
Ltac transition_cases g trig :=
  unfold StateMachine.transition, StateMachine.findTransitions;
  destruct (status (public (state g))) eqn:Hst; destruct trig;
  cbn -[Z.eqb Z.leb Z.geb Z.abs StateMachine.hostagesExchanged];
  repeat match goal with
         | |- context [if ?b then _ else _] => destruct b eqn:?
         end;
  cbn -[Z.eqb Z.leb Z.geb Z.abs StateMachine.hostagesExchanged].

(** X8. The phases of a game are ordered. Apart from the two steps back
    the lobby allows (UNLOCK_ROOM from LOCKED to LOBBY and
    CANCEL_ROLE_SELECTION from ROLE_SELECTION to LOCKED), a transition that
    succeeds moves the game to a later phase: a round never comes again,
    and no transition leaves FINISHED. *)
Theorem transition_advances (now : Z) (g : Game) (trig : StateMachine.Trigger) :
  let r := StateMachine.transition now g trig in
  let before := status (public (state g)) in
  let after := status (public (state (fst r))) in
  (snd r = Success ->
   (trig = StateMachine.UNLOCK_ROOM /\ before = LOCKED /\ after = LOBBY)
   \/ (trig = StateMachine.CANCEL_ROLE_SELECTION
       /\ before = ROLE_SELECTION /\ after = LOCKED)
   \/ (phaseRank before < phaseRank after)%nat)
  /\ (before = FINISHED -> r = (g, Failed InvalidTransition)).
Proof.
  cbn zeta. split.
  - transition_cases g trig; intros Hok; try discriminate Hok;
      try (right; right; cbn; lia);
      try (left; repeat split; reflexivity);
      try (right; left; repeat split; reflexivity).
  - intros Hfin. unfold StateMachine.transition, StateMachine.findTransitions.
    rewrite Hfin. destruct trig; reflexivity.
Qed.




(** ** Hostage counts beyond the table *)

(** [calculateHostageCount] on any input: the count is 1, 2 or 3; it
    is 1 for fewer than 11 players, fewer than 6 included, and from round
    3 on; from round 1 on it never grows with the round, and in no round
    does it shrink as players are added. *)
Lemma hostage_count_bounds (n r : Z) :
  1 <= calculateHostageCount n r <= 3
  /\ (n < 11 \/ 3 <= r -> calculateHostageCount n r = 1)
  /\ (forall r', 1 <= r <= r' ->
                 calculateHostageCount n r' <= calculateHostageCount n r)
  /\ (forall n', n <= n' ->
                 calculateHostageCount n r <= calculateHostageCount n' r).
Proof.
  unfold calculateHostageCount.
  repeat split; intros;
    repeat match goal with
           | |- context [?a >=? ?b] => destruct (Z.geb_spec a b)
           | |- context [?a <=? ?b] => destruct (Z.leb_spec a b)
           | |- context [?a =? ?b] => destruct (Z.eqb_spec a b)
           end; cbn [andb]; lia.
Qed.

(** ** Validation engine: what an accepted request guarantees *)

Lemma flat_map_nil {T U} (f : T -> list U) (l : list T) :
  flat_map f l = [] <-> forall x, In x l -> f x = [].
Proof.
  induction l as [| y l IH]; cbn [flat_map].
  - split; [intros _ x [] | reflexivity].
  - split.
    + intros H. apply app_eq_nil in H as [Hy Hl].
      intros x [<- | Hx]; [exact Hy | apply (proj1 IH Hl x Hx)].
    + intros H. rewrite (H y (or_introl eq_refl)).
      apply IH. intros x Hx. apply H. right. exact Hx.
Qed.

Lemma len_zero {T} (l : list T) : (Js.len l =? 0) = true <-> l = [].
Proof.
  unfold Js.len. destruct l as [| x l]; [split; reflexivity |].
  cbn [length]. split; [intros H; apply Z.eqb_eq in H; lia | discriminate].
Qed.

Lemma includes_false (x : string) (l : list string) :
  Js.includes x l = false <-> ~ In x l.
Proof.
  rewrite <- includes_In. destruct (Js.includes x l); split.
  - discriminate.
  - intros H. destruct (H eq_refl).
  - intros _. discriminate.
  - reflexivity.
Qed.

(** X10. When a role list is accepted. For a game with players, the
    configuration validator accepts a list exactly when it contains the
    President and the Bomber, has the expected length (one less than the
    player count when a card is buried), every entry is a character of the
    catalogue, every character finds all it requires in the list and none
    it excludes. With no player nothing is accepted. The validator never
    throws, and team balance plays no part in the verdict. *)
Theorem role_configuration_accepted
        (getCharacter : CharacterId -> option CharacterDefinition)
        (roles : list CharacterId) (playerCount : Z) (bury : bool) :
  exists r,
    ValidationEngine.validateRoleConfiguration getCharacter roles playerCount bury
    = Some r
    /\ (valid r = true <->
        playerCount <> 0
        /\ In "president" roles /\ In "bomber" roles
        /\ Js.len roles = (if bury then playerCount - 1 else playerCount)
        /\ forall role, In role roles ->
             exists char,
               getCharacter role = Some char
               /\ (forall q, In q (default [] (requires char)) -> In q roles)
               /\ (forall x, In x (default [] (mutuallyExclusive char)) ->
                             ~ In x roles)).
Proof.
  unfold ValidationEngine.validateRoleConfiguration, ValidationEngine.validate.
  cbn [ValidationEngine.ctx_phase ValidationEngine.validators
       ValidationEngine.runValidators].
  unfold ValidationEngine.RoleConfigurationValidator.
  cbn [ValidationEngine.ctx_roles ValidationEngine.ctx_playerCount
       ValidationEngine.ctx_buryCard].
  destruct (Z.eqb_spec playerCount 0) as [-> | Hn].
  { eexists. split; [reflexivity |]. cbn. split; [discriminate |].
    intros [H _]. destruct (H eq_refl). }
  eexists. split; [reflexivity |].
  cbn [errors warnings ValidationEngine.mkResult valid app].
  rewrite len_zero.
  set (e1 := if Js.includes "president" roles then [] else _).
  set (e2 := if Js.includes "bomber" roles then [] else _).
  set (e3 := if Js.len roles =? _ then [] else _).
  assert (He1 : e1 = [] <-> In "president" roles).
  { subst e1. rewrite <- includes_In.
    destruct (Js.includes "president" roles); split; try reflexivity; discriminate. }
  assert (He2 : e2 = [] <-> In "bomber" roles).
  { subst e2. rewrite <- includes_In.
    destruct (Js.includes "bomber" roles); split; try reflexivity; discriminate. }
  assert (He3 : e3 = [] <-> Js.len roles = (if bury then playerCount - 1
                                            else playerCount)).
  { subst e3. unfold ValidationEngine.expectedCount.
    destruct bury;
      match goal with
      | |- context [?a =? ?b] => destruct (Z.eqb_spec a b)
      end; split; intros; congruence. }
  assert (Hdep : ValidationEngine.validateDependencies getCharacter roles = []
                 <-> forall role, In role roles ->
                       exists char, getCharacter role = Some char
                                    /\ forall q, In q (default [] (requires char)) ->
                                                 In q roles).
  { unfold ValidationEngine.validateDependencies. rewrite flat_map_nil.
    split; intros H role Hin; specialize (H role Hin).
    - destruct (getCharacter role) as [char |]; [| discriminate H].
      exists char. split; [reflexivity |].
      destruct (requires char) as [reqs |]; [| intros q []].
      intros q Hq. apply (proj1 (flat_map_nil _ _) H q) in Hq.
      destruct (Js.includes q roles) eqn:Hinc; [| discriminate Hq].
      apply includes_In, Hinc.
    - destruct H as (char & -> & Hreq).
      destruct (requires char) as [reqs |]; [| reflexivity].
      apply flat_map_nil. intros q Hq.
      rewrite (proj2 (includes_In q roles) (Hreq q Hq)). reflexivity. }
  assert (Hexc : ValidationEngine.validateMutualExclusions getCharacter roles = []
                 <-> forall role char, In role roles ->
                       getCharacter role = Some char ->
                       forall x, In x (default [] (mutuallyExclusive char)) ->
                                 ~ In x roles).
  { unfold ValidationEngine.validateMutualExclusions. rewrite flat_map_nil.
    split.
    - intros H role char Hin Hget x Hx. specialize (H role Hin).
      rewrite Hget in H.
      destruct (mutuallyExclusive char) as [excl |]; [| destruct Hx].
      apply (proj1 (flat_map_nil _ _) H x) in Hx.
      apply includes_false.
      destruct (Js.includes x roles); [discriminate Hx | reflexivity].
    - intros H role Hin. destruct (getCharacter role) as [char |] eqn:Hget;
        [| reflexivity].
      destruct (mutuallyExclusive char) as [excl |] eqn:Hexcl; [| reflexivity].
      apply flat_map_nil. intros x Hx.
      assert (Hno : ~ In x roles)
        by (apply (H role char Hin Hget); rewrite Hexcl; exact Hx).
      apply includes_false in Hno. rewrite Hno. reflexivity. }
  split.
  - intros H.
    apply app_eq_nil in H as [H1 H]. apply app_eq_nil in H as [H2 H].
    apply app_eq_nil in H as [H3 H]. apply app_eq_nil in H as [H4 H5].
    split; [exact Hn |]. split; [apply He1, H1 |]. split; [apply He2, H2 |].
    split; [apply He3, H3 |].
    intros role Hin. destruct (proj1 Hdep H4 role Hin) as (char & Hget & Hreq).
    exists char. split; [exact Hget |]. split; [exact Hreq |].
    apply (proj1 Hexc H5 role char Hin Hget).
  - intros (_ & Hp & Hb & Hlen & Hall).
    rewrite (proj2 He1 Hp), (proj2 He2 Hb), (proj2 He3 Hlen). cbn [app].
    rewrite (proj2 Hdep), (proj2 Hexc); [reflexivity | |].
    + intros role char Hin Hget. destruct (Hall role Hin) as (char' & Hget' & _ & Hex).
      rewrite Hget in Hget'. injection Hget' as <-. exact Hex.
    + intros role Hin. destruct (Hall role Hin) as (char & Hget & Hreq & _).
      exists char. split; assumption.
Qed.

Lemma truthy_Some (o : option string) :
  Js.truthy o = true -> exists s, o = Some s /\ s <> EmptyString.
Proof.
  destruct o as [s |]; [| discriminate]. cbn. intros H. exists s.
  split; [reflexivity |]. apply String.eqb_neq, negb_true_iff, H.
Qed.

Lemma optRoom_eqb_eq (a b : option RoomId) : optRoom_eqb a b = true -> a = b.
Proof. destruct a as [[] |], b as [[] |]; cbn; congruence. Qed.

(** What [validateAction] returns when it does not throw: the three error
    lists of the action validator, and validity when all are empty. *)
Lemma validateAction_valid
      (getCharacter : CharacterId -> option CharacterDefinition)
      (g : Game) (p : Player) (a : ValidationEngine.Action) (r : ValidationResult) :
  ValidationEngine.validateAction getCharacter g p a = Some r ->
  valid r = true ->
  ValidationEngine.isAuthorized p a = true
  /\ ValidationEngine.isValidInCurrentState a g = true
  /\ ValidationEngine.validateActionSpecifics a p g = Some [].
Proof.
  unfold ValidationEngine.validateAction, ValidationEngine.validate.
  cbn [ValidationEngine.ctx_phase ValidationEngine.validators
       ValidationEngine.runValidators].
  unfold ValidationEngine.ActionValidator.
  cbn [ValidationEngine.ctx_player ValidationEngine.ctx_action
       ValidationEngine.ctx_game].
  destruct (ValidationEngine.validateActionSpecifics a p g) as [e3 |];
    [| discriminate].
  cbn [errors warnings app]. intros [= <-].
  cbn [valid ValidationEngine.mkResult]. rewrite len_zero.
  destruct (ValidationEngine.isAuthorized p a); [| discriminate].
  destruct (ValidationEngine.isValidInCurrentState a g); [| discriminate].
  cbn [app]. intros ->. repeat split.
Qed.

(** X11. A hostage selection the action validator accepts is a legal one:
    the actor is a leader, the game is in a round, the target is a known
    player other than the actor who sits in the actor's room, and the room
    holds fewer candidates than the round requires. *)
Theorem validated_hostage_selection
        (getCharacter : CharacterId -> option CharacterDefinition)
        (g : Game) (p : Player) (a : ValidationEngine.Action)
        (r : ValidationResult) :
  ValidationEngine.validateAction getCharacter g p a = Some r ->
  valid r = true ->
  ValidationEngine.act_type a = ValidationEngine.ClientActionType.SELECT_HOSTAGE ->
  isLeader p = true
  /\ StateMachine.isRoundStatus (status (public (state g))) = true
  /\ exists target targetPlayer rm,
       ValidationEngine.targetPlayerId a = Some target
       /\ target <> id p
       /\ Js.get target (game_players g) = Some targetPlayer
       /\ currentRoom p = Some rm
       /\ currentRoom targetPlayer = Some rm
       /\ Js.len (hostageCandidates (room rm g))
          < calculateHostageCount (Js.size (game_players g))
                                  (currentRound (public (state g))).
Proof.
  intros Hv Hvalid Hty.
  destruct (validateAction_valid _ _ _ _ _ Hv Hvalid) as (Hauth & Hstate & Hspec).
  unfold ValidationEngine.isAuthorized in Hauth.
  unfold ValidationEngine.isValidInCurrentState in Hstate.
  unfold ValidationEngine.validateActionSpecifics in Hspec.
  rewrite Hty in Hauth, Hstate, Hspec.
  split; [exact Hauth |]. split; [exact Hstate |].
  unfold ValidationEngine.validateHostageSelection in Hspec.
  rewrite Hauth in Hspec. cbn [negb] in Hspec.
  destruct (Js.truthy (ValidationEngine.targetPlayerId a)) eqn:Ht;
    [| discriminate Hspec].
  destruct (truthy_Some _ Ht) as (target & Htarget & _).
  rewrite Htarget in Hspec. cbn [negb default from_option Datatypes.id] in Hspec.
  destruct (Js.get target (game_players g)) as [tp |] eqn:Hget.
  2: { destruct (Js.opt_eqb (Some target) (Some (id p))); discriminate Hspec. }
  destruct (currentRoom p) as [rm |] eqn:Hroom; [| discriminate Hspec].
  injection Hspec as Hspec.
  apply app_eq_nil in Hspec as [H1 Hspec]. apply app_eq_nil in Hspec as [H2 H3].
  exists target, tp, rm. split; [exact Htarget |].
  split.
  { intros ->. cbn [Js.opt_eqb] in H1. rewrite String.eqb_refl in H1.
    discriminate H1. }
  split; [exact Hget |]. split; [reflexivity |].
  split.
  { destruct (optRoom_eqb (currentRoom tp) (Some rm)) eqn:Heq;
      [apply optRoom_eqb_eq, Heq | discriminate H2]. }
  rewrite getHostageCount_eq in H3.
  destruct (Z.geb_spec (Js.len (hostageCandidates (room rm g)))
                       (calculateHostageCount (Js.size (game_players g))
                          (currentRound (public (state g)))));
    [discriminate H3 | assumption].
Qed.

Lemma validated_hostage_selection_witness :
  isLeader (seated "ann" ROOM_A true).2 = true
  /\ StateMachine.isRoundStatus (status (public (state sixPlayers))) = true
  /\ exists target targetPlayer rm,
       Some "bob" = Some target
       /\ target <> "ann"
       /\ Js.get target (game_players sixPlayers) = Some targetPlayer
       /\ Some ROOM_A = Some rm
       /\ currentRoom targetPlayer = Some rm
       /\ Js.len (hostageCandidates (room rm sixPlayers)) < 1.
Proof.
  exact (validated_hostage_selection
           sampleCatalogue sixPlayers (seated "ann" ROOM_A true).2
           (selectHostageAction "bob")
           {| valid := true; errors := []; warnings := Some [] |}
           eq_refl eq_refl eq_refl).
Defined.

(** X12. What else an accepted action guarantees. Locking and unlocking
    the room, selecting and confirming roles and starting the game are
    accepted from the host only, locking hostages from a leader only. A
    card or colour share names a known player in the actor's room, and so
    does the candidate of a usurp vote. Six action types are never
    accepted, whoever sends them and whatever the phase: CREATE_GAME,
    JOIN_GAME, LEAVE_GAME, SET_ROUNDS and INITIATE_NEW_LEADER_VOTE are not
    authorized, and PUBLIC_REVEAL is valid in no state. *)
Theorem validated_action_rules
        (getCharacter : CharacterId -> option CharacterDefinition)
        (g : Game) (p : Player) (a : ValidationEngine.Action)
        (r : ValidationResult) :
  ValidationEngine.validateAction getCharacter g p a = Some r ->
  valid r = true ->
  let ty := ValidationEngine.act_type a in
  (In ty [ValidationEngine.ClientActionType.LOCK_ROOM;
          ValidationEngine.ClientActionType.UNLOCK_ROOM;
          ValidationEngine.ClientActionType.SELECT_ROLES;
          ValidationEngine.ClientActionType.CONFIRM_ROLES;
          ValidationEngine.ClientActionType.START_GAME] -> isHost p = true)
  /\ (ty = ValidationEngine.ClientActionType.LOCK_HOSTAGES -> isLeader p = true)
  /\ ~ In ty [ValidationEngine.ClientActionType.CREATE_GAME;
              ValidationEngine.ClientActionType.JOIN_GAME;
              ValidationEngine.ClientActionType.LEAVE_GAME;
              ValidationEngine.ClientActionType.SET_ROUNDS;
              ValidationEngine.ClientActionType.INITIATE_NEW_LEADER_VOTE;
              ValidationEngine.ClientActionType.PUBLIC_REVEAL]
  /\ (In ty [ValidationEngine.ClientActionType.CARD_SHARE;
             ValidationEngine.ClientActionType.COLOR_SHARE] ->
      exists target targetPlayer,
        ValidationEngine.targetPlayerId a = Some target
        /\ Js.get target (game_players g) = Some targetPlayer
        /\ currentRoom targetPlayer = currentRoom p)
  /\ (ty = ValidationEngine.ClientActionType.VOTE_USURP ->
      exists candidate candidatePlayer,
        ValidationEngine.candidateId a = Some candidate
        /\ Js.get candidate (game_players g) = Some candidatePlayer
        /\ currentRoom candidatePlayer = currentRoom p).
Proof.
  intros Hv Hvalid ty.
  destruct (validateAction_valid _ _ _ _ _ Hv Hvalid) as (Hauth & Hstate & Hspec).
  unfold ValidationEngine.isAuthorized in Hauth.
  unfold ValidationEngine.isValidInCurrentState in Hstate.
  unfold ValidationEngine.validateActionSpecifics in Hspec.
  assert (Hshare :
            ValidationEngine.validateCardShare a p g = [] ->
            exists target targetPlayer,
              ValidationEngine.targetPlayerId a = Some target
              /\ Js.get target (game_players g) = Some targetPlayer
              /\ currentRoom targetPlayer = currentRoom p).
  { unfold ValidationEngine.validateCardShare.
    destruct (Js.truthy (ValidationEngine.targetPlayerId a)) eqn:Ht;
      [| discriminate].
    destruct (truthy_Some _ Ht) as (t & Htarget & _). rewrite Htarget.
    cbn [negb default from_option Datatypes.id].
    destruct (Js.get t (game_players g)) as [tp |] eqn:Hget; [| discriminate].
    destruct (optRoom_eqb _ _) eqn:Heq; [| discriminate].
    intros _. exists t, tp. repeat split; [exact Hget |].
    apply optRoom_eqb_eq, Heq. }
  assert (Hvote :
            ValidationEngine.validateLeaderVote a p g = [] ->
            exists candidate candidatePlayer,
              ValidationEngine.candidateId a = Some candidate
              /\ Js.get candidate (game_players g) = Some candidatePlayer
              /\ currentRoom candidatePlayer = currentRoom p).
  { unfold ValidationEngine.validateLeaderVote.
    destruct (Js.truthy (ValidationEngine.candidateId a)) eqn:Ht;
      [| discriminate].
    destruct (truthy_Some _ Ht) as (t & Htarget & _). rewrite Htarget.
    cbn [negb default from_option Datatypes.id].
    destruct (Js.get t (game_players g)) as [tp |] eqn:Hget; [| discriminate].
    destruct (optRoom_eqb _ _) eqn:Heq; [| discriminate].
    intros _. exists t, tp. repeat split; [exact Hget |].
    apply optRoom_eqb_eq, Heq. }
  subst ty.
  destruct (ValidationEngine.act_type a); cbn [In];
    repeat split; try discriminate; try (intros; exact Hauth);
    try (intros H; repeat (destruct H as [H | H]; try discriminate H); tauto);
    try (intros _; apply Hshare; congruence);
    try (intros _; apply Hvote; congruence).
Qed.

Lemma validated_action_rules_witness :
  exists target targetPlayer,
    Some "bob" = Some target
    /\ Js.get target (game_players sixPlayers) = Some targetPlayer
    /\ currentRoom targetPlayer = Some ROOM_A.
Proof.
  refine (proj1 (proj2 (proj2 (proj2
            (validated_action_rules
               sampleCatalogue sixPlayers (seated "ann" ROOM_A true).2
               {| ValidationEngine.act_type :=
                    ValidationEngine.ClientActionType.CARD_SHARE;
                  ValidationEngine.targetPlayerId := Some "bob";
                  ValidationEngine.candidateId := None |}
               {| valid := true; errors := []; warnings := Some [] |}
               eq_refl eq_refl)))) _).
  left. reflexivity.
Defined.

(** ** Room codes *)






(** ** Game store: the two maps *)

Lemma indexed_empty : indexed GameStore.empty.
Proof.
  split.
  - intros gameId g H. cbn in H. rewrite lookup_empty in H. discriminate H.
  - intros gcode gameId H. cbn in H. rewrite lookup_empty in H. discriminate H.
Qed.

Lemma indexed_createGame (hostName gameId gcode hostPlayerId seed : string)
      (now : Z) (s : GameStore.t) :
  indexed s ->
  gameId <> EmptyString ->
  GameStore.games s !! gameId = None ->
  GameStore.gamesByCode s !! gcode = None ->
  indexed (snd (GameStore.createGame hostName gameId gcode hostPlayerId seed now s)).
Proof.
  intros [Hg Hc] Hne Hfresh Hcode. cbn [GameStore.createGame snd]. split.
  - intros gid g. cbn [GameStore.games GameStore.gamesByCode].
    destruct (decide (gid = gameId)) as [-> | Hother].
    + rewrite lookup_insert_eq. intros [= <-]. cbn [game_id game_code].
      rewrite lookup_insert_eq. repeat split. exact Hne.
    + rewrite lookup_insert_ne by (intros Heq; apply Hother; symmetry; exact Heq).
      intros Hlook. destruct (Hg gid g Hlook) as (Hid & Hnz & Hidx).
      split; [exact Hid |]. split; [exact Hnz |].
      rewrite lookup_insert_ne; [exact Hidx |]. congruence.
  - intros code gid. cbn [GameStore.games GameStore.gamesByCode].
    destruct (decide (code = gcode)) as [-> | Hother].
    + rewrite lookup_insert_eq. intros [= <-]. eexists.
      rewrite lookup_insert_eq. split; reflexivity.
    + rewrite lookup_insert_ne by (intros Heq; apply Hother; symmetry; exact Heq).
      intros Hlook. destruct (Hc code gid Hlook) as (g & Hgl & Hgc).
      exists g. split; [| exact Hgc].
      rewrite lookup_insert_ne; [exact Hgl |]. congruence.
Qed.

Lemma indexed_update (now : Z) (g g0 : Game) (s : GameStore.t) :
  indexed s ->
  GameStore.games s !! game_id g = Some g0 ->
  game_code g = game_code g0 ->
  indexed (GameStore.update now g s).
Proof.
  intros [Hg Hc] Hold Hcode. unfold GameStore.update.
  destruct (Hg _ _ Hold) as (_ & Hnz & Hidx). split.
  - intros gid g'. cbn [GameStore.games GameStore.gamesByCode].
    destruct (decide (gid = game_id g)) as [-> | Hother].
    + rewrite lookup_insert_eq. intros [= <-]. cbn.
      rewrite Hcode. repeat split; assumption.
    + rewrite lookup_insert_ne by (intros Heq; apply Hother; symmetry; exact Heq).
      apply Hg.
  - intros code gid Hlook. cbn [GameStore.games GameStore.gamesByCode] in *.
    destruct (Hc code gid Hlook) as (g' & Hgl & Hgc).
    destruct (decide (gid = game_id g)) as [-> | Hother].
    + rewrite lookup_insert_eq. eexists. split; [reflexivity |]. cbn.
      rewrite Hold in Hgl. injection Hgl as <-. rewrite Hcode. exact Hgc.
    + exists g'. split; [| exact Hgc].
      rewrite lookup_insert_ne by (intros Heq; apply Hother; symmetry; exact Heq).
      exact Hgl.
Qed.

Lemma indexed_delete (gameId : string) (s : GameStore.t) :
  indexed s -> indexed (GameStore.delete gameId s).
Proof.
  intros [Hg Hc]. unfold GameStore.delete.
  destruct (GameStore.games s !! gameId) as [g |] eqn:Hlook; [| split; assumption].
  destruct (Hg _ _ Hlook) as (Hid & _ & Hidx). split.
  - intros gid g'. cbn [GameStore.games GameStore.gamesByCode].
    destruct (decide (gid = gameId)) as [-> | Hother].
    + rewrite lookup_delete_eq. discriminate.
    + rewrite lookup_delete_ne by (intros Heq; apply Hother; symmetry; exact Heq).
      intros Hl. destruct (Hg gid g' Hl) as (Hid' & Hnz & Hidx').
      split; [exact Hid' |]. split; [exact Hnz |].
      rewrite lookup_delete_ne; [exact Hidx' |]. congruence.
  - intros code gid. cbn [GameStore.games GameStore.gamesByCode].
    destruct (decide (code = game_code g)) as [-> | Hother].
    + rewrite lookup_delete_eq. discriminate.
    + rewrite lookup_delete_ne by (intros Heq; apply Hother; symmetry; exact Heq).
      intros Hl. destruct (Hc code gid Hl) as (g' & Hgl & Hgc).
      exists g'. split; [| exact Hgc].
      rewrite lookup_delete_ne; [exact Hgl |]. congruence.
Qed.

Lemma indexed_deleteAll (l : list string) :
  forall s, indexed s ->
            indexed (fold_left (fun s' gameId => GameStore.delete gameId s') l s).
Proof.
  induction l as [| x l IH]; intros s H; [exact H |].
  cbn [fold_left]. apply IH, indexed_delete, H.
Qed.

(** X14. The store keeps its code index in step with its games. The empty
    store is consistent, and consistency is kept by [createGame] with an id
    and a code not in use, by [update] of a stored game that kept its
    code, by [delete] and by [cleanupOldGames]: every stored game remains
    reachable through its code, and no code is left behind by a deleted
    game. *)
Theorem store_index_kept :
  indexed GameStore.empty
  /\ (forall hostName gameId gcode hostPlayerId seed now s,
         indexed s -> gameId <> EmptyString ->
         GameStore.games s !! gameId = None ->
         GameStore.gamesByCode s !! gcode = None ->
         indexed (snd (GameStore.createGame hostName gameId gcode hostPlayerId
                                            seed now s)))
  /\ (forall now g g0 s,
         indexed s -> GameStore.games s !! game_id g = Some g0 ->
         game_code g = game_code g0 ->
         indexed (GameStore.update now g s))
  /\ (forall gameId s, indexed s -> indexed (GameStore.delete gameId s))
  /\ (forall maxAgeMs now s,
         indexed s -> indexed (GameStore.cleanupOldGames maxAgeMs now s)).
Proof.
  split; [exact indexed_empty |].
  split; [intros; apply indexed_createGame; assumption |].
  split; [intros; eapply indexed_update; eassumption |].
  split; [intros; apply indexed_delete; assumption |].
  intros maxAgeMs now s H. unfold GameStore.cleanupOldGames.
  apply indexed_deleteAll, H.
Qed.

(** X15. Lookup by room code. In a consistent store [getByCode] finds a
    game exactly when it is stored and its code is the upper-cased
    argument: codes are matched whatever the case they are typed in, and a
    game found by code is the one [get] returns for its id. *)
Theorem getByCode_finds (toUpperCase : string -> string) (gcode : string)
        (s : GameStore.t) (g : Game) :
  indexed s ->
  GameStore.getByCode toUpperCase gcode s = Some g
  <-> GameStore.get (game_id g) s = Some g /\ game_code g = toUpperCase gcode.
Proof.
  intros [Hg Hc]. unfold GameStore.getByCode, GameStore.get. split.
  - destruct (GameStore.gamesByCode s !! toUpperCase gcode) as [gid |] eqn:Hidx;
      [| discriminate].
    destruct (Js.truthy (Some gid)); [| discriminate].
    cbn [default from_option Datatypes.id]. intros Hlook.
    destruct (Hg _ _ Hlook) as (Hid & _ & _).
    destruct (Hc _ _ Hidx) as (g' & Hgl & Hgc).
    rewrite Hlook in Hgl. injection Hgl as <-.
    rewrite Hid. split; [exact Hlook | exact Hgc].
  - intros [Hlook Hcode]. destruct (Hg _ _ Hlook) as (_ & Hnz & Hidx).
    rewrite <- Hcode, Hidx. cbn [Js.truthy default from_option Datatypes.id].
    apply String.eqb_neq in Hnz. rewrite Hnz. exact Hlook.
Qed.

Lemma getByCode_finds_witness :
  GameStore.getByCode
    (fun _ => "BOOM42") "boom42"
    (snd (GameStore.createGame "Ann" "game-1" "BOOM42" "ann" "seed" 0
                               GameStore.empty))
  = Some (fst (GameStore.createGame "Ann" "game-1" "BOOM42" "ann" "seed" 0
                                    GameStore.empty)).
Proof.
  apply (getByCode_finds
           (fun _ => "BOOM42") "boom42"
           (snd (GameStore.createGame "Ann" "game-1" "BOOM42" "ann" "seed" 0
                                      GameStore.empty))
           (fst (GameStore.createGame "Ann" "game-1" "BOOM42" "ann" "seed" 0
                                      GameStore.empty))).
  - apply indexed_createGame;
      [apply indexed_empty | discriminate | reflexivity | reflexivity].
  - split; reflexivity.
Defined.

Lemma get_delete (gameId other : string) (s : GameStore.t) :
  GameStore.get other (GameStore.delete gameId s)
  = if String.eqb gameId other then None else GameStore.get other s.
Proof.
  unfold GameStore.delete, GameStore.get.
  destruct (String.eqb_spec gameId other) as [-> | Hne].
  - destruct (GameStore.games s !! other) eqn:Hl; [| exact Hl].
    cbn. apply lookup_delete_eq.
  - destruct (GameStore.games s !! gameId); [| reflexivity].
    cbn. apply lookup_delete_ne. exact Hne.
Qed.

Lemma get_deleteAll (l : list string) (other : string) :
  forall s,
    GameStore.get other (fold_left (fun s' gameId => GameStore.delete gameId s') l s)
    = if Js.includes other l then None else GameStore.get other s.
Proof.
  induction l as [| x l IH]; intros s; [reflexivity |].
  cbn [fold_left Js.includes existsb]. rewrite IH.
  change (existsb (String.eqb other) l) with (Js.includes other l).
  destruct (Js.includes other l); [rewrite orb_true_r; reflexivity |].
  rewrite orb_false_r, get_delete, String.eqb_sym. reflexivity.
Qed.

(** X16. [cleanupOldGames] deletes exactly the finished games that were
    last updated more than [maxAgeMs] ago: such a game is gone afterwards,
    every other game is returned by [get] as before, and an id that was
    not stored is still not. *)
Theorem cleanup_removes_stale (maxAgeMs now : Z) (s : GameStore.t)
        (gameId : string) :
  GameStore.get gameId (GameStore.cleanupOldGames maxAgeMs now s)
  = match GameStore.get gameId s with
    | Some g => if stale maxAgeMs now g then None else Some g
    | None => None
    end.
Proof.
  unfold GameStore.cleanupOldGames. rewrite get_deleteAll.
  set (old := fun kv : string * Game =>
                GameStatus_eqb (status (public (state (snd kv)))) FINISHED
                && (now - updatedAt (snd kv) >? maxAgeMs)).
  unfold GameStore.get.
  destruct (GameStore.games s !! gameId) as [g |] eqn:Hlook.
  - destruct (stale maxAgeMs now g) eqn:Hstale.
    + replace (Js.includes gameId _) with true; [reflexivity |].
      symmetry. apply includes_In, in_map_iff. exists (gameId, g).
      split; [reflexivity |]. apply filter_In. split; [| exact Hstale].
      apply list_elem_of_In, elem_of_map_to_list, Hlook.
    + destruct (Js.includes gameId _) eqn:Hinc; [| reflexivity].
      apply includes_In, in_map_iff in Hinc as ([k g'] & Hk & Hin).
      cbn in Hk. subst k. apply filter_In in Hin as [Hin Hold].
      apply list_elem_of_In, elem_of_map_to_list in Hin.
      rewrite Hlook in Hin. injection Hin as <-.
      unfold old, stale in *. cbn in Hold. congruence.
  - destruct (Js.includes gameId _) eqn:Hinc; [reflexivity |]. reflexivity.
Qed.

(** ** The lobby commands *)

Lemma get_set_same {V} (k : string) (v : V) (m : Js.JsMap V) :
  Js.get k (Js.set k v m) = Some v.
Proof.
  induction m as [| [k' v'] m IH]; cbn [Js.set Js.get].
  - rewrite String.eqb_refl. reflexivity.
  - destruct (String.eqb k k') eqn:Hk; cbn [Js.get]; rewrite Hk;
      [reflexivity | exact IH].
Qed.

Lemma get_set_other {V} (k k' : string) (v : V) (m : Js.JsMap V) :
  k' <> k -> Js.get k' (Js.set k v m) = Js.get k' m.
Proof.
  intros Hne. induction m as [| [k0 v0] m IH]; cbn [Js.set Js.get].
  - destruct (String.eqb_spec k' k); [contradiction | reflexivity].
  - destruct (String.eqb_spec k k0) as [-> | Hk]; cbn [Js.get].
    + destruct (String.eqb_spec k' k0); [contradiction | reflexivity].
    + destruct (String.eqb k' k0); [reflexivity | exact IH].
Qed.

(** A new key goes to the end of the map. *)
Lemma set_fresh {V} (k : string) (v : V) (m : Js.JsMap V) :
  Js.get k m = None -> Js.set k v m = m ++ [(k, v)].
Proof.
  induction m as [| [k' v'] m IH]; cbn [Js.set Js.get]; [reflexivity |].
  destruct (String.eqb k k'); [discriminate |].
  intros H. rewrite (IH H). reflexivity.
Qed.

Lemma transition_lock_room (now : Z) (g : Game) :
  status (public (state g)) = LOBBY ->
  6 <= Js.size (game_players g) <= 30 ->
  StateMachine.transition now g StateMachine.LOCK_ROOM
  = (bump_version now (upd_public (set_status LOCKED) g), Success).
Proof.
  intros Hst Hn. unfold StateMachine.transition, StateMachine.findTransitions.
  rewrite Hst. cbn -[Z.geb Z.leb Js.size bump_version upd_public].
  destruct (Z.geb_spec (Js.size (game_players g)) 6); [| lia].
  destruct (Z.leb_spec (Js.size (game_players g)) 30); [| lia].
  reflexivity.
Qed.

Lemma transition_lock_room_refused (now : Z) (g : Game) :
  status (public (state g)) <> LOBBY ->
  StateMachine.transition now g StateMachine.LOCK_ROOM
  = (g, Failed InvalidTransition).
Proof.
  intros Hst. unfold StateMachine.transition, StateMachine.findTransitions.
  destruct (status (public (state g))); try reflexivity. contradiction.
Qed.

Lemma transition_start_role_selection (now : Z) (g : Game) :
  status (public (state g)) = LOCKED ->
  StateMachine.transition now g StateMachine.START_ROLE_SELECTION
  = (bump_version now (upd_public (set_status ROLE_SELECTION) g), Success).
Proof.
  intros Hst. unfold StateMachine.transition, StateMachine.findTransitions.
  rewrite Hst. reflexivity.
Qed.

Section LobbyProperties.

Variable gameCreatedP : string -> string -> string -> Payload.
Variable playerJoinedP : string -> string -> Z -> Payload.
Variable roomLockedP : Z -> Payload.
Variable toUpperCase : string -> string.
Variable getCharacter : CharacterId -> option CharacterDefinition.

(** The verdict of the ROOM_LOCK validation. *)
Lemma validate_room_lock (g : Game) :
  exists r,
    ValidationEngine.validate getCharacter
      {| ValidationEngine.ctx_game := Some g;
         ValidationEngine.ctx_phase := ValidationEngine.ValidationPhase.ROOM_LOCK;
         ValidationEngine.ctx_player := None;
         ValidationEngine.ctx_action := None;
         ValidationEngine.ctx_roles := None;
         ValidationEngine.ctx_playerCount := None;
         ValidationEngine.ctx_buryCard := None |} = Some r
    /\ valid r = (6 <=? Js.size (game_players g)) && (Js.size (game_players g) <=? 30)
    /\ (valid r = false -> exists e rest, errors r = e :: rest).
Proof.
  unfold ValidationEngine.validate.
  cbn [ValidationEngine.ctx_phase ValidationEngine.validators
       ValidationEngine.runValidators].
  unfold ValidationEngine.PlayerCountValidator. cbn [ValidationEngine.ctx_game].
  eexists. split; [reflexivity |].
  cbn [errors warnings valid ValidationEngine.mkResult app].
  set (n := Js.size (game_players g)).
  destruct (Z.ltb_spec n 6), (Z.gtb_spec n 30), (Z.leb_spec 6 n),
    (Z.leb_spec n 30); try lia; cbn; split; try reflexivity;
    try discriminate; intros _; eexists; eexists; reflexivity.
Qed.

(** X17. Locking the room. For a stored game the command succeeds exactly
    when the sender is a player of the game and its host, the game is in
    the lobby, and it has between 6 and 30 players. It then leaves the game
    in ROLE_SELECTION, two versions later, with the same players. A command
    that fails leaves the store, the bus and the timers as they were. *)
Theorem lockRoom_spec (gameId playerId : string) (now : Z)
        (w : GameController.World) (g : Game) :
  GameStore.get gameId (GameController.store w) = Some g ->
  let r := GameController.lockRoom roomLockedP getCharacter gameId playerId now w in
  let n := Js.size (game_players g) in
  (snd r = GameController.LobbySuccess <->
   (exists p, Js.get playerId (game_players g) = Some p /\ isHost p = true)
   /\ status (public (state g)) = LOBBY
   /\ 6 <= n <= 30)
  /\ (snd r = GameController.LobbySuccess ->
      exists g',
        GameStore.get gameId (GameController.store (fst r)) = Some g'
        /\ status (public (state g')) = ROLE_SELECTION
        /\ version g' = version g + 2
        /\ updatedAt g' = now
        /\ game_players g' = game_players g)
  /\ (snd r <> GameController.LobbySuccess -> fst r = w).
Proof.
  intros Hget r n. subst r. unfold GameController.lockRoom. rewrite Hget.
  destruct (Js.get playerId (game_players g)) as [p |] eqn:Hp.
  2: { cbn. split; [split; [discriminate | intros [[p [Hp' _]] _]; discriminate] |].
       split; [discriminate | reflexivity]. }
  destruct (isHost p) eqn:Hhost; cbn [negb].
  2: { cbn. split; [split; [discriminate |] |].
       - intros [[p' [Hp' Hh]] _]. injection Hp' as <-. congruence.
       - split; [discriminate | reflexivity]. }
  destruct (validate_room_lock g) as (v & -> & Hvalid & Herr).
  fold n in Hvalid.
  destruct (valid v) eqn:Hv; cbn [negb].
  2: { destruct (Herr eq_refl) as (e & rest & ->). cbn.
       split; [split; [discriminate |] |].
       - intros (_ & _ & Hn). symmetry in Hvalid.
         apply andb_false_iff in Hvalid as [H | H];
           [apply Z.leb_gt in H | apply Z.leb_gt in H]; lia.
       - split; [discriminate | reflexivity]. }
  symmetry in Hvalid. apply andb_true_iff in Hvalid as [Hlo Hhi].
  apply Z.leb_le in Hlo, Hhi.
  assert (Hdec : status (public (state g)) = LOBBY
                 \/ status (public (state g)) <> LOBBY)
    by (destruct (status (public (state g)));
        (left; reflexivity) || (right; discriminate)).
  destruct Hdec as [Hst | Hst].
  2: { rewrite transition_lock_room_refused by exact Hst. cbn [fst snd].
       split; [split; [discriminate | intros (_ & Hbad & _); contradiction] |].
       split; [discriminate | reflexivity]. }
  rewrite transition_lock_room by first [exact Hst | split; assumption].
  rewrite transition_start_role_selection by reflexivity.
  cbn [fst snd].
  split; [split; [intros _ | reflexivity] |].
  { split; [exists p; split; [reflexivity | exact Hhost] |].
    split; [exact Hst | split; assumption]. }
  split; [| intros H; destruct (H eq_refl)].
  intros _. eexists.
  split; [unfold GameController.on_bus; cbn [GameController.store];
          apply get_storeUpdate |].
  repeat split. cbn. lia.
Qed.


(** X19. From creation to the first guest. When no room code can be
    generated, [createGame] fails and changes nothing. Otherwise it
    succeeds: the game is stored under its id with the generated code, in
    the lobby, with the host as its only player. A player who then joins
    with the code, typed in any case that upper-cases to it, is accepted
    and becomes the second player of the game. *)
Theorem created_game_can_be_joined
        (hostName gameId hostPlayerId seed : string) (random : nat -> Rand01)
        (now : Z) (w : GameController.World) :
  gameId <> EmptyString ->
  let r1 := GameController.createGame gameCreatedP hostName gameId hostPlayerId
                                      seed random now w in
  match RoomCode.generateRoomCode random (GameController.store w) with
  | None => r1 = (w, GameController.LobbyFailed GameController.NoUniqueRoomCode)
  | Some gcode =>
      snd r1 = GameController.LobbySuccess
      /\ (exists g,
             GameStore.get gameId (GameController.store (fst r1)) = Some g
             /\ game_id g = gameId /\ game_code g = gcode
             /\ status (public (state g)) = LOBBY
             /\ game_players g
                = [(hostPlayerId, createPlayer hostPlayerId hostName true)])
      /\ forall typed playerName playerId later,
           toUpperCase typed = gcode ->
           playerId <> hostPlayerId ->
           let r2 := GameController.joinGame playerJoinedP toUpperCase typed
                                             playerName playerId later (fst r1) in
           snd r2 = GameController.LobbySuccess
           /\ exists g',
                GameStore.get gameId (GameController.store (fst r2)) = Some g'
                /\ game_players g'
                   = [(hostPlayerId, createPlayer hostPlayerId hostName true);
                      (playerId, createPlayer playerId playerName false)]
  end.
Proof.
  intros Hne. cbn zeta. unfold GameController.createGame.
  destruct (RoomCode.generateRoomCode random (GameController.store w))
    as [gcode |]; [| reflexivity].
  cbn [GameStore.createGame fst snd GameController.on_bus GameController.on_store
       GameController.store].
  split; [reflexivity |]. split.
  { eexists. unfold GameStore.get. cbn [GameStore.games].
    split; [apply lookup_insert_eq |]. repeat split. }
  intros typed playerName playerId later Hup Hpid.
  unfold GameController.joinGame, GameStore.getByCode.
  cbn [GameController.store GameController.on_bus GameController.on_store
       GameStore.gamesByCode GameStore.games].
  rewrite Hup, lookup_insert_eq. cbn [Js.truthy default from_option Datatypes.id].
  apply String.eqb_neq in Hne. rewrite Hne. cbn [negb].
  rewrite lookup_insert_eq. cbn [negb status public state createInitialGameState
                                 GameStatus_eqb fst snd].
  split; [reflexivity |]. eexists. split.
  { unfold GameController.on_bus, GameController.storeUpdate,
      GameController.on_store, GameStore.update, GameStore.get.
    cbn [GameController.store GameStore.games game_id with_updatedAt
         upd_players with_players].
    apply lookup_insert_eq. }
  cbn [game_players with_updatedAt upd_players with_players Js.set].
  destruct (String.eqb_spec playerId hostPlayerId); [contradiction | reflexivity].
Qed.

End LobbyProperties.

Lemma lockRoom_spec_witness :
  exists g',
    GameStore.get "game-1"
      (GameController.store
         (fst (GameController.lockRoom (fun _ => ParlayEndedP) sampleCatalogue
                 "game-1" "ann" 9 (worldOf lobbyGame)))) = Some g'
    /\ status (public (state g')) = ROLE_SELECTION
    /\ version g' = version lobbyGame + 2
    /\ updatedAt g' = 9
    /\ game_players g' = game_players lobbyGame.
Proof.
  exact (proj1 (proj2 (lockRoom_spec (fun _ => ParlayEndedP) sampleCatalogue
                         "game-1" "ann" 9 (worldOf lobbyGame) lobbyGame
                         eq_refl))
               eq_refl).
Defined.

Lemma created_game_can_be_joined_witness :
  snd (GameController.joinGame
         (fun _ _ _ => ParlayEndedP) (fun _ => "AAAAAA") "aaaaaa" "Bob" "bob" 5
         (fst (GameController.createGame
                 (fun _ _ _ => ParlayEndedP) "Ann" "game-1" "ann" "seed"
                 zeroRandom 0 GameController.emptyWorld)))
  = GameController.LobbySuccess.
Proof.
  refine (proj1 (proj2 (proj2
            (created_game_can_be_joined
               (fun _ _ _ => ParlayEndedP) (fun _ _ _ => ParlayEndedP)
               (fun _ => "AAAAAA") "Ann" "game-1" "ann" "seed" zeroRandom 0
               GameController.emptyWorld _))
            "aaaaaa" "Bob" "bob" 5 eq_refl _));
    discriminate.
Defined.

(** ** Shuffling, rooms and roles *)

Lemma insert_Permutation {T} (l : list T) :
  forall (i : nat) (y : T),
    (i < length l)%nat -> Permutation (<[i := y]> l) (y :: delete i l).
Proof.
  induction l as [| a l IH]; intros i y Hi; [cbn in Hi; lia |].
  destruct i as [| i]; [reflexivity |].
  cbn. rewrite IH by (cbn in Hi; lia). apply perm_swap.
Qed.

Lemma swap_Permutation {T} (i j : nat) (l : list T) :
  Permutation (GameController.swap i j l) l.
Proof.
  unfold GameController.swap.
  destruct (l !! i) as [x |] eqn:Hi; [| reflexivity].
  destruct (l !! j) as [y |] eqn:Hj; [| reflexivity].
  destruct (decide (i = j)) as [-> | Hne].
  - rewrite Hi in Hj. injection Hj as <-.
    rewrite !list_insert_id by (rewrite ?list_insert_id; assumption). reflexivity.
  - assert (Hlj : (j < length l)%nat) by (eapply lookup_lt_Some; exact Hj).
    assert (Hli : (i < length l)%nat) by (eapply lookup_lt_Some; exact Hi).
    set (l' := <[j := x]> l).
    assert (Hi' : l' !! i = Some x)
      by (subst l'; rewrite list_lookup_insert_ne by (intros E; apply Hne; symmetry; exact E); exact Hi).
    assert (H1 : Permutation l' (x :: delete j l))
      by (apply insert_Permutation, Hlj).
    assert (H2 : Permutation l' (x :: delete i l'))
      by (apply delete_Permutation, Hi').
    assert (H3 : Permutation (delete i l') (delete j l)).
    { apply (Permutation_cons_inv (a := x)). rewrite <- H1, <- H2. reflexivity. }
    rewrite insert_Permutation by (subst l'; rewrite length_insert; exact Hli).
    rewrite H3. symmetry. apply delete_Permutation, Hj.
Qed.

Lemma shuffleFrom_Permutation {T} (rand : nat -> Z) (i : nat) :
  forall (k : nat) (arr : list T),
    Permutation (GameController.shuffleFrom rand k i arr) arr.
Proof.
  induction i as [| i IH]; intros k arr; [reflexivity |].
  cbn [GameController.shuffleFrom]. rewrite IH. apply swap_Permutation.
Qed.

(** X20. [shuffleArray] rearranges and nothing else: whatever the random
    source returns, the result is a permutation of the array it was given,
    no element lost, added or duplicated; arrays of fewer than two elements
    are returned as they are, without a draw. *)
Theorem shuffleArray_permutes {T} (rand : nat -> Z) (k : nat) (arr : list T) :
  Permutation (GameController.shuffleArray rand k arr) arr
  /\ ((length arr <= 1)%nat -> GameController.shuffleArray rand k arr = arr).
Proof.
  unfold GameController.shuffleArray. split; [apply shuffleFrom_Permutation |].
  intros Hlen. replace (length arr - 1)%nat with 0%nat by lia. reflexivity.
Qed.

(** *** Every player in exactly one room *)

Lemma get_update_same {V} (k : string) (f : V -> V) (m : Js.JsMap V) :
  Js.get k (Js.update k f m) = option_map f (Js.get k m).
Proof.
  induction m as [| [k' v] m IH]; [reflexivity |].
  cbn [Js.update Js.get]. destruct (String.eqb k k') eqn:Hk; cbn [Js.get];
    rewrite Hk; [reflexivity | exact IH].
Qed.

Lemma get_update_other {V} (k k' : string) (f : V -> V) (m : Js.JsMap V) :
  k' <> k -> Js.get k' (Js.update k f m) = Js.get k' m.
Proof.
  intros Hne. induction m as [| [k0 v] m IH]; [reflexivity |].
  cbn [Js.update Js.get]. destruct (String.eqb_spec k k0) as [-> | Hk]; cbn [Js.get].
  - destruct (String.eqb_spec k' k0); [contradiction | reflexivity].
  - destruct (String.eqb k' k0); [reflexivity | exact IH].
Qed.

(** In a map without duplicate keys each entry is what [get] returns. *)
Lemma get_In_NoDup {V} (k : string) (v : V) (m : Js.JsMap V) :
  List.NoDup (Js.keys m) -> In (k, v) m -> Js.get k m = Some v.
Proof.
  induction m as [| [k' v'] m IH]; intros Hnd Hin; [destruct Hin |].
  cbn [Js.keys map fst] in Hnd. apply List.NoDup_cons_iff in Hnd as [Hk' Hnd].
  cbn [Js.get]. destruct Hin as [[= -> ->] | Hin].
  - rewrite String.eqb_refl. reflexivity.
  - destruct (String.eqb_spec k k') as [-> | _]; [| apply IH; assumption].
    exfalso. apply Hk'. apply (in_map fst) in Hin. exact Hin.
Qed.

Lemma assignRoom_fold (mid : Z) (l : list (nat * (string * Player))) :
  forall g : Game,
    List.NoDup (map (fun e => fst (snd e)) l) ->
    (forall i k p, In (i, (k, p)) l ->
                   id p = k
                   /\ exists p0, Js.get k (game_players g) = Some p0
                                 /\ currentRoom p0 = None) ->
    seatsAgree g ->
    let g' := fold_left (GameController.assignRoom mid) l g in
    seatsAgree g'
    /\ Js.keys (game_players g') = Js.keys (game_players g)
    /\ Permutation (players (room ROOM_A g') ++ players (room ROOM_B g'))
                   ((players (room ROOM_A g) ++ players (room ROOM_B g))
                    ++ map (fun e => fst (snd e)) l).
Proof.
  induction l as [| [i [k p]] l IH]; intros g Hnd Hall Hseats.
  - cbn. rewrite app_nil_r. repeat split; try reflexivity; apply Hseats.
  - cbn [fold_left map fst snd] in *.
    apply List.NoDup_cons_iff in Hnd as [Hk Hnd].
    destruct (Hall i k p (or_introl eq_refl)) as (Hid & p0 & Hget & Hnone).
    set (r := if Z.of_nat i <? mid then ROOM_A else ROOM_B).
    set (g1 := GameController.assignRoom mid g (i, (k, p))).
    assert (Hplayers : game_players g1
                       = Js.update k (set_currentRoom (Some r)) (game_players g)).
    { subst g1 r. unfold GameController.assignRoom.
      destruct (Z.of_nat i <? mid); reflexivity. }
    assert (Hroom : forall r', players (room r' g1)
                               = if RoomId_eqb r' r
                                 then players (room r' g) ++ [k]
                                 else players (room r' g)).
    { intros r'. subst g1 r. unfold GameController.assignRoom. rewrite <- Hid.
      destruct (Z.of_nat i <? mid), r'; reflexivity. }
    assert (Hout : forall r', ~ In k (players (room r' g))).
    { intros r' Hin. apply Hseats in Hin as (p' & Hp' & Hr').
      rewrite Hget in Hp'. injection Hp' as <-. rewrite Hnone in Hr'.
      discriminate Hr'. }
    destruct (IH g1 Hnd) as (Hs & Hkeys & Hperm).
    + intros i' k' p' Hin'. destruct (Hall i' k' p' (or_intror Hin'))
        as (Hid' & p0' & Hget' & Hnone').
      split; [exact Hid' |]. exists p0'. split; [| exact Hnone'].
      rewrite Hplayers, get_update_other; [exact Hget' |].
      intros ->. apply Hk. apply (in_map (fun e => fst (snd e))) in Hin'.
      exact Hin'.
    + intros key r'. rewrite Hroom, Hplayers.
      destruct (String.eqb_spec key k) as [-> | Hne].
      * rewrite get_update_same, Hget. cbn [option_map].
        destruct r', r; cbn [RoomId_eqb]; split;
          try (intros _; eexists; split; reflexivity);
          try (intros _; apply in_or_app; right; left; reflexivity);
          try (intros Hin; destruct (Hout _ Hin));
          try (intros (p' & [= <-] & Hr'); discriminate Hr').
      * rewrite get_update_other by exact Hne.
        rewrite <- (Hseats key r').
        destruct (RoomId_eqb r' r); [| reflexivity].
        rewrite in_app_iff. cbn [In]. split; [| intros H; left; exact H].
        intros [H | [H | []]]; [exact H |]. destruct (Hne (eq_sym H)).
    + cbn zeta in Hs, Hkeys, Hperm.
      split; [exact Hs |].
      split; [rewrite Hkeys, Hplayers; apply keys_update |].
      rewrite Hperm, !Hroom.
      destruct r; cbn [RoomId_eqb].
      * rewrite <- !app_assoc. apply Permutation_app_head.
        cbn [app]. apply Permutation_middle.
      * rewrite <- !app_assoc. reflexivity.
Qed.

Lemma map_key_combine {T} (l : list (string * T)) (s : nat) :
  map (fun e : nat * (string * T) => fst (snd e)) (combine (seq s (length l)) l)
  = map fst l.
Proof.
  revert s. induction l as [| kp l IH]; intros s; [reflexivity |].
  cbn. rewrite IH. reflexivity.
Qed.

Lemma In_combine_snd {T} (l : list T) (s i : nat) (x : T) :
  In (i, x) (combine (seq s (length l)) l) -> In x l.
Proof. intros H. apply in_combine_r in H. exact H. Qed.

(** X21. [assignRooms] seats every player in exactly one room. For a game
    whose rooms are empty and whose players, stored under their own ids
    without duplicates, have no room yet: afterwards the two member lists
    together hold each player id once, a player's [currentRoom] is the room
    that lists them, and the players map has the keys it had. *)
Theorem assignRooms_partitions (rand : nat -> Z) (k : nat) (g : Game) :
  players (room ROOM_A g) = [] ->
  players (room ROOM_B g) = [] ->
  List.NoDup (Js.keys (game_players g)) ->
  (forall key p, In (key, p) (game_players g) ->
                 id p = key /\ currentRoom p = None) ->
  let g' := GameController.assignRooms rand k g in
  Permutation (players (room ROOM_A g') ++ players (room ROOM_B g'))
              (Js.keys (game_players g))
  /\ Js.keys (game_players g') = Js.keys (game_players g)
  /\ forall key r,
       In key (players (room r g'))
       <-> exists p, Js.get key (game_players g') = Some p
                     /\ currentRoom p = Some r.
Proof.
  intros HA HB Hnd Hall g'. subst g'. unfold GameController.assignRooms.
  set (shuffled := GameController.shuffleArray rand k (game_players g)).
  assert (Hperm : Permutation shuffled (game_players g))
    by apply shuffleFrom_Permutation.
  destruct (assignRoom_fold (Js.len shuffled / 2)
              (combine (seq 0 (length shuffled)) shuffled) g)
    as (Hs & Hkeys & Hp).
  - rewrite map_key_combine. unfold Js.keys in Hnd.
    eapply Permutation_NoDup; [| exact Hnd].
    apply Permutation_map. symmetry. exact Hperm.
  - intros i key p Hin. apply In_combine_snd in Hin.
    apply (Permutation_in _ Hperm) in Hin.
    destruct (Hall key p Hin) as [Hid Hnone]. split; [exact Hid |].
    exists p. split; [apply get_In_NoDup; assumption | exact Hnone].
  - intros key r. split.
    + intros Hin. destruct r; [rewrite HA in Hin | rewrite HB in Hin]; destruct Hin.
    + intros (p & Hget & Hr).
      assert (Hin : In (key, p) (game_players g)).
      { clear -Hget. induction (game_players g) as [| [k' v] m IH];
          [discriminate Hget |].
        cbn [Js.get] in Hget. destruct (String.eqb_spec key k') as [-> | _].
        - injection Hget as ->. left. reflexivity.
        - right. apply IH, Hget. }
      destruct (Hall key p Hin) as [_ Hnone]. rewrite Hnone in Hr. discriminate Hr.
  - cbn zeta in Hs, Hkeys, Hp. split; [| split; [exact Hkeys | exact Hs]].
    rewrite Hp, HA, HB, map_key_combine. cbn [app].
    apply Permutation_map. exact Hperm.
Qed.

Lemma assignRooms_partitions_witness :
  Permutation
    (players (room ROOM_A (GameController.assignRooms (fun _ => 1) 0 lobbyGame))
     ++ players (room ROOM_B (GameController.assignRooms (fun _ => 1) 0 lobbyGame)))
    ["ann"; "bob"; "cat"; "dan"; "eve"; "fay"].
Proof.
  refine (proj1 (assignRooms_partitions (fun _ => 1) 0 lobbyGame eq_refl eq_refl _ _)).
  - repeat constructor; cbn; intros H;
      repeat (destruct H as [H | H]; [discriminate H |]); exact H.
  - intros key p H. cbn in H.
    repeat (destruct H as [H | H]; [injection H as <- <-; split; reflexivity |]).
    destruct H.
Defined.

(** *** Dealing the roles *)

Lemma get_app_None {V} (k : string) (m m' : Js.JsMap V) :
  Js.get k m = None -> Js.get k (m ++ m') = Js.get k m'.
Proof.
  induction m as [| [k' v] m IH]; [reflexivity |].
  cbn [Js.get app]. destruct (String.eqb k k'); [discriminate | exact IH].
Qed.

Section Dealing.

Variable getCharacter : CharacterId -> option CharacterDefinition.

(** The assignment table after the loop over the players from index [s]
    on: one entry per player, in order, holding [roles[i]]. *)
Lemma assignRole_fold (roles : list CharacterId)
      (l : list (nat * (string * Player))) :
  forall (g : Game) (b : EventBus.t),
    List.NoDup (map (fun e => id (snd (snd e))) l) ->
    (forall e, In e l ->
               Js.get (id (snd (snd e))) (roleAssignments (private (state g)))
               = None) ->
    let r := fold_left (GameController.assignRole getCharacter roles) l (g, b) in
    roleAssignments (private (state (fst r)))
    = roleAssignments (private (state g))
      ++ map (fun e => (id (snd (snd e)), roles !! fst e)) l
    /\ buriedCard (private (state (fst r))) = buriedCard (private (state g)).
Proof.
  induction l as [| [i [k p]] l IH]; intros g b Hnd Hfresh.
  - cbn. rewrite app_nil_r. split; reflexivity.
  - cbn [fold_left map fst snd] in *.
    apply List.NoDup_cons_iff in Hnd as [Hp Hnd].
    set (acc := GameController.assignRole getCharacter roles (g, b) (i, (k, p))).
    assert (Hg1 : roleAssignments (private (state (fst acc)))
                  = roleAssignments (private (state g)) ++ [(id p, roles !! i)]).
    { subst acc. cbn [GameController.assignRole fst roleAssignments private state
                      upd_private with_state set_roleAssignments].
      apply set_fresh, (Hfresh (i, (k, p))). left. reflexivity. }
    assert (Hb1 : buriedCard (private (state (fst acc)))
                  = buriedCard (private (state g))) by reflexivity.
    rewrite (surjective_pairing acc).
    destruct (IH (fst acc) (snd acc) Hnd) as [Hra Hbc].
    + intros e He. rewrite Hg1.
      rewrite get_app_None by (apply Hfresh; right; exact He).
      cbn [Js.get fst snd].
      destruct (String.eqb_spec (id (snd (snd e))) (id p)) as [Heq | _];
        [| reflexivity].
      exfalso. apply Hp. rewrite <- Heq.
      apply (in_map (fun e0 => id (snd (snd e0)))) in He. exact He.
    + cbn zeta in Hra, Hbc. cbn zeta. split; [| rewrite Hbc; exact Hb1].
      rewrite Hra, Hg1, <- app_assoc. reflexivity.
Qed.

Lemma map_lookup_seq {T} (l : list T) (n : nat) :
  (n <= length l)%nat -> map (fun i => l !! i) (seq 0 n) = map Some (take n l).
Proof.
  revert l. induction n as [| n IH]; intros l Hn; [reflexivity |].
  destruct l as [| x l]; [cbn in Hn; lia |].
  cbn [seq map take lookup]. f_equal.
  rewrite <- seq_shift, map_map. cbn [lookup]. apply IH. cbn in Hn. lia.
Qed.

Lemma map_fst_combine_seq {T U} (f : nat -> U) (l : list T) (s : nat) :
  map (fun e : nat * T => f (fst e)) (combine (seq s (length l)) l)
  = map f (seq s (length l)).
Proof.
  revert s. induction l as [| x l IH]; intros s; [reflexivity |].
  cbn. rewrite IH. reflexivity.
Qed.

Lemma map_snd_combine_seq {T U} (f : T -> U) (l : list T) (s : nat) :
  map (fun e : nat * T => f (snd e)) (combine (seq s (length l)) l) = map f l.
Proof.
  revert s. induction l as [| x l IH]; intros s; [reflexivity |].
  cbn. rewrite IH. reflexivity.
Qed.

(** The table [distributeRoles] leaves, for any deck it deals from. *)
Lemma distributeRoles_table (rand : nat -> Z) (g : Game) (b : EventBus.t) :
  List.NoDup (map (fun kp => id (snd kp)) (game_players g)) ->
  roleAssignments (private (state g)) = [] ->
  let shuffled := GameController.shuffleArray rand 0 (selectedRoles (config g)) in
  let bury := buryCard (config g)
              && (Js.len shuffled >? Js.len (game_players g)) in
  let deck := if bury then removelast shuffled else shuffled in
  let g' := fst (GameController.distributeRoles getCharacter rand g b) in
  Js.keys (roleAssignments (private (state g')))
  = map (fun kp => id (snd kp)) (game_players g)
  /\ Js.values (roleAssignments (private (state g')))
     = map (fun i => deck !! i) (seq 0 (length (game_players g)))
  /\ buriedCard (private (state g'))
     = if bury then last shuffled else buriedCard (private (state g)).
Proof.
  intros Hnd Hempty shuffled bury deck g'. subst g'.
  unfold GameController.distributeRoles. fold shuffled. fold bury.
  set (start := if bury then _ else _).
  assert (Hstart : start = (deck, if bury
                                  then upd_private (set_buriedCard (last shuffled)) g
                                  else g))
    by (subst start deck; destruct bury; reflexivity).
  rewrite Hstart. clear Hstart start.
  set (g1 := if bury then _ else g).
  assert (Hra1 : roleAssignments (private (state g1)) = [])
    by (subst g1; destruct bury; exact Hempty).
  assert (Hb1 : buriedCard (private (state g1))
                = if bury then last shuffled else buriedCard (private (state g)))
    by (subst g1; destruct bury; reflexivity).
  destruct (assignRole_fold deck
              (combine (seq 0 (length (game_players g))) (game_players g)) g1 b)
    as [Hra Hbc].
  - rewrite (map_snd_combine_seq (fun kp => id (snd kp))). exact Hnd.
  - intros e _. rewrite Hra1. reflexivity.
  - cbn zeta in Hra, Hbc. rewrite Hra, Hbc, Hra1, Hb1. cbn [app].
    unfold Js.keys, Js.values. rewrite !map_map. cbn [fst snd].
    split; [apply (map_snd_combine_seq (fun kp => id (snd kp))) |].
    split; [apply (map_fst_combine_seq (fun i => deck !! i)) | reflexivity].
Qed.

(** X22. Dealing is fair to the deck. In a game whose players have
    distinct ids and no role yet, [distributeRoles] records one role per
    player, in the order of the players. With as many roles as players the
    roles dealt are the selected roles, rearranged, and no card is buried.
    With [buryCard] set and one role more than players, one role is buried
    and the others are dealt. With fewer roles than players some player is
    left without a role. *)
Theorem distributeRoles_deals (rand : nat -> Z) (g : Game) (b : EventBus.t) :
  List.NoDup (map (fun kp => id (snd kp)) (game_players g)) ->
  roleAssignments (private (state g)) = [] ->
  let n := length (game_players g) in
  let roles := selectedRoles (config g) in
  let g' := fst (GameController.distributeRoles getCharacter rand g b) in
  let dealt := Js.values (roleAssignments (private (state g'))) in
  Js.keys (roleAssignments (private (state g')))
  = map (fun kp => id (snd kp)) (game_players g)
  /\ (length roles = n ->
      Permutation dealt (map Some roles)
      /\ buriedCard (private (state g')) = buriedCard (private (state g)))
  /\ (buryCard (config g) = true -> length roles = S n ->
      exists c, buriedCard (private (state g')) = Some c
                /\ Permutation (dealt ++ [Some c]) (map Some roles))
  /\ ((length roles < n)%nat -> In None dealt).
Proof.
  intros Hnd Hempty n roles g' dealt.
  destruct (distributeRoles_table rand g b Hnd Hempty) as (Hkeys & Hvals & Hbur).
  cbn zeta in Hkeys, Hvals, Hbur. fold g' in Hkeys, Hvals, Hbur.
  fold dealt in Hvals. fold roles in Hvals, Hbur. fold n in Hvals.
  set (shuffled := GameController.shuffleArray rand 0 roles) in *.
  assert (Hperm : Permutation shuffled roles) by apply shuffleFrom_Permutation.
  assert (Hlen : length shuffled = length roles) by apply length_shuffleArray.
  unfold Js.len in *. fold n in Hvals, Hbur. rewrite Hlen in *.
  split; [exact Hkeys |]. split; [| split].
  - intros Hn.
    replace (Z.of_nat (length roles) >? Z.of_nat n) with false in *
      by (destruct (Z.gtb_spec (Z.of_nat (length roles)) (Z.of_nat n));
          [lia | reflexivity]).
    rewrite andb_false_r in *. split; [| exact Hbur].
    rewrite Hvals, map_lookup_seq by lia.
    rewrite <- Hn, <- Hlen, firstn_all. apply Permutation_map, Hperm.
  - intros Hbury Hn. rewrite Hbury in *.
    replace (Z.of_nat (length roles) >? Z.of_nat n) with true in *
      by (destruct (Z.gtb_spec (Z.of_nat (length roles)) (Z.of_nat n));
          [reflexivity | lia]).
    cbn [andb] in *.
    destruct (exists_last (l := shuffled)) as (front & c & Hsplit).
    { intros E. rewrite E in Hlen. cbn in Hlen. lia. }
    exists c. rewrite Hbur, Hvals, Hsplit.
    rewrite last_snoc. split; [reflexivity |].
    rewrite removelast_last.
    assert (Hfront : length front = n)
      by (rewrite Hsplit, length_app in Hlen; cbn in Hlen; lia).
    rewrite map_lookup_seq by lia. rewrite <- Hfront, firstn_all.
    change [Some c] with (map Some [c]). rewrite <- map_app, <- Hsplit.
    apply Permutation_map, Hperm.
  - intros Hn.
    replace (Z.of_nat (length roles) >? Z.of_nat n) with false in *
      by (destruct (Z.gtb_spec (Z.of_nat (length roles)) (Z.of_nat n));
          [lia | reflexivity]).
    rewrite andb_false_r in *. rewrite Hvals.
    apply in_map_iff. exists (length roles). split.
    + apply lookup_ge_None. lia.
    + apply in_seq. lia.
Qed.

End Dealing.

Lemma distributeRoles_deals_witness :
  Permutation
    (Js.values
       (roleAssignments
          (private
             (state
                (fst (GameController.distributeRoles
                        sampleCatalogue (fun _ => 1)
                        (with_config (set_selectedRoles sixRoles (config lobbyGame))
                                     lobbyGame)
                        EventBus.empty))))))
    (map Some sixRoles).
Proof.
  refine (proj1 (proj1 (proj2
            (distributeRoles_deals
               sampleCatalogue (fun _ => 1)
               (with_config (set_selectedRoles sixRoles (config lobbyGame))
                            lobbyGame)
               EventBus.empty _ eq_refl)) eq_refl)).
  repeat constructor; cbn; intros H;
    repeat (destruct H as [H | H]; [discriminate H |]); exact H.
Defined.

(** *** Role notices *)

Lemma delivered_broadcast (gameId : string) (ty : ServerEventType) (pl : Payload)
      (sc : EventScope) (b : EventBus.t) :
  EventBus.delivered (EventBus.broadcast gameId ty pl sc b)
  = EventBus.delivered b
    ++ map (fun s => (EventBus.sub_id s, eventOf gameId ty pl sc b))
           (List.filter (fun s => EventBus.shouldReceiveEvent s sc)
                        (default [] (EventBus.subscriptions b !! gameId))).
Proof. reflexivity. Qed.

(** What the loop of [distributeRoles] hands to the listeners. *)
Lemma assignRole_deliveries
      (getCharacter : CharacterId -> option CharacterDefinition)
      (roles : list CharacterId) (l : list (nat * (string * Player))) :
  forall (g : Game) (b : EventBus.t),
    let r := fold_left (GameController.assignRole getCharacter roles) l (g, b) in
    game_id (fst r) = game_id g
    /\ EventBus.subscriptions (snd r) = EventBus.subscriptions b
    /\ forall sid e,
         In (sid, e) (EventBus.delivered (snd r)) ->
         In (sid, e) (EventBus.delivered b)
         \/ (ev_type e = ROLE_ASSIGNED
             /\ exists entry s,
                  In entry l
                  /\ scope e = PLAYER (id (snd (snd entry)))
                  /\ In s (default [] (EventBus.subscriptions b !! game_id g))
                  /\ EventBus.sub_id s = sid
                  /\ EventBus.sub_playerId s = Some (id (snd (snd entry)))).
Proof.
  induction l as [| [i [k p]] l IH]; intros g b.
  - cbn. repeat split; try reflexivity. intros sid e H. left. exact H.
  - cbn [fold_left].
    set (acc := GameController.assignRole getCharacter roles (g, b) (i, (k, p))).
    rewrite (surjective_pairing acc).
    destruct (IH (fst acc) (snd acc)) as (Hid & Hsubs & Hdel).
    cbn zeta in Hid, Hsubs, Hdel. cbn zeta.
    split; [rewrite Hid; reflexivity |].
    split; [rewrite Hsubs; reflexivity |].
    intros sid e Hin. destruct (Hdel sid e Hin) as [Hold | (Hty & entry & s & He & Hsc & Hs & Hsid & Hpl)].
    + subst acc. cbn [GameController.assignRole snd] in Hold.
      unfold EventBus.broadcastToPlayer in Hold.
      rewrite delivered_broadcast in Hold.
      apply in_app_or in Hold as [Hold | Hnew]; [left; exact Hold |].
      right. apply in_map_iff in Hnew as (s & [= <- <-] & Hs).
      apply filter_In in Hs as [Hs Hrecv].
      split; [reflexivity |]. exists (i, (k, p)), s.
      split; [left; reflexivity |]. split; [reflexivity |].
      split; [exact Hs |]. split; [reflexivity |].
      apply opt_eqb_eq, Hrecv.
    + right. split; [exact Hty |]. exists entry, s.
      split; [right; exact He |]. split; [exact Hsc |].
      split; [exact Hs |]. split; [exact Hsid | exact Hpl].
Qed.

(** X23. Roles are told in private. Whatever [distributeRoles] delivers is
    a ROLE_ASSIGNED event addressed to one player of the game and handed to
    a subscription of that very player; no other listener is called, and
    no subscription is added or removed. *)
Theorem role_notices_are_private
        (getCharacter : CharacterId -> option CharacterDefinition)
        (rand : nat -> Z) (g : Game) (b : EventBus.t) :
  let b' := snd (GameController.distributeRoles getCharacter rand g b) in
  EventBus.subscriptions b' = EventBus.subscriptions b
  /\ forall sid e,
       In (sid, e) (EventBus.delivered b') ->
       In (sid, e) (EventBus.delivered b)
       \/ (ev_type e = ROLE_ASSIGNED
           /\ exists player s,
                In player (Js.values (game_players g))
                /\ scope e = PLAYER (id player)
                /\ In s (default [] (EventBus.subscriptions b !! game_id g))
                /\ EventBus.sub_id s = sid
                /\ EventBus.sub_playerId s = Some (id player)).
Proof.
  intros b'. subst b'. unfold GameController.distributeRoles.
  set (start := if buryCard (config g) && _ then _ else _).
  assert (Hstart : game_id (snd start) = game_id g)
    by (subst start; destruct (buryCard (config g) && _); reflexivity).
  rewrite (surjective_pairing start).
  destruct (assignRole_deliveries getCharacter (fst start)
              (combine (seq 0 (length (game_players g))) (game_players g))
              (snd start) b) as (_ & Hsubs & Hdel).
  cbn zeta in Hsubs, Hdel. split; [exact Hsubs |].
  intros sid e Hin.
  destruct (Hdel sid e Hin) as [Hold | (Hty & [i [k p]] & s & He & Hsc & Hs & Hsid & Hpl)];
    [left; exact Hold |].
  right. split; [exact Hty |]. exists p, s.
  split; [| rewrite <- Hstart; repeat split; assumption].
  apply in_combine_r in He. apply (in_map snd) in He. exact He.
Qed.

(** ** Round engine: refused commands *)

Lemma nominateLeader_refused (r : RoomId) (candidate : string)
      (voter : option string) (ent : Entropy) (now : Z) (c : RoundEngine.Ctx)
      (why : Failure) :
  snd (RoundEngine.nominateLeader r candidate voter ent now c) = Failed why ->
  (forall n l, why <> TieDetected n l) ->
  fst (RoundEngine.nominateLeader r candidate voter ent now c) = c.
Proof.
  unfold RoundEngine.nominateLeader.
  destruct (_ && negb (leaderVotingActive _)); [reflexivity |].
  destruct (negb (Js.includes candidate _)); [reflexivity |].
  destruct (Js.truthy voter && _); [reflexivity |].
  destruct (_ =? _); [| discriminate].
  unfold RoundEngine.resolveLeaderVote.
  destruct (_ >? 1); [| discriminate].
  destruct (_ >=? 3); [discriminate |].
  cbn [snd]. intros [= <-] Hno. destruct (Hno _ _ eq_refl).
Qed.

Lemma initiateNewLeaderVote_refused (r : RoomId) (playerId : string) (now : Z)
      (c : RoundEngine.Ctx) (why : Failure) :
  snd (RoundEngine.initiateNewLeaderVote r playerId now c) = Failed why ->
  fst (RoundEngine.initiateNewLeaderVote r playerId now c) = c.
Proof.
  unfold RoundEngine.initiateNewLeaderVote.
  destruct (negb (Js.includes _ _)); [reflexivity |].
  destruct (negb (Js.truthy _)); [reflexivity |].
  destruct (leaderVotingActive _); [reflexivity | discriminate].
Qed.

Lemma voteUsurp_refused (r : RoomId) (voter candidate : string)
      (c : RoundEngine.Ctx) (why : Failure) :
  snd (RoundEngine.voteUsurp r voter candidate c) = Failed why ->
  fst (RoundEngine.voteUsurp r voter candidate c) = c.
Proof.
  unfold RoundEngine.voteUsurp.
  destruct (negb (Js.includes voter _)); [reflexivity |].
  destruct (negb (Js.includes candidate _)); [reflexivity |].
  destruct (_ >=? _); discriminate.
Qed.

Lemma abdicate_refused (r : RoomId) (leader successor : string)
      (c : RoundEngine.Ctx) (why : Failure) :
  snd (RoundEngine.abdicate r leader successor c) = Failed why ->
  fst (RoundEngine.abdicate r leader successor c) = c.
Proof.
  unfold RoundEngine.abdicate.
  destruct (negb (Js.opt_eqb _ _)); [reflexivity |].
  destruct (negb (Js.includes _ _)); [reflexivity | discriminate].
Qed.

Lemma lockHostages_refused (r : RoomId) (now : Z) (c : RoundEngine.Ctx)
      (why : Failure) :
  snd (RoundEngine.lockHostages r now c) = Failed why ->
  fst (RoundEngine.lockHostages r now c) = c.
Proof.
  unfold RoundEngine.lockHostages.
  destruct (negb (_ =? _)); [reflexivity | discriminate].
Qed.

(** A command handed to the engine that the engine refuses without a
    change leaves the world as it was. *)
Lemma delegate_refused (gameId : string) (now : Z)
      (op : RoundEngine.Ctx -> RoundEngine.Ctx * Result)
      (w : GameController.World) (why : Failure) :
  (forall c, snd (op c) = Failed why -> fst (op c) = c) ->
  snd (GameController.delegate gameId now op w) = Failed why ->
  fst (GameController.delegate gameId now op w) = w.
Proof.
  intros Hop. unfold GameController.delegate.
  destruct (GameStore.get gameId (GameController.store w)) as [g |] eqn:Hg;
    [| reflexivity].
  specialize (Hop (GameController.enter g w)).
  destruct (op (GameController.enter g w)) as [c res].
  cbn [fst snd] in *. intros ->. cbn [success]. rewrite (Hop eq_refl).
  unfold GameController.leave, GameController.mutated, GameController.on_store,
    GameController.enter. cbn.
  destruct w as [[games codes] bus timers]. cbn in *.
  unfold GameStore.get in Hg. cbn in Hg. rewrite (insert_id games gameId g Hg).
  reflexivity.
Qed.

(** X24. A refused command changes nothing. When one of the round commands
    of the controller (NOMINATE_LEADER, INITIATE_NEW_LEADER_VOTE,
    VOTE_USURP, SELECT_HOSTAGE, LOCK_HOSTAGES) fails, the store, the bus
    and the timers are exactly as before: no vote is recorded, no event
    published, no version raised. The one exception is a tied leader vote,
    which is reported as a failure after the votes were cleared. *)
Theorem refused_round_command_changes_nothing
        (gameId playerId : string) (r : RoomId) (target : string)
        (ent : Entropy) (now : Z) (w : GameController.World) (why : Failure) :
  (forall n l, why <> TieDetected n l) ->
  (snd (GameController.nominateLeader gameId playerId r target ent now w)
   = Failed why ->
   fst (GameController.nominateLeader gameId playerId r target ent now w) = w)
  /\ (snd (GameController.initiateNewLeaderVote gameId playerId r now w)
      = Failed why ->
      fst (GameController.initiateNewLeaderVote gameId playerId r now w) = w)
  /\ (snd (GameController.voteUsurp gameId playerId r target now w) = Failed why ->
      fst (GameController.voteUsurp gameId playerId r target now w) = w)
  /\ (snd (GameController.selectHostage gameId playerId r target now w)
      = Failed why ->
      fst (GameController.selectHostage gameId playerId r target now w) = w)
  /\ (snd (GameController.lockHostages gameId playerId r now w) = Failed why ->
      fst (GameController.lockHostages gameId playerId r now w) = w).
Proof.
  intros Hno. repeat split.
  - apply delegate_refused. intros c H. apply (nominateLeader_refused _ _ _ _ _ _ _ H Hno).
  - apply delegate_refused. intros c. apply initiateNewLeaderVote_refused.
  - apply delegate_refused. intros c. apply voteUsurp_refused.
  - unfold GameController.selectHostage.
    destruct (GameStore.get gameId (GameController.store w)); [| reflexivity].
    destruct (GameController.notLeader playerId g); [reflexivity |].
    apply delegate_refused. intros c. apply selectHostage_failed_unchanged.
  - unfold GameController.lockHostages.
    destruct (GameStore.get gameId (GameController.store w)); [| reflexivity].
    destruct (GameController.notLeader playerId g); [reflexivity |].
    apply delegate_refused. intros c. apply lockHostages_refused.
Qed.

Lemma refused_round_command_changes_nothing_witness :
  fst (GameController.selectHostage "game-1" "bob" ROOM_A "cat" 0
                                    (worldOf sixPlayers))
  = worldOf sixPlayers.
Proof.
  refine (proj1 (proj2 (proj2 (proj2
            (refused_round_command_changes_nothing
               "game-1" "bob" ROOM_A "cat"
               {| math_random := {| rnd_num := 0; rnd_den := 1 |};
                  crypto_uint32 := fun _ => 0 |}
               0 (worldOf sixPlayers) OnlyLeaderCanSelectHostages _))))
            eq_refl).
  intros n l. discriminate.
Defined.

(** ** Round engine: the leader vote *)

Lemma NoDup_keys_set {V} (k : string) (v : V) (m : Js.JsMap V) :
  List.NoDup (Js.keys m) -> List.NoDup (Js.keys (Js.set k v m)).
Proof.
  induction m as [| [k' v'] m IH]; cbn [Js.set Js.keys map fst]; intros H.
  - repeat constructor. intros [].
  - apply List.NoDup_cons_iff in H as [Hk H].
    destruct (String.eqb_spec k k') as [-> | Hne]; cbn [map fst].
    + constructor; assumption.
    + constructor; [| apply IH, H].
      intros Hin. apply keys_set in Hin as [-> | Hin]; [apply Hne; reflexivity |].
      apply Hk, Hin.
Qed.

(** The ballots a candidate received among a list of ballots. *)
Lemma tally_fold (x : string) (l : list string) :
  forall acc : Js.JsMap Z,
    let counts :=
      fold_left (fun counts cand =>
                   Js.set cand (default 0 (Js.get cand counts) + 1) counts)
                l acc in
    default 0 (Js.get x counts)
    = default 0 (Js.get x acc)
      + Js.len (List.filter (fun v => String.eqb v x) l)
    /\ (Js.get x counts = None
        <-> Js.get x acc = None
            /\ Js.len (List.filter (fun v => String.eqb v x) l) = 0)
    /\ (List.NoDup (Js.keys acc) -> List.NoDup (Js.keys counts)).
Proof.
  induction l as [| y l IH]; intros acc.
  - cbn [fold_left List.filter]. unfold Js.len. cbn [length].
    split; [lia |]. split; [| intros H; exact H].
    split; [intros H; split; [exact H | reflexivity] | intros [H _]; exact H].
  - cbn [fold_left List.filter].
    destruct (IH (Js.set y (default 0 (Js.get y acc) + 1) acc)) as (Hval & Hnone & Hnd).
    cbn zeta in Hval, Hnone, Hnd. cbn zeta.
    destruct (String.eqb_spec y x) as [-> | Hne].
    + rewrite get_set_same in Hval, Hnone.
      cbn [default from_option Datatypes.id] in Hval.
      unfold Js.len in *. cbn [length].
      split; [rewrite Hval; lia |].
      split; [| intros H; apply Hnd, NoDup_keys_set, H].
      rewrite Hnone. split; [intros [H _]; discriminate H | intros [_ H]; lia].
    + rewrite get_set_other in Hval, Hnone by (intros E; apply Hne; symmetry; exact E).
      split; [exact Hval |]. split; [exact Hnone |].
      intros H. apply Hnd, NoDup_keys_set, H.
Qed.

(** The tally holds, for each candidate with a ballot, the number of
    ballots; candidates without ballot are absent. *)
Lemma countVotes_get (votes : Js.JsMap string) (x : string) :
  Js.get x (RoundEngine.countVotes votes)
  = if RoundEngine.countVotesFor x votes >? 0
    then Some (RoundEngine.countVotesFor x votes) else None.
Proof.
  unfold RoundEngine.countVotes, RoundEngine.countVotesFor.
  destruct (tally_fold x (Js.values votes) []) as (Hval & Hnone & _).
  cbn zeta in Hval, Hnone. cbn [Js.get default from_option Datatypes.id] in Hval.
  set (n := Js.len (List.filter (fun v => String.eqb v x) (Js.values votes))) in *.
  assert (Hn : 0 <= n) by (subst n; unfold Js.len; lia).
  destruct (Js.get x _) as [m |] eqn:Hget.
  - cbn [default from_option Datatypes.id] in Hval.
    destruct (Z.gtb_spec n 0) as [_ | Hle]; [rewrite Hval; f_equal; lia |].
    assert (Hz : n = 0) by lia.
    discriminate (proj2 Hnone (conj eq_refl Hz)).
  - destruct (proj1 Hnone eq_refl) as [_ Hz]. rewrite Hz. reflexivity.
Qed.

Lemma countVotes_NoDup (votes : Js.JsMap string) :
  List.NoDup (Js.keys (RoundEngine.countVotes votes)).
Proof.
  unfold RoundEngine.countVotes.
  destruct (tally_fold EmptyString (Js.values votes) []) as (_ & _ & Hnd).
  apply Hnd. constructor.
Qed.

Lemma get_Some_In {V} (k : string) (v : V) (m : Js.JsMap V) :
  Js.get k m = Some v -> In (k, v) m.
Proof.
  induction m as [| [k' v'] m IH]; [discriminate |].
  cbn [Js.get]. destruct (String.eqb_spec k k') as [-> | _].
  - intros [= ->]. left. reflexivity.
  - intros H. right. apply IH, H.
Qed.

(** [Math.max] of a list bounds its elements. *)
Lemma maxOf_bound (xs : list Z) (m : Z) :
  RoundEngine.maxOf xs = Some m -> forall x, In x xs -> x <= m.
Proof.
  destruct xs as [| x0 rest]; [discriminate |]. cbn [RoundEngine.maxOf].
  intros [= <-].
  assert (H : forall l a, a <= fold_left Z.max l a
                          /\ forall x, In x l -> x <= fold_left Z.max l a).
  { induction l as [| y l IH]; intros a; [split; [cbn; lia | intros x []] |].
    cbn [fold_left]. destruct (IH (Z.max a y)) as [Ha Hl].
    split; [lia |]. intros x [<- | Hx]; [lia | apply Hl, Hx]. }
  destruct (H rest x0) as [H0 Hrest].
  intros x [<- | Hx]; [exact H0 | apply Hrest, Hx].
Qed.

Lemma NoDup_keys_filter {V} (p : string * V -> bool) (m : Js.JsMap V) :
  List.NoDup (Js.keys m) -> List.NoDup (Js.keys (List.filter p m)).
Proof.
  induction m as [| kv m IH]; cbn [List.filter Js.keys map]; intros H;
    [constructor |].
  apply List.NoDup_cons_iff in H as [Hk H].
  destruct (p kv); [| apply IH, H].
  cbn [map]. constructor; [| apply IH, H].
  intros Hin. apply Hk. unfold Js.keys in *.
  apply in_map_iff in Hin as (kv' & Heq & Hin). apply filter_In in Hin as [Hin _].
  rewrite <- Heq. apply in_map, Hin.
Qed.

(** A duplicate-free list all of whose elements are [w], and which holds
    [w], is the list of [w] alone. *)
Lemma NoDup_singleton (w : string) (l : list string) :
  List.NoDup l -> In w l -> (forall x, In x l -> x = w) -> l = [w].
Proof.
  intros Hnd Hin Hall. destruct l as [| a l]; [destruct Hin |].
  assert (Ha : a = w) by (apply Hall; left; reflexivity). subst a.
  destruct l as [| b l]; [reflexivity |].
  assert (Hb : b = w) by (apply Hall; right; left; reflexivity). subst b.
  apply List.NoDup_cons_iff in Hnd as [Hbad _]. destruct Hbad. left. reflexivity.
Qed.

(** The winners of a vote are the candidates with the most ballots. *)
Lemma winnersOf_most_voted (votes : Js.JsMap string) (x : string) :
  In x (RoundEngine.winnersOf votes)
  <-> 0 < RoundEngine.countVotesFor x votes
      /\ forall y, RoundEngine.countVotesFor y votes
                   <= RoundEngine.countVotesFor x votes.
Proof.
  assert (Hpos : forall y, 0 <= RoundEngine.countVotesFor y votes)
    by (intros y; unfold RoundEngine.countVotesFor, Js.len; lia).
  assert (Hentry : forall y n, In (y, n) (RoundEngine.countVotes votes) ->
                               n = RoundEngine.countVotesFor y votes /\ 0 < n).
  { intros y n Hin.
    pose proof (get_In_NoDup y n _ (countVotes_NoDup votes) Hin) as Hget.
    rewrite countVotes_get in Hget.
    destruct (Z.gtb_spec (RoundEngine.countVotesFor y votes) 0);
      [| discriminate Hget].
    injection Hget as <-. split; [reflexivity | lia]. }
  unfold RoundEngine.winnersOf.
  destruct (RoundEngine.maxOf (Js.values (RoundEngine.countVotes votes)))
    as [m |] eqn:Hmax.
  - pose proof (maxOf_bound _ _ Hmax) as Hbound.
    pose proof (maxOf_In _ _ Hmax) as Hm.
    unfold Js.values in Hm. apply in_map_iff in Hm as ([z mz] & Hmz & Hz).
    cbn [snd] in Hmz. subst mz. destruct (Hentry z m Hz) as [Hmeq Hmpos].
    unfold Js.keys. rewrite in_map_iff. split.
    + intros ([x' n] & Hx & Hin). cbn [fst] in Hx. subst x'.
      apply filter_In in Hin as [Hin Heq]. cbn [snd] in Heq.
      apply Z.eqb_eq in Heq. subst n. destruct (Hentry x m Hin) as [Hxm _].
      split; [lia |]. intros y. rewrite <- Hxm.
      destruct (Z.gtb_spec (RoundEngine.countVotesFor y votes) 0) as [Hy | Hy];
        [| lia].
      apply Hbound. unfold Js.values. apply in_map_iff.
      exists (y, RoundEngine.countVotesFor y votes). split; [reflexivity |].
      apply get_Some_In. rewrite countVotes_get.
      destruct (Z.gtb_spec (RoundEngine.countVotesFor y votes) 0);
        [reflexivity | lia].
    + intros [Hx Hall].
      assert (Hin : In (x, RoundEngine.countVotesFor x votes)
                       (RoundEngine.countVotes votes)).
      { apply get_Some_In. rewrite countVotes_get.
        destruct (Z.gtb_spec (RoundEngine.countVotesFor x votes) 0);
          [reflexivity | lia]. }
      exists (x, RoundEngine.countVotesFor x votes). split; [reflexivity |].
      apply filter_In. split; [exact Hin |]. cbn [snd]. apply Z.eqb_eq.
      assert (Hle : RoundEngine.countVotesFor x votes <= m).
      { apply Hbound. unfold Js.values. apply in_map_iff.
        exists (x, RoundEngine.countVotesFor x votes). split; [reflexivity | exact Hin]. }
      specialize (Hall z). lia.
  - split; [intros [] |]. intros [Hx _]. exfalso.
    assert (Hin : In (x, RoundEngine.countVotesFor x votes)
                     (RoundEngine.countVotes votes)).
    { apply get_Some_In. rewrite countVotes_get.
      destruct (Z.gtb_spec (RoundEngine.countVotesFor x votes) 0);
        [reflexivity | lia]. }
    destruct (RoundEngine.countVotes votes) as [| kv rest]; [destruct Hin |].
    discriminate Hmax.
Qed.

Lemma winnersOf_NoDup (votes : Js.JsMap string) :
  List.NoDup (RoundEngine.winnersOf votes).
Proof.
  unfold RoundEngine.winnersOf.
  destruct (RoundEngine.maxOf _); [| constructor].
  apply NoDup_keys_filter, countVotes_NoDup.
Qed.

(** X25. The vote goes to the most voted. The winners [resolveLeaderVote]
    computes are exactly the candidates no one has more ballots than, each
    listed once. When one candidate has more ballots than every other, the
    vote is resolved at once in their favour: they are the room's leader,
    the voting is closed, the tie count is back to zero, and the room is
    told of an election by MAJORITY_VOTE; more than half of the ballots is
    not required. *)
Theorem most_voted_candidate_is_elected
        (r : RoomId) (ent : Entropy) (now : Z) (c : RoundEngine.Ctx) :
  let votes := leaderVotes (room r (RoundEngine.game c)) in
  (forall x, In x (RoundEngine.winnersOf votes)
             <-> 0 < RoundEngine.countVotesFor x votes
                 /\ forall y, RoundEngine.countVotesFor y votes
                              <= RoundEngine.countVotesFor x votes)
  /\ List.NoDup (RoundEngine.winnersOf votes)
  /\ forall w,
       0 < RoundEngine.countVotesFor w votes ->
       (forall y, y <> w -> RoundEngine.countVotesFor y votes
                            < RoundEngine.countVotesFor w votes) ->
       let res := RoundEngine.resolveLeaderVote r ent now c in
       snd res = Success
       /\ leaderId (room r (RoundEngine.game (fst res))) = Some w
       /\ leaderVotingActive (room r (RoundEngine.game (fst res))) = false
       /\ leaderVotingTieCount (room r (RoundEngine.game (fst res))) = 0
       /\ journalHas (game_id (RoundEngine.game c)) LEADER_ELECTED (ROOM r)
                     (LeaderElectedP r (Some w) MAJORITY_VOTE false)
                     (RoundEngine.bus (fst res)).
Proof.
  intros votes. split; [intros x; apply winnersOf_most_voted |].
  split; [apply winnersOf_NoDup |].
  intros w Hw Hstrict.
  assert (Hwin : RoundEngine.winnersOf votes = [w]).
  { apply NoDup_singleton; [apply winnersOf_NoDup | |].
    - apply winnersOf_most_voted. split; [exact Hw |].
      intros y. destruct (String.eqb_spec y w) as [-> | Hne]; [lia |].
      specialize (Hstrict y Hne). lia.
    - intros x Hx. apply winnersOf_most_voted in Hx as [_ Hall].
      destruct (String.eqb_spec x w) as [-> | Hne]; [reflexivity |].
      specialize (Hstrict x Hne). specialize (Hall w). lia. }
  cbn zeta. unfold RoundEngine.resolveLeaderVote. fold votes. rewrite Hwin.
  change (Js.len [w] >? 1) with false. cbn iota.
  change (Js.index [w] 0) with (Some w).
  destruct (electLeader_spec r (Some w) MAJORITY_VOTE now c)
    as (Hok & Hroom & _ & Hj).
  cbn zeta in Hroom, Hj.
  split; [exact Hok |]. rewrite Hroom. repeat split. exact Hj.
Qed.

(** ** Round engine: the timers *)

Lemma timers_broadcastTimerState (key : string) (tm : RoundEngine.RoundTimer)
      (now : Z) (c : RoundEngine.Ctx) :
  RoundEngine.timers (RoundEngine.broadcastTimerState key tm now c)
  = RoundEngine.timers c.
Proof.
  unfold RoundEngine.broadcastTimerState.
  destruct (String.eqb key (game_id (RoundEngine.game c))); reflexivity.
Qed.

(** X26. A pause costs no time. Pausing a running timer freezes what
    remains of its duration and stops its ticks; resuming it, after a pause
    of any length, sets it running again with its start moved by the length
    of the pause, so that at every later moment it has as much time left as
    it would have had that much earlier without the pause. Duration and
    expiry callback are kept. *)
Theorem pause_resume_costs_no_time
        (key : string) (paused resumed : Z) (c : RoundEngine.Ctx)
        (tm : RoundEngine.RoundTimer) (d : Z) :
  RoundEngine.timers c !! key = Some tm ->
  RoundEngine.rt_state tm = RUNNING ->
  RoundEngine.rt_duration tm = Some d ->
  paused <> 0 ->
  let c1 := RoundEngine.pauseTimer key paused c in
  let c2 := RoundEngine.resumeTimer key resumed c1 in
  (exists tm1,
      RoundEngine.timers c1 !! key = Some tm1
      /\ RoundEngine.rt_state tm1 = PAUSED
      /\ RoundEngine.rt_remaining tm1
         = Some (Z.max 0 (d - (paused - RoundEngine.startTime tm)))
      /\ forall later, RoundEngine.tick key later c1 = c1)
  /\ (exists tm2,
         RoundEngine.timers c2 !! key = Some tm2
         /\ RoundEngine.rt_state tm2 = RUNNING
         /\ RoundEngine.rt_duration tm2 = Some d
         /\ RoundEngine.onExpired tm2 = RoundEngine.onExpired tm
         /\ RoundEngine.startTime tm2
            = RoundEngine.startTime tm + (resumed - paused)
         /\ forall later,
              RoundEngine.remainingAfter (RoundEngine.rt_duration tm2)
                                         (later - RoundEngine.startTime tm2)
              = RoundEngine.remainingAfter
                  (RoundEngine.rt_duration tm)
                  ((later - (resumed - paused)) - RoundEngine.startTime tm)).
Proof.
  intros Htm Hrun Hd Hp c1 c2.
  assert (H1 : RoundEngine.timers c1 !! key
               = Some {| RoundEngine.rt_gameId := RoundEngine.rt_gameId tm;
                         RoundEngine.rt_duration := RoundEngine.rt_duration tm;
                         RoundEngine.rt_remaining :=
                           RoundEngine.remainingAfter
                             (RoundEngine.rt_duration tm)
                             (paused - RoundEngine.startTime tm);
                         RoundEngine.startTime := RoundEngine.startTime tm;
                         RoundEngine.pausedAt := Some paused;
                         RoundEngine.rt_state := PAUSED;
                         RoundEngine.interval := false;
                         RoundEngine.onExpired := RoundEngine.onExpired tm |}).
  { subst c1. unfold RoundEngine.pauseTimer. rewrite Htm.
    rewrite timers_broadcastTimerState. cbn [RoundEngine.timers RoundEngine.on_timers].
    apply lookup_insert_eq. }
  split.
  - eexists. split; [exact H1 |]. cbn [RoundEngine.rt_state RoundEngine.rt_remaining].
    split; [reflexivity |]. split; [rewrite Hd; reflexivity |].
    intros later. unfold RoundEngine.tick. rewrite H1. reflexivity.
  - subst c2. unfold RoundEngine.resumeTimer. rewrite H1.
    cbn [RoundEngine.rt_state RoundEngine.noPausedAt RoundEngine.pausedAt].
    destruct (Z.eqb_spec paused 0) as [E | _]; [contradiction |].
    rewrite timers_broadcastTimerState.
    cbn [RoundEngine.timers RoundEngine.on_timers].
    eexists. split; [apply lookup_insert_eq |].
    cbn [RoundEngine.rt_state RoundEngine.rt_duration RoundEngine.onExpired
         RoundEngine.startTime RoundEngine.pausedAt default from_option
         Datatypes.id].
    split; [reflexivity |]. split; [exact Hd |]. split; [reflexivity |].
    split; [reflexivity |]. intros later. f_equal. lia.
Qed.

Lemma pause_resume_costs_no_time_witness :
  exists tm2,
    RoundEngine.timers
      (RoundEngine.resumeTimer "game-1" 9000
         (RoundEngine.pauseTimer "game-1" 4005 roundTwoRunning))
    !! "game-1" = Some tm2
    /\ RoundEngine.rt_state tm2 = RUNNING
    /\ RoundEngine.startTime tm2 = 5 + (9000 - 4005).
Proof.
  destruct (proj2 (pause_resume_costs_no_time
                     "game-1" 4005 9000 roundTwoRunning
                     (freshTimer "game-1" (Some 120000) 5) 120000
                     eq_refl eq_refl eq_refl ltac:(discriminate)))
    as (tm2 & Hlook & Hrun & _ & _ & Hstart & _).
  exists tm2. split; [exact Hlook |]. split; [exact Hrun | exact Hstart].
Defined.

Lemma untimed_tick_target (key : string) (tm : RoundEngine.RoundTimer) (now : Z)
      (announce : bool) (c : RoundEngine.Ctx) :
  let c1 := RoundEngine.on_timers (insert key tm) c in
  let c2 := if announce then RoundEngine.broadcastTimerState key tm now c1 else c1 in
  untimed (RoundEngine.game c2) = untimed (RoundEngine.game c)
  /\ RoundEngine.timers c2 = <[key := tm]> (RoundEngine.timers c).
Proof.
  cbn zeta. destruct announce; [| split; reflexivity].
  destruct (broadcastTimerState_frame key tm now
              (RoundEngine.on_timers (insert key tm) c)) as (Hg & Ht & _).
  split; [exact Hg | exact Ht].
Qed.

(** X27. When the round clock runs out. A tick of a running round timer
    before its time is up only updates what remains. The first tick at or
    after the end removes the timer and pauses the game for the hostage
    selection: the game is flagged paused, with its status, round, rooms and
    players untouched (the round itself is not over), and further ticks do
    nothing. *)
Theorem round_timer_runs_out (now : Z) (c : RoundEngine.Ctx)
        (tm : RoundEngine.RoundTimer) (d : Z) :
  mainTimer c = Some tm ->
  RoundEngine.rt_state tm = RUNNING ->
  RoundEngine.rt_duration tm = Some d ->
  RoundEngine.onExpired tm = Some RoundEngine.RoundTimerExpired ->
  let c' := RoundEngine.tick (game_id (RoundEngine.game c)) now c in
  let elapsed := now - RoundEngine.startTime tm in
  (elapsed < d ->
   untimed (RoundEngine.game c') = untimed (RoundEngine.game c)
   /\ exists tm',
        mainTimer c' = Some tm'
        /\ RoundEngine.rt_state tm' = RUNNING
        /\ RoundEngine.rt_remaining tm' = Some (d - elapsed))
  /\ (d <= elapsed ->
      mainTimer c' = None
      /\ paused (public (state (RoundEngine.game c'))) = true
      /\ pauseReason (public (state (RoundEngine.game c')))
         = Some "Waiting for leaders to select hostages"
      /\ status (public (state (RoundEngine.game c')))
         = status (public (state (RoundEngine.game c)))
      /\ currentRound (public (state (RoundEngine.game c')))
         = currentRound (public (state (RoundEngine.game c)))
      /\ rooms (state (RoundEngine.game c')) = rooms (state (RoundEngine.game c))
      /\ game_players (RoundEngine.game c') = game_players (RoundEngine.game c)
      /\ forall later,
           RoundEngine.tick (game_id (RoundEngine.game c)) later c' = c').
Proof.
  intros Htm Hrun Hd Hcb c' elapsed. unfold mainTimer in Htm.
  subst c'. unfold RoundEngine.tick. rewrite Htm, Hrun. cbn zeta.
  rewrite Hd. cbn [RoundEngine.rt_remaining RoundEngine.onExpired
                   RoundEngine.remainingAfter RoundEngine.expired].
  fold elapsed. rewrite Hcb.
  match goal with
  | |- context [if ?b then RoundEngine.broadcastTimerState ?k ?t ?n ?c1 else _] =>
      destruct (untimed_tick_target k t n b c) as [Hg Ht];
      set (c2 := if b then RoundEngine.broadcastTimerState k t n c1 else c1) in *
  end.
  cbn zeta in Hg, Ht. clearbody c2.
  assert (Hid : game_id (RoundEngine.game c2) = game_id (RoundEngine.game c))
    by (apply untimed_id, Hg).
  split.
  - intros Hlt. destruct (Z.leb_spec (Z.max 0 (d - elapsed)) 0) as [Hle | _]; [lia |].
    split; [exact Hg |]. eexists. unfold mainTimer. rewrite Hid, Ht.
    split; [apply lookup_insert_eq |].
    cbn [RoundEngine.rt_state RoundEngine.rt_remaining].
    split; [reflexivity |]. f_equal. lia.
  - intros Hge. destruct (Z.leb_spec (Z.max 0 (d - elapsed)) 0) as [_ | Hgt]; [| lia].
    cbn [RoundEngine.runCallback].
    assert (Hnone : mainTimer (RoundEngine.onRoundTimerExpired
                                 (RoundEngine.stopTimer
                                    (game_id (RoundEngine.game c)) c2)) = None).
    { unfold mainTimer. cbn. rewrite Hid. apply lookup_delete_eq. }
    split; [exact Hnone |].
    cbn [RoundEngine.onRoundTimerExpired RoundEngine.broadcast RoundEngine.on_bus
         RoundEngine.on_game RoundEngine.game RoundEngine.stopTimer
         RoundEngine.on_timers].
    split; [reflexivity |]. split; [reflexivity |].
    split; [exact (f_equal (fun g => status (public (state g))) Hg) |].
    split; [exact (f_equal (fun g => currentRound (public (state g))) Hg) |].
    split; [exact (f_equal (fun g => rooms (state g)) Hg) |].
    split; [exact (f_equal game_players Hg) |].
    intros later. unfold RoundEngine.tick.
    unfold mainTimer in Hnone. cbn in Hnone. rewrite Hid in Hnone.
    cbn. rewrite Hnone. reflexivity.
Qed.

Lemma round_timer_runs_out_witness :
  mainTimer (RoundEngine.tick "game-1" 120005 roundTwoRunning) = None
  /\ paused (public (state (RoundEngine.game
                              (RoundEngine.tick "game-1" 120005 roundTwoRunning))))
     = true.
Proof.
  destruct (proj2 (round_timer_runs_out
                     120005 roundTwoRunning
                     (freshTimer "game-1" (Some 120000) 5) 120000
                     eq_refl eq_refl eq_refl eq_refl) ltac:(cbn; lia))
    as (Hnone & Hpaused & _).
  split; [exact Hnone | exact Hpaused].
Defined.

(** ** Round engine: locking the hostages *)

Lemma pauseTimer_timers (key : string) (now : Z) (c : RoundEngine.Ctx) :
  let c' := RoundEngine.pauseTimer key now c in
  (forall other, other <> key ->
                 RoundEngine.timers c' !! other = RoundEngine.timers c !! other)
  /\ (forall tm, RoundEngine.timers c !! key = Some tm ->
                 exists tm', RoundEngine.timers c' !! key = Some tm'
                             /\ RoundEngine.rt_state tm' = PAUSED)
  /\ (RoundEngine.timers c !! key = None -> c' = c).
Proof.
  cbn zeta. unfold RoundEngine.pauseTimer.
  destruct (RoundEngine.timers c !! key) as [tm |] eqn:Htm.
  - rewrite timers_broadcastTimerState. cbn [RoundEngine.timers RoundEngine.on_timers].
    split; [intros other Hne; apply lookup_insert_ne; congruence |].
    split; [| discriminate].
    intros tm0 _. eexists. split; [apply lookup_insert_eq | reflexivity].
  - split; [reflexivity |]. split; [discriminate | reflexivity].
Qed.

(** X28. Locking the hostages. A room can lock only with exactly the
    required number of candidates; otherwise the command is refused and
    nothing changes. A lock marks the room and leaves its candidates and the
    other room alone. The parlay starts exactly when the lock finds the
    other room locked: the game is flagged in parlay, a 30-second timer that
    ends the parlay is started under the parlay key, and the round timer,
    if there is one, is paused. *)
Theorem locking_starts_parlay (r : RoomId) (now : Z) (c : RoundEngine.Ctx) :
  let needed := RoundEngine.requiredHostages (RoundEngine.game c) in
  let res := RoundEngine.lockHostages r now c in
  let g := RoundEngine.game c in
  let g' := RoundEngine.game (fst res) in
  (Js.len (hostageCandidates (room r g)) <> needed ->
   res = (c, Failed (MustSelectExactly needed)))
  /\ (Js.len (hostageCandidates (room r g)) = needed ->
      snd res = Success
      /\ hostagesLocked (room r g') = true
      /\ hostageCandidates (room r g') = hostageCandidates (room r g)
      /\ room (otherRoom r) g' = room (otherRoom r) g
      /\ if hostagesLocked (room (otherRoom r) g)
         then parlayActive (public (state g')) = true
              /\ RoundEngine.timers (fst res) !! RoundEngine.parlayKey g
                 = Some (parlayTimer g now)
              /\ (forall tm, mainTimer c = Some tm ->
                             exists tm', mainTimer (fst res) = Some tm'
                                         /\ RoundEngine.rt_state tm' = PAUSED)
         else parlayActive (public (state g')) = parlayActive (public (state g))
              /\ RoundEngine.timers (fst res) = RoundEngine.timers c).
Proof.
  cbn zeta. unfold RoundEngine.lockHostages.
  destruct (Z.eqb_spec (Js.len (hostageCandidates (room r (RoundEngine.game c))))
                       (RoundEngine.requiredHostages (RoundEngine.game c)))
    as [Heq | Hne]; cbn [negb].
  2: { split; [reflexivity | intros H; contradiction]. }
  split; [intros H; contradiction |]. intros _. cbn [fst snd].
  split; [reflexivity |].
  set (c2 := RoundEngine.broadcastToRoom r HOSTAGES_LOCKED (HostagesLockedP r)
               (RoundEngine.on_game (upd_room r (set_hostagesLocked true)) c)).
  assert (Hr : room r (RoundEngine.game c2)
               = set_hostagesLocked true (room r (RoundEngine.game c)))
    by (subst c2; destruct r; reflexivity).
  assert (Ho : room (otherRoom r) (RoundEngine.game c2)
               = room (otherRoom r) (RoundEngine.game c))
    by (subst c2; destruct r; reflexivity).
  assert (Hboth : RoundEngine.bothRoomsLocked (RoundEngine.game c2)
                  = hostagesLocked (room (otherRoom r) (RoundEngine.game c))).
  { unfold RoundEngine.bothRoomsLocked. rewrite <- Ho.
    destruct r; cbn [otherRoom]; rewrite Hr; cbn [hostagesLocked set_hostagesLocked];
      [reflexivity | apply andb_true_r]. }
  assert (Hid2 : game_id (RoundEngine.game c2) = game_id (RoundEngine.game c))
    by reflexivity.
  assert (Hpub2 : public (state (RoundEngine.game c2))
                  = public (state (RoundEngine.game c)))
    by (subst c2; destruct r; reflexivity).
  assert (Ht2 : RoundEngine.timers c2 = RoundEngine.timers c) by reflexivity.
  rewrite Hboth.
  destruct (hostagesLocked (room (otherRoom r) (RoundEngine.game c))).
  2: { rewrite Hr, Ho, Hpub2, Ht2. repeat split. }
  clearbody c2. unfold RoundEngine.startParlay.
  destruct (pauseTimer_frame (game_id (RoundEngine.game c2)) now c2) as [Hg1 _].
  destruct (pauseTimer_timers (game_id (RoundEngine.game c2)) now c2)
    as (Hother & Hpaused & _).
  cbn zeta in Hg1, Hother, Hpaused.
  set (c1' := RoundEngine.pauseTimer (game_id (RoundEngine.game c2)) now c2) in *.
  assert (Hid1 : game_id (RoundEngine.game c1') = game_id (RoundEngine.game c2))
    by (apply untimed_id, Hg1).
  assert (Hkey : RoundEngine.parlayKey (RoundEngine.game c1')
                 = RoundEngine.parlayKey (RoundEngine.game c))
    by (unfold RoundEngine.parlayKey; rewrite Hid1, Hid2; reflexivity).
  unfold RoundEngine.startTimer. rewrite Hkey.
  set (pk := RoundEngine.parlayKey (RoundEngine.game c)).
  set (c0 := RoundEngine.on_timers (insert pk _) (RoundEngine.stopTimer pk c1')).
  assert (Hne : pk <> game_id (RoundEngine.game c0)).
  { subst c0 pk. cbn [RoundEngine.game RoundEngine.on_timers RoundEngine.stopTimer].
    rewrite Hid1, Hid2. apply parlayKey_ne. }
  set (cfin := RoundEngine.broadcast PARLAY_STARTED _ PUBLIC _).
  assert (Hgf : RoundEngine.game cfin
                = upd_public (set_parlayActive true) (RoundEngine.game c1')).
  { subst cfin. cbn [RoundEngine.broadcast RoundEngine.on_bus RoundEngine.on_game
                     RoundEngine.game].
    rewrite (broadcastTimerState_other _ _ _ _ Hne). reflexivity. }
  assert (Htf : RoundEngine.timers cfin
                = <[pk := parlayTimer (RoundEngine.game c) now]>
                    (delete pk (RoundEngine.timers c1'))).
  { subst cfin. cbn [RoundEngine.broadcast RoundEngine.on_bus RoundEngine.on_game
                     RoundEngine.timers].
    rewrite timers_broadcastTimerState. reflexivity. }
  clearbody cfin. unfold mainTimer. rewrite Hgf, Htf.
  assert (Hrooms : forall r', room r' (upd_public (set_parlayActive true)
                                         (RoundEngine.game c1'))
                              = room r' (RoundEngine.game c2)).
  { intros r'. rewrite <- (untimed_room r' _ _ Hg1). destruct r'; reflexivity. }
  rewrite !Hrooms, Hr, Ho.
  split; [reflexivity |]. split; [reflexivity |]. split; [reflexivity |].
  split; [reflexivity |]. split; [apply lookup_insert_eq |].
  intros tm Htm.
  change (game_id (upd_public (set_parlayActive true) (RoundEngine.game c1')))
    with (game_id (RoundEngine.game c1')).
  rewrite Hid1, Hid2.
  rewrite lookup_insert_ne by apply parlayKey_ne.
  rewrite lookup_delete_ne by apply parlayKey_ne.
  rewrite <- Hid2. apply (Hpaused tm). rewrite Ht2, Hid2. exact Htm.
Qed.

(** ** Round engine: the exchange *)

Lemma filter_without (h : string) (l acc : list string) :
  List.filter (fun x => negb (Js.includes x l)) (Js.without h acc)
  = List.filter (fun x => negb (Js.includes x (h :: l))) acc.
Proof.
  unfold Js.without. induction acc as [| y acc IH]; [reflexivity |].
  cbn [List.filter Js.includes existsb].
  destruct (String.eqb y h); cbn [negb orb List.filter]; [exact IH |].
  change (existsb (String.eqb y) l) with (Js.includes y l).
  destruct (Js.includes y l); cbn [negb]; rewrite IH; reflexivity.
Qed.

(** What a swap loop leaves: the source room without the hostages, the
    destination room with them at its end, each hostage sent to the
    destination room, and every other player as before. *)
Lemma moveHostages_result (src dst : RoomId) (l : list string) :
  src <> dst ->
  forall g : Game,
    (forall h, In h l -> In h (Js.keys (game_players g))) ->
    let g' := fold_left (RoundEngine.moveHostage src dst) l g in
    players (room src g')
    = List.filter (fun x => negb (Js.includes x l)) (players (room src g))
    /\ players (room dst g') = players (room dst g) ++ l
    /\ Js.keys (game_players g') = Js.keys (game_players g)
    /\ (forall h, In h l ->
                  exists p, Js.get h (game_players g') = Some p
                            /\ currentRoom p = Some dst
                            /\ wasSentAsHostage p = true)
    /\ (forall k, ~ In k l ->
                  Js.get k (game_players g') = Js.get k (game_players g)).
Proof.
  intros Hne. induction l as [| h l IH]; intros g Hkeys.
  - cbn [fold_left]. cbn zeta. rewrite app_nil_r.
    split; [| split; [reflexivity | split; [reflexivity |]]].
    + induction (players (room src g)) as [| y m IHm]; [reflexivity |].
      cbn. f_equal. exact IHm.
    + split; [intros h [] | reflexivity].
  - cbn [fold_left]. cbn zeta.
    destruct (moveHostage_members src dst g h Hne (Hkeys h (or_introl eq_refl)))
      as (Hs & Hd & Hk).
    cbn zeta in Hs, Hd, Hk.
    set (g1 := RoundEngine.moveHostage src dst g h) in *.
    assert (Hget1 : forall k,
               Js.get k (game_players g1)
               = if String.eqb k h
                 then option_map (send_as_hostage dst) (Js.get k (game_players g))
                 else Js.get k (game_players g)).
    { intros k. subst g1. unfold RoundEngine.moveHostage.
      destruct (keys_get _ _ (Hkeys h (or_introl eq_refl))) as [p Hp]. rewrite Hp.
      assert (Hpl : game_players
                      (upd_room dst (fun r => set_room_players (players r ++ [h]) r)
                         (upd_room src
                            (fun r => set_room_players (Js.without h (players r)) r)
                            (upd_player h (send_as_hostage dst) g)))
                    = Js.update h (send_as_hostage dst) (game_players g))
        by (destruct src, dst; reflexivity).
      rewrite Hpl. destruct (String.eqb_spec k h) as [-> | Hkh].
      - apply get_update_same.
      - apply get_update_other, Hkh. }
    destruct (IH g1) as (Hs' & Hd' & Hk' & Hsent & Hrest).
    { intros x Hx. rewrite Hk. apply Hkeys. right. exact Hx. }
    cbn zeta in Hs', Hd', Hk', Hsent, Hrest.
    split; [rewrite Hs', Hs; apply filter_without |].
    split; [rewrite Hd', Hd, <- app_assoc; reflexivity |].
    split; [rewrite Hk'; exact Hk |].
    split.
    + intros x Hx.
      destruct (in_dec String.string_dec x l) as [Hin | Hout];
        [apply Hsent, Hin |].
      destruct Hx as [<- | Hx]; [| contradiction].
      rewrite (Hrest h Hout), Hget1, String.eqb_refl.
      destruct (keys_get _ _ (Hkeys h (or_introl eq_refl))) as [p Hp]. rewrite Hp.
      eexists. split; [reflexivity |]. split; reflexivity.
    + intros k Hout. rewrite Hrest by (intros Hin; apply Hout; right; exact Hin).
      rewrite Hget1. destruct (String.eqb_spec k h) as [-> | _]; [| reflexivity].
      destruct Hout. left. reflexivity.
Qed.

Lemma filter_keep_all {T} (p : T -> bool) (l : list T) :
  (forall x, In x l -> p x = true) -> List.filter p l = l.
Proof.
  induction l as [| x l IH]; intros H; [reflexivity |].
  cbn [List.filter]. rewrite (H x (or_introl eq_refl)). f_equal.
  apply IH. intros y Hy. apply H. right. exact Hy.
Qed.

Lemma players_refreshRoomAssignments (g : Game) :
  game_players (RoundEngine.refreshRoomAssignments g) = game_players g.
Proof.
  unfold RoundEngine.refreshRoomAssignments.
  generalize (game_players g) at 1 as l. intros l. revert g.
  induction l as [| [k p] l IH]; intros g; [reflexivity |].
  cbn [fold_left fst snd]. rewrite IH. destruct (currentRoom p); reflexivity.
Qed.

Lemma players_startRound (roundNumber now : Z) (c : RoundEngine.Ctx) :
  game_players (RoundEngine.game (RoundEngine.startRound roundNumber now c))
  = game_players (RoundEngine.game c).
Proof.
  unfold RoundEngine.startRound. set (c1 := RoundEngine.on_game _ c).
  destruct (roundNumber =? 1); [reflexivity |].
  destruct (startTimer_frame (game_id (RoundEngine.game c1))
              (Js.index (roundDurations (config (RoundEngine.game c)))
                        (roundNumber - 1))
              (Some RoundEngine.RoundTimerExpired) now c1) as [Hg _].
  cbn zeta in Hg. apply untimed_players in Hg.
  change (RoundEngine.game (RoundEngine.broadcast ?ty ?pl ?sc ?c0))
    with (RoundEngine.game c0).
  rewrite Hg. reflexivity.
Qed.

Lemma players_transition (now : Z) (g : Game) (trig : StateMachine.Trigger) :
  game_players (fst (StateMachine.transition now g trig)) = game_players g.
Proof.
  unfold StateMachine.transition.
  destruct (StateMachine.findTransitions _ _); [reflexivity |].
  destruct (find _ _); reflexivity.
Qed.

Lemma players_endRound (reason : string) (now : Z) (c : RoundEngine.Ctx) :
  game_players (RoundEngine.game (RoundEngine.endRound reason now c))
  = game_players (RoundEngine.game c).
Proof.
  unfold RoundEngine.endRound. set (c3 := RoundEngine.on_game _ _).
  assert (H3 : game_players (RoundEngine.game c3) = game_players (RoundEngine.game c))
    by (subst c3; apply players_transition).
  destruct (StateMachine.isRoundStatus _); [| exact H3].
  destruct (StateMachine.getCurrentRoundNumber _) as [next |]; [| exact H3].
  destruct (next =? 0); [exact H3 |].
  rewrite players_startRound. exact H3.
Qed.

Lemma rooms_transition (now : Z) (g : Game) (trig : StateMachine.Trigger) :
  rooms (state (fst (StateMachine.transition now g trig))) = rooms (state g).
Proof.
  unfold StateMachine.transition.
  destruct (StateMachine.findTransitions _ _); [reflexivity |].
  destruct (find _ _); reflexivity.
Qed.

Lemma room_startRound (r : RoomId) (roundNumber now : Z) (c : RoundEngine.Ctx) :
  room r (RoundEngine.game (RoundEngine.startRound roundNumber now c))
  = RoundEngine.resetRoomForRound roundNumber (room r (RoundEngine.game c)).
Proof.
  unfold RoundEngine.startRound. set (c1 := RoundEngine.on_game _ c).
  assert (H1 : room r (RoundEngine.game c1)
               = RoundEngine.resetRoomForRound roundNumber
                   (room r (RoundEngine.game c)))
    by (subst c1; destruct r; reflexivity).
  destruct (roundNumber =? 1).
  - rewrite <- H1. destruct r; reflexivity.
  - destruct (startTimer_frame (game_id (RoundEngine.game c1))
                (Js.index (roundDurations (config (RoundEngine.game c)))
                          (roundNumber - 1))
                (Some RoundEngine.RoundTimerExpired) now c1) as [Hg _].
    cbn zeta in Hg. apply (untimed_room r) in Hg.
    change (RoundEngine.game (RoundEngine.broadcast ?ty ?pl ?sc ?c0))
      with (RoundEngine.game c0).
    rewrite Hg. exact H1.
Qed.

(** Rooms without pending hostages stay so through the end of a round. *)
Lemma cleared_endRound (r : RoomId) (reason : string) (now : Z)
      (c : RoundEngine.Ctx) :
  hostageCandidates (room r (RoundEngine.game c)) = [] ->
  hostagesLocked (room r (RoundEngine.game c)) = false ->
  hostageCandidates
    (room r (RoundEngine.game (RoundEngine.endRound reason now c))) = []
  /\ hostagesLocked
       (room r (RoundEngine.game (RoundEngine.endRound reason now c))) = false.
Proof.
  intros Hc Hl. unfold RoundEngine.endRound. set (c3 := RoundEngine.on_game _ _).
  assert (H3 : room r (RoundEngine.game c3) = room r (RoundEngine.game c)).
  { subst c3. cbn [RoundEngine.game RoundEngine.on_game RoundEngine.broadcast
                   RoundEngine.on_bus RoundEngine.stopTimer RoundEngine.on_timers].
    pose proof (rooms_transition now (RoundEngine.game c)
                  StateMachine.ROUND_COMPLETE) as Hr.
    unfold room. rewrite Hr. reflexivity. }
  assert (Hdone : hostageCandidates (room r (RoundEngine.game c3)) = []
                  /\ hostagesLocked (room r (RoundEngine.game c3)) = false)
    by (rewrite H3; split; assumption).
  destruct (StateMachine.isRoundStatus _); [| exact Hdone].
  destruct (StateMachine.getCurrentRoundNumber _) as [next |]; [| exact Hdone].
  destruct (next =? 0); [exact Hdone |].
  rewrite room_startRound. split; reflexivity.
Qed.

(** X29. The exchange swaps the hostages. When the candidates of each
    room are known players who sit in that room, and no player is listed in
    both rooms, then after [exchangeHostages] each room lists its former
    members without the hostages it sent, followed by the hostages it
    received; every hostage is recorded in the room they were sent to, and
    flagged as sent; every other player is as before; and both rooms are
    left unlocked, without candidates. *)
Theorem exchangeHostages_swaps (now : Z) (c : RoundEngine.Ctx) :
  let g := RoundEngine.game c in
  let g' := RoundEngine.game (RoundEngine.exchangeHostages now c) in
  let fromA := hostageCandidates (room ROOM_A g) in
  let fromB := hostageCandidates (room ROOM_B g) in
  (forall h, In h fromA \/ In h fromB -> In h (Js.keys (game_players g))) ->
  (forall h, In h fromA -> In h (players (room ROOM_A g))) ->
  (forall h, In h fromB -> In h (players (room ROOM_B g))) ->
  (forall x, In x (players (room ROOM_A g)) -> ~ In x (players (room ROOM_B g))) ->
  players (room ROOM_A g')
  = List.filter (fun x => negb (Js.includes x fromA)) (players (room ROOM_A g))
    ++ fromB
  /\ players (room ROOM_B g')
     = List.filter (fun x => negb (Js.includes x fromB)) (players (room ROOM_B g))
       ++ fromA
  /\ (forall h, In h fromA ->
                exists p, Js.get h (game_players g') = Some p
                          /\ currentRoom p = Some ROOM_B
                          /\ wasSentAsHostage p = true)
  /\ (forall h, In h fromB ->
                exists p, Js.get h (game_players g') = Some p
                          /\ currentRoom p = Some ROOM_A
                          /\ wasSentAsHostage p = true)
  /\ (forall k, ~ In k fromA -> ~ In k fromB ->
                Js.get k (game_players g') = Js.get k (game_players g))
  /\ (forall r, hostageCandidates (room r g') = []
                /\ hostagesLocked (room r g') = false).
Proof.
  intros g g' fromA fromB Hkeys HinA HinB Hdisj.
  destruct (moveHostages_result ROOM_A ROOM_B fromA ltac:(discriminate) g
              (fun h H => Hkeys h (or_introl H)))
    as (HA1 & HB1 & Hk1 & Hsent1 & Hrest1).
  cbn zeta in HA1, HB1, Hk1, Hsent1, Hrest1.
  set (g1 := fold_left (RoundEngine.moveHostage ROOM_A ROOM_B) fromA g) in *.
  destruct (moveHostages_result ROOM_B ROOM_A fromB ltac:(discriminate) g1)
    as (HB2 & HA2 & Hk2 & Hsent2 & Hrest2).
  { intros h Hh. rewrite Hk1. apply Hkeys. right. exact Hh. }
  cbn zeta in HB2, HA2, Hk2, Hsent2, Hrest2.
  set (g2 := fold_left (RoundEngine.moveHostage ROOM_B ROOM_A) fromB g1) in *.
  assert (Hapart : forall h, In h fromA -> ~ In h fromB)
    by (intros h Ha Hb; apply (Hdisj h); [apply HinA, Ha | apply HinB, Hb]).
  subst g'. unfold RoundEngine.exchangeHostages.
  fold g. fold fromA. fold fromB. fold g1. fold g2.
  set (c3 := RoundEngine.on_game _ (RoundEngine.broadcast _ _ _ _)).
  assert (Hp3 : forall r, players (room r (RoundEngine.game c3)) = players (room r g2)).
  { intros r. subst c3. rewrite <- (members_refreshRoomAssignments r g2).
    destruct r; reflexivity. }
  assert (Hg3 : game_players (RoundEngine.game c3) = game_players g2).
  { subst c3. rewrite <- (players_refreshRoomAssignments g2). reflexivity. }
  assert (Hc3 : forall r, hostageCandidates (room r (RoundEngine.game c3)) = []
                          /\ hostagesLocked (room r (RoundEngine.game c3)) = false)
    by (intros r; subst c3; destruct r; split; reflexivity).
  clearbody c3.
  rewrite !members_endRound, players_endRound, !Hp3, Hg3.
  split; [rewrite HA2, HA1; reflexivity |].
  split.
  { rewrite HB2, HB1, List.filter_app. f_equal.
    apply filter_keep_all. intros x Hx. apply negb_true_iff, includes_false.
    apply Hapart, Hx. }
  split.
  { intros h Hh. rewrite (Hrest2 h (Hapart h Hh)). apply Hsent1, Hh. }
  split; [exact Hsent2 |].
  split.
  { intros k Ha Hb. rewrite (Hrest2 k Hb). apply Hrest1, Ha. }
  intros r. apply cleared_endRound; apply Hc3.
Qed.

Lemma exchangeHostages_swaps_witness :
  players (room ROOM_A (RoundEngine.game
                          (RoundEngine.exchangeHostages 9 hostagesChosen)))
  = ["ann"; "cat"; "eve"].
Proof.
  refine (proj1 (exchangeHostages_swaps 9 hostagesChosen _ _ _ _)).
  - intros h [[<- | []] | [<- | []]]; cbn; tauto.
  - intros h [<- | []]. cbn. tauto.
  - intros h [<- | []]. cbn. tauto.
  - intros x Hx Hx'. cbn in Hx, Hx'.
    repeat (destruct Hx as [<- | Hx];
            [repeat (destruct Hx' as [Hx' | Hx']; [discriminate Hx' |]);
             exact Hx' |]).
    exact Hx.
Defined.

(** ** Round engine: from one round to the next *)



